(* ===== verification/_CoqProject ===== *)
-Q . S2P
Prelude.v
OMap.v
Error.v
Identity.v
Domain.v
Float64.v
Numbers.v
Model.v
Sorting.v
Hash.v
Canonical.v
State.v
Validator.v
Wire.v
Codec.v
StateCodec.v
Persistence.v
Frames.v
Messages.v
MessageCodec.v
Decoding.v
Spec.v
Coordinator.v
Files.v
Authority.v
Evidence.v
Decision.v
Scenario.v
Fencing.v
History.v
Ledger.v
Invariants.v
Recovery.v
System.v
Refusals.v
Creation.v
Durability.v
Safety.v
Withdrawal.v
Verdicts.v
Lifecycle.v
Claims.v
Budget.v
Findings.v
Inspect.v
Parameters.v
Query.v
Transport.v
Sockets.v
Server.v
Pool.v
Client.v
Worker.v
Progress.v
Scenarios.v
Control.v
Programs.v
