(* ===== verification/Prelude.v ===== *)
(** * Experiment Fabric: a verification development

    ** The program

    Experiment Fabric governs scientific experiments that several processes
    work on.  A coordinator process owns the durable state: experiments with
    their hypotheses, branches, trials, attempts, observations, artifacts,
    decisions and rollback points, and the worker incarnations it has known.
    Workers claim trials from it, execute them and report back; every report
    carries an envelope with the authority it was issued under (coordinator
    epoch, worker boot, experiment and branch generation, hypothesis, policy,
    trial, attempt), which the coordinator checks again on arrival.  The state
    is written to a checksummed image after every change that is acknowledged;
    a restart loads it, mints a new epoch and withdraws whatever an earlier
    process had issued.  Clients and workers speak to the coordinator in framed
    messages over TCP, which a small thread pool serves.

    ** The files, from the bottom up

    Shared:
    - Prelude.v: machine integers, record update, automation, list lemmas;
      OMap.v: [std::map] as a sorted association list; Sorting.v: [std::sort];
      Float64.v: binary64 doubles; Numbers.v: reading numbers from text.

    Data (include/experiment_fabric):
    - Error.v (error.hpp, error.cpp), Identity.v (identity.hpp), Domain.v
      (domain.hpp, domain.cpp): statuses, identities, enumerations and the
      lifecycle predicates;
    - Model.v (model.hpp, limits.hpp, authority.hpp and their .cpp files),
      Messages.v (coordinator.hpp, protocol.hpp): one record per struct, with
      the struct's members behind a prefix;
    - Hash.v (hash.cpp), Canonical.v (canonical.cpp): digests;
    - State.v (state.cpp): the durable records and their validator, check by
      check; Validator.v: which records it accepts.

    Bytes (protocol.cpp, persistence.cpp):
    - Wire.v: [PayloadWriter] as the bytes written, [PayloadReader] as a reader
      monad; Codec.v, StateCodec.v: every record; MessageCodec.v: every
      message; Frames.v: the frame header and its checksums; Decoding.v: what
      the readers let through;
    - Persistence.v: the state image; Files.v: saving it atomically on a file
      system whose calls may fail.

    The coordinator (coordinator*.cpp): [Impl] of Coordinator.v is
    [Coordinator::Impl], and each operation is a function from it to it and a
    result:
    - Spec.v, Coordinator.v (coordinator.cpp): specifications, experiments,
      revisions, forks, trials, start and recovery, persistence calls;
    - Authority.v (coordinator_authority.cpp): the envelope check, workers,
      claims, observations, artifacts, completion, failure, cancellation;
    - Evidence.v (coordinator.cpp, [compute_evidence]), Decision.v
      (coordinator_decision.cpp): evidence, comparison, decisions, rollback;
    - Inspect.v (inspect.cpp), Query.v (coordinator_query.cpp): the read-only
      views and their text; Parameters.v (model.cpp): parameter factories.

    The network:
    - Transport.v (transport.cpp): a connection over scripts of what [recv] and
      [send] do; Sockets.v (transport.cpp): connecting, binding, accepting and
      closing, as traces of descriptors; Server.v (coordinator_server.cpp): dispatch and one connection;
      Pool.v (coordinator_server.cpp): the threads around it, interleaved;
    - Client.v (client.cpp), Worker.v (worker.cpp): the remote callers.

    The programs (apps):
    - Scenarios.v (scenarios.hpp, scenarios.cpp): the experiments and workloads
      of the reference catalogue, and the in-process session;
    - Control.v (ef_ctl.cpp): the commands of the control client, the replay of
      a frame log; Programs.v (ef_coordinator.cpp, ef_worker.cpp): the other two
      [main] functions, from the command line to the exit code.

    Lemmas about all of it, without operations of their own: Scenario.v (a
    concrete run), Fencing.v, History.v, Ledger.v, Invariants.v, Recovery.v,
    System.v, Refusals.v, Creation.v, Durability.v, Safety.v, Withdrawal.v,
    Verdicts.v, Lifecycle.v, Claims.v, Budget.v, Findings.v, Progress.v.

    Each operation follows the code statement by statement: its guards in their
    order with the statuses they return, and on an early return the state as
    the code has left it, partial changes included.

    ** How the parts meet

    - [Storage] and its laws [StorageLaws] (Coordinator.v) are what the
      coordinator relies on; Files.v discharges them for the real commit
      protocol and codec, Scenario.v for a storage in memory.
    - [Formatting] (Decision.v) stands for [std::to_chars] and
      [std::to_string] on doubles; nothing but texts and digests depends on it.
    - [Link] (Client.v) is what a client needs of a connection; a TCP connection
      of Transport.v is one, and so is a channel with a [Server] at its end.
    - System.v turns the operations, crashes and restarts into one transition
      system, [reachable]; Server.v, Pool.v and Worker.v show that remote calls,
      concurrent threads and workers only take steps of it, so what is proved
      of reachable states holds for all callers.
    - Control.v and Programs.v put a process at each end of a [Link]: a command
      line becomes requests, requests become operations, and what comes back
      becomes lines and an exit code.

    ** What is shown

    - Invariants of all histories (Ledger.v, Invariants.v, History.v, Safety.v):
      a trial completes at most once; a running attempt is the authoritative
      one of its trial; nothing recorded is ever rewritten.
    - Authority (Fencing.v, Claims.v, Safety.v, Withdrawal.v): the staged check
      accepts exactly the envelopes with complete current authority, at most one
      per trial; claims issue only such envelopes and make progress; authority
      that a completion, failure, revision, rollback, closing, revocation, new
      registration or restart withdraws never comes back.
    - Durability (Files.v, Persistence.v, Durability.v, Recovery.v): an image is
      read back as it was written, saves are atomic, what was acknowledged
      survives a crash, and a restart inherits no authority.
    - Decisions (Verdicts.v): when a candidate is accepted, that only
      authoritative evidence counts, what finalizing and rolling back do.
    - Operations (Lifecycle.v, Creation.v): completion, failure, redelivery;
      every specification that validates is created.
    - Bytes (Identity.v to MessageCodec.v, Frames.v, Transport.v): round trips;
      a frame is accepted exactly when it is an encoding; a frame with one byte
      changed is refused; a stream may arrive in any pieces; a message that
      decodes is well typed, whoever sent the bytes (Decoding.v).
    - Remote callers (Server.v, Client.v, Worker.v): a request is a call; a
      connection is answered completely and in order; a remote call does and
      says what the local call does.
    - Sockets (Sockets.v): the first address that works is taken, and no
      descriptor leaks.
    - Programs (Scenarios.v, Control.v, Programs.v, with Refusals.v, Budget.v
      and Progress.v): the catalogue is created and its trials planned once; a
      replayed log of an earlier epoch gains nothing; a coordinator process
      leaves a state another can be started from; a worker process ends; the
      three together decide the experiments of the catalogue.
    - Threads (Pool.v): a connection is held once, no wake-up is lost, stopping
      terminates.
    - Views (Query.v, Inspect.v): snapshots are complete; when a branch counts
      as reproducible; the lineage report names every branch.
    - Validator.v, Canonical.v: what the validator accepts; that a definition's
      digest does not depend on listing order.
    - Findings.v, [lost_connection_reads_as_idle] of Programs.v, and examples
      in Client.v and Pool.v: where the code departs from its own comments.

    ** Bounds and fuel

    Integers are [Z] and wrap where the code stores them ([u32], [u64]).  The
    identity counters are assumed not to have run out where a step draws from
    them ([room] in System.v, [spacious] in Server.v).  Loops with a bound in
    the code run to that bound: 4096 steps of the lineage walk, 20 digits of an
    identity.  Fuel elsewhere is enough: the padding of a hash needs at most 64
    bytes; [decode_records] consumes a byte per turn, so it is given the length
    of the body; the branch tree goes one level deeper than its depth limit
    lets it print; [serve] is proved complete for any fuel above the number of
    requests.  [run_until_idle] of Worker.v, which the code leaves unbounded,
    takes a number of turns and is cut there; the loop of the worker program,
    the same without the registration, is proved to end within the attempts the
    coordinator's trials have left and one turn more.  The replay of a frame
    log consumes bytes in every turn and is given the length of the log.

    ** What is not modelled

    - The operating system behind sockets and files: what resolving, connecting,
      binding, receiving and sending answer is an argument of the model, and
      whether closing a listener wakes a blocked [accept] a parameter of Pool.v.
    - The state lock: each public operation holds it from its first access to
      its last, so it is one step; a query that takes it twice sees one state.
    - The event callback, which only observes: events are recorded as
      notifications.  The frame log of a worker is modelled as the bytes it
      holds (Control.v), not as a file that may fail.
    - Bit patterns of NaN, and the memory failures of the C++ runtime.
    - What the programs write to the error stream, and the files they open.
    - The examples, the benchmarks, the consumer, the CUDA sample and the tests,
      which are callers of the library. *)
From Stdlib Require Export ZArith Lia String Ascii.
From stdpp Require Export base option strings sets tactics list.

Set Default Proof Using "Type".
#[global] Open Scope Z_scope.

(** ** Machine integers

    The program counts in [std::uint32_t] and [std::uint64_t].  A [w]-bit
    value is a [Z]; every arithmetic result that the code stores is wrapped
    explicitly. *)
Definition u64_modulus : Z := 18446744073709551616.
Definition u32_modulus : Z := 4294967296.
Definition u64_max : Z := 18446744073709551615.
Definition u64 (z : Z) : Z := z mod u64_modulus.
Definition u32 (z : Z) : Z := z mod u32_modulus.

Lemma u64_small z : 0 <= z < u64_modulus -> u64 z = z.
Proof. apply Z.mod_small. Qed.

Lemma u64_range z : 0 <= u64 z < u64_modulus.
Proof. apply Z.mod_pos_bound. reflexivity. Qed.

Lemma u32_small z : 0 <= z < u32_modulus -> u32 z = z.
Proof. apply Z.mod_small. Qed.

Lemma u64_succ_small z : 0 <= z < u64_max -> u64 (z + 1) = z + 1.
Proof. intros H. apply u64_small. unfold u64_max, u64_modulus in *. lia. Qed.

(** The length of a string and of a container, as the [std::size_t] the code
    compares with its limits. *)
Definition str_size (s : string) : Z := Z.of_nat (String.length s).
Definition size_of {A} (l : list A) : Z := Z.of_nat (List.length l).

Lemma size_of_snoc {A} (l : list A) x : size_of (l ++ [x]) = size_of l + 1.
Proof. unfold size_of. rewrite length_app. simpl. lia. Qed.

Lemma size_of_app {A} (l l' : list A) : size_of (l ++ l') = size_of l + size_of l'.
Proof. unfold size_of. rewrite length_app. lia. Qed.
Lemma size_of_cons {A} (x : A) l : size_of (x :: l) = size_of l + 1.
Proof. unfold size_of. simpl. lia. Qed.
Lemma size_of_nonneg {A} (l : list A) : 0 <= size_of l.
Proof. unfold size_of. lia. Qed.

Lemma string_app_cons c (s t : string) : (String c s +:+ t)%string = String c (s +:+ t).
Proof. reflexivity. Qed.

Lemma string_app_nil_r (s : string) : (s +:+ "")%string = s.
Proof. induction s as [|c s IH]; [done|]. by rewrite string_app_cons, IH. Qed.

Lemma string_app_assoc (s t u : string) : ((s +:+ t) +:+ u = s +:+ (t +:+ u))%string.
Proof. induction s as [|c s IH]; [done|]. by rewrite !string_app_cons, IH. Qed.

(** Elements of a list are determined by a key that does not repeat. *)
Lemma NoDup_map_inj {A B} (f : A -> B) l x y : NoDup (map f l) -> x ∈ l -> y ∈ l -> f x = f y -> x = y.
Proof.
  induction l as [|z l IH]; simpl; [set_solver|].
  intros [Hz Hnd]%NoDup_cons Hx Hy Heq. rewrite list_elem_of_fmap in Hz.
  apply elem_of_cons in Hx as [->|Hx], Hy as [->|Hy]; auto; exfalso; apply Hz; eauto.
Qed.

(** Linear arithmetic after turning the boolean tests of the code into
    propositions. *)
Ltac zprop :=
  repeat match goal with
  | H : (_ <? _) = true |- _ => apply Z.ltb_lt in H
  | H : (_ <? _) = false |- _ => apply Z.ltb_ge in H
  | H : (_ <=? _) = true |- _ => apply Z.leb_le in H
  | H : (_ <=? _) = false |- _ => apply Z.leb_gt in H
  | H : (_ =? _) = true |- _ => apply Z.eqb_eq in H
  | H : (_ =? _) = false |- _ => apply Z.eqb_neq in H
  | H : _ && _ = true |- _ => apply andb_true_iff in H as [? ?]
  | H : _ || _ = false |- _ => apply orb_false_iff in H as [? ?]
  | H : negb _ = true |- _ => apply negb_true_iff in H
  | H : negb _ = false |- _ => apply negb_false_iff in H
  | H : bool_decide _ = true |- _ => apply bool_decide_eq_true in H
  | H : bool_decide _ = false |- _ => apply bool_decide_eq_false in H
  | |- (_ <? _) = true => apply Z.ltb_lt
  | |- (_ <? _) = false => apply Z.ltb_ge
  | |- (_ <=? _) = true => apply Z.leb_le
  | |- (_ <=? _) = false => apply Z.leb_gt
  | |- (_ =? _) = true => apply Z.eqb_eq
  | |- (_ =? _) = false => apply Z.eqb_neq
  end.
Ltac blia := zprop; lia.

(** An equation between closed terms, by evaluation in the kernel. *)
Ltac by_evaluation := match goal with |- ?a = ?b => exact (eq_refl b <: a = b) end.

(** ** Functional record update

    [r <| f := v |>] is the record [r] with the field [f] replaced, the way an
    assignment [r.f = v] changes one member of a struct.  A record type
    declares its eta expansion once; the setter of a projection is obtained
    from it by abstracting that projection. *)
Class Eta (R : Type) := eta_expand : R -> R.
Class Setter {R T} (f : R -> T) := field_update : (T -> T) -> R -> R.

Definition upd {R T} (f : R -> T) `{S : Setter R T f} (g : T -> T) (r : R) : R :=
  field_update g r.

Ltac derive_setter :=
  match goal with
  | |- @Setter ?R ?T ?f =>
      let e := eval hnf in (@eta_expand R _) in
      match eval pattern f in e with
      | ?body _ => exact (fun (g : T -> T) => body (fun r => g (f r)))
      end
  end.

#[global] Hint Extern 1 (Setter _) => derive_setter : typeclass_instances.

Notation "r '<|' f ':=' v '|>'" := (upd f (fun _ => v) r)
  (at level 1, f at level 200, left associativity, format "r  '<|'  f  ':='  v  '|>'").
Notation "r '<|' f '::=' g '|>'" := (upd f g r)
  (at level 1, f at level 200, left associativity, format "r  '<|'  f  '::='  g  '|>'").
