(* ===== verification/OMap.v ===== *)
(** * Ordered maps

    The program keeps its durable tables in [std::map], whose iteration order
    is the key order and which its loops rely on (claims are issued in trial
    order, digests hash attempts in key order).  An ordered map is an
    association list that insertion keeps sorted by key.  The lookup laws hold
    for every list; sortedness is only needed for statements about order. *)
From S2P Require Import Prelude.

(** The comparison [std::less] applies to a key type. *)
Class KeyOrder (K : Type) := {
  key_eq_dec :: EqDecision K;
  key_ltb : K -> K -> bool;
  key_ltb_irrefl : forall k, key_ltb k k = false;
  key_ltb_trans : forall a b c, key_ltb a b = true -> key_ltb b c = true -> key_ltb a c = true;
  key_ltb_total : forall a b, key_ltb a b = false -> a = b \/ key_ltb b a = true
}.

#[export] Program Instance Z_KeyOrder : KeyOrder Z := { key_ltb := Z.ltb }.
Next Obligation. intros k. apply Z.ltb_irrefl. Qed.
Next Obligation. intros a b c Hab Hbc. apply Z.ltb_lt in Hab, Hbc. apply Z.ltb_lt. lia. Qed.
Next Obligation. intros a b Hab. apply Z.ltb_ge in Hab. rewrite Z.ltb_lt. lia. Qed.

(** [std::pair] compares lexicographically. *)
Definition pair_ltb (a b : Z * Z) : bool :=
  (a.1 <? b.1) || ((a.1 =? b.1) && (a.2 <? b.2)).

#[export] Program Instance pair_KeyOrder : KeyOrder (Z * Z) := { key_ltb := pair_ltb }.
Next Obligation. intros [a b]. unfold pair_ltb; simpl. lia. Qed.
Next Obligation. intros [a1 a2] [b1 b2] [c1 c2]. unfold pair_ltb; simpl. lia. Qed.
Next Obligation.
  intros [a1 a2] [b1 b2]. unfold pair_ltb; simpl. intros H.
  destruct (decide (a1 = b1 /\ a2 = b2)) as [[-> ->]|Hne]; [by left|right].
  destruct (Z.eq_dec a1 b1); lia.
Qed.

Abbreviation omap K A := (list (K * A)) (only parsing).

Section OMap.
Context {K A : Type} `{KeyOrder K}.
Implicit Types (m : omap K A) (k : K) (v : A).

(** [m.find(k)]: the mapped value, or [None] for [m.end()]. *)
Fixpoint om_find (k : K) (m : omap K A) : option A :=
  match m with
  | [] => None
  | (k', v) :: rest => if decide (k = k') then Some v else om_find k rest
  end.

(** [m[k] = v]: replaces the value under [k] or inserts it in key order. *)
Fixpoint om_set (k : K) (v : A) (m : omap K A) : omap K A :=
  match m with
  | [] => [(k, v)]
  | (k', v') :: rest =>
      if decide (k = k') then (k, v) :: rest
      else if key_ltb k k' then (k, v) :: (k', v') :: rest
      else (k', v') :: om_set k v rest
  end.

(** [m.emplace(k, v)]: inserts only when [k] is absent. *)
Definition om_emplace (k : K) (v : A) (m : omap K A) : omap K A :=
  match om_find k m with
  | Some _ => m
  | None => om_set k v m
  end.

(** [m.erase(k)]. *)
Definition om_erase (k : K) (m : omap K A) : omap K A :=
  List.filter (fun entry => negb (bool_decide (entry.1 = k))) m.

Definition om_keys (m : omap K A) : list K := map fst m.
Definition om_mem (k : K) (m : omap K A) : bool :=
  match om_find k m with Some _ => true | None => false end.

(** Strictly increasing keys: the representation invariant of [std::map]. *)
Fixpoint om_sorted (m : omap K A) : Prop :=
  match m with
  | [] => True
  | (k, _) :: rest => Forall (fun entry => key_ltb k entry.1 = true) rest /\ om_sorted rest
  end.

Lemma om_find_set_eq k v m : om_find k (om_set k v m) = Some v.
Proof.
  induction m as [|[k' v'] m IH]; simpl.
  - by rewrite decide_True.
  - repeat case_decide; subst; simpl; repeat case_decide; try done.
    destruct (key_ltb k k'); simpl; repeat case_decide; done.
Qed.

Lemma om_find_set_ne k k' v m : k' <> k -> om_find k' (om_set k v m) = om_find k' m.
Proof.
  intros Hne. induction m as [|[k0 v0] m IH]; simpl.
  - by rewrite decide_False.
  - case_decide; subst; simpl; [repeat case_decide; congruence|].
    destruct (key_ltb k k0); simpl; repeat case_decide; congruence.
Qed.

Lemma om_find_set k k' v m :
  om_find k' (om_set k v m) = if decide (k' = k) then Some v else om_find k' m.
Proof. case_decide; subst; [apply om_find_set_eq|by apply om_find_set_ne]. Qed.

Lemma om_find_emplace k k' v m :
  om_find k' (om_emplace k v m)
  = match om_find k' m with
    | Some v' => Some v'
    | None => if decide (k' = k) then Some v else None
    end.
Proof.
  unfold om_emplace. destruct (om_find k m) as [v'|] eqn:E.
  - destruct (om_find k' m) eqn:E'; [done|]. case_decide; congruence.
  - rewrite om_find_set. case_decide; subst; [by rewrite E|by destruct (om_find k' m)].
Qed.

Lemma om_find_erase k k' m :
  om_find k' (om_erase k m) = if decide (k' = k) then None else om_find k' m.
Proof.
  induction m as [|[k0 v0] m IH]; simpl; [by case_decide|].
  case_bool_decide; subst; simpl; repeat case_decide; subst; congruence.
Qed.

Lemma om_set_set k v v' m : om_set k v (om_set k v' m) = om_set k v m.
Proof.
  induction m as [|[k0 v0] m IH]; simpl; [by rewrite decide_True|].
  destruct (decide (k = k0)) as [->|Hne]; simpl; [by rewrite decide_True|].
  destruct (key_ltb k k0) eqn:Hk; simpl; [by rewrite decide_True|]. by rewrite decide_False, Hk, IH.
Qed.

Lemma om_find_elem k v m : om_find k m = Some v -> (k, v) ∈ m.
Proof.
  induction m as [|[k0 v0] m IH]; simpl; [done|].
  case_decide; intros; simplify_eq; [left|right; auto].
Qed.

Lemma om_find_key k v m : om_find k m = Some v -> k ∈ om_keys m.
Proof. intros Hf%om_find_elem. unfold om_keys. apply list_elem_of_fmap. by exists (k, v). Qed.

Lemma om_keys_find k m : k ∈ om_keys m -> is_Some (om_find k m).
Proof.
  unfold om_keys. induction m as [|[k0 v0] m IH]; simpl; [set_solver|].
  intros [->|Hin]%elem_of_cons; case_decide; eauto; congruence.
Qed.

Lemma om_set_size_new k v m : om_find k m = None -> length (om_set k v m) = S (length m).
Proof.
  induction m as [|[k0 v0] m IH]; simpl; [done|].
  case_decide; [done|]. destruct (key_ltb k k0); simpl; [done|]. intros Hn. by rewrite IH.
Qed.

Lemma om_sorted_lt_notin k m :
  Forall (fun entry => key_ltb k entry.1 = true) m -> om_find k m = None.
Proof.
  induction m as [|[k0 v0] m IH]; simpl; [done|].
  intros [Hlt Hrest]%Forall_cons_iff. case_decide; subst; simpl in *.
  - rewrite key_ltb_irrefl in Hlt. done.
  - auto.
Qed.

Lemma om_sorted_elem k v m : om_sorted m -> (k, v) ∈ m -> om_find k m = Some v.
Proof.
  induction m as [|[k0 v0] m IH]; simpl; [set_solver|].
  intros [Hlt Hs] [Heq|Hin]%elem_of_cons; simplify_eq; [by rewrite decide_True|].
  case_decide as Hk; subst; [|auto].
  rewrite Forall_forall in Hlt. specialize (Hlt _ Hin). simpl in Hlt.
  by rewrite key_ltb_irrefl in Hlt.
Qed.

(** Inserting above every key appends. *)
Lemma om_set_snoc k v m :
  Forall (fun entry => key_ltb entry.1 k = true) m -> om_set k v m = m ++ [(k, v)] /\ om_find k m = None.
Proof.
  induction m as [|[k0 v0] m IH]; simpl; intros Hall; [done|]. apply Forall_cons_iff in Hall as [H0 Hall]. simpl in H0.
  destruct (IH Hall) as [-> ->]. case_decide as Hk; subst; [by rewrite key_ltb_irrefl in H0|].
  destruct (key_ltb k k0) eqn:E; [|done]. pose proof (key_ltb_trans _ _ _ H0 E) as Hc. by rewrite key_ltb_irrefl in Hc.
Qed.

Lemma om_sorted_prefix m k v rest :
  om_sorted (m ++ (k, v) :: rest) -> Forall (fun entry => key_ltb entry.1 k = true) m.
Proof.
  induction m as [|[k0 v0] m IH]; simpl; [done|]. intros [Hlt Hs]. constructor; [|by apply IH].
  rewrite Forall_app in Hlt. destruct Hlt as [_ [Hlt _]%Forall_cons_iff]. exact Hlt.
Qed.

Lemma om_set_forall (P : K * A -> Prop) k v m : P (k, v) -> Forall P m -> Forall P (om_set k v m).
Proof.
  intros HP. induction m as [|[k0 v0] m IH]; simpl; intros Hall; [by constructor|].
  apply Forall_cons_iff in Hall as [H0 Hall]. case_decide; [by constructor|].
  destruct (key_ltb k k0); repeat (constructor; auto).
Qed.

Lemma om_set_sorted k v m : om_sorted m -> om_sorted (om_set k v m).
Proof.
  induction m as [|[k0 v0] m IH]; simpl; [by repeat constructor|].
  intros [Hlt Hs]. case_decide; subst; [done|].
  destruct (key_ltb k k0) eqn:Hk; simpl.
  - repeat split; auto. constructor; [done|].
    eapply Forall_impl; [exact Hlt|]. intros [k1 v1]; simpl. by apply key_ltb_trans.
  - split; [|auto]. apply om_set_forall; [simpl|done].
    destruct (key_ltb_total k k0 Hk); congruence.
Qed.

Lemma om_emplace_sorted k v m : om_sorted m -> om_sorted (om_emplace k v m).
Proof. intros Hs. unfold om_emplace. destruct (om_find k m); auto using om_set_sorted. Qed.

Lemma om_erase_sorted k m : om_sorted m -> om_sorted (om_erase k m).
Proof.
  induction m as [|[k0 v0] m IH]; simpl; [done|]. intros [Hlt Hs].
  case_bool_decide; simpl; [auto|]. split; [|auto].
  unfold om_erase. rewrite Forall_forall in Hlt |- *. intros x Hx.
  apply Hlt. apply list_elem_of_In. apply list_elem_of_In in Hx.
  by apply filter_In in Hx as [? _].
Qed.

End OMap.

(** [for (auto& entry : m) ...]: an in-place pass over all values. *)
Definition om_map {K A B} (f : A -> B) (m : omap K A) : omap K B :=
  map (fun entry => (entry.1, f entry.2)) m.

Lemma om_find_map {K A B} `{KeyOrder K} (f : A -> B) (k : K) (m : omap K A) :
  om_find k (om_map f m) = f <$> om_find k m.
Proof. induction m as [|[k0 v0] m IH]; simpl; [done|]. by case_decide. Qed.

Lemma om_map_keys {K A B} (f : A -> B) (m : omap K A) : om_keys (om_map f m) = om_keys m.
Proof. unfold om_keys, om_map. rewrite map_map. done. Qed.

Lemma om_map_sorted {K A B} `{KeyOrder K} (f : A -> B) (m : omap K A) :
  om_sorted m -> om_sorted (om_map f m).
Proof.
  induction m as [|[k0 v0] m IH]; simpl; [done|]. intros [Hlt Hs]. split; [|auto].
  clear IH Hs. induction m as [|[k1 v1] m IHm]; simpl; [done|].
  apply Forall_cons_iff in Hlt as [? ?]. constructor; auto.
Qed.

Create HintDb omap.
Create Rewrite HintDb omap.
#[export] Hint Rewrite @om_find_set_eq @om_find_map : omap.
#[export] Hint Resolve om_set_sorted om_emplace_sorted om_erase_sorted om_map_sorted : omap.

(** [for (auto& entry : m) ...] whose body also threads a state [S]. *)
Fixpoint om_map_acc {K A S} (f : S -> A -> S * A) (s : S) (m : omap K A) : S * omap K A :=
  match m with
  | [] => (s, [])
  | (k, a) :: rest =>
      let '(s, a) := f s a in
      let '(s, rest) := om_map_acc f s rest in
      (s, (k, a) :: rest)
  end.

Section MapAcc.
Context {K A S : Type} `{KeyOrder K} (f : S -> A -> S * A).

Lemma om_map_acc_keys s (m : omap K A) : om_keys (om_map_acc f s m).2 = om_keys m.
Proof.
  revert s. induction m as [|[k a] m IH]; intros s; simpl; [done|].
  destruct (f s a) as [s1 a1]. specialize (IH s1). destruct (om_map_acc f s1 m) as [s2 m2].
  unfold om_keys in *. simpl in *. by rewrite IH.
Qed.

(** A value after the pass is the body's result on the value before it, in
    some intermediate state. *)
Lemma om_find_map_acc s (m : omap K A) k :
  match om_find k m with
  | None => om_find k (om_map_acc f s m).2 = None
  | Some a => exists s', om_find k (om_map_acc f s m).2 = Some (f s' a).2
  end.
Proof.
  revert s. induction m as [|[k0 a0] m IH]; intros s; simpl; [done|].
  destruct (f s a0) as [s1 a1] eqn:Hf. specialize (IH s1).
  destruct (om_map_acc f s1 m) as [s2 m2]. simpl in *.
  case_decide; subst; [|done]. exists s. by rewrite Hf.
Qed.

(** An invariant of the threaded state holds at the end of the pass. *)
Lemma om_map_acc_inv (I : S -> Prop) s (m : omap K A) :
  I s -> (forall s a, I s -> I (f s a).1) -> I (om_map_acc f s m).1.
Proof.
  intros Hs Hstep. revert s Hs. induction m as [|[k a] m IH]; intros s Hs; simpl; [done|].
  pose proof (Hstep s a Hs) as Hnext. destruct (f s a) as [s1 a1]. simpl in Hnext. specialize (IH s1 Hnext).
  by destruct (om_map_acc f s1 m).
Qed.
End MapAcc.

(** Sortedness only concerns the keys. *)
Lemma om_sorted_keys {K A B} `{KeyOrder K} (m : omap K A) (m' : omap K B) :
  om_keys m = om_keys m' -> om_sorted m -> om_sorted m'.
Proof.
  revert m'. induction m as [|[k a] m IH]; intros [|[k' a'] m'] Heq Hs; simpl; try done.
  injection Heq as <- Hkeys. simpl in Hs. destruct Hs as [Hlt Hs]. split; [|by apply IH].
  rewrite Forall_forall in Hlt. apply Forall_forall. intros [k0 b] Hin.
  assert (Hk : k0 ∈ om_keys m) by (rewrite Hkeys; apply list_elem_of_fmap; by exists (k0, b)).
  apply list_elem_of_fmap in Hk as ([k1 a1] & -> & Hin1). by apply (Hlt (k1, a1)).
Qed.

Lemma om_map_acc_sorted {K A S} `{KeyOrder K} (f : S -> A -> S * A) s (m : omap K A) :
  om_sorted m -> om_sorted (om_map_acc f s m).2.
Proof. apply om_sorted_keys. by rewrite om_map_acc_keys. Qed.
#[export] Hint Resolve om_map_acc_sorted : omap.
