(* ===== verification/Error.v ===== *)
(** * Typed errors and results (error.hpp, error.cpp)

    Error codes and pipeline stages with their stable names, the [Status] that
    every authoritative operation returns, and [Result<T>], a value or the
    failure status.  The pass over a [constexpr] name table, which error.cpp
    and domain.cpp share, is [nt_lookup] / [nt_reverse] with its round-trip
    lemma. *)
From S2P Require Import Prelude.

(** ** Name tables *)

(** [NameTable::lookup]: the first entry whose value matches, or a fallback. *)
Fixpoint nt_lookup {E} `{EqDecision E} (fallback : string) (table : list (E * string)) (e : E) : string :=
  match table with
  | [] => fallback
  | (e', name) :: rest => if decide (e' = e) then name else nt_lookup fallback rest e
  end.

(** [NameTable::reverse]: the first entry whose name matches. *)
Fixpoint nt_reverse {E} (table : list (E * string)) (name : string) : option E :=
  match table with
  | [] => None
  | (e, name') :: rest => if String.eqb name' name then Some e else nt_reverse rest name
  end.

(** A table is bijective on the values it lists: names and values are
    pairwise distinct. *)
Definition nt_bijective {E} `{EqDecision E} (table : list (E * string)) : bool :=
  bool_decide (NoDup (map fst table)) && bool_decide (NoDup (map snd table)).

Section NameTables.
Context {E : Type} `{EqDecision E}.
Implicit Types (table : list (E * string)) (e : E).

Lemma nt_reverse_Some table name e : nt_reverse table name = Some e -> (e, name) ∈ table.
Proof.
  induction table as [|[e0 n0] table IH]; simpl; [done|].
  destruct (String.eqb_spec n0 name); intros; simplify_eq; [left|right; auto].
Qed.

Lemma nt_lookup_elem fallback table e :
  e ∈ map fst table -> (e, nt_lookup fallback table e) ∈ table.
Proof.
  induction table as [|[e0 n0] table IH]; simpl; [set_solver|].
  intros [->|Hin]%elem_of_cons; case_decide; subst; [left|done|left|right; auto].
Qed.

Lemma nt_elem_reverse table name e :
  nt_bijective table = true -> (e, name) ∈ table -> nt_reverse table name = Some e.
Proof.
  unfold nt_bijective. intros [_ Hnd]%andb_true_iff. apply bool_decide_eq_true in Hnd. revert Hnd.
  induction table as [|[e0 n0] table IH]; simpl; intros Hnd Hin; [set_solver|].
  apply NoDup_cons in Hnd as [Hnotin Hnd].
  destruct (String.eqb_spec n0 name) as [->|Hne].
  - apply elem_of_cons in Hin as [Heq|Hin]; [congruence|].
    exfalso. apply Hnotin. apply list_elem_of_fmap. by exists (e, name).
  - apply elem_of_cons in Hin as [Heq|Hin]; [congruence|auto].
Qed.

Lemma nt_elem_lookup fallback table name e :
  nt_bijective table = true -> (e, name) ∈ table -> nt_lookup fallback table e = name.
Proof.
  unfold nt_bijective. intros [Hnd _]%andb_true_iff. apply bool_decide_eq_true in Hnd. revert Hnd.
  induction table as [|[e0 n0] table IH]; simpl; intros Hnd Hin; [set_solver|].
  apply NoDup_cons in Hnd as [Hnotin Hnd]. case_decide as He; subst.
  - apply elem_of_cons in Hin as [Heq|Hin]; [congruence|].
    exfalso. apply Hnotin. apply list_elem_of_fmap. by exists (e, name).
  - apply elem_of_cons in Hin as [Heq|Hin]; [congruence|auto].
Qed.

(** Printing a listed value and parsing it back gives that value. *)
Lemma nt_roundtrip fallback table e :
  nt_bijective table = true -> e ∈ map fst table ->
  nt_reverse table (nt_lookup fallback table e) = Some e.
Proof. intros Hb Hin. apply nt_elem_reverse; [done|]. by apply nt_lookup_elem. Qed.

(** A name that parses is the name of the value it parses to. *)
Lemma nt_reverse_sound fallback table name e :
  nt_bijective table = true -> nt_reverse table name = Some e -> nt_lookup fallback table e = name.
Proof. intros Hb Hr. apply nt_elem_lookup; [done|]. by apply nt_reverse_Some. Qed.
End NameTables.

(** ** Error codes and stages

    Both enumerations have the underlying type [std::uint8_t], and the codecs
    cast a byte they have not compared with the enumerators; [UNLISTED] is
    such a value, one past the last enumerator. *)

Module ErrorCode.
Inductive ErrorCode : Type :=
| OK | INVALID_ARGUMENT | NOT_FOUND | ALREADY_EXISTS | STALE_EPOCH | STALE_WORKER
| STALE_GENERATION | STALE_HYPOTHESIS | STALE_BRANCH | STALE_ATTEMPT | UNAUTHORIZED
| INVALID_TRANSITION | CANCELLED | INSUFFICIENT_EVIDENCE | INVALID_OBSERVATION
| CORRUPT_PERSISTENCE | PROTOCOL_ERROR | RESOURCE_EXHAUSTED | UNSUPPORTED
| PERSISTENCE_FAILURE | TRANSPORT_FAILURE | SHUTTING_DOWN | INTERNAL
| UNLISTED (byte : Z).
End ErrorCode.
Abbreviation ErrorCode := ErrorCode.ErrorCode.

Module ErrorStage.
Inductive ErrorStage : Type :=
| NONE | VALIDATION | IDENTITY | DEFINITION | AUTHORITY | LIFECYCLE | OBSERVATION
| COMPARISON | DECISION | PERSISTENCE | TRANSPORT | RECOVERY | SHUTDOWN | LIMITS
| UNLISTED (byte : Z).
End ErrorStage.
Abbreviation ErrorStage := ErrorStage.ErrorStage.

#[export] Instance ErrorCode_eq_dec : EqDecision ErrorCode.
Proof. solve_decision. Defined.
#[export] Instance ErrorStage_eq_dec : EqDecision ErrorStage.
Proof. solve_decision. Defined.

Definition kErrorCodeNames : list (ErrorCode * string) :=
  [(ErrorCode.OK, "OK"); (ErrorCode.INVALID_ARGUMENT, "INVALID_ARGUMENT");
   (ErrorCode.NOT_FOUND, "NOT_FOUND"); (ErrorCode.ALREADY_EXISTS, "ALREADY_EXISTS");
   (ErrorCode.STALE_EPOCH, "STALE_EPOCH"); (ErrorCode.STALE_WORKER, "STALE_WORKER");
   (ErrorCode.STALE_GENERATION, "STALE_GENERATION");
   (ErrorCode.STALE_HYPOTHESIS, "STALE_HYPOTHESIS");
   (ErrorCode.STALE_BRANCH, "STALE_BRANCH"); (ErrorCode.STALE_ATTEMPT, "STALE_ATTEMPT");
   (ErrorCode.UNAUTHORIZED, "UNAUTHORIZED");
   (ErrorCode.INVALID_TRANSITION, "INVALID_TRANSITION"); (ErrorCode.CANCELLED, "CANCELLED");
   (ErrorCode.INSUFFICIENT_EVIDENCE, "INSUFFICIENT_EVIDENCE");
   (ErrorCode.INVALID_OBSERVATION, "INVALID_OBSERVATION");
   (ErrorCode.CORRUPT_PERSISTENCE, "CORRUPT_PERSISTENCE");
   (ErrorCode.PROTOCOL_ERROR, "PROTOCOL_ERROR");
   (ErrorCode.RESOURCE_EXHAUSTED, "RESOURCE_EXHAUSTED");
   (ErrorCode.UNSUPPORTED, "UNSUPPORTED");
   (ErrorCode.PERSISTENCE_FAILURE, "PERSISTENCE_FAILURE");
   (ErrorCode.TRANSPORT_FAILURE, "TRANSPORT_FAILURE");
   (ErrorCode.SHUTTING_DOWN, "SHUTTING_DOWN"); (ErrorCode.INTERNAL, "INTERNAL")]%string.

Definition kErrorStageNames : list (ErrorStage * string) :=
  [(ErrorStage.NONE, "NONE"); (ErrorStage.VALIDATION, "VALIDATION");
   (ErrorStage.IDENTITY, "IDENTITY"); (ErrorStage.DEFINITION, "DEFINITION");
   (ErrorStage.AUTHORITY, "AUTHORITY"); (ErrorStage.LIFECYCLE, "LIFECYCLE");
   (ErrorStage.OBSERVATION, "OBSERVATION"); (ErrorStage.COMPARISON, "COMPARISON");
   (ErrorStage.DECISION, "DECISION"); (ErrorStage.PERSISTENCE, "PERSISTENCE");
   (ErrorStage.TRANSPORT, "TRANSPORT"); (ErrorStage.RECOVERY, "RECOVERY");
   (ErrorStage.SHUTDOWN, "SHUTDOWN"); (ErrorStage.LIMITS, "LIMITS")]%string.

Definition error_code_to_string (code : ErrorCode) : string :=
  nt_lookup "UNKNOWN_ERROR" kErrorCodeNames code.
Definition error_stage_to_string (stage : ErrorStage) : string :=
  nt_lookup "UNKNOWN_STAGE" kErrorStageNames stage.
Definition parse_error_code (name : string) : option ErrorCode :=
  nt_reverse kErrorCodeNames name.

(** ** Status and Result *)

Record Status := make_error {
  status_code : ErrorCode;
  status_stage : ErrorStage;
  status_reason : string
}.

Definition success : Status := make_error ErrorCode.OK ErrorStage.NONE "".
Definition status_ok (s : Status) : bool := bool_decide (status_code s = ErrorCode.OK).

#[export] Instance Status_eq_dec : EqDecision Status.
Proof. solve_decision. Defined.

(** [Status::is_stale]: the failure is an authority-fencing rejection. *)
Definition is_stale (s : Status) : bool :=
  match status_code s with
  | ErrorCode.STALE_EPOCH | ErrorCode.STALE_WORKER | ErrorCode.STALE_GENERATION
  | ErrorCode.STALE_HYPOTHESIS | ErrorCode.STALE_BRANCH | ErrorCode.STALE_ATTEMPT
  | ErrorCode.UNAUTHORIZED => true
  | _ => false
  end.

Definition status_to_string (s : Status) : string :=
  (error_code_to_string (status_code s) +:+ " stage=" +:+ error_stage_to_string (status_stage s)
   +:+ (if String.eqb (status_reason s) "" then "" else " reason=" +:+ status_reason s))%string.

(** [Result<T>]: [std::variant<T, Status>]. *)
Inductive Result (A : Type) : Type :=
| Ok (a : A)
| Err (s : Status).
Arguments Ok {A} a.
Arguments Err {A} s.

Definition result_ok {A} (r : Result A) : bool :=
  match r with Ok _ => true | Err _ => false end.

(** ** Properties *)

Lemma Ok_inj {A} (a b : A) : Ok a = Ok b -> a = b.
Proof. by intros [= ]. Qed.

Lemma error_code_names_bijective : nt_bijective kErrorCodeNames = true.
Proof. vm_compute. reflexivity. Qed.

(** The code is one of the enumerators. *)
Definition error_code_named (code : ErrorCode) : bool :=
  match code with ErrorCode.UNLISTED _ => false | _ => true end.

Lemma error_code_listed code : error_code_named code = true <-> code ∈ map fst kErrorCodeNames.
Proof.
  destruct code; (split; [intros _; apply list_elem_of_In; simpl; tauto|done]) || idtac.
  split; [done|]. intros Hin%list_elem_of_In. simpl in Hin. repeat destruct Hin as [?|Hin]; done.
Qed.

(** Parsing inverts printing on every enumerator of the error codes, and
    only printed names parse: the code names are a bijection onto their image. *)
Lemma parse_error_code_spec name code :
  parse_error_code name = Some code <-> error_code_named code = true /\ error_code_to_string code = name.
Proof.
  split.
  - intros Hr. split; [|by apply nt_reverse_sound; [apply error_code_names_bijective|]].
    apply error_code_listed. apply nt_reverse_Some in Hr.
    apply list_elem_of_fmap. by exists (code, name).
  - intros [Hn <-]. apply nt_roundtrip; [apply error_code_names_bijective|by apply error_code_listed].
Qed.
