(* ===== verification/Identity.v ===== *)
(** * Identities (identity.hpp)

    [StrongId<Tag>] is a 64-bit value with a canonical decimal text form.  The
    tag only separates C++ types; the value is a [Z] here.  The file models
    the printer and the strict parser of [StrongId] and the [IdAllocator], and
    shows that printing and parsing are mutually inverse between the 64-bit
    values and the canonical texts. *)
From S2P Require Import Prelude.

(** [StrongId::valid]: the zero value is the null identity. *)
Definition id_valid (v : Z) : bool := negb (v =? 0).

Definition digit_char (d : Z) : ascii := ascii_of_N (Z.to_N (48 + d)).
Definition char_code (c : ascii) : Z := Z.of_N (N_of_ascii c).

(** The [while (remaining != 0)] loop that fills the buffer from its end. *)
Fixpoint to_string_loop (fuel : nat) (remaining : Z) (acc : string) : string :=
  match fuel with
  | O => acc
  | S fuel' =>
      if remaining =? 0 then acc
      else to_string_loop fuel' (remaining / 10) (String (digit_char (remaining mod 10)) acc)
  end.

(** [StrongId::to_string]: 20 decimal digits hold every 64-bit value. *)
Definition id_to_string (v : Z) : string :=
  if v =? 0 then "0" else to_string_loop 20 v "".

(** The digit loop of [StrongId::parse], with its overflow test. *)
Fixpoint parse_loop (text : string) (value : Z) : option Z :=
  match text with
  | EmptyString => Some value
  | String c rest =>
      if (char_code c <? 48) || (57 <? char_code c) then None
      else
        let digit := char_code c - 48 in
        if (u64_max - digit) / 10 <? value then None
        else parse_loop rest (u64 (value * 10 + digit))
  end.

Definition front_is_zero (text : string) : bool :=
  match text with
  | String c _ => Ascii.eqb c "0"
  | EmptyString => false
  end.

(** [StrongId::parse]. *)
Definition id_parse (text : string) : option Z :=
  if String.eqb text "" || (20 <? str_size text) then None
  else if (1 <? str_size text) && front_is_zero text then None
  else parse_loop text 0.

(** [IdAllocator]: [next], [observe] on the counter. *)
Definition allocator_next (counter : Z) : Z :=
  let counter := u64 (counter + 1) in
  if counter =? 0 then u64 (counter + 1) else counter.
Definition allocator_observe (counter id : Z) : Z :=
  if counter <? id then id else counter.

(** ** Lemmas on digits *)

Lemma char_code_range c : 0 <= char_code c < 256.
Proof.
  unfold char_code. pose proof (N_ascii_bounded c). lia.
Qed.

Lemma char_code_digit d : 0 <= d < 10 -> char_code (digit_char d) = 48 + d.
Proof.
  intros H. unfold char_code, digit_char. rewrite N_ascii_embedding; lia.
Qed.

Lemma digit_char_code c : digit_char (char_code c - 48) = c.
Proof.
  unfold digit_char, char_code.
  replace (Z.to_N (48 + (Z.of_N (N_of_ascii c) - 48))) with (N_of_ascii c) by lia.
  apply ascii_N_embedding.
Qed.

Lemma to_string_loop_acc fuel r acc acc' :
  to_string_loop fuel r (acc +:+ acc') = to_string_loop fuel r acc +:+ acc'.
Proof.
  revert r acc. induction fuel as [|fuel IH]; intros r acc; simpl; [done|].
  case_match; [done|]. by rewrite <- (IH _ (String _ acc)).
Qed.

Lemma to_string_loop_zero fuel acc : to_string_loop fuel 0 acc = acc.
Proof. by destruct fuel. Qed.

(** Any two fuels that bound the number of digits agree. *)
Lemma to_string_loop_fuel f1 f2 r acc :
  0 <= r -> r < 10 ^ Z.of_nat f1 -> r < 10 ^ Z.of_nat f2 ->
  to_string_loop f1 r acc = to_string_loop f2 r acc.
Proof.
  revert f2 r acc. induction f1 as [|f1 IH]; intros f2 r acc H0 H1 H2.
  - change (10 ^ Z.of_nat 0) with 1 in H1. assert (r = 0) as -> by lia. by rewrite !to_string_loop_zero.
  - destruct f2 as [|f2].
    + change (10 ^ Z.of_nat 0) with 1 in H2. assert (r = 0) as -> by lia. by rewrite !to_string_loop_zero.
    + simpl. case_match; [done|].
      rewrite Nat2Z.inj_succ, Z.pow_succ_r in H1, H2 by lia.
      apply IH; [apply Z.div_pos; lia| |]; apply Z.div_lt_upper_bound; lia.
Qed.

(** One more digit: the printer's recursion read from the most significant end. *)
Lemma to_string_loop_snoc fuel a d :
  0 < a -> 0 <= d < 10 -> 10 * a + d < 10 ^ Z.of_nat fuel ->
  to_string_loop fuel (10 * a + d) "" = to_string_loop fuel a "" +:+ String (digit_char d) "".
Proof.
  intros Ha Hd Hlt. destruct fuel as [|fuel].
  - change (10 ^ Z.of_nat 0) with 1 in Hlt. lia.
  - rewrite (to_string_loop_fuel (S fuel) fuel a) by
      (rewrite ?Nat2Z.inj_succ, ?Z.pow_succ_r in * by lia; lia).
    cbn [to_string_loop].
    destruct (Z.eqb_spec (10 * a + d) 0); [lia|].
    replace ((10 * a + d) / 10) with a by (apply Z.div_unique with d; lia).
    replace ((10 * a + d) mod 10) with d by (apply Z.mod_unique with a; lia).
    by rewrite <- to_string_loop_acc.
Qed.

Lemma parse_loop_app s t v :
  parse_loop (s +:+ t) v = match parse_loop s v with Some w => parse_loop t w | None => None end.
Proof.
  revert v. induction s as [|c s IH]; intros v; simpl; [done|].
  case_match; [done|]. case_match; [done|]. apply IH.
Qed.

Lemma parse_loop_digit a d :
  0 <= a -> 0 <= d < 10 -> 10 * a + d <= u64_max ->
  parse_loop (String (digit_char d) "") a = Some (10 * a + d).
Proof.
  intros Ha Hd Hle. cbn [parse_loop]. rewrite char_code_digit by done.
  replace (48 + d - 48) with d by lia.
  destruct ((48 + d <? 48) || (57 <? 48 + d)) eqn:E; [lia|].
  assert (a <= (u64_max - d) / 10) by (apply Z.div_le_lower_bound; lia).
  destruct ((u64_max - d) / 10 <? a) eqn:E'; [lia|].
  rewrite u64_small by (unfold u64_modulus, u64_max in *; lia). f_equal. lia.
Qed.

Lemma parse_loop_print fuel r :
  0 <= r <= u64_max -> r < 10 ^ Z.of_nat fuel -> parse_loop (to_string_loop fuel r "") 0 = Some r.
Proof.
  revert r. induction fuel as [|fuel IH]; intros r Hr Hlt.
  - change (10 ^ Z.of_nat 0) with 1 in Hlt. simpl. f_equal. lia.
  - cbn [to_string_loop]. destruct (Z.eqb_spec r 0) as [->|Hne]; [done|].
    change (String (digit_char (r mod 10)) "") with ("" +:+ String (digit_char (r mod 10)) "").
    rewrite to_string_loop_acc, parse_loop_app.
    rewrite Nat2Z.inj_succ, Z.pow_succ_r in Hlt by lia.
    pose proof (Z.div_mod r 10 ltac:(lia)). pose proof (Z.mod_pos_bound r 10 ltac:(lia)).
    rewrite IH by lia. rewrite parse_loop_digit by lia. f_equal. lia.
Qed.

Lemma to_string_loop_length fuel r acc :
  (String.length (to_string_loop fuel r acc) <= fuel + String.length acc)%nat.
Proof.
  revert r acc. induction fuel as [|fuel IH]; intros r acc; simpl; [done|].
  case_match; [lia|]. etrans; [apply IH|]. simpl. lia.
Qed.

(** The first character of a printed non-zero value is a non-zero digit. *)
Lemma to_string_loop_front fuel r acc :
  0 < r -> r < 10 ^ Z.of_nat fuel ->
  exists d rest, 0 < d < 10 /\ to_string_loop fuel r acc = String (digit_char d) rest.
Proof.
  revert r acc. induction fuel as [|fuel IH]; intros r acc Hr Hlt.
  - change (10 ^ Z.of_nat 0) with 1 in Hlt. lia.
  - rewrite Nat2Z.inj_succ, Z.pow_succ_r in Hlt by lia. simpl.
    destruct (Z.eqb_spec r 0); [lia|].
    destruct (Z.eq_dec (r / 10) 0) as [Hz|Hnz].
    + rewrite Hz, to_string_loop_zero. exists (r mod 10), acc. split; [|done].
      pose proof (Z.div_mod r 10). pose proof (Z.mod_pos_bound r 10). lia.
    + apply IH; [pose proof (Z.div_pos r 10); lia|apply Z.div_lt_upper_bound; lia].
Qed.

Lemma digit_char_zero d : 0 <= d < 10 -> Ascii.eqb (digit_char d) "0" = true -> d = 0.
Proof.
  intros Hd Heq%Ascii.eqb_eq. apply (f_equal char_code) in Heq.
  rewrite char_code_digit in Heq by done. change (char_code "0") with 48 in Heq. lia.
Qed.

(** What the parser accumulates is what the printer prints after it. *)
Lemma parse_loop_sound text a v :
  0 < a <= u64_max -> parse_loop text a = Some v ->
  a <= v <= u64_max /\ to_string_loop 20 v "" = to_string_loop 20 a "" +:+ text.
Proof.
  revert a. induction text as [|c text IH]; intros a Ha Hp.
  - simpl in Hp. simplify_eq. split; [lia|]. by rewrite string_app_nil_r.
  - cbn [parse_loop] in Hp. case_match eqn:Hrange; [done|]. case_match eqn:Hover; [done|].
    set (d := char_code c - 48) in *. assert (0 <= d < 10) as Hd by lia.
    assert (10 * a + d <= u64_max) as Hle.
    { apply Z.ltb_ge in Hover. pose proof (Z.mul_div_le (u64_max - d) 10). lia. }
    rewrite u64_small in Hp by (unfold u64_modulus, u64_max in *; lia).
    replace (a * 10 + d) with (10 * a + d) in Hp by lia.
    destruct (IH (10 * a + d)) as [Hv Hs]; [lia|done|]. split; [lia|].
    rewrite Hs, to_string_loop_snoc; [|lia|lia|unfold u64_max in *; simpl; lia].
    replace (digit_char d) with c by (symmetry; apply digit_char_code).
    by rewrite string_app_assoc.
Qed.

Lemma parse_loop_zero_front c text v :
  parse_loop (String c text) 0 = Some v ->
  exists d, 0 <= d < 10 /\ c = digit_char d /\ parse_loop text d = Some v.
Proof.
  cbn [parse_loop]. intros Hp. case_match eqn:Hrange; [done|]. case_match eqn:Hover; [done|].
  exists (char_code c - 48). rewrite digit_char_code. split; [lia|]. split; [done|].
  rewrite u64_small in Hp by (unfold u64_modulus; lia). by rewrite Z.mul_0_l in Hp.
Qed.

(** Printing a 64-bit identity and parsing the text gives it back. *)
Lemma id_parse_print v : 0 <= v <= u64_max -> id_parse (id_to_string v) = Some v.
Proof.
  intros Hv. unfold id_to_string. destruct (Z.eqb_spec v 0) as [->|Hne]; [done|].
  assert (v < 10 ^ Z.of_nat 20) as Hlt by (unfold u64_max in Hv; simpl; lia).
  destruct (to_string_loop_front 20 v "") as (d & rest & Hd & Heq); [lia|done|].
  pose proof (to_string_loop_length 20 v "") as Hlen.
  unfold id_parse. rewrite Heq in *. cbn [String.eqb orb front_is_zero].
  destruct (20 <? str_size (String (digit_char d) rest)) eqn:E1.
  { unfold str_size in E1. cbn [String.length] in *. blia. }
  destruct (Ascii.eqb (digit_char d) "0") eqn:E2.
  { apply digit_char_zero in E2; lia. }
  rewrite andb_false_r, <- Heq. by apply parse_loop_print.
Qed.

(** A text that parses is the canonical text of a 64-bit value. *)
Lemma id_print_parse text v : id_parse text = Some v -> 0 <= v <= u64_max /\ id_to_string v = text.
Proof.
  unfold id_parse. intros Hp. destruct text as [|c text]; [done|].
  case_match; [done|]. case_match eqn:Hz; [done|].
  apply parse_loop_zero_front in Hp as (d & Hd & -> & Hp).
  destruct (Z.eq_dec d 0) as [->|Hdnz].
  - destruct text as [|c' text].
    + simpl in Hp. simplify_eq. done.
    + exfalso. revert Hz. unfold str_size. cbn [front_is_zero String.length].
      change (Ascii.eqb (digit_char 0) "0") with true. rewrite andb_true_r. intros Hz. blia.
  - apply parse_loop_sound in Hp as [Hv Hs]; [|unfold u64_max; lia]. split; [lia|].
    unfold id_to_string. destruct (Z.eqb_spec v 0); [lia|]. rewrite Hs.
    cbn [to_string_loop]. destruct (Z.eqb_spec d 0); [lia|].
    rewrite Z.div_small, Z.mod_small by lia. done.
Qed.

(** Printing and strict parsing of identities are inverse to each other:
    a text parses to a value exactly when the value is a 64-bit identity and
    the text is its canonical decimal form. *)
Theorem id_text_bijection text v :
  id_parse text = Some v <-> (0 <= v <= u64_max /\ id_to_string v = text).
Proof. split; [apply id_print_parse|]. intros [Hv <-]. by apply id_parse_print. Qed.

(** The allocator never returns the null identity, and short of wrapping it
    returns a value above everything issued or observed before. *)
Theorem allocator_next_fresh counter :
  0 <= counter <= u64_max ->
  id_valid (allocator_next counter) = true
  /\ (counter < u64_max -> allocator_next counter = counter + 1).
Proof.
  intros Hc. unfold allocator_next, id_valid.
  destruct (Z.eq_dec counter u64_max) as [->|Hne].
  - split; [reflexivity|lia].
  - rewrite u64_succ_small by lia. destruct (Z.eqb_spec (counter + 1) 0); [lia|].
    split; [|done]. destruct (Z.eqb_spec (counter + 1) 0); [lia|done].
Qed.

Lemma allocator_next_fresh_witness :
  id_valid (allocator_next u64_max) = true /\ allocator_next 7 = 8.
Proof.
  split.
  - exact (proj1 (allocator_next_fresh u64_max ltac:(vm_compute; split; discriminate))).
  - exact (proj2 (allocator_next_fresh 7 ltac:(vm_compute; split; discriminate)) eq_refl).
Defined.
