(* ===== verification/Domain.v ===== *)
(** * Domain enumerations and lifecycle state machines (domain.hpp, domain.cpp)

    Every enumeration of the domain, its name table, its strict parser and its
    printer, and the transition predicates of the four lifecycles.  The
    predicates are the code's; the theorems say what graph they describe. *)
From S2P Require Import Prelude Error.

(** ** Enumerations *)

Module ParameterKind.
Inductive ParameterKind : Type :=
| TEXT | INTEGER | REAL | BOOLEAN.
End ParameterKind.
Abbreviation ParameterKind := ParameterKind.ParameterKind.

Module TrialState.
Inductive TrialState : Type :=
| CREATED | READY | ASSIGNED | RUNNING | OBSERVING | COMPLETED | FAILED | CANCELLED | INVALID
| SUPERSEDED | REVALIDATION_REQUIRED.
End TrialState.
Abbreviation TrialState := TrialState.TrialState.

Module ExperimentState.
Inductive ExperimentState : Type :=
| OPEN | FINALIZED | CANCELLED | SUPERSEDED | RECOVERING.
End ExperimentState.
Abbreviation ExperimentState := ExperimentState.ExperimentState.

Module BranchState.
Inductive BranchState : Type :=
| ACTIVE | RETIRED | INVALID | SUPERSEDED.
End BranchState.
Abbreviation BranchState := BranchState.BranchState.

Module BranchRole.
Inductive BranchRole : Type :=
| BASELINE | CANDIDATE.
End BranchRole.
Abbreviation BranchRole := BranchRole.BranchRole.

Module AttemptState.
Inductive AttemptState : Type :=
| ISSUED | RUNNING | PUBLISHED | COMPLETED | FAILED | CANCELLED | ABANDONED
| REVALIDATION_REQUIRED.
End AttemptState.
Abbreviation AttemptState := AttemptState.AttemptState.

Module MetricKind.
Inductive MetricKind : Type :=
| REAL | INTEGER | BOOLEAN | CATEGORICAL.
End MetricKind.
Abbreviation MetricKind := MetricKind.MetricKind.

Module MetricDirection.
Inductive MetricDirection : Type :=
| MINIMIZE | MAXIMIZE | TARGET | INFORMATIONAL.
End MetricDirection.
Abbreviation MetricDirection := MetricDirection.MetricDirection.

Module AggregationRule.
Inductive AggregationRule : Type :=
| NONE | MEAN | MEDIAN | MIN | MAX | SUM | MAJORITY.
End AggregationRule.
Abbreviation AggregationRule := AggregationRule.AggregationRule.

Module ObservationValidity.
Inductive ObservationValidity : Type :=
| VALID | INVALID | MISSING | UNSUPPORTED.
End ObservationValidity.
Abbreviation ObservationValidity := ObservationValidity.ObservationValidity.

Module ComparisonOp.
Inductive ComparisonOp : Type :=
| GREATER_THAN | LESS_THAN | MIN_IMPROVEMENT | MAX_REGRESSION_TOLERANCE | TARGET_RANGE
| MAJORITY_WINS | REPORT_ONLY.
End ComparisonOp.
Abbreviation ComparisonOp := ComparisonOp.ComparisonOp.

Module DecisionOutcome.
Inductive DecisionOutcome : Type :=
| ACCEPT | REJECT | INCONCLUSIVE | INSUFFICIENT_EVIDENCE | INVALID | CANCELLED | SUPERSEDED.
End DecisionOutcome.
Abbreviation DecisionOutcome := DecisionOutcome.DecisionOutcome.

Module FailureKind.
Inductive FailureKind : Type :=
| NONE | EXECUTION_FAILURE | INVALID_OBSERVATION | PRODUCER_LOSS | TRANSPORT_FAILURE
| CANCELLATION | POLICY_REJECTION | INSUFFICIENT_EVIDENCE | PERSISTENCE_FAILURE
| EXPERIMENT_INVALIDATION | LIMIT_EXCEEDED.
End FailureKind.
Abbreviation FailureKind := FailureKind.FailureKind.

Module ReproducibilityStatus.
Inductive ReproducibilityStatus : Type :=
| REPRODUCIBLE | PARTIALLY_REPRODUCIBLE | NOT_REPRODUCIBLE | UNKNOWN.
End ReproducibilityStatus.
Abbreviation ReproducibilityStatus := ReproducibilityStatus.ReproducibilityStatus.

Module SeedPolicy.
Inductive SeedPolicy : Type :=
| FIXED | DERIVED_PER_TRIAL | PRODUCER_SUPPLIED | NONE.
End SeedPolicy.
Abbreviation SeedPolicy := SeedPolicy.SeedPolicy.

Module RetryPolicy.
Inductive RetryPolicy : Type :=
| FRESH_ATTEMPT_SAME_TRIAL | NEW_TRIAL_IDENTITY | NO_RETRY.
End RetryPolicy.
Abbreviation RetryPolicy := RetryPolicy.RetryPolicy.

Module PartialFailurePolicy.
Inductive PartialFailurePolicy : Type :=
| TOLERATE_IF_EVIDENCE_SUFFICIENT | INVALIDATE_BRANCH | RETRY_ALLOWED.
End PartialFailurePolicy.
Abbreviation PartialFailurePolicy := PartialFailurePolicy.PartialFailurePolicy.

Module LateEvidencePolicy.
Inductive LateEvidencePolicy : Type :=
| REJECT_AND_RECORD | RETAIN_HISTORICAL.
End LateEvidencePolicy.
Abbreviation LateEvidencePolicy := LateEvidencePolicy.LateEvidencePolicy.

Module Provenance.
Inductive Provenance : Type :=
| REAL | SYNTHETIC | UNSUPPORTED.
End Provenance.
Abbreviation Provenance := Provenance.Provenance.

#[export] Instance ParameterKind_eq_dec : EqDecision ParameterKind.
Proof. solve_decision. Defined.
#[export] Instance TrialState_eq_dec : EqDecision TrialState.
Proof. solve_decision. Defined.
#[export] Instance ExperimentState_eq_dec : EqDecision ExperimentState.
Proof. solve_decision. Defined.
#[export] Instance BranchState_eq_dec : EqDecision BranchState.
Proof. solve_decision. Defined.
#[export] Instance BranchRole_eq_dec : EqDecision BranchRole.
Proof. solve_decision. Defined.
#[export] Instance AttemptState_eq_dec : EqDecision AttemptState.
Proof. solve_decision. Defined.
#[export] Instance MetricKind_eq_dec : EqDecision MetricKind.
Proof. solve_decision. Defined.
#[export] Instance MetricDirection_eq_dec : EqDecision MetricDirection.
Proof. solve_decision. Defined.
#[export] Instance AggregationRule_eq_dec : EqDecision AggregationRule.
Proof. solve_decision. Defined.
#[export] Instance ObservationValidity_eq_dec : EqDecision ObservationValidity.
Proof. solve_decision. Defined.
#[export] Instance ComparisonOp_eq_dec : EqDecision ComparisonOp.
Proof. solve_decision. Defined.
#[export] Instance DecisionOutcome_eq_dec : EqDecision DecisionOutcome.
Proof. solve_decision. Defined.
#[export] Instance FailureKind_eq_dec : EqDecision FailureKind.
Proof. solve_decision. Defined.
#[export] Instance ReproducibilityStatus_eq_dec : EqDecision ReproducibilityStatus.
Proof. solve_decision. Defined.
#[export] Instance SeedPolicy_eq_dec : EqDecision SeedPolicy.
Proof. solve_decision. Defined.
#[export] Instance RetryPolicy_eq_dec : EqDecision RetryPolicy.
Proof. solve_decision. Defined.
#[export] Instance PartialFailurePolicy_eq_dec : EqDecision PartialFailurePolicy.
Proof. solve_decision. Defined.
#[export] Instance LateEvidencePolicy_eq_dec : EqDecision LateEvidencePolicy.
Proof. solve_decision. Defined.
#[export] Instance Provenance_eq_dec : EqDecision Provenance.
Proof. solve_decision. Defined.

(** ** Name tables *)

Definition kParameterKinds : list (ParameterKind * string) :=
  [(ParameterKind.TEXT, "TEXT"); (ParameterKind.INTEGER, "INTEGER");
   (ParameterKind.REAL, "REAL"); (ParameterKind.BOOLEAN, "BOOLEAN")]%string.
Definition kTrialStates : list (TrialState * string) :=
  [(TrialState.CREATED, "CREATED"); (TrialState.READY, "READY");
   (TrialState.ASSIGNED, "ASSIGNED"); (TrialState.RUNNING, "RUNNING");
   (TrialState.OBSERVING, "OBSERVING"); (TrialState.COMPLETED, "COMPLETED");
   (TrialState.FAILED, "FAILED"); (TrialState.CANCELLED, "CANCELLED");
   (TrialState.INVALID, "INVALID"); (TrialState.SUPERSEDED, "SUPERSEDED");
   (TrialState.REVALIDATION_REQUIRED, "REVALIDATION_REQUIRED")]%string.
Definition kExperimentStates : list (ExperimentState * string) :=
  [(ExperimentState.OPEN, "OPEN"); (ExperimentState.FINALIZED, "FINALIZED");
   (ExperimentState.CANCELLED, "CANCELLED"); (ExperimentState.SUPERSEDED, "SUPERSEDED");
   (ExperimentState.RECOVERING, "RECOVERING")]%string.
Definition kBranchStates : list (BranchState * string) :=
  [(BranchState.ACTIVE, "ACTIVE"); (BranchState.RETIRED, "RETIRED");
   (BranchState.INVALID, "INVALID"); (BranchState.SUPERSEDED, "SUPERSEDED")]%string.
Definition kBranchRoles : list (BranchRole * string) :=
  [(BranchRole.BASELINE, "BASELINE"); (BranchRole.CANDIDATE, "CANDIDATE")]%string.
Definition kAttemptStates : list (AttemptState * string) :=
  [(AttemptState.ISSUED, "ISSUED"); (AttemptState.RUNNING, "RUNNING");
   (AttemptState.PUBLISHED, "PUBLISHED"); (AttemptState.COMPLETED, "COMPLETED");
   (AttemptState.FAILED, "FAILED"); (AttemptState.CANCELLED, "CANCELLED");
   (AttemptState.ABANDONED, "ABANDONED");
   (AttemptState.REVALIDATION_REQUIRED, "REVALIDATION_REQUIRED")]%string.
Definition kMetricKinds : list (MetricKind * string) :=
  [(MetricKind.REAL, "REAL"); (MetricKind.INTEGER, "INTEGER"); (MetricKind.BOOLEAN, "BOOLEAN");
   (MetricKind.CATEGORICAL, "CATEGORICAL")]%string.
Definition kMetricDirections : list (MetricDirection * string) :=
  [(MetricDirection.MINIMIZE, "MINIMIZE"); (MetricDirection.MAXIMIZE, "MAXIMIZE");
   (MetricDirection.TARGET, "TARGET"); (MetricDirection.INFORMATIONAL, "INFORMATIONAL")]%string.
Definition kAggregationRules : list (AggregationRule * string) :=
  [(AggregationRule.NONE, "NONE"); (AggregationRule.MEAN, "MEAN");
   (AggregationRule.MEDIAN, "MEDIAN"); (AggregationRule.MIN, "MIN");
   (AggregationRule.MAX, "MAX"); (AggregationRule.SUM, "SUM");
   (AggregationRule.MAJORITY, "MAJORITY")]%string.
Definition kObservationValidities : list (ObservationValidity * string) :=
  [(ObservationValidity.VALID, "VALID"); (ObservationValidity.INVALID, "INVALID");
   (ObservationValidity.MISSING, "MISSING"); (ObservationValidity.UNSUPPORTED, "UNSUPPORTED")]%string.
Definition kComparisonOps : list (ComparisonOp * string) :=
  [(ComparisonOp.GREATER_THAN, "GREATER_THAN"); (ComparisonOp.LESS_THAN, "LESS_THAN");
   (ComparisonOp.MIN_IMPROVEMENT, "MIN_IMPROVEMENT");
   (ComparisonOp.MAX_REGRESSION_TOLERANCE, "MAX_REGRESSION_TOLERANCE");
   (ComparisonOp.TARGET_RANGE, "TARGET_RANGE"); (ComparisonOp.MAJORITY_WINS, "MAJORITY_WINS");
   (ComparisonOp.REPORT_ONLY, "REPORT_ONLY")]%string.
Definition kDecisionOutcomes : list (DecisionOutcome * string) :=
  [(DecisionOutcome.ACCEPT, "ACCEPT"); (DecisionOutcome.REJECT, "REJECT");
   (DecisionOutcome.INCONCLUSIVE, "INCONCLUSIVE");
   (DecisionOutcome.INSUFFICIENT_EVIDENCE, "INSUFFICIENT_EVIDENCE");
   (DecisionOutcome.INVALID, "INVALID"); (DecisionOutcome.CANCELLED, "CANCELLED");
   (DecisionOutcome.SUPERSEDED, "SUPERSEDED")]%string.
Definition kFailureKinds : list (FailureKind * string) :=
  [(FailureKind.NONE, "NONE"); (FailureKind.EXECUTION_FAILURE, "EXECUTION_FAILURE");
   (FailureKind.INVALID_OBSERVATION, "INVALID_OBSERVATION");
   (FailureKind.PRODUCER_LOSS, "PRODUCER_LOSS");
   (FailureKind.TRANSPORT_FAILURE, "TRANSPORT_FAILURE");
   (FailureKind.CANCELLATION, "CANCELLATION");
   (FailureKind.POLICY_REJECTION, "POLICY_REJECTION");
   (FailureKind.INSUFFICIENT_EVIDENCE, "INSUFFICIENT_EVIDENCE");
   (FailureKind.PERSISTENCE_FAILURE, "PERSISTENCE_FAILURE");
   (FailureKind.EXPERIMENT_INVALIDATION, "EXPERIMENT_INVALIDATION");
   (FailureKind.LIMIT_EXCEEDED, "LIMIT_EXCEEDED")]%string.
Definition kReproducibilityStatuses : list (ReproducibilityStatus * string) :=
  [(ReproducibilityStatus.REPRODUCIBLE, "REPRODUCIBLE");
   (ReproducibilityStatus.PARTIALLY_REPRODUCIBLE, "PARTIALLY_REPRODUCIBLE");
   (ReproducibilityStatus.NOT_REPRODUCIBLE, "NOT_REPRODUCIBLE");
   (ReproducibilityStatus.UNKNOWN, "UNKNOWN")]%string.
Definition kSeedPolicies : list (SeedPolicy * string) :=
  [(SeedPolicy.FIXED, "FIXED"); (SeedPolicy.DERIVED_PER_TRIAL, "DERIVED_PER_TRIAL");
   (SeedPolicy.PRODUCER_SUPPLIED, "PRODUCER_SUPPLIED"); (SeedPolicy.NONE, "NONE")]%string.
Definition kRetryPolicies : list (RetryPolicy * string) :=
  [(RetryPolicy.FRESH_ATTEMPT_SAME_TRIAL, "FRESH_ATTEMPT_SAME_TRIAL");
   (RetryPolicy.NEW_TRIAL_IDENTITY, "NEW_TRIAL_IDENTITY"); (RetryPolicy.NO_RETRY, "NO_RETRY")]%string.
Definition kPartialFailurePolicies : list (PartialFailurePolicy * string) :=
  [(PartialFailurePolicy.TOLERATE_IF_EVIDENCE_SUFFICIENT, "TOLERATE_IF_EVIDENCE_SUFFICIENT");
   (PartialFailurePolicy.INVALIDATE_BRANCH, "INVALIDATE_BRANCH");
   (PartialFailurePolicy.RETRY_ALLOWED, "RETRY_ALLOWED")]%string.
Definition kLateEvidencePolicies : list (LateEvidencePolicy * string) :=
  [(LateEvidencePolicy.REJECT_AND_RECORD, "REJECT_AND_RECORD");
   (LateEvidencePolicy.RETAIN_HISTORICAL, "RETAIN_HISTORICAL")]%string.
Definition kProvenances : list (Provenance * string) :=
  [(Provenance.REAL, "REAL"); (Provenance.SYNTHETIC, "SYNTHETIC");
   (Provenance.UNSUPPORTED, "UNSUPPORTED")]%string.

Definition parameter_kind_to_string (v : ParameterKind) : string := nt_lookup "UNKNOWN" kParameterKinds v.
Definition parse_parameter_kind (name : string) : option ParameterKind := nt_reverse kParameterKinds name.
Definition trial_state_to_string (v : TrialState) : string := nt_lookup "UNKNOWN" kTrialStates v.
Definition parse_trial_state (name : string) : option TrialState := nt_reverse kTrialStates name.
Definition experiment_state_to_string (v : ExperimentState) : string := nt_lookup "UNKNOWN" kExperimentStates v.
Definition parse_experiment_state (name : string) : option ExperimentState := nt_reverse kExperimentStates name.
Definition branch_state_to_string (v : BranchState) : string := nt_lookup "UNKNOWN" kBranchStates v.
Definition parse_branch_state (name : string) : option BranchState := nt_reverse kBranchStates name.
Definition branch_role_to_string (v : BranchRole) : string := nt_lookup "UNKNOWN" kBranchRoles v.
Definition parse_branch_role (name : string) : option BranchRole := nt_reverse kBranchRoles name.
Definition attempt_state_to_string (v : AttemptState) : string := nt_lookup "UNKNOWN" kAttemptStates v.
Definition parse_attempt_state (name : string) : option AttemptState := nt_reverse kAttemptStates name.
Definition metric_kind_to_string (v : MetricKind) : string := nt_lookup "UNKNOWN" kMetricKinds v.
Definition parse_metric_kind (name : string) : option MetricKind := nt_reverse kMetricKinds name.
Definition metric_direction_to_string (v : MetricDirection) : string := nt_lookup "UNKNOWN" kMetricDirections v.
Definition parse_metric_direction (name : string) : option MetricDirection := nt_reverse kMetricDirections name.
Definition aggregation_rule_to_string (v : AggregationRule) : string := nt_lookup "UNKNOWN" kAggregationRules v.
Definition parse_aggregation_rule (name : string) : option AggregationRule := nt_reverse kAggregationRules name.
Definition observation_validity_to_string (v : ObservationValidity) : string := nt_lookup "UNKNOWN" kObservationValidities v.
Definition parse_observation_validity (name : string) : option ObservationValidity := nt_reverse kObservationValidities name.
Definition comparison_op_to_string (v : ComparisonOp) : string := nt_lookup "UNKNOWN" kComparisonOps v.
Definition parse_comparison_op (name : string) : option ComparisonOp := nt_reverse kComparisonOps name.
Definition decision_outcome_to_string (v : DecisionOutcome) : string := nt_lookup "UNKNOWN" kDecisionOutcomes v.
Definition parse_decision_outcome (name : string) : option DecisionOutcome := nt_reverse kDecisionOutcomes name.
Definition failure_kind_to_string (v : FailureKind) : string := nt_lookup "UNKNOWN" kFailureKinds v.
Definition parse_failure_kind (name : string) : option FailureKind := nt_reverse kFailureKinds name.
Definition reproducibility_status_to_string (v : ReproducibilityStatus) : string := nt_lookup "UNKNOWN" kReproducibilityStatuses v.
Definition parse_reproducibility_status (name : string) : option ReproducibilityStatus := nt_reverse kReproducibilityStatuses name.
Definition seed_policy_to_string (v : SeedPolicy) : string := nt_lookup "UNKNOWN" kSeedPolicies v.
Definition parse_seed_policy (name : string) : option SeedPolicy := nt_reverse kSeedPolicies name.
Definition retry_policy_to_string (v : RetryPolicy) : string := nt_lookup "UNKNOWN" kRetryPolicies v.
Definition parse_retry_policy (name : string) : option RetryPolicy := nt_reverse kRetryPolicies name.
Definition partial_failure_policy_to_string (v : PartialFailurePolicy) : string := nt_lookup "UNKNOWN" kPartialFailurePolicies v.
Definition parse_partial_failure_policy (name : string) : option PartialFailurePolicy := nt_reverse kPartialFailurePolicies name.
Definition late_evidence_policy_to_string (v : LateEvidencePolicy) : string := nt_lookup "UNKNOWN" kLateEvidencePolicies v.
Definition parse_late_evidence_policy (name : string) : option LateEvidencePolicy := nt_reverse kLateEvidencePolicies name.
Definition provenance_to_string (v : Provenance) : string := nt_lookup "UNKNOWN" kProvenances v.
Definition parse_provenance (name : string) : option Provenance := nt_reverse kProvenances name.

(** ** Stable numbers

    [static_cast<std::uint8_t>] of an enumerator: the value that crosses the
    persistence and transport boundaries. *)

Definition parameter_kind_code (v : ParameterKind) : Z :=
  match v with
  | ParameterKind.TEXT => 0 | ParameterKind.INTEGER => 1 | ParameterKind.REAL => 2
  | ParameterKind.BOOLEAN => 3
  end.
Definition trial_state_code (v : TrialState) : Z :=
  match v with
  | TrialState.CREATED => 0 | TrialState.READY => 1 | TrialState.ASSIGNED => 2
  | TrialState.RUNNING => 3 | TrialState.OBSERVING => 4 | TrialState.COMPLETED => 5
  | TrialState.FAILED => 6 | TrialState.CANCELLED => 7 | TrialState.INVALID => 8
  | TrialState.SUPERSEDED => 9 | TrialState.REVALIDATION_REQUIRED => 10
  end.
Definition experiment_state_code (v : ExperimentState) : Z :=
  match v with
  | ExperimentState.OPEN => 0 | ExperimentState.FINALIZED => 1 | ExperimentState.CANCELLED => 2
  | ExperimentState.SUPERSEDED => 3 | ExperimentState.RECOVERING => 4
  end.
Definition branch_state_code (v : BranchState) : Z :=
  match v with
  | BranchState.ACTIVE => 0 | BranchState.RETIRED => 1 | BranchState.INVALID => 2
  | BranchState.SUPERSEDED => 3
  end.
Definition branch_role_code (v : BranchRole) : Z :=
  match v with
  | BranchRole.BASELINE => 0 | BranchRole.CANDIDATE => 1
  end.
Definition attempt_state_code (v : AttemptState) : Z :=
  match v with
  | AttemptState.ISSUED => 0 | AttemptState.RUNNING => 1 | AttemptState.PUBLISHED => 2
  | AttemptState.COMPLETED => 3 | AttemptState.FAILED => 4 | AttemptState.CANCELLED => 5
  | AttemptState.ABANDONED => 6 | AttemptState.REVALIDATION_REQUIRED => 7
  end.
Definition metric_kind_code (v : MetricKind) : Z :=
  match v with
  | MetricKind.REAL => 0 | MetricKind.INTEGER => 1 | MetricKind.BOOLEAN => 2
  | MetricKind.CATEGORICAL => 3
  end.
Definition metric_direction_code (v : MetricDirection) : Z :=
  match v with
  | MetricDirection.MINIMIZE => 0 | MetricDirection.MAXIMIZE => 1 | MetricDirection.TARGET => 2
  | MetricDirection.INFORMATIONAL => 3
  end.
Definition aggregation_rule_code (v : AggregationRule) : Z :=
  match v with
  | AggregationRule.NONE => 0 | AggregationRule.MEAN => 1 | AggregationRule.MEDIAN => 2
  | AggregationRule.MIN => 3 | AggregationRule.MAX => 4 | AggregationRule.SUM => 5
  | AggregationRule.MAJORITY => 6
  end.
Definition observation_validity_code (v : ObservationValidity) : Z :=
  match v with
  | ObservationValidity.VALID => 0 | ObservationValidity.INVALID => 1
  | ObservationValidity.MISSING => 2 | ObservationValidity.UNSUPPORTED => 3
  end.
Definition comparison_op_code (v : ComparisonOp) : Z :=
  match v with
  | ComparisonOp.GREATER_THAN => 0 | ComparisonOp.LESS_THAN => 1
  | ComparisonOp.MIN_IMPROVEMENT => 2 | ComparisonOp.MAX_REGRESSION_TOLERANCE => 3
  | ComparisonOp.TARGET_RANGE => 4 | ComparisonOp.MAJORITY_WINS => 5
  | ComparisonOp.REPORT_ONLY => 6
  end.
Definition decision_outcome_code (v : DecisionOutcome) : Z :=
  match v with
  | DecisionOutcome.ACCEPT => 0 | DecisionOutcome.REJECT => 1
  | DecisionOutcome.INCONCLUSIVE => 2 | DecisionOutcome.INSUFFICIENT_EVIDENCE => 3
  | DecisionOutcome.INVALID => 4 | DecisionOutcome.CANCELLED => 5
  | DecisionOutcome.SUPERSEDED => 6
  end.
Definition failure_kind_code (v : FailureKind) : Z :=
  match v with
  | FailureKind.NONE => 0 | FailureKind.EXECUTION_FAILURE => 1
  | FailureKind.INVALID_OBSERVATION => 2 | FailureKind.PRODUCER_LOSS => 3
  | FailureKind.TRANSPORT_FAILURE => 4 | FailureKind.CANCELLATION => 5
  | FailureKind.POLICY_REJECTION => 6 | FailureKind.INSUFFICIENT_EVIDENCE => 7
  | FailureKind.PERSISTENCE_FAILURE => 8 | FailureKind.EXPERIMENT_INVALIDATION => 9
  | FailureKind.LIMIT_EXCEEDED => 10
  end.
Definition reproducibility_status_code (v : ReproducibilityStatus) : Z :=
  match v with
  | ReproducibilityStatus.REPRODUCIBLE => 0 | ReproducibilityStatus.PARTIALLY_REPRODUCIBLE => 1
  | ReproducibilityStatus.NOT_REPRODUCIBLE => 2 | ReproducibilityStatus.UNKNOWN => 3
  end.
Definition seed_policy_code (v : SeedPolicy) : Z :=
  match v with
  | SeedPolicy.FIXED => 0 | SeedPolicy.DERIVED_PER_TRIAL => 1
  | SeedPolicy.PRODUCER_SUPPLIED => 2 | SeedPolicy.NONE => 3
  end.
Definition retry_policy_code (v : RetryPolicy) : Z :=
  match v with
  | RetryPolicy.FRESH_ATTEMPT_SAME_TRIAL => 0 | RetryPolicy.NEW_TRIAL_IDENTITY => 1
  | RetryPolicy.NO_RETRY => 2
  end.
Definition partial_failure_policy_code (v : PartialFailurePolicy) : Z :=
  match v with
  | PartialFailurePolicy.TOLERATE_IF_EVIDENCE_SUFFICIENT => 0
  | PartialFailurePolicy.INVALIDATE_BRANCH => 1 | PartialFailurePolicy.RETRY_ALLOWED => 2
  end.
Definition late_evidence_policy_code (v : LateEvidencePolicy) : Z :=
  match v with
  | LateEvidencePolicy.REJECT_AND_RECORD => 0 | LateEvidencePolicy.RETAIN_HISTORICAL => 1
  end.
Definition provenance_code (v : Provenance) : Z :=
  match v with
  | Provenance.REAL => 0 | Provenance.SYNTHETIC => 1 | Provenance.UNSUPPORTED => 2
  end.

(** ** Lifecycle predicates *)

Definition is_terminal (state : TrialState) : bool :=
  match state with
  | TrialState.COMPLETED | TrialState.FAILED | TrialState.CANCELLED | TrialState.INVALID
  | TrialState.SUPERSEDED => true
  | TrialState.CREATED | TrialState.READY | TrialState.ASSIGNED | TrialState.RUNNING
  | TrialState.OBSERVING | TrialState.REVALIDATION_REQUIRED => false
  end.

Definition is_trial_closed (state : TrialState) : bool := is_terminal state.

Definition is_experiment_mutable (state : ExperimentState) : bool :=
  bool_decide (state = ExperimentState.OPEN).

Definition is_attempt_terminal (state : AttemptState) : bool :=
  match state with
  | AttemptState.COMPLETED | AttemptState.FAILED | AttemptState.CANCELLED
  | AttemptState.ABANDONED => true
  | AttemptState.ISSUED | AttemptState.RUNNING | AttemptState.PUBLISHED
  | AttemptState.REVALIDATION_REQUIRED => false
  end.

Definition is_branch_eligible (state : BranchState) : bool :=
  bool_decide (state = BranchState.ACTIVE).

(** [is_valid_transition(TrialState, TrialState)]. *)
Definition is_valid_trial_transition (from to : TrialState) : bool :=
  if bool_decide (from = to) then false
  else if is_terminal from then
    bool_decide (to = TrialState.SUPERSEDED) && negb (bool_decide (from = TrialState.SUPERSEDED))
  else
    match from with
    | TrialState.CREATED =>
        bool_decide (to ∈ [TrialState.READY; TrialState.CANCELLED; TrialState.INVALID;
                           TrialState.SUPERSEDED; TrialState.REVALIDATION_REQUIRED])
    | TrialState.READY =>
        bool_decide (to ∈ [TrialState.ASSIGNED; TrialState.CANCELLED; TrialState.INVALID;
                           TrialState.SUPERSEDED; TrialState.REVALIDATION_REQUIRED])
    | TrialState.ASSIGNED =>
        bool_decide (to ∈ [TrialState.RUNNING; TrialState.OBSERVING; TrialState.READY;
                           TrialState.FAILED; TrialState.CANCELLED; TrialState.INVALID;
                           TrialState.SUPERSEDED; TrialState.REVALIDATION_REQUIRED])
    | TrialState.RUNNING =>
        bool_decide (to ∈ [TrialState.OBSERVING; TrialState.FAILED; TrialState.CANCELLED;
                           TrialState.INVALID; TrialState.SUPERSEDED;
                           TrialState.REVALIDATION_REQUIRED])
    | TrialState.OBSERVING =>
        bool_decide (to ∈ [TrialState.COMPLETED; TrialState.FAILED; TrialState.CANCELLED;
                           TrialState.INVALID; TrialState.SUPERSEDED;
                           TrialState.REVALIDATION_REQUIRED])
    | TrialState.REVALIDATION_REQUIRED =>
        bool_decide (to ∈ [TrialState.READY; TrialState.FAILED; TrialState.CANCELLED;
                           TrialState.INVALID; TrialState.SUPERSEDED])
    | _ => false
    end.

(** [is_valid_transition(AttemptState, AttemptState)]. *)
Definition is_valid_attempt_transition (from to : AttemptState) : bool :=
  if bool_decide (from = to) then false
  else if is_attempt_terminal from then false
  else
    match from with
    | AttemptState.ISSUED =>
        bool_decide (to ∈ [AttemptState.RUNNING; AttemptState.PUBLISHED; AttemptState.COMPLETED;
                           AttemptState.FAILED; AttemptState.CANCELLED; AttemptState.ABANDONED;
                           AttemptState.REVALIDATION_REQUIRED])
    | AttemptState.RUNNING =>
        bool_decide (to ∈ [AttemptState.PUBLISHED; AttemptState.COMPLETED; AttemptState.FAILED;
                           AttemptState.CANCELLED; AttemptState.ABANDONED;
                           AttemptState.REVALIDATION_REQUIRED])
    | AttemptState.PUBLISHED =>
        bool_decide (to ∈ [AttemptState.COMPLETED; AttemptState.FAILED; AttemptState.CANCELLED;
                           AttemptState.ABANDONED; AttemptState.REVALIDATION_REQUIRED])
    | AttemptState.REVALIDATION_REQUIRED =>
        bool_decide (to ∈ [AttemptState.FAILED; AttemptState.CANCELLED; AttemptState.ABANDONED])
    | _ => false
    end.

(** [is_valid_transition(ExperimentState, ExperimentState)]. *)
Definition is_valid_experiment_transition (from to : ExperimentState) : bool :=
  if bool_decide (from = to) then false
  else
    match from with
    | ExperimentState.OPEN =>
        bool_decide (to ∈ [ExperimentState.FINALIZED; ExperimentState.CANCELLED;
                           ExperimentState.SUPERSEDED; ExperimentState.RECOVERING])
    | ExperimentState.RECOVERING =>
        bool_decide (to ∈ [ExperimentState.OPEN; ExperimentState.CANCELLED;
                           ExperimentState.SUPERSEDED])
    | ExperimentState.FINALIZED | ExperimentState.CANCELLED | ExperimentState.SUPERSEDED =>
        bool_decide (to = ExperimentState.SUPERSEDED)
        && negb (bool_decide (from = ExperimentState.SUPERSEDED))
    end.

(** [is_valid_transition(BranchState, BranchState)]. *)
Definition is_valid_branch_transition (from to : BranchState) : bool :=
  if bool_decide (from = to) then false
  else
    match from with
    | BranchState.ACTIVE =>
        bool_decide (to ∈ [BranchState.RETIRED; BranchState.INVALID; BranchState.SUPERSEDED])
    | BranchState.RETIRED => bool_decide (to ∈ [BranchState.ACTIVE; BranchState.SUPERSEDED])
    | BranchState.INVALID => bool_decide (to = BranchState.SUPERSEDED)
    | BranchState.SUPERSEDED => false
    end.

Definition invalid_transition_status (what from to : string) : Status :=
  make_error ErrorCode.INVALID_TRANSITION ErrorStage.LIFECYCLE
    (what +:+ ": invalid transition " +:+ from +:+ " -> " +:+ to)%string.

(** ** Reachability in a transition graph *)

(** The states reachable through a transition predicate, one or more steps. *)
Inductive lifecycle_path {S : Type} (valid : S -> S -> bool) : S -> S -> Prop :=
| path_one a b : valid a b = true -> lifecycle_path valid a b
| path_step a b c : valid a b = true -> lifecycle_path valid b c -> lifecycle_path valid a c.

(** Enumerations are finite: a statement over their values is decided by
    going through them. *)
Ltac by_cases_on_enums :=
  repeat match goal with
  | v : TrialState |- _ => destruct v
  | v : AttemptState |- _ => destruct v
  | v : ExperimentState |- _ => destruct v
  | v : BranchState |- _ => destruct v
  end.

(** ** Properties *)

(** What an enumeration promises its printers and parsers: every value is
    listed, under a name of its own. *)
Class NamedEnum (E : Type) `{EqDecision E} := {
  ne_table : list (E * string);
  ne_bijective : nt_bijective ne_table = true;
  ne_listed : forall e : E, e ∈ map fst ne_table
}.

Ltac named_enum t :=
  refine {| ne_table := t |};
  [vm_compute; reflexivity
  |intros []; apply list_elem_of_In; simpl; tauto].

Lemma named_enum_spec {E} `{NamedEnum E} (fallback name : string) (e : E) :
  nt_reverse ne_table name = Some e <-> nt_lookup fallback ne_table e = name.
Proof.
  split.
  - apply nt_reverse_sound, ne_bijective.
  - intros <-. apply nt_roundtrip; [apply ne_bijective|apply ne_listed].
Qed.

#[export] Instance ParameterKind_named : NamedEnum ParameterKind.
Proof. named_enum kParameterKinds. Defined.
#[export] Instance TrialState_named : NamedEnum TrialState.
Proof. named_enum kTrialStates. Defined.
#[export] Instance ExperimentState_named : NamedEnum ExperimentState.
Proof. named_enum kExperimentStates. Defined.
#[export] Instance BranchState_named : NamedEnum BranchState.
Proof. named_enum kBranchStates. Defined.
#[export] Instance BranchRole_named : NamedEnum BranchRole.
Proof. named_enum kBranchRoles. Defined.
#[export] Instance AttemptState_named : NamedEnum AttemptState.
Proof. named_enum kAttemptStates. Defined.
#[export] Instance MetricKind_named : NamedEnum MetricKind.
Proof. named_enum kMetricKinds. Defined.
#[export] Instance MetricDirection_named : NamedEnum MetricDirection.
Proof. named_enum kMetricDirections. Defined.
#[export] Instance AggregationRule_named : NamedEnum AggregationRule.
Proof. named_enum kAggregationRules. Defined.
#[export] Instance ObservationValidity_named : NamedEnum ObservationValidity.
Proof. named_enum kObservationValidities. Defined.
#[export] Instance ComparisonOp_named : NamedEnum ComparisonOp.
Proof. named_enum kComparisonOps. Defined.
#[export] Instance DecisionOutcome_named : NamedEnum DecisionOutcome.
Proof. named_enum kDecisionOutcomes. Defined.
#[export] Instance FailureKind_named : NamedEnum FailureKind.
Proof. named_enum kFailureKinds. Defined.
#[export] Instance ReproducibilityStatus_named : NamedEnum ReproducibilityStatus.
Proof. named_enum kReproducibilityStatuses. Defined.
#[export] Instance SeedPolicy_named : NamedEnum SeedPolicy.
Proof. named_enum kSeedPolicies. Defined.
#[export] Instance RetryPolicy_named : NamedEnum RetryPolicy.
Proof. named_enum kRetryPolicies. Defined.
#[export] Instance PartialFailurePolicy_named : NamedEnum PartialFailurePolicy.
Proof. named_enum kPartialFailurePolicies. Defined.
#[export] Instance LateEvidencePolicy_named : NamedEnum LateEvidencePolicy.
Proof. named_enum kLateEvidencePolicies. Defined.
#[export] Instance Provenance_named : NamedEnum Provenance.
Proof. named_enum kProvenances. Defined.

(** For every domain enumeration a name parses to a value exactly when it
    is the name that value prints as, so printing followed by parsing is the
    identity and unknown names are refused. *)
Theorem domain_names_roundtrip (name : string) :
  (forall v, parse_parameter_kind name = Some v <-> parameter_kind_to_string v = name)
  /\ (forall v, parse_trial_state name = Some v <-> trial_state_to_string v = name)
  /\ (forall v, parse_experiment_state name = Some v <-> experiment_state_to_string v = name)
  /\ (forall v, parse_branch_state name = Some v <-> branch_state_to_string v = name)
  /\ (forall v, parse_branch_role name = Some v <-> branch_role_to_string v = name)
  /\ (forall v, parse_attempt_state name = Some v <-> attempt_state_to_string v = name)
  /\ (forall v, parse_metric_kind name = Some v <-> metric_kind_to_string v = name)
  /\ (forall v, parse_metric_direction name = Some v <-> metric_direction_to_string v = name)
  /\ (forall v, parse_aggregation_rule name = Some v <-> aggregation_rule_to_string v = name)
  /\ (forall v, parse_observation_validity name = Some v <-> observation_validity_to_string v = name)
  /\ (forall v, parse_comparison_op name = Some v <-> comparison_op_to_string v = name)
  /\ (forall v, parse_decision_outcome name = Some v <-> decision_outcome_to_string v = name)
  /\ (forall v, parse_failure_kind name = Some v <-> failure_kind_to_string v = name)
  /\ (forall v, parse_reproducibility_status name = Some v <-> reproducibility_status_to_string v = name)
  /\ (forall v, parse_seed_policy name = Some v <-> seed_policy_to_string v = name)
  /\ (forall v, parse_retry_policy name = Some v <-> retry_policy_to_string v = name)
  /\ (forall v, parse_partial_failure_policy name = Some v <-> partial_failure_policy_to_string v = name)
  /\ (forall v, parse_late_evidence_policy name = Some v <-> late_evidence_policy_to_string v = name)
  /\ (forall v, parse_provenance name = Some v <-> provenance_to_string v = name).
Proof. repeat apply conj; intros v; exact (named_enum_spec "UNKNOWN" name v). Qed.

Lemma trial_transition_irrefl s : is_valid_trial_transition s s = false.
Proof. by destruct s. Qed.

Lemma trial_transition_from_terminal from to :
  is_terminal from = true -> is_valid_trial_transition from to = true ->
  to = TrialState.SUPERSEDED /\ from <> TrialState.SUPERSEDED.
Proof. by_cases_on_enums; vm_compute; try discriminate; split; congruence. Qed.

Lemma experiment_transition_closed from to :
  from ∈ [ExperimentState.FINALIZED; ExperimentState.CANCELLED] ->
  is_valid_experiment_transition from to = true -> to = ExperimentState.SUPERSEDED.
Proof.
  rewrite list_elem_of_In. by_cases_on_enums; vm_compute; intuition discriminate.
Qed.

(** The transition predicates describe the documented lifecycles: along any
    chain of valid trial transitions a terminal state only moves to
    SUPERSEDED, which nothing leaves; COMPLETED is entered from OBSERVING
    alone; REVALIDATION_REQUIRED never moves straight to a progress state; a
    terminal attempt state has no successor; a finalized or cancelled
    experiment never becomes OPEN again; a superseded branch stays so. *)
Theorem lifecycle_graphs :
  (forall a b, lifecycle_path is_valid_trial_transition a b -> is_terminal a = true ->
     a <> TrialState.SUPERSEDED /\ b = TrialState.SUPERSEDED)
  /\ (forall a, is_valid_trial_transition a TrialState.COMPLETED = true -> a = TrialState.OBSERVING)
  /\ (forall b, is_valid_trial_transition TrialState.REVALIDATION_REQUIRED b = true ->
        b = TrialState.READY \/ is_terminal b = true /\ b <> TrialState.COMPLETED)
  /\ (forall a b, is_attempt_terminal a = true -> ~ lifecycle_path is_valid_attempt_transition a b)
  /\ (forall a b, lifecycle_path is_valid_experiment_transition a b ->
        a ∈ [ExperimentState.FINALIZED; ExperimentState.CANCELLED] -> b = ExperimentState.SUPERSEDED)
  /\ (forall b, ~ lifecycle_path is_valid_branch_transition BranchState.SUPERSEDED b).
Proof.
  repeat apply conj.
  - intros a b Hpath Hterm. revert Hterm. induction Hpath as [a b Hv|a b c Hv Hpath IH]; intros Hterm.
    + by destruct (trial_transition_from_terminal _ _ Hterm Hv).
    + destruct (trial_transition_from_terminal _ _ Hterm Hv) as [-> _]. by destruct IH.
  - intros a. by_cases_on_enums; vm_compute; congruence.
  - intros b. by_cases_on_enums; vm_compute; intuition congruence.
  - intros a b Hterm Hpath. destruct Hpath as [a b Hv|a b c Hv _]; revert Hterm Hv;
      by_cases_on_enums; vm_compute; congruence.
  - intros a b Hpath Ha. induction Hpath as [a b Hv|a b c Hv Hpath IH].
    + by eapply experiment_transition_closed.
    + pose proof (experiment_transition_closed _ _ Ha Hv) as ->.
      inversion Hpath as [? ? Hv'|? b' ? Hv' _]; subst; revert Hv'; by_cases_on_enums; vm_compute; congruence.
  - intros b Hpath. inversion Hpath as [? ? Hv|? b' ? Hv _]; subst; revert Hv; [destruct b|destruct b']; vm_compute; congruence.
Qed.
