(* ===== verification/Float64.v ===== *)
(** * Doubles

    Metric values, thresholds and aggregates are C++ [double]s, IEEE 754
    binary64 with round-to-nearest-even.  They are modelled by the standard
    library's specification floats at precision 53 and exponent bound 1024, so
    rounding, signed zeros, infinities and NaN behave as in the code and every
    operation evaluates.  NaN payloads, which no operation of the program
    inspects, are identified. *)
From S2P Require Import Prelude.
From Stdlib Require Export SpecFloat.

Abbreviation double := spec_float.

Definition double_zero : double := S754_zero false.
Definition double_one : double := S754_finite false 4503599627370496 (-52).

(** The literal [1e-12], i.e. 0x1.19799812dea11p-40. *)
Definition double_1e_12 : double := S754_finite false 4951760157141521 (-92).

Definition dadd (x y : double) : double := SFadd 53 1024 x y.
Definition dsub (x y : double) : double := SFsub 53 1024 x y.
Definition dmul (x y : double) : double := SFmul 53 1024 x y.
Definition ddiv (x y : double) : double := SFdiv 53 1024 x y.
Definition dneg (x : double) : double := SFopp x.
Definition dabs (x : double) : double := SFabs x.

(** [==], [<], [<=]: all false when an operand is NaN. *)
Definition deqb (x y : double) : bool := SFeqb x y.
Definition dltb (x y : double) : bool := SFltb x y.
Definition dleb (x y : double) : bool := SFleb x y.

(** [static_cast<double>] of an integer: round to nearest even. *)
Definition double_of_Z (z : Z) : double := binary_normalize 53 1024 z 0 false.

(** [std::isfinite]. *)
Definition is_finite (x : double) : bool :=
  match x with
  | S754_zero _ | S754_finite _ _ _ => true
  | S754_infinity _ | S754_nan => false
  end.

(** ** Comparison lemmas *)

Lemma dltb_irrefl x : dltb x x = false.
Proof.
  destruct x as [| | |s m e]; [done|by destruct s|done|].
  unfold dltb, SFltb, SFcompare. rewrite Z.compare_refl.
  destruct s; by rewrite Pos.compare_refl.
Qed.

Lemma deqb_refl x : x <> S754_nan -> deqb x x = true.
Proof.
  intros Hn. destruct x as [| | |s m e]; [done|by destruct s|done|].
  unfold deqb, SFeqb, SFcompare. rewrite Z.compare_refl.
  destruct s; by rewrite Pos.compare_refl.
Qed.

Lemma deqb_nan_l x : deqb S754_nan x = false.
Proof. reflexivity. Qed.

Example double_of_Z_1 : double_of_Z 1 = double_one.
Proof. reflexivity. Qed.
Example double_sum : ddiv (dadd (double_of_Z 1) (double_of_Z 2)) (double_of_Z 2)
                     = S754_finite false 6755399441055744 (-52).
Proof. vm_compute. reflexivity. Qed.
