(* ===== verification/Numbers.v ===== *)
(** * Numbers in text (std::stod, std::stoul, std::stoull)

    The applications read numbers with the standard library's conversions:
    leading white space and a sign are skipped, the longest prefix that is a
    number is taken and what follows it is ignored; no number, or one out of
    range, is an exception, [None] here.  The width of [unsigned long] and the
    value of a conversion the language leaves undefined are the platform's. *)
From S2P Require Import Prelude Identity Float64.
#[local] Open Scope Z_scope.

(** What the platform decides: the bits of [unsigned long], and the integer a
    double outside the range of [std::int64_t] is converted to. *)
Class Platform := {
  ulong_bits : Z;
  int64_undefined : double -> Z
}.

(** ** Scanning *)

Definition is_space (c : ascii) : bool := (char_code c =? 32) || ((9 <=? char_code c) && (char_code c <=? 13)).

Fixpoint skip_spaces (text : string) : string :=
  match text with
  | String c rest => if is_space c then skip_spaces rest else text
  | EmptyString => EmptyString
  end.

(** An optional sign: whether it is a minus, and the rest. *)
Definition take_sign (text : string) : bool * string :=
  match text with
  | String c rest => if Ascii.eqb c "-" then (true, rest) else if Ascii.eqb c "+" then (false, rest) else (false, text)
  | EmptyString => (false, text)
  end.

Definition lower (c : ascii) : ascii :=
  if (65 <=? char_code c) && (char_code c <=? 90) then ascii_of_N (Z.to_N (char_code c + 32)) else c.

(** The value of a digit in base 10 or 16. *)
Definition digit_value (base : Z) (c : ascii) : option Z :=
  let code := char_code (lower c) in
  let value := if (48 <=? code) && (code <=? 57) then code - 48
               else if (97 <=? code) && (code <=? 102) then code - 87 else base in
  if value <? base then Some value else None.

(** The digits at the front: their value after [value], how many, the rest. *)
Fixpoint take_digits (base value count : Z) (text : string) : Z * Z * string :=
  match text with
  | String c rest =>
      match digit_value base c with
      | Some d => take_digits base (value * base + d) (count + 1) rest
      | None => (value, count, text)
      end
  | EmptyString => (value, count, text)
  end.

(** The words of [strtod], in any case. *)
Fixpoint starts_with (word text : string) : bool :=
  match word, text with
  | EmptyString, _ => true
  | String w word, String c text => Ascii.eqb w (lower c) && starts_with word text
  | String _ _, EmptyString => false
  end.

(** ** Unsigned integers *)

(** [strtoul] in base 10: a minus negates the value in the unsigned type; a
    value that does not fit is out of range. *)
Definition strtoul (bits : Z) (text : string) : option Z :=
  let '(negative, text) := take_sign (skip_spaces text) in
  let '(value, count, _) := take_digits 10 0 0 text in
  if count =? 0 then None
  else if 2 ^ bits <=? value then None
  else Some (if negative then (- value) mod 2 ^ bits else value).

Definition stoul `{Platform} (text : string) : option Z := strtoul ulong_bits text.
Definition stoull (text : string) : option Z := strtoul 64 text.

(** ** Reals *)

(** The double nearest to [n / d]: the quotient to more than sixty bits, with
    a last bit that tells whether anything was cut off. *)
Definition double_of_ratio (negative : bool) (n d : Z) : double :=
  if n =? 0 then S754_zero negative
  else
    let shift := Z.log2 d - Z.log2 n + 64 in
    let n := if 0 <=? shift then Z.shiftl n shift else n in
    let d := if 0 <=? shift then d else Z.shiftl d (- shift) in
    let m := 2 * (n / d) + (if n mod d =? 0 then 0 else 1) in
    binary_normalize 53 1024 (if negative then - m else m) (- shift - 1) negative.

(** [m * base ^ e]. *)
Definition scaled (negative : bool) (m base e : Z) : double :=
  if 0 <=? e then double_of_ratio negative (m * base ^ e) 1 else double_of_ratio negative m (base ^ (- e)).

(** Digits, a point and digits: the digits read as one number, how many stand
    behind the point, how many there are, and the rest. *)
Definition take_fraction (base : Z) (text : string) : Z * Z * Z * string :=
  let '(value, whole, rest) := take_digits base 0 0 text in
  match rest with
  | String c after =>
      if Ascii.eqb c "." then
        let '(value, all, rest) := take_digits base value whole after in (value, all - whole, all, rest)
      else (value, 0, whole, rest)
  | EmptyString => (value, 0, whole, rest)
  end.

(** The exponent after [mark], zero where there is none. *)
Definition take_exponent (mark : ascii) (text : string) : Z :=
  match text with
  | String c rest =>
      if Ascii.eqb (lower c) mark then
        let '(negative, rest) := take_sign rest in
        let '(value, _, _) := take_digits 10 0 0 rest in
        if negative then - value else value
      else 0
  | EmptyString => 0
  end.

(** [strtod] on an unsigned text; [None] where it converts nothing. *)
Definition strtod_unsigned (negative : bool) (text : string) : option double :=
  let hexadecimal :=
    if starts_with "0x" text then
      let '(value, behind, count, rest) := take_fraction 16 (String.substring 2 (String.length text) text) in
      if count =? 0 then None else Some (scaled negative value 2 (take_exponent "p" rest - 4 * behind))
    else None in
  if starts_with "inf" text then Some (S754_infinity negative)
  else if starts_with "nan" text then Some S754_nan
  else
    match hexadecimal with
    | Some value => Some value
    | None =>
        let '(value, behind, count, rest) := take_fraction 10 text in
        if count =? 0 then None else Some (scaled negative value 10 (take_exponent "e" rest - behind))
    end.

(** The result is out of range when a finite number becomes infinite, or one
    other than zero falls below the normal numbers. *)
Definition out_of_range (infinite : bool) (text : string) (value : double) : bool :=
  match value with
  | S754_infinity _ => negb infinite
  | S754_finite _ m e => (Z.log2 (Zpos m) <? 52) && (e =? -1074)
  | S754_zero _ =>
      let '(digits, _, _, _) :=
        take_fraction (if starts_with "0x" text then 16 else 10)
          (if starts_with "0x" text then String.substring 2 (String.length text) text else text) in
      negb (digits =? 0)
  | S754_nan => false
  end.

(** [std::stod]. *)
Definition stod (text : string) : option double :=
  let '(negative, text) := take_sign (skip_spaces text) in
  match strtod_unsigned negative text with
  | None => None
  | Some value => if out_of_range (starts_with "inf" text) text value then None else Some value
  end.

(** The integer part of a double, where there is one. *)
Definition truncate (x : double) : option Z :=
  match x with
  | S754_zero _ => Some 0
  | S754_finite negative m e =>
      let magnitude := if 0 <=? e then Z.shiftl (Zpos m) e else Z.shiftr (Zpos m) (- e) in
      Some (if negative then - magnitude else magnitude)
  | S754_infinity _ | S754_nan => None
  end.

(** [static_cast<std::int64_t>]. *)
Definition int64_cast `{Platform} (x : double) : Z :=
  match truncate x with
  | Some z => if (- 2 ^ 63 <=? z) && (z <? 2 ^ 63) then z else int64_undefined x
  | None => int64_undefined x
  end.

(** ** Examples *)

Example stod_integer : stod "120" = Some (double_of_Z 120).
Proof. reflexivity. Qed.
Example stod_fraction : stod " -0.02e0xyz" = Some (S754_finite true 5764607523034235 (-58)).
Proof. reflexivity. Qed.
Example stod_tenth : stod ".1" = Some (ddiv (double_of_Z 1) (double_of_Z 10)).
Proof. reflexivity. Qed.
Example stod_small : stod "1e-12" = Some double_1e_12.
Proof. reflexivity. Qed.
Example stod_hexadecimal : stod "0x1.19799812dea11p-40" = Some double_1e_12.
Proof. reflexivity. Qed.
Example stod_none : stod "true" = None.
Proof. reflexivity. Qed.
Example stod_huge : stod "1e400" = None /\ stod "-1e-400" = None /\ stod "0e-400" = Some (S754_zero false).
Proof. by split_and!. Qed.
Example stod_infinite : stod "-Infinity" = Some (S754_infinity true).
Proof. reflexivity. Qed.
Example stoull_wraps : stoull "-1" = Some u64_max.
Proof. reflexivity. Qed.
Example stoull_range : stoull "18446744073709551616" = None /\ stoull "12 apples" = Some 12 /\ stoull "port" = None.
Proof. by split_and!. Qed.
