(* ===== verification/Model.v ===== *)
(** * The governed object model (model.hpp, limits.hpp, authority.hpp)

    Each struct of the model is a record whose fields carry the struct's
    member names behind a prefix, with its default member initialisers as
    [default_*].  Identities and counters are [Z] (64-bit values), text is
    [string], a digest is its list of bytes.  [Hypothesis] is a keyword of the
    proof language; the struct is [HypothesisRec] here.  The file also holds
    the pure helpers of model.cpp, the limits and the authority envelope. *)
From S2P Require Import Prelude OMap Error Domain Float64.

(** [Sha256::Digest]: 32 bytes. *)
Definition Digest : Type := list Z.
Definition zero_digest : Digest := repeat 0 32.

Record ParameterAssignment := mkParameterAssignment {
  param_key : string;
  param_kind : ParameterKind;
  param_value : string
}.
#[export] Instance etaParameterAssignment : Eta ParameterAssignment := fun r =>
  mkParameterAssignment
    (param_key r) (param_kind r) (param_value r).
Definition default_ParameterAssignment : ParameterAssignment :=
  mkParameterAssignment ""
    ParameterKind.TEXT "".

Record HypothesisRec := mkHypothesisRec {
  hyp_id : Z;
  hyp_revision : Z;
  hyp_statement : string;
  hyp_expected_direction : option MetricDirection;
  hyp_expected_metric : Z;
  hyp_parent : Z;
  hyp_parent_revision : Z;
  hyp_superseded : bool;
  hyp_superseded_by_revision : Z;
  hyp_provenance : string;
  hyp_created_sequence : Z
}.
#[export] Instance etaHypothesisRec : Eta HypothesisRec := fun r =>
  mkHypothesisRec (hyp_id r)
    (hyp_revision r) (hyp_statement r) (hyp_expected_direction r) (hyp_expected_metric r)
    (hyp_parent r) (hyp_parent_revision r) (hyp_superseded r) (hyp_superseded_by_revision r)
    (hyp_provenance r) (hyp_created_sequence r).
Definition default_HypothesisRec : HypothesisRec :=
  mkHypothesisRec 0 0 "" None 0 0 0 false 0 ""
    0.

Record MetricDefinition := mkMetricDefinition {
  metric_id : Z;
  metric_name : string;
  metric_unit : string;
  metric_kind : MetricKind;
  metric_direction : MetricDirection;
  metric_aggregation : AggregationRule;
  metric_required : bool;
  metric_accepts_non_finite : bool;
  metric_lower_bound : option double;
  metric_upper_bound : option double;
  metric_target_low : option double;
  metric_target_high : option double;
  metric_weight : Z;
  metric_priority : Z;
  metric_categories : list string
}.
#[export] Instance etaMetricDefinition : Eta MetricDefinition := fun r =>
  mkMetricDefinition
    (metric_id r) (metric_name r) (metric_unit r) (metric_kind r) (metric_direction r)
    (metric_aggregation r) (metric_required r) (metric_accepts_non_finite r)
    (metric_lower_bound r) (metric_upper_bound r) (metric_target_low r) (metric_target_high r)
    (metric_weight r) (metric_priority r) (metric_categories r).
Definition default_MetricDefinition : MetricDefinition :=
  mkMetricDefinition 0 "" ""
    MetricKind.REAL MetricDirection.MINIMIZE AggregationRule.MEAN true false None None None None 1
    0 [].

Record MetricValue := mkMetricValue {
  mv_kind : MetricKind;
  mv_real : double;
  mv_integer : Z;
  mv_boolean : bool;
  mv_category : string
}.
#[export] Instance etaMetricValue : Eta MetricValue := fun r =>
  mkMetricValue (mv_kind r)
    (mv_real r) (mv_integer r) (mv_boolean r) (mv_category r).
Definition default_MetricValue : MetricValue :=
  mkMetricValue MetricKind.REAL double_zero 0
    false "".

Record ComparisonRule := mkComparisonRule {
  rule_metric : Z;
  rule_op : ComparisonOp;
  rule_threshold : double;
  rule_target_low : double;
  rule_target_high : double;
  rule_priority : Z
}.
#[export] Instance etaComparisonRule : Eta ComparisonRule := fun r =>
  mkComparisonRule
    (rule_metric r) (rule_op r) (rule_threshold r) (rule_target_low r) (rule_target_high r)
    (rule_priority r).
Definition default_ComparisonRule : ComparisonRule :=
  mkComparisonRule 0
    ComparisonOp.MIN_IMPROVEMENT double_zero double_zero double_zero 0.

Record ComparisonPolicy := mkComparisonPolicy {
  policy_id : Z;
  policy_generation : Z;
  policy_require_baseline : bool;
  policy_min_completed_trials_per_branch : Z;
  policy_min_valid_observations_per_required_metric : Z;
  policy_reject_on_any_invalid_observation : bool;
  policy_require_environment_match : bool;
  policy_majority_wins_min_basis_points : Z;
  policy_use_weighted_score : bool;
  policy_accept_score_threshold : double;
  policy_rules : list ComparisonRule
}.
#[export] Instance etaComparisonPolicy : Eta ComparisonPolicy := fun r =>
  mkComparisonPolicy
    (policy_id r) (policy_generation r) (policy_require_baseline r)
    (policy_min_completed_trials_per_branch r)
    (policy_min_valid_observations_per_required_metric r)
    (policy_reject_on_any_invalid_observation r) (policy_require_environment_match r)
    (policy_majority_wins_min_basis_points r) (policy_use_weighted_score r)
    (policy_accept_score_threshold r) (policy_rules r).
Definition default_ComparisonPolicy : ComparisonPolicy :=
  mkComparisonPolicy 0 0 true 1 1 false
    true 5000 false double_zero [].

Record BranchDefinition := mkBranchDefinition {
  branch_id : Z;
  branch_name : string;
  branch_role : BranchRole;
  branch_parent : Z;
  branch_generation : Z;
  branch_state : BranchState;
  branch_parameters : list ParameterAssignment;
  branch_input_set : Z;
  branch_input_set_present : bool;
  branch_environment : Z;
  branch_environment_present : bool;
  branch_environment_fingerprint : string;
  branch_seed : option Z;
  branch_planned_trials : Z;
  branch_created_sequence : Z;
  branch_forked : bool
}.
#[export] Instance etaBranchDefinition : Eta BranchDefinition := fun r =>
  mkBranchDefinition
    (branch_id r) (branch_name r) (branch_role r) (branch_parent r) (branch_generation r)
    (branch_state r) (branch_parameters r) (branch_input_set r) (branch_input_set_present r)
    (branch_environment r) (branch_environment_present r) (branch_environment_fingerprint r)
    (branch_seed r) (branch_planned_trials r) (branch_created_sequence r) (branch_forked r).
Definition default_BranchDefinition : BranchDefinition :=
  mkBranchDefinition 0 ""
    BranchRole.CANDIDATE 0 0 BranchState.ACTIVE [] 0 false 0 false "" None 1 0 false.

Record ExperimentDefinition := mkExperimentDefinition {
  def_id : Z;
  def_generation : Z;
  def_hypothesis : Z;
  def_hypothesis_revision : Z;
  def_name : string;
  def_branches : list BranchDefinition;
  def_metrics : list MetricDefinition;
  def_policy : ComparisonPolicy;
  def_seed_policy : SeedPolicy;
  def_experiment_seed : option Z;
  def_retry_policy : RetryPolicy;
  def_max_attempts_per_trial : Z;
  def_partial_failure_policy : PartialFailurePolicy;
  def_late_evidence_policy : LateEvidencePolicy;
  def_parameters : list ParameterAssignment;
  def_provenance : string;
  def_created_sequence : Z
}.
#[export] Instance etaExperimentDefinition : Eta ExperimentDefinition := fun r =>
  mkExperimentDefinition
    (def_id r) (def_generation r) (def_hypothesis r) (def_hypothesis_revision r) (def_name r)
    (def_branches r) (def_metrics r) (def_policy r) (def_seed_policy r) (def_experiment_seed r)
    (def_retry_policy r) (def_max_attempts_per_trial r) (def_partial_failure_policy r)
    (def_late_evidence_policy r) (def_parameters r) (def_provenance r) (def_created_sequence r).
Definition default_ExperimentDefinition : ExperimentDefinition :=
  mkExperimentDefinition 0 0 0 0
    "" [] [] default_ComparisonPolicy SeedPolicy.DERIVED_PER_TRIAL None
    RetryPolicy.FRESH_ATTEMPT_SAME_TRIAL 2 PartialFailurePolicy.TOLERATE_IF_EVIDENCE_SUFFICIENT
    LateEvidencePolicy.REJECT_AND_RECORD [] "" 0.

Record TrialRecord := mkTrialRecord {
  trial_id : Z;
  trial_experiment : Z;
  trial_generation : Z;
  trial_branch : Z;
  trial_branch_generation : Z;
  trial_hypothesis : Z;
  trial_hypothesis_revision : Z;
  trial_policy : Z;
  trial_policy_generation : Z;
  trial_state : TrialState;
  trial_authoritative_attempt : Z;
  trial_next_attempt_number : Z;
  trial_attempt_count : Z;
  trial_committed_attempts : Z;
  trial_failure_kind : FailureKind;
  trial_failure_detail : string;
  trial_seed : option Z;
  trial_input_set : Z;
  trial_input_set_present : bool;
  trial_environment : Z;
  trial_environment_present : bool;
  trial_environment_fingerprint : string;
  trial_artifacts : list Z;
  trial_payload : string;
  trial_created_sequence : Z;
  trial_updated_sequence : Z
}.
#[export] Instance etaTrialRecord : Eta TrialRecord := fun r =>
  mkTrialRecord (trial_id r)
    (trial_experiment r) (trial_generation r) (trial_branch r) (trial_branch_generation r)
    (trial_hypothesis r) (trial_hypothesis_revision r) (trial_policy r)
    (trial_policy_generation r) (trial_state r) (trial_authoritative_attempt r)
    (trial_next_attempt_number r) (trial_attempt_count r) (trial_committed_attempts r)
    (trial_failure_kind r) (trial_failure_detail r) (trial_seed r) (trial_input_set r)
    (trial_input_set_present r) (trial_environment r) (trial_environment_present r)
    (trial_environment_fingerprint r) (trial_artifacts r) (trial_payload r)
    (trial_created_sequence r) (trial_updated_sequence r).
Definition default_TrialRecord : TrialRecord :=
  mkTrialRecord 0 0 0 0 0 0 0 0 0
    TrialState.CREATED 0 1 0 0 FailureKind.NONE "" None 0 false 0 false "" [] "" 0 0.

Record AttemptRecord := mkAttemptRecord {
  attempt_id : Z;
  attempt_number : Z;
  attempt_trial : Z;
  attempt_experiment : Z;
  attempt_generation : Z;
  attempt_branch : Z;
  attempt_branch_generation : Z;
  attempt_worker : Z;
  attempt_boot : Z;
  attempt_epoch : Z;
  attempt_producer : Z;
  attempt_state : AttemptState;
  attempt_failure_kind : FailureKind;
  attempt_failure_detail : string;
  attempt_committed : bool;
  attempt_issued_sequence : Z;
  attempt_updated_sequence : Z
}.
#[export] Instance etaAttemptRecord : Eta AttemptRecord := fun r =>
  mkAttemptRecord
    (attempt_id r) (attempt_number r) (attempt_trial r) (attempt_experiment r)
    (attempt_generation r) (attempt_branch r) (attempt_branch_generation r) (attempt_worker r)
    (attempt_boot r) (attempt_epoch r) (attempt_producer r) (attempt_state r)
    (attempt_failure_kind r) (attempt_failure_detail r) (attempt_committed r)
    (attempt_issued_sequence r) (attempt_updated_sequence r).
Definition default_AttemptRecord : AttemptRecord :=
  mkAttemptRecord 0 0 0 0 0 0 0 0 0 0 0
    AttemptState.ISSUED FailureKind.NONE "" false 0 0.

Record Observation := mkObservation {
  obs_id : Z;
  obs_experiment : Z;
  obs_generation : Z;
  obs_branch : Z;
  obs_branch_generation : Z;
  obs_trial : Z;
  obs_attempt : Z;
  obs_metric : Z;
  obs_producer : Z;
  obs_worker : Z;
  obs_boot : Z;
  obs_epoch : Z;
  obs_validity : ObservationValidity;
  obs_value : MetricValue;
  obs_detail : string;
  obs_sequence : Z
}.
#[export] Instance etaObservation : Eta Observation := fun r =>
  mkObservation (obs_id r)
    (obs_experiment r) (obs_generation r) (obs_branch r) (obs_branch_generation r) (obs_trial r)
    (obs_attempt r) (obs_metric r) (obs_producer r) (obs_worker r) (obs_boot r) (obs_epoch r)
    (obs_validity r) (obs_value r) (obs_detail r) (obs_sequence r).
Definition default_Observation : Observation :=
  mkObservation 0 0 0 0 0 0 0 0 0 0 0 0
    ObservationValidity.VALID default_MetricValue "" 0.

Record ArtifactRecord := mkArtifactRecord {
  artifact_id : Z;
  artifact_experiment : Z;
  artifact_generation : Z;
  artifact_branch : Z;
  artifact_trial : Z;
  artifact_attempt : Z;
  artifact_category : string;
  artifact_locator : string;
  artifact_content_digest : Digest;
  artifact_digest_present : bool;
  artifact_size_present : bool;
  artifact_size_bytes : Z;
  artifact_provenance : string;
  artifact_current : bool;
  artifact_sequence : Z
}.
#[export] Instance etaArtifactRecord : Eta ArtifactRecord := fun r =>
  mkArtifactRecord
    (artifact_id r) (artifact_experiment r) (artifact_generation r) (artifact_branch r)
    (artifact_trial r) (artifact_attempt r) (artifact_category r) (artifact_locator r)
    (artifact_content_digest r) (artifact_digest_present r) (artifact_size_present r)
    (artifact_size_bytes r) (artifact_provenance r) (artifact_current r) (artifact_sequence r).
Definition default_ArtifactRecord : ArtifactRecord :=
  mkArtifactRecord 0 0 0 0 0 0 "" ""
    zero_digest false false 0 "" true 0.

Record MetricAggregate := mkMetricAggregate {
  agg_metric : Z;
  agg_rule : AggregationRule;
  agg_present : bool;
  agg_value : double;
  agg_category : string;
  agg_valid_count : Z;
  agg_invalid_count : Z;
  agg_missing_count : Z;
  agg_unsupported_count : Z;
  agg_raw_values : list double;
  agg_trial_order : list string
}.
#[export] Instance etaMetricAggregate : Eta MetricAggregate := fun r =>
  mkMetricAggregate
    (agg_metric r) (agg_rule r) (agg_present r) (agg_value r) (agg_category r) (agg_valid_count r)
    (agg_invalid_count r) (agg_missing_count r) (agg_unsupported_count r) (agg_raw_values r)
    (agg_trial_order r).
Definition default_MetricAggregate : MetricAggregate :=
  mkMetricAggregate 0 AggregationRule.MEAN
    false double_zero "" 0 0 0 0 [] [].

Record BranchEvidence := mkBranchEvidence {
  ev_branch : Z;
  ev_generation : Z;
  ev_role : BranchRole;
  ev_state : BranchState;
  ev_planned_trials : Z;
  ev_completed_trials : Z;
  ev_failed_trials : Z;
  ev_cancelled_trials : Z;
  ev_invalid_trials : Z;
  ev_superseded_trials : Z;
  ev_open_trials : Z;
  ev_aggregates : list MetricAggregate
}.
#[export] Instance etaBranchEvidence : Eta BranchEvidence := fun r =>
  mkBranchEvidence
    (ev_branch r) (ev_generation r) (ev_role r) (ev_state r) (ev_planned_trials r)
    (ev_completed_trials r) (ev_failed_trials r) (ev_cancelled_trials r) (ev_invalid_trials r)
    (ev_superseded_trials r) (ev_open_trials r) (ev_aggregates r).
Definition default_BranchEvidence : BranchEvidence :=
  mkBranchEvidence 0 0 BranchRole.CANDIDATE
    BranchState.ACTIVE 0 0 0 0 0 0 0 [].

Record RejectedEvidence := mkRejectedEvidence {
  rej_kind : string;
  rej_identifier : Z;
  rej_reason : ErrorCode;
  rej_detail : string
}.
#[export] Instance etaRejectedEvidence : Eta RejectedEvidence := fun r =>
  mkRejectedEvidence
    (rej_kind r) (rej_identifier r) (rej_reason r) (rej_detail r).
Definition default_RejectedEvidence : RejectedEvidence :=
  mkRejectedEvidence "" 0 ErrorCode.OK
    "".

Record ComparisonFactor := mkComparisonFactor {
  factor_metric : Z;
  factor_op : ComparisonOp;
  factor_priority : Z;
  factor_threshold : double;
  factor_has_values : bool;
  factor_baseline_value : double;
  factor_candidate_value : double;
  factor_delta : double;
  factor_satisfied : bool;
  factor_decisive : bool;
  factor_detail : string
}.
#[export] Instance etaComparisonFactor : Eta ComparisonFactor := fun r =>
  mkComparisonFactor
    (factor_metric r) (factor_op r) (factor_priority r) (factor_threshold r) (factor_has_values r)
    (factor_baseline_value r) (factor_candidate_value r) (factor_delta r) (factor_satisfied r)
    (factor_decisive r) (factor_detail r).
Definition default_ComparisonFactor : ComparisonFactor :=
  mkComparisonFactor 0
    ComparisonOp.MIN_IMPROVEMENT 0 double_zero false double_zero double_zero double_zero false
    false "".

Record ConstraintResult := mkConstraintResult {
  constraint_name : string;
  constraint_passed : bool;
  constraint_detail : string
}.
#[export] Instance etaConstraintResult : Eta ConstraintResult := fun r =>
  mkConstraintResult
    (constraint_name r) (constraint_passed r) (constraint_detail r).
Definition default_ConstraintResult : ConstraintResult :=
  mkConstraintResult "" false "".

Record Decision := mkDecision {
  dec_id : Z;
  dec_experiment : Z;
  dec_generation : Z;
  dec_hypothesis : Z;
  dec_hypothesis_revision : Z;
  dec_policy : Z;
  dec_policy_generation : Z;
  dec_compared_branches : list Z;
  dec_baseline : Z;
  dec_baseline_present : bool;
  dec_candidate : Z;
  dec_outcome : DecisionOutcome;
  dec_reason_kind : FailureKind;
  dec_reason : string;
  dec_constraints : list ConstraintResult;
  dec_factors : list ComparisonFactor;
  dec_evidence : list BranchEvidence;
  dec_rejected_evidence : list RejectedEvidence;
  dec_tie_break_rule : string;
  dec_tied : bool;
  dec_canonical_state_digest : Digest;
  dec_sequence : Z
}.
#[export] Instance etaDecision : Eta Decision := fun r =>
  mkDecision (dec_id r)
    (dec_experiment r) (dec_generation r) (dec_hypothesis r) (dec_hypothesis_revision r)
    (dec_policy r) (dec_policy_generation r) (dec_compared_branches r) (dec_baseline r)
    (dec_baseline_present r) (dec_candidate r) (dec_outcome r) (dec_reason_kind r) (dec_reason r)
    (dec_constraints r) (dec_factors r) (dec_evidence r) (dec_rejected_evidence r)
    (dec_tie_break_rule r) (dec_tied r) (dec_canonical_state_digest r) (dec_sequence r).
Definition default_Decision : Decision :=
  mkDecision 0 0 0 0 0 0 0 [] 0 false 0
    DecisionOutcome.INSUFFICIENT_EVIDENCE FailureKind.INSUFFICIENT_EVIDENCE "" [] [] [] [] ""
    false zero_digest 0.

Record BranchAuthoritySnapshot := mkBranchAuthoritySnapshot {
  snap_branch : Z;
  snap_generation : Z;
  snap_state : BranchState
}.
#[export] Instance etaBranchAuthoritySnapshot : Eta BranchAuthoritySnapshot := fun r =>
  mkBranchAuthoritySnapshot
    (snap_branch r) (snap_generation r) (snap_state r).
Definition default_BranchAuthoritySnapshot : BranchAuthoritySnapshot :=
  mkBranchAuthoritySnapshot
    0 0 BranchState.ACTIVE.

Record RollbackPoint := mkRollbackPoint {
  point_id : Z;
  point_experiment : Z;
  point_generation : Z;
  point_restored_from : Z;
  point_decision : Z;
  point_decision_present : bool;
  point_state_digest : Digest;
  point_authority : list BranchAuthoritySnapshot;
  point_sequence : Z
}.
#[export] Instance etaRollbackPoint : Eta RollbackPoint := fun r =>
  mkRollbackPoint (point_id r)
    (point_experiment r) (point_generation r) (point_restored_from r) (point_decision r)
    (point_decision_present r) (point_state_digest r) (point_authority r) (point_sequence r).
Definition default_RollbackPoint : RollbackPoint :=
  mkRollbackPoint 0 0 0 0 0 false zero_digest
    [] 0.

(** ** Limits *)

Record Limits := mkLimits {
  max_experiments : Z;
  max_branches_per_experiment : Z;
  max_metrics_per_experiment : Z;
  max_trials_per_branch : Z;
  max_attempts_per_trial : Z;
  max_observations_per_trial : Z;
  max_artifacts_per_attempt : Z;
  max_observations_per_experiment : Z;
  max_artifacts_per_experiment : Z;
  max_decisions_per_experiment : Z;
  max_parameters_per_branch : Z;
  max_comparison_rules : Z;
  max_lineage_depth : Z;
  max_name_length : Z;
  max_unit_length : Z;
  max_statement_length : Z;
  max_payload_text_length : Z;
  max_locator_length : Z;
  max_provenance_length : Z;
  max_explanation_lines : Z;
  max_explanation_bytes : Z;
  max_state_file_bytes : Z;
  max_persisted_records : Z;
  max_persisted_string_bytes : Z;
  max_frame_payload_bytes : Z;
  max_connections : Z;
  max_inflight_frames_per_connection : Z;
  max_batch_items : Z;
  max_registered_workers : Z;
  max_concurrent_assignments_per_worker : Z;
  max_worker_threads : Z
}.
#[export] Instance etaLimits : Eta Limits := fun r =>
  mkLimits (max_experiments r)
    (max_branches_per_experiment r) (max_metrics_per_experiment r) (max_trials_per_branch r)
    (max_attempts_per_trial r) (max_observations_per_trial r) (max_artifacts_per_attempt r)
    (max_observations_per_experiment r) (max_artifacts_per_experiment r)
    (max_decisions_per_experiment r) (max_parameters_per_branch r) (max_comparison_rules r)
    (max_lineage_depth r) (max_name_length r) (max_unit_length r) (max_statement_length r)
    (max_payload_text_length r) (max_locator_length r) (max_provenance_length r)
    (max_explanation_lines r) (max_explanation_bytes r) (max_state_file_bytes r)
    (max_persisted_records r) (max_persisted_string_bytes r) (max_frame_payload_bytes r)
    (max_connections r) (max_inflight_frames_per_connection r) (max_batch_items r)
    (max_registered_workers r) (max_concurrent_assignments_per_worker r) (max_worker_threads r).
Definition default_Limits : Limits :=
  mkLimits 4096 256 128 4096 8 1024 256 1048576 65536 1024
    256 256 1024 128 32 4096 4096 1024 1024 4096 1048576 1073741824 4194304 1048576 1048576 128 64
    4096 256 64 64.

(** ** Authority envelope *)

Record AuthorityEnvelope := mkAuthorityEnvelope {
  env_epoch : Z;
  env_experiment : Z;
  env_generation : Z;
  env_hypothesis : Z;
  env_hypothesis_revision : Z;
  env_policy : Z;
  env_policy_generation : Z;
  env_branch : Z;
  env_branch_generation : Z;
  env_trial : Z;
  env_attempt : Z;
  env_worker : Z;
  env_boot : Z;
  env_producer : Z
}.
#[export] Instance etaAuthorityEnvelope : Eta AuthorityEnvelope := fun r =>
  mkAuthorityEnvelope
    (env_epoch r) (env_experiment r) (env_generation r) (env_hypothesis r)
    (env_hypothesis_revision r) (env_policy r) (env_policy_generation r) (env_branch r)
    (env_branch_generation r) (env_trial r) (env_attempt r) (env_worker r) (env_boot r)
    (env_producer r).
Definition default_AuthorityEnvelope : AuthorityEnvelope :=
  mkAuthorityEnvelope 0 0 0 0 0 0 0 0
    0 0 0 0 0 0.

Record AuthorityVerdict := mkAuthorityVerdict {
  verdict_accepted : bool;
  verdict_code : ErrorCode;
  verdict_stage : ErrorStage;
  verdict_detail : string
}.
#[export] Instance etaAuthorityVerdict : Eta AuthorityVerdict := fun r =>
  mkAuthorityVerdict
    (verdict_accepted r) (verdict_code r) (verdict_stage r) (verdict_detail r).
Definition default_AuthorityVerdict : AuthorityVerdict :=
  mkAuthorityVerdict false ErrorCode.OK
    ErrorStage.NONE "".

#[export] Instance ParameterAssignment_eq_dec : EqDecision ParameterAssignment.
Proof. solve_decision. Defined.
#[export] Instance AuthorityEnvelope_eq_dec : EqDecision AuthorityEnvelope.
Proof. solve_decision. Defined.

(** ** Pure helpers *)

(** [Limits::is_coherent]. *)
Definition is_coherent (limits : Limits) : bool :=
  if (max_experiments limits =? 0) || (max_branches_per_experiment limits =? 0)
     || (max_metrics_per_experiment limits =? 0) || (max_trials_per_branch limits =? 0)
     || (max_attempts_per_trial limits =? 0) || (max_observations_per_trial limits =? 0) then false
  else if max_frame_payload_bytes limits <? 64 then false
  else if (max_name_length limits =? 0) || (1048576 <? max_name_length limits) then false
  else if (max_explanation_lines limits =? 0) || (max_explanation_bytes limits =? 0) then false
  else if (max_state_file_bytes limits =? 0) || (max_persisted_records limits =? 0) then false
  else if (max_lineage_depth limits =? 0) || (1048576 <? max_lineage_depth limits) then false
  else if (max_comparison_rules limits =? 0) || (65536 <? max_comparison_rules limits) then false
  else true.

(** [parameter_less]: key, then kind, then value. *)
Definition parameter_less (lhs rhs : ParameterAssignment) : bool :=
  if negb (String.eqb (param_key lhs) (param_key rhs)) then String.ltb (param_key lhs) (param_key rhs)
  else if negb (bool_decide (param_kind lhs = param_kind rhs)) then
    parameter_kind_code (param_kind lhs) <? parameter_kind_code (param_kind rhs)
  else String.ltb (param_value lhs) (param_value rhs).

(** [is_finite_value]. *)
Definition is_finite_value (value : MetricValue) : bool :=
  match mv_kind value with
  | MetricKind.REAL => is_finite (mv_real value)
  | MetricKind.INTEGER | MetricKind.BOOLEAN | MetricKind.CATEGORICAL => true
  end.

Definition accept_verdict : AuthorityVerdict := mkAuthorityVerdict true ErrorCode.OK ErrorStage.NONE "".
Definition reject_verdict (code : ErrorCode) (stage : ErrorStage) (detail : string) : AuthorityVerdict :=
  mkAuthorityVerdict false code stage detail.

(** The fields [validate_envelope_structure] tests, in its order, with the
    name it reports for each. *)
Definition envelope_fields (e : AuthorityEnvelope) : list (Z * string) :=
  [(env_epoch e, "coordinator epoch"); (env_experiment e, "experiment identity");
   (env_generation e, "experiment generation"); (env_hypothesis e, "hypothesis identity");
   (env_hypothesis_revision e, "hypothesis revision"); (env_policy e, "policy identity");
   (env_policy_generation e, "policy generation"); (env_branch e, "branch identity");
   (env_branch_generation e, "branch generation"); (env_trial e, "trial identity");
   (env_attempt e, "attempt identity"); (env_worker e, "worker identity");
   (env_boot e, "worker boot identity"); (env_producer e, "producer identity")]%string.

(** [validate_envelope_structure]: the first null field rejects. *)
Definition validate_envelope_structure (e : AuthorityEnvelope) : AuthorityVerdict :=
  match List.find (fun field => field.1 =? 0) (envelope_fields e) with
  | Some (_, what) =>
      reject_verdict ErrorCode.INVALID_ARGUMENT ErrorStage.AUTHORITY
        ("envelope carries a null " +:+ what)%string
  | None => accept_verdict
  end.

(** An envelope with no null identity. *)
Definition envelope_complete (e : AuthorityEnvelope) : Prop :=
  Forall (fun field => field.1 <> 0) (envelope_fields e).

Lemma validate_envelope_structure_accepts e :
  verdict_accepted (validate_envelope_structure e) = true <-> envelope_complete e.
Proof.
  unfold validate_envelope_structure, envelope_complete.
  destruct (List.find _ (envelope_fields e)) as [[v what]|] eqn:Hf; simpl.
  - apply find_some in Hf as [Hin Hz]. simpl in Hz. split; [done|].
    intros Hall. rewrite Forall_forall in Hall.
    apply list_elem_of_In in Hin. specialize (Hall _ Hin). simpl in Hall. lia.
  - split; [|done]. intros _. apply Forall_forall. intros field Hin%list_elem_of_In.
    apply (find_none _ _ Hf) in Hin. lia.
Qed.
