(* ===== verification/Sorting.v ===== *)
(** * Sorting

    [std::sort] and [std::stable_sort] with a comparator, as a stable
    insertion sort.  Where the code uses [std::sort] the compared keys are
    distinct, except for the median, where equal keys are equal doubles. *)
From S2P Require Import Prelude.
From Stdlib Require Import Sorted.
From stdpp Require sorting.

Section StableSort.
Context {A : Type} (less : A -> A -> bool).

Fixpoint sort_insert (x : A) (l : list A) : list A :=
  match l with
  | [] => [x]
  | y :: rest => if less y x then y :: sort_insert x rest else x :: y :: rest
  end.

Definition stable_sort (l : list A) : list A := fold_right sort_insert [] l.

(** No element is less than one before it. *)
Definition in_order (l : list A) : Prop := Sorted (fun x y => less y x = false) l.

Lemma sort_insert_perm x l : sort_insert x l ≡ₚ x :: l.
Proof.
  induction l as [|y l IH]; simpl; [done|]. destruct (less y x); [|done].
  rewrite IH. by constructor.
Qed.

Lemma stable_sort_perm l : stable_sort l ≡ₚ l.
Proof. induction l as [|x l IH]; simpl; [done|]. by rewrite sort_insert_perm, IH. Qed.

Lemma stable_sort_length l : length (stable_sort l) = length l.
Proof. by rewrite stable_sort_perm. Qed.

Lemma stable_sort_elem x l : x ∈ stable_sort l <-> x ∈ l.
Proof. by rewrite stable_sort_perm. Qed.

Section Order.
Hypothesis less_asym : forall x y, less x y = true -> less y x = false.

Lemma sort_insert_hd z x l :
  less x z = false -> HdRel (fun a b => less b a = false) z l ->
  HdRel (fun a b => less b a = false) z (sort_insert x l).
Proof.
  intros Hx Hhd. destruct l as [|y l]; simpl; [by constructor|].
  destruct (less y x); constructor; [by inversion Hhd|done].
Qed.

Lemma sort_insert_in_order x l : in_order l -> in_order (sort_insert x l).
Proof using less_asym.
  unfold in_order. induction l as [|y l IH]; simpl; intros Hs; [by repeat constructor|].
  apply Sorted_inv in Hs as [Hs Hhd].
  destruct (less y x) eqn:Hyx.
  - constructor; [auto|]. apply sort_insert_hd; [by apply less_asym|done].
  - repeat constructor; auto.
Qed.

Lemma stable_sort_in_order l : in_order (stable_sort l).
Proof using less_asym.
  induction l as [|x l IH]; simpl; [constructor|]. by apply sort_insert_in_order.
Qed.

Hypothesis less_negtrans : forall x y z, less y x = false -> less z y = false -> less z x = false.

(** Where elements that compare equal are equal, the sorted list does not
    depend on the order of the input. *)
Lemma stable_sort_unique l l' :
  (forall x y, x ∈ l -> y ∈ l -> less x y = false -> less y x = false -> x = y) ->
  l ≡ₚ l' -> stable_sort l = stable_sort l'.
Proof using less_asym less_negtrans.
  intros Hanti Hperm. assert (Ht : Transitive (fun x y => less y x = false)) by exact less_negtrans.
  apply (sorting.Sorted_unique_strong (fun x y => less y x = false)).
  - intros x y. rewrite !stable_sort_elem, <- Hperm. intros Hx Hy H1 H2. by apply Hanti.
  - apply stable_sort_in_order.
  - apply stable_sort_in_order.
  - by rewrite !stable_sort_perm.
Qed.
End Order.
End StableSort.

(** Sorting commutes with a relation that preserves the compared key. *)
Lemma stable_sort_Forall2 {A} (less : A -> A -> bool) (R : A -> A -> Prop) l l' :
  (forall x x' y y', R x x' -> R y y' -> less x y = less x' y') ->
  Forall2 R l l' -> Forall2 R (stable_sort less l) (stable_sort less l').
Proof.
  intros Hless. induction 1 as [|x x' l l' Hx Hl IH]; simpl; [constructor|].
  induction IH as [|y y' m m' Hy Hm IHm]; simpl; [by repeat constructor|].
  rewrite <- (Hless y y' x x') by done. destruct (less y x); repeat constructor; auto.
Qed.

(** The comparator of the code for texts is total. *)
Lemma string_ltb_leb s t : String.ltb s t = negb (String.leb t s).
Proof.
  unfold String.ltb, String.leb. rewrite String.compare_antisym. by destruct (String.compare t s).
Qed.

Lemma string_ltb_asym s t : String.ltb s t = true -> String.ltb t s = false.
Proof.
  rewrite !string_ltb_leb. intros H%negb_true_iff. destruct (String.leb_total s t) as [->|Hts]; [done|congruence].
Qed.

Lemma string_ltb_irrefl s : String.ltb s s = false.
Proof. destruct (String.ltb s s) eqn:Hl; [|done]. by rewrite (string_ltb_asym _ _ Hl) in Hl. Qed.

Lemma string_ltb_negtrans s t u : String.ltb t s = false -> String.ltb u t = false -> String.ltb u s = false.
Proof.
  rewrite !string_ltb_leb, !negb_false_iff. intros H1 H2.
  assert (Hle : strings.String.le s u)
    by (transitivity t; unfold strings.String.le; [by rewrite H1|by rewrite H2]).
  by apply Is_true_true.
Qed.

Lemma string_ltb_total s t : String.ltb s t = false -> String.ltb t s = false -> s = t.
Proof. rewrite !string_ltb_leb, !negb_false_iff. intros H1 H2. by apply String.leb_antisym. Qed.

