(* ===== verification/Hash.v ===== *)
(** * Hashes and the deterministic generator (hash.hpp, hash.cpp)

    SHA-256 as the incremental state machine of the class, CRC-32 with its
    table, FNV-1a and the SplitMix generator behind derived trial seeds.  All
    are executable; the examples evaluate them on published test vectors. *)
From S2P Require Import Prelude.

Definition w32_add (a b : Z) : Z := u32 (a + b).
Definition w32_not (a : Z) : Z := Z.lxor a 4294967295.
Definition rotr32 (value bits : Z) : Z :=
  Z.lor (Z.shiftr value bits) (u32 (Z.shiftl value (32 - bits))).

Definition byte_at (value shift : Z) : Z := Z.land (Z.shiftr value shift) 255.

(** The bytes of a text, as the hashers and writers see them. *)
Definition char_byte (c : ascii) : Z := Z.of_N (N_of_ascii c).
Fixpoint string_bytes (s : string) : list Z :=
  match s with
  | EmptyString => []
  | String c rest => char_byte c :: string_bytes rest
  end.

(** ** SHA-256 *)

(** [kSha256Constants], in decimal. *)
Definition kSha256Constants : list Z :=
  [1116352408; 1899447441; 3049323471; 3921009573; 961987163; 1508970993; 2453635748; 2870763221;
   3624381080; 310598401; 607225278; 1426881987; 1925078388; 2162078206; 2614888103; 3248222580;
   3835390401; 4022224774; 264347078; 604807628; 770255983; 1249150122; 1555081692; 1996064986;
   2554220882; 2821834349; 2952996808; 3210313671; 3336571891; 3584528711; 113926993; 338241895;
   666307205; 773529912; 1294757372; 1396182291; 1695183700; 1986661051; 2177026350; 2456956037;
   2730485921; 2820302411; 3259730800; 3345764771; 3516065817; 3600352804; 4094571909; 275423344;
   430227734; 506948616; 659060556; 883997877; 958139571; 1322822218; 1537002063; 1747873779;
   1955562222; 2024104815; 2227730452; 2361852424; 2428436474; 2756734187; 3204031479; 3329325298].

Record Sha256 := mkSha256 {
  sha_state : list Z;        (** eight 32-bit words *)
  sha_buffer : list Z;       (** the bytes of the open block, at most 63 *)
  sha_total_bytes : Z
}.
#[export] Instance etaSha256 : Eta Sha256 := fun r =>
  mkSha256 (sha_state r) (sha_buffer r) (sha_total_bytes r).

(** [Sha256::reset]. *)
Definition sha_reset : Sha256 :=
  mkSha256 [1779033703; 3144134277; 1013904242; 2773480762;
            1359893119; 2600822924; 528734635; 1541459225] [] 0.

(** The sixteen big-endian words of a block. *)
Fixpoint sha_words (block : list Z) : list Z :=
  match block with
  | b0 :: b1 :: b2 :: b3 :: rest =>
      Z.lor (Z.lor (Z.shiftl b0 24) (Z.shiftl b1 16)) (Z.lor (Z.shiftl b2 8) b3) :: sha_words rest
  | _ => []
  end.

(** The message schedule; [rev_words] holds the words so far, latest first. *)
Fixpoint sha_schedule (count : nat) (rev_words : list Z) : list Z :=
  match count with
  | O => rev rev_words
  | S count' =>
      let w15 := nth 14 rev_words 0 in
      let w2 := nth 1 rev_words 0 in
      let s0 := Z.lxor (Z.lxor (rotr32 w15 7) (rotr32 w15 18)) (Z.shiftr w15 3) in
      let s1 := Z.lxor (Z.lxor (rotr32 w2 17) (rotr32 w2 19)) (Z.shiftr w2 10) in
      let w := w32_add (w32_add (w32_add (nth 15 rev_words 0) s0) (nth 6 rev_words 0)) s1 in
      sha_schedule count' (w :: rev_words)
  end.

Definition sha_round (h : list Z) (kw : Z * Z) : list Z :=
  match h with
  | [a; b; c; d; e; f; g; hh] =>
      let big_s1 := Z.lxor (Z.lxor (rotr32 e 6) (rotr32 e 11)) (rotr32 e 25) in
      let choose := Z.lxor (Z.land e f) (Z.land (w32_not e) g) in
      let temp1 := w32_add (w32_add (w32_add (w32_add hh big_s1) choose) kw.1) kw.2 in
      let big_s0 := Z.lxor (Z.lxor (rotr32 a 2) (rotr32 a 13)) (rotr32 a 22) in
      let majority := Z.lxor (Z.lxor (Z.land a b) (Z.land a c)) (Z.land b c) in
      let temp2 := w32_add big_s0 majority in
      [w32_add temp1 temp2; a; b; c; w32_add d temp1; e; f; g]
  | _ => h
  end.

(** One compression of a full block into the state. *)
Definition sha_compress (state block : list Z) : list Z :=
  let words := sha_schedule 48 (rev (sha_words block)) in
  let final := foldl sha_round state (zip kSha256Constants words) in
  zip_with w32_add state final.

(** [Sha256::update_byte]. *)
Definition sha_update_byte (h : Sha256) (value : Z) : Sha256 :=
  let buffer := sha_buffer h ++ [value] in
  let total := u64 (sha_total_bytes h + 1) in
  if size_of buffer =? 64 then mkSha256 (sha_compress (sha_state h) buffer) [] total
  else mkSha256 (sha_state h) buffer total.

(** [Sha256::update]. *)
Definition sha_update (h : Sha256) (data : list Z) : Sha256 := foldl sha_update_byte h data.

(** The [while (buffer_length_ != 56)] padding loop; 64 steps always reach it. *)
Fixpoint sha_pad (fuel : nat) (h : Sha256) : Sha256 :=
  match fuel with
  | O => h
  | S fuel' => if size_of (sha_buffer h) =? 56 then h else sha_pad fuel' (sha_update_byte h 0)
  end.

(** [Sha256::finalize]. *)
Definition sha_finalize (h : Sha256) : list Z :=
  let bit_length := u64 (sha_total_bytes h * 8) in
  let padded := sha_pad 64 (sha_update_byte h 128) in
  let block := sha_buffer padded ++ map (byte_at bit_length) [56; 48; 40; 32; 24; 16; 8; 0] in
  let state := sha_compress (sha_state padded) block in
  flat_map (fun w => map (byte_at w) [24; 16; 8; 0]) state.

(** [Sha256::digest_of]. *)
Definition sha_digest_of (data : list Z) : list Z := sha_finalize (sha_update sha_reset data).

Definition hex_char (nibble : Z) : ascii :=
  ascii_of_N (Z.to_N (if nibble <? 10 then 48 + nibble else 87 + nibble)).
(** [to_hex]. *)
Fixpoint to_hex (digest : list Z) : string :=
  match digest with
  | [] => EmptyString
  | byte :: rest =>
      String (hex_char (Z.land (Z.shiftr byte 4) 15)) (String (hex_char (Z.land byte 15)) (to_hex rest))
  end.

(** The nibble of a hexadecimal digit of either case, -1 for any other character. *)
Definition nibble (character : ascii) : Z :=
  let c := char_byte character in
  if (48 <=? c) && (c <=? 57) then c - 48
  else if (97 <=? c) && (c <=? 102) then c - 97 + 10
  else if (65 <=? c) && (c <=? 70) then c - 65 + 10
  else -1.

(** The loop of [parse_digest]: the bytes before the first bad pair are
    written, the rest of [out] stays. *)
Fixpoint parse_digest_loop (hex : string) (out : list Z) : bool * list Z :=
  match out, hex with
  | _ :: out', String h (String l hex') =>
      if (nibble h <? 0) || (nibble l <? 0) then (false, out)
      else let (ok, rest) := parse_digest_loop hex' out' in
           (ok, Z.lor (Z.shiftl (nibble h) 4) (nibble l) :: rest)
  | _, _ => (true, out)
  end.
Definition parse_digest (hex : string) (out : list Z) : bool * list Z :=
  if negb (str_size hex =? size_of out * 2) then (false, out) else parse_digest_loop hex out.

Lemma nibble_hex_char n : 0 <= n < 16 -> nibble (hex_char n) = n.
Proof.
  intros Hn. assert (Hcases : n ∈ seqZ 0 16) by (apply elem_of_seqZ; lia).
  clear Hn. revert n Hcases. apply (Forall_forall (fun n => nibble (hex_char n) = n)). vm_compute. repeat constructor.
Qed.

Lemma byte_nibbles byte :
  0 <= byte < 256 -> Z.lor (Z.shiftl (Z.land (Z.shiftr byte 4) 15) 4) (Z.land byte 15) = byte.
Proof.
  intros Hb. change 15 with (Z.ones 4). rewrite !Z.land_ones, Z.shiftr_div_pow2 by done.
  apply Z.bits_inj'. intros i Hi. rewrite Z.lor_spec, Z.shiftl_spec by done.
  rewrite (Z.mod_small (byte / 2 ^ 4)) by (change (2 ^ 4) with 16; split; [apply Z.div_pos|apply Z.div_lt_upper_bound]; lia).
  destruct (decide (i < 4)).
  - rewrite Z.testbit_neg_r, Z.mod_pow2_bits_low by lia. done.
  - rewrite Z.mod_pow2_bits_high, orb_false_r by lia. rewrite <- Z.shiftr_div_pow2, Z.shiftr_spec by lia. f_equal. lia.
Qed.

Lemma to_hex_size digest : str_size (to_hex digest) = size_of digest * 2.
Proof. induction digest as [|byte digest IH]; [done|]. unfold str_size, size_of in *. simpl. lia. Qed.

(** The printed form of a digest parses back to it, whatever stood in [out]. *)
Lemma parse_digest_to_hex digest out :
  Forall (fun byte => 0 <= byte < 256) digest -> length out = length digest ->
  parse_digest (to_hex digest) out = (true, digest).
Proof.
  intros Hbytes Hlength. unfold parse_digest. rewrite to_hex_size. unfold size_of at 2. rewrite Hlength, Z.eqb_refl. simpl.
  revert out Hlength. induction Hbytes as [|byte digest Hbyte _ IH]; intros [|o out] Hlength; try done. cbn [to_hex parse_digest_loop].
  change 15 with (Z.ones 4). rewrite !nibble_hex_char by (rewrite Z.land_ones by done; apply Z.mod_pos_bound; done).
  rewrite IH by (by injection Hlength).
  assert (Hrange : forall v, 0 <= Z.land v (Z.ones 4)) by (intros; rewrite Z.land_ones by done; apply Z.mod_pos_bound; done).
  rewrite !(proj2 (Z.ltb_ge _ _)) by apply Hrange. simpl orb. cbv iota. by rewrite byte_nibbles.
Qed.

(** ** CRC-32 *)

Definition crc_step (value : Z) : Z :=
  if Z.testbit value 0 then Z.lxor 0xEDB88320 (Z.shiftr value 1) else Z.shiftr value 1.

(** [make_crc_table]. *)
Definition make_crc_table : list Z :=
  map (fun index => Nat.iter 8 crc_step (Z.of_nat index)) (seq 0 256).

Definition kCrcTable : list Z := Eval vm_compute in make_crc_table.

(** [Crc32::update] on one byte: table lookup. *)
Definition crc_update_byte (state byte : Z) : Z :=
  Z.lxor (nth (Z.to_nat (Z.land (Z.lxor state byte) 255)) kCrcTable 0) (Z.shiftr state 8).

Definition crc32 (data : list Z) : Z :=
  Z.lxor (foldl crc_update_byte 0xFFFFFFFF data) 0xFFFFFFFF.

Lemma lxor_range a b n : 0 <= n -> 0 <= a < 2 ^ n -> 0 <= b < 2 ^ n -> 0 <= Z.lxor a b < 2 ^ n.
Proof.
  intros Hn Ha Hb. assert (Hp : 0 <= Z.lxor a b) by (apply Z.lxor_nonneg; lia). split; [done|].
  destruct (Z.eq_dec (Z.lxor a b) 0) as [->|Hz]; [lia|]. apply Z.log2_lt_pow2; [lia|].
  assert (Hl : forall c, 0 <= c < 2 ^ n -> c = 0 \/ Z.log2 c < n).
  { intros c Hc. destruct (Z.eq_dec c 0); [by left|right]. apply Z.log2_lt_pow2; lia. }
  destruct (Z.eq_dec a 0) as [->|Ha0]; [rewrite Z.lxor_0_l in *; destruct (Hl b Hb); [done|done]|].
  destruct (Z.eq_dec b 0) as [->|Hb0]; [rewrite Z.lxor_0_r in *; destruct (Hl a Ha); [done|done]|].
  pose proof (Z.log2_lxor a b ltac:(lia) ltac:(lia)). destruct (Hl a Ha), (Hl b Hb); try done. lia.
Qed.

Lemma crc_table_range i : 0 <= nth i kCrcTable 0 < 2 ^ 32.
Proof.
  assert (Hall : forallb (fun v => (0 <=? v) && (v <? 2 ^ 32)) kCrcTable = true) by (vm_compute; reflexivity).
  rewrite forallb_forall in Hall. destruct (nth_in_or_default i kCrcTable 0) as [Hin| ->]; [|done].
  apply Hall in Hin. blia.
Qed.

Lemma crc_fold_range data state : 0 <= state < 2 ^ 32 -> 0 <= foldl crc_update_byte state data < 2 ^ 32.
Proof.
  revert state. induction data as [|b data IH]; intros state Hs; simpl; [done|]. apply IH.
  unfold crc_update_byte. apply lxor_range; [done|apply crc_table_range|].
  rewrite Z.shiftr_div_pow2 by done. split; [apply Z.div_pos; lia|]. apply Z.div_lt_upper_bound; lia.
Qed.

(** A checksum is a 32-bit word. *)
Lemma crc32_range data : 0 <= crc32 data < 2 ^ 32.
Proof. unfold crc32. apply lxor_range; [done|by apply crc_fold_range|done]. Qed.

(** The entries of the table differ in their high bytes. *)
Lemma crc_table_high : NoDup (map (fun v => Z.shiftr v 24) kCrcTable).
Proof. apply (bool_decide_eq_true_1 _). vm_compute. reflexivity. Qed.

Lemma crc_table_inj i j :
  (i < 256)%nat -> (j < 256)%nat ->
  Z.shiftr (nth i kCrcTable 0) 24 = Z.shiftr (nth j kCrcTable 0) 24 -> i = j.
Proof.
  intros Hi Hj Heq. assert (Hlen : length (map (fun v => Z.shiftr v 24) kCrcTable) = 256%nat) by reflexivity.
  apply (proj1 (NoDup_nth _ 0) (proj1 (NoDup_ListNoDup _) crc_table_high)); [lia..|].
  by rewrite !(map_nth (fun v => Z.shiftr v 24) kCrcTable 0).
Qed.

Lemma low_byte_index x : (Z.to_nat (Z.land x 255) < 256)%nat.
Proof. change 255 with (Z.ones 8). rewrite Z.land_ones by done. pose proof (Z.mod_pos_bound x (2 ^ 8)). lia. Qed.

Lemma shiftr_small_24 s : 0 <= s < 2 ^ 32 -> Z.shiftr (Z.shiftr s 8) 24 = 0.
Proof. intros Hs. rewrite Z.shiftr_shiftr by done. rewrite Z.shiftr_div_pow2 by done. by apply Z.div_small. Qed.

(** A step of the checksum loses nothing: the old state is determined by the
    byte and the new state, and the byte by the two states. *)
Lemma crc_update_byte_inj s s' b b' :
  0 <= s < 2 ^ 32 -> 0 <= s' < 2 ^ 32 ->
  crc_update_byte s b = crc_update_byte s' b' ->
  Z.land (Z.lxor s b) 255 = Z.land (Z.lxor s' b') 255 /\ Z.shiftr s 8 = Z.shiftr s' 8.
Proof.
  intros Hs Hs' Heq. unfold crc_update_byte in Heq.
  set (i := Z.land (Z.lxor s b) 255) in *. set (j := Z.land (Z.lxor s' b') 255) in *.
  assert (Hij : i = j).
  { assert (Hh := f_equal (fun v => Z.shiftr v 24) Heq). cbv beta in Hh.
    rewrite !Z.shiftr_lxor, !shiftr_small_24, !Z.lxor_0_r in Hh by done.
    apply crc_table_inj in Hh; [|apply low_byte_index..].
    assert (0 <= i) by (apply Z.land_nonneg; lia). assert (0 <= j) by (apply Z.land_nonneg; lia). lia. }
  split; [done|]. rewrite Hij in Heq. apply (f_equal (Z.lxor (nth (Z.to_nat j) kCrcTable 0))) in Heq.
  by rewrite <- !Z.lxor_assoc, !Z.lxor_nilpotent, !Z.lxor_0_l in Heq.
Qed.

Lemma land_byte_split x : x = Z.lor (Z.land x 255) (Z.shiftl (Z.shiftr x 8) 8).
Proof.
  apply Z.bits_inj'. intros i Hi. rewrite Z.lor_spec, Z.land_spec, Z.shiftl_spec by done.
  change 255 with (Z.ones 8). destruct (Z.lt_ge_cases i 8).
  - rewrite Z.ones_spec_low by lia. rewrite (Z.testbit_neg_r _ (i - 8)) by lia. by rewrite andb_true_r, orb_false_r.
  - rewrite Z.ones_spec_high by lia. rewrite Z.shiftr_spec by lia. rewrite Z.sub_add. by rewrite andb_false_r.
Qed.

Lemma land_lxor a b c : Z.land (Z.lxor a b) c = Z.lxor (Z.land a c) (Z.land b c).
Proof.
  apply Z.bits_inj'. intros i _. rewrite Z.land_spec, !Z.lxor_spec, !Z.land_spec.
  by destruct (Z.testbit a i), (Z.testbit b i), (Z.testbit c i).
Qed.

Lemma crc_state_inj s s' b :
  0 <= s < 2 ^ 32 -> 0 <= s' < 2 ^ 32 -> crc_update_byte s b = crc_update_byte s' b -> s = s'.
Proof.
  intros Hs Hs' Heq. apply crc_update_byte_inj in Heq as [Hlow Hhigh]; [|done..].
  rewrite (land_byte_split s), (land_byte_split s'), Hhigh. f_equal.
  assert (Hx := f_equal (fun v => Z.lxor v (Z.land b 255)) Hlow). cbv beta in Hx.
  rewrite !land_lxor, !Z.lxor_assoc, !Z.lxor_nilpotent, !Z.lxor_0_r in Hx. done.
Qed.

Lemma crc_byte_inj s b b' :
  0 <= s < 2 ^ 32 -> 0 <= b < 256 -> 0 <= b' < 256 -> crc_update_byte s b = crc_update_byte s b' -> b = b'.
Proof.
  intros Hs Hb Hb' Heq. apply crc_update_byte_inj in Heq as [Hlow _]; [|done..].
  assert (Hx := f_equal (fun v => Z.lxor (Z.land s 255) v) Hlow). cbv beta in Hx.
  rewrite !land_lxor, <- !Z.lxor_assoc, !Z.lxor_nilpotent, !Z.lxor_0_l in Hx.
  change 255 with (Z.ones 8) in Hx. rewrite !Z.land_ones in Hx by done. rewrite !Z.mod_small in Hx by (simpl; lia). done.
Qed.

Lemma crc_fold_inj data s s' :
  0 <= s < 2 ^ 32 -> 0 <= s' < 2 ^ 32 -> foldl crc_update_byte s data = foldl crc_update_byte s' data -> s = s'.
Proof.
  revert s s'. induction data as [|b data IH]; intros s s' Hs Hs' Heq; simpl in Heq; [done|].
  apply IH in Heq; [|apply (crc_fold_range [b]); done..]. by eapply crc_state_inj.
Qed.

(** The checksum notices a change of any one byte. *)
Lemma crc32_one_byte before b b' after :
  0 <= b < 256 -> 0 <= b' < 256 -> crc32 (before ++ b :: after) = crc32 (before ++ b' :: after) -> b = b'.
Proof.
  intros Hb Hb' Heq. unfold crc32 in Heq.
  apply (f_equal (fun v => Z.lxor v 4294967295)) in Heq.
  rewrite !Z.lxor_assoc, !Z.lxor_nilpotent, !Z.lxor_0_r, !foldl_app in Heq. simpl in Heq.
  assert (Hs : 0 <= foldl crc_update_byte 4294967295 before < 2 ^ 32) by (by apply crc_fold_range).
  apply crc_fold_inj in Heq; [by eapply crc_byte_inj|apply (crc_fold_range [_]); done..].
Qed.

(** ** FNV-1a and SplitMix *)

Definition fnv1a64 (text : string) : Z :=
  foldl (fun value byte => u64 (Z.lxor value byte * 0x100000001B3)) 0xCBF29CE484222325
    (string_bytes text).

(** [DeterministicRng::next_u64]: the new state and the value. *)
Definition rng_next_u64 (state : Z) : Z * Z :=
  let state := u64 (state + 0x9E3779B97F4A7C15) in
  let value := state in
  let value := u64 (Z.lxor value (Z.shiftr value 30) * 0xBF58476D1CE4E5B9) in
  let value := u64 (Z.lxor value (Z.shiftr value 27) * 0x94D049BB133111EB) in
  (state, Z.lxor value (Z.shiftr value 31)).

Definition rng_new (seed : Z) : Z := Z.lxor seed 0x9E3779B97F4A7C15.

Definition next_u32 (state : Z) : Z * Z :=
  let (state, value) := rng_next_u64 state in (state, u32 (Z.shiftr value 32)).
(** [next_bounded]: a bound of zero draws nothing. *)
Definition next_bounded (bound state : Z) : Z * Z :=
  if bound =? 0 then (state, 0) else let (state, value) := rng_next_u64 state in (state, value mod bound).

Lemma next_bounded_below bound state : 0 < bound -> 0 <= (next_bounded bound state).2 < bound.
Proof.
  intros Hb. unfold next_bounded. destruct (Z.eqb_spec bound 0); [lia|].
  destruct (rng_next_u64 state). by apply Z.mod_pos_bound.
Qed.

(** [derive_trial_seed]. *)
Definition derive_trial_seed (experiment_seed ordinal : Z) : Z :=
  (rng_next_u64 (rng_new (Z.lxor experiment_seed (u64 (ordinal * 0x9E3779B97F4A7C15))))).2.

(** ** Test vectors *)

Example sha256_abc : to_hex (sha_digest_of (string_bytes "abc"))
  = "ba7816bf8f01cfea414140de5dae2223b00361a396177a9cb410ff61f20015ad"%string.
Proof. vm_compute. reflexivity. Qed.

Example sha256_empty : to_hex (sha_digest_of [])
  = "e3b0c44298fc1c149afbf4c8996fb92427ae41e4649b934ca495991b7852b855"%string.
Proof. vm_compute. reflexivity. Qed.

Example crc32_check : crc32 (string_bytes "123456789") = 0xCBF43926.
Proof. vm_compute. reflexivity. Qed.
