(* ===== verification/Canonical.v ===== *)
(** * Canonical encodings and digests (canonical.cpp)

    The canonical byte encoding of the definition, of evidence and of the
    durable records, and their SHA-256 digests.  The code feeds a hasher field
    by field; here each [write] is the list of bytes it feeds.  The decimal
    rendering of a finite double, [std::to_chars], is a parameter of the
    encodings ([format_real]). *)
From S2P Require Import Prelude OMap Error Domain Float64 Model Hash Sorting.

(** ** Parameters *)

(** [has_duplicate_parameter_key]. *)
Fixpoint has_duplicate_key_loop (keys : list string) (parameters : list ParameterAssignment) : bool :=
  match parameters with
  | [] => false
  | parameter :: rest =>
      if bool_decide (param_key parameter ∈ keys) then true
      else has_duplicate_key_loop (param_key parameter :: keys) rest
  end.
Definition has_duplicate_parameter_key (parameters : list ParameterAssignment) : bool :=
  has_duplicate_key_loop [] parameters.

(** [normalize_parameters]. *)
Definition normalize_parameters (parameters : list ParameterAssignment) : list ParameterAssignment :=
  stable_sort parameter_less parameters.

(** ** Byte encodings *)

Definition le_u8 (v : Z) : list Z := [v].
Definition le_u32 (v : Z) : list Z := map (byte_at v) [0; 8; 16; 24].
Definition le_u64 (v : Z) : list Z := map (byte_at v) [0; 8; 16; 24; 32; 40; 48; 56].
Definition enc_bool (b : bool) : list Z := [if b then 1 else 0].
Definition write_tag (tag : string) : list Z := le_u32 (u32 (str_size tag)) ++ string_bytes tag.
Definition write_text (text : string) : list Z := le_u64 (str_size text) ++ string_bytes text.
Definition enc_option {A} (f : A -> list Z) (o : option A) : list Z :=
  match o with
  | Some a => enc_bool true ++ f a
  | None => enc_bool false
  end.
Definition enc_count {A} (l : list A) : list Z := le_u32 (u32 (size_of l)).

Section Encodings.
Context (format_real : double -> string).

(** [encode_real]: zeros of both signs encode alike. *)
Definition encode_real (value : double) : string :=
  match value with
  | S754_nan => "nan"
  | S754_infinity false => "inf"
  | S754_infinity true => "-inf"
  | S754_zero _ => "0"
  | S754_finite _ _ _ => format_real value
  end.
Definition write_real (value : double) : list Z := write_text (encode_real value).

Definition enc_metric_value (value : MetricValue) : list Z :=
  le_u8 (metric_kind_code (mv_kind value)) ++
  match mv_kind value with
  | MetricKind.REAL => write_real (mv_real value)
  | MetricKind.INTEGER => le_u64 (u64 (mv_integer value))
  | MetricKind.BOOLEAN => enc_bool (mv_boolean value)
  | MetricKind.CATEGORICAL => write_text (mv_category value)
  end.

Definition enc_parameter (tag : string) (value : ParameterAssignment) : list Z :=
  write_tag tag ++ write_text (param_key value)
  ++ le_u8 (parameter_kind_code (param_kind value)) ++ write_text (param_value value).

Definition enc_metric_definition (tag : string) (value : MetricDefinition) : list Z :=
  let categories := stable_sort String.ltb (metric_categories value) in
  write_tag tag ++ le_u64 (metric_id value) ++ write_text (metric_name value)
  ++ write_text (metric_unit value) ++ le_u8 (metric_kind_code (metric_kind value))
  ++ le_u8 (metric_direction_code (metric_direction value))
  ++ le_u8 (aggregation_rule_code (metric_aggregation value))
  ++ enc_bool (metric_required value) ++ enc_bool (metric_accepts_non_finite value)
  ++ enc_option write_real (metric_lower_bound value)
  ++ enc_option write_real (metric_upper_bound value)
  ++ enc_option write_real (metric_target_low value)
  ++ enc_option write_real (metric_target_high value)
  ++ le_u32 (metric_weight value) ++ le_u32 (metric_priority value)
  ++ enc_count categories ++ flat_map write_text categories.

Definition enc_rule (tag : string) (value : ComparisonRule) : list Z :=
  write_tag tag ++ le_u64 (rule_metric value) ++ le_u8 (comparison_op_code (rule_op value))
  ++ write_real (rule_threshold value) ++ write_real (rule_target_low value)
  ++ write_real (rule_target_high value) ++ le_u32 (rule_priority value).

(** The comparator of the rule sorts: priority, then metric. *)
Definition rule_less (lhs rhs : ComparisonRule) : bool :=
  if negb (rule_priority lhs =? rule_priority rhs) then rule_priority lhs <? rule_priority rhs
  else rule_metric lhs <? rule_metric rhs.

Definition enc_policy (tag : string) (value : ComparisonPolicy) : list Z :=
  let rules := stable_sort rule_less (policy_rules value) in
  write_tag tag ++ le_u64 (policy_id value) ++ le_u64 (policy_generation value)
  ++ enc_bool (policy_require_baseline value)
  ++ le_u32 (policy_min_completed_trials_per_branch value)
  ++ le_u32 (policy_min_valid_observations_per_required_metric value)
  ++ enc_bool (policy_reject_on_any_invalid_observation value)
  ++ enc_bool (policy_require_environment_match value)
  ++ le_u32 (policy_majority_wins_min_basis_points value)
  ++ enc_bool (policy_use_weighted_score value)
  ++ write_real (policy_accept_score_threshold value)
  ++ enc_count rules ++ flat_map (enc_rule "rule") rules.

Definition enc_branch (tag : string) (value : BranchDefinition) : list Z :=
  let parameters := normalize_parameters (branch_parameters value) in
  write_tag tag ++ le_u64 (branch_id value) ++ write_text (branch_name value)
  ++ le_u8 (branch_role_code (branch_role value)) ++ le_u64 (branch_parent value)
  ++ le_u64 (branch_generation value) ++ le_u8 (branch_state_code (branch_state value))
  ++ enc_count parameters ++ flat_map (enc_parameter "parameter") parameters
  ++ enc_bool (branch_input_set_present value)
  ++ (if branch_input_set_present value then le_u64 (branch_input_set value) else [])
  ++ enc_bool (branch_environment_present value)
  ++ (if branch_environment_present value then le_u64 (branch_environment value) else [])
  ++ write_text (branch_environment_fingerprint value)
  ++ enc_option le_u64 (branch_seed value)
  ++ le_u32 (branch_planned_trials value) ++ enc_bool (branch_forked value).

Definition enc_aggregate (value : MetricAggregate) : list Z :=
  le_u64 (agg_metric value) ++ le_u8 (aggregation_rule_code (agg_rule value))
  ++ enc_bool (agg_present value) ++ write_real (agg_value value)
  ++ write_text (agg_category value) ++ le_u32 (agg_valid_count value)
  ++ le_u32 (agg_invalid_count value) ++ le_u32 (agg_missing_count value)
  ++ le_u32 (agg_unsupported_count value) ++ enc_count (agg_raw_values value)
  ++ flat_map write_real (agg_raw_values value).

Definition enc_evidence (tag : string) (value : BranchEvidence) : list Z :=
  write_tag tag ++ le_u64 (ev_branch value) ++ le_u64 (ev_generation value)
  ++ le_u8 (branch_role_code (ev_role value)) ++ le_u8 (branch_state_code (ev_state value))
  ++ le_u32 (ev_planned_trials value) ++ le_u32 (ev_completed_trials value)
  ++ le_u32 (ev_failed_trials value) ++ le_u32 (ev_cancelled_trials value)
  ++ le_u32 (ev_invalid_trials value) ++ le_u32 (ev_superseded_trials value)
  ++ le_u32 (ev_open_trials value) ++ enc_count (ev_aggregates value)
  ++ flat_map enc_aggregate (ev_aggregates value).

Definition enc_observation (tag : string) (value : Observation) : list Z :=
  write_tag tag ++ le_u64 (obs_id value) ++ le_u64 (obs_experiment value)
  ++ le_u64 (obs_generation value) ++ le_u64 (obs_branch value)
  ++ le_u64 (obs_branch_generation value) ++ le_u64 (obs_trial value)
  ++ le_u64 (obs_attempt value) ++ le_u64 (obs_metric value) ++ le_u64 (obs_producer value)
  ++ le_u8 (observation_validity_code (obs_validity value))
  ++ enc_metric_value (obs_value value) ++ write_text (obs_detail value).

Definition enc_trial (tag : string) (value : TrialRecord) : list Z :=
  write_tag tag ++ le_u64 (trial_id value) ++ le_u64 (trial_branch value)
  ++ le_u64 (trial_branch_generation value) ++ le_u64 (trial_generation value)
  ++ le_u8 (trial_state_code (trial_state value))
  ++ le_u64 (trial_authoritative_attempt value) ++ le_u32 (trial_committed_attempts value)
  ++ le_u8 (failure_kind_code (trial_failure_kind value)).

(** ** Digests *)

Definition id_less {A} (id : A -> Z) (lhs rhs : A) : bool := id lhs <? id rhs.

Definition enc_definition (d : ExperimentDefinition) : list Z :=
  let branches := stable_sort (id_less branch_id) (def_branches d) in
  let metrics := stable_sort (id_less metric_id) (def_metrics d) in
  let parameters := normalize_parameters (def_parameters d) in
  write_tag "experiment-definition" ++ le_u32 1 ++ le_u64 (def_id d)
  ++ le_u64 (def_generation d) ++ le_u64 (def_hypothesis d)
  ++ le_u64 (def_hypothesis_revision d) ++ write_text (def_name d)
  ++ enc_count branches ++ flat_map (enc_branch "branch") branches
  ++ enc_count metrics ++ flat_map (enc_metric_definition "metric") metrics
  ++ enc_policy "policy" (def_policy d)
  ++ le_u8 (seed_policy_code (def_seed_policy d)) ++ enc_option le_u64 (def_experiment_seed d)
  ++ le_u8 (retry_policy_code (def_retry_policy d)) ++ le_u32 (def_max_attempts_per_trial d)
  ++ le_u8 (partial_failure_policy_code (def_partial_failure_policy d))
  ++ le_u8 (late_evidence_policy_code (def_late_evidence_policy d))
  ++ enc_count parameters ++ flat_map (enc_parameter "parameter") parameters
  ++ write_text (def_provenance d).

Definition definition_digest (d : ExperimentDefinition) : Digest := sha_digest_of (enc_definition d).

Definition enc_hypothesis (h : HypothesisRec) : list Z :=
  write_tag "hypothesis" ++ le_u64 (hyp_id h) ++ le_u64 (hyp_revision h)
  ++ write_text (hyp_statement h)
  ++ enc_option (fun d => le_u8 (metric_direction_code d)) (hyp_expected_direction h)
  ++ le_u64 (hyp_expected_metric h) ++ le_u64 (hyp_parent h) ++ le_u64 (hyp_parent_revision h)
  ++ write_text (hyp_provenance h).
Definition hypothesis_digest (h : HypothesisRec) : Digest := sha_digest_of (enc_hypothesis h).

Definition evidence_digest (evidence : list BranchEvidence) (d : ExperimentDefinition) : Digest :=
  sha_digest_of (write_tag "experiment-evidence" ++ le_u64 (def_id d) ++ le_u64 (def_generation d)
                 ++ le_u64 (def_hypothesis_revision d)
                 ++ flat_map (enc_evidence "branch-evidence") evidence).

Definition branch_digest (branch : BranchDefinition) : Digest := sha_digest_of (enc_branch "branch-definition" branch).
Definition policy_digest (policy : ComparisonPolicy) : Digest := sha_digest_of (enc_policy "comparison-policy" policy).

Definition enc_constraint (constraint : ConstraintResult) : list Z :=
  write_text (constraint_name constraint) ++ enc_bool (constraint_passed constraint)
  ++ write_text (constraint_detail constraint).
Definition enc_factor (factor : ComparisonFactor) : list Z :=
  le_u64 (factor_metric factor) ++ le_u8 (comparison_op_code (factor_op factor)) ++ le_u32 (factor_priority factor)
  ++ write_real (factor_threshold factor) ++ enc_bool (factor_has_values factor)
  ++ write_real (factor_baseline_value factor) ++ write_real (factor_candidate_value factor)
  ++ write_real (factor_delta factor) ++ enc_bool (factor_satisfied factor) ++ enc_bool (factor_decisive factor).
(** Neither list is preceded by its length. *)
Definition enc_decision (tag : string) (value : Decision) : list Z :=
  write_tag tag ++ le_u64 (dec_id value) ++ le_u64 (dec_experiment value) ++ le_u64 (dec_generation value)
  ++ le_u64 (dec_candidate value) ++ le_u8 (decision_outcome_code (dec_outcome value)) ++ write_text (dec_reason value)
  ++ flat_map enc_constraint (dec_constraints value) ++ flat_map enc_factor (dec_factors value).
End Encodings.

(** ** Properties *)

(** [has_duplicate_parameter_key] decides whether two assignments share a key. *)
Lemma has_duplicate_key_loop_spec keys parameters :
  NoDup keys -> has_duplicate_key_loop keys parameters = false
  <-> NoDup (rev (map param_key parameters) ++ keys).
Proof.
  revert keys. induction parameters as [|p parameters IH]; intros keys Hnd; simpl; [done|].
  case_bool_decide as Hin.
  - split; [done|]. rewrite <- app_assoc, NoDup_app. intros (_ & _ & Hnd2).
    simpl in Hnd2. apply NoDup_cons in Hnd2 as [? ?]. done.
  - rewrite IH by by constructor. by rewrite <- app_assoc.
Qed.

Lemma has_duplicate_parameter_key_spec parameters :
  has_duplicate_parameter_key parameters = false <-> NoDup (map param_key parameters).
Proof.
  unfold has_duplicate_parameter_key. rewrite has_duplicate_key_loop_spec by constructor.
  rewrite app_nil_r. by rewrite <- (Permutation_rev (map param_key parameters)).
Qed.

Lemma normalize_parameters_perm parameters : normalize_parameters parameters ≡ₚ parameters.
Proof. apply stable_sort_perm. Qed.

(** ** Canonicity *)

(** [parameter_less] compares every member, so it is total. *)
Lemma parameter_kind_code_inj k k' : parameter_kind_code k = parameter_kind_code k' -> k = k'.
Proof. by destruct k, k'. Qed.

Lemma parameter_less_false x y :
  parameter_less x y = false
  <-> String.ltb (param_key x) (param_key y) = false
      /\ (param_key x = param_key y ->
          parameter_kind_code (param_kind y) <= parameter_kind_code (param_kind x)
          /\ (param_kind x = param_kind y -> String.ltb (param_value x) (param_value y) = false)).
Proof.
  unfold parameter_less. destruct (String.eqb_spec (param_key x) (param_key y)) as [->|Hk]; simpl.
  2: { split; [intros Hlt; split; [done|congruence]|by intros [? _]]. }
  rewrite string_ltb_irrefl.
  case_bool_decide as Hkind; simpl.
  - rewrite Hkind. split; [|intros [_ H]; by apply H]. intros Hv. split; [done|]. intros _. split; [lia|done].
  - rewrite Z.ltb_ge. split; [|intros [_ H]; by apply H]. intros Hv. split; [done|]. intros _. by split.
Qed.

Lemma parameter_less_asym x y : parameter_less x y = true -> parameter_less y x = false.
Proof.
  intros H. apply parameter_less_false. revert H. unfold parameter_less.
  destruct (String.eqb_spec (param_key x) (param_key y)) as [Hk|Hk]; simpl.
  2: { intros H%string_ltb_asym. split; [done|congruence]. }
  rewrite Hk, string_ltb_irrefl. intros H. split; [done|]. revert H. case_bool_decide as Hkind; simpl.
  - intros H%string_ltb_asym _. rewrite Hkind. split; [lia|done].
  - rewrite Z.ltb_lt. intros H _. split; [lia|congruence].
Qed.

Lemma parameter_less_negtrans x y z :
  parameter_less y x = false -> parameter_less z y = false -> parameter_less z x = false.
Proof.
  rewrite !parameter_less_false. intros [H1 E1] [H2 E2]. split; [by eapply string_ltb_negtrans|]. intros Hk.
  assert (Hyx : param_key y = param_key x).
  { apply string_ltb_total; [done|]. by rewrite <- Hk. }
  destruct (E1 Hyx) as [L1 V1]. destruct (E2 ltac:(congruence)) as [L2 V2]. split; [lia|]. intros Hkind.
  assert (param_kind y = param_kind x) as Hkyx by (apply parameter_kind_code_inj; rewrite Hkind in L2; lia).
  eapply string_ltb_negtrans; [by apply V1|apply V2; congruence].
Qed.

Lemma parameter_less_total x y : parameter_less x y = false -> parameter_less y x = false -> x = y.
Proof.
  rewrite !parameter_less_false. intros [H1 E1] [H2 E2].
  assert (Hk : param_key x = param_key y) by by apply string_ltb_total.
  destruct (E1 Hk) as [L1 V1]. destruct (E2 (eq_sym Hk)) as [L2 V2].
  assert (Hkind : param_kind x = param_kind y) by (apply parameter_kind_code_inj; lia).
  specialize (V1 Hkind). specialize (V2 (eq_sym Hkind)).
  destruct x, y; simpl in *; subst. f_equal. by apply string_ltb_total.
Qed.

Lemma normalize_parameters_unique l l' : l ≡ₚ l' -> normalize_parameters l = normalize_parameters l'.
Proof.
  apply stable_sort_unique; [apply parameter_less_asym|apply parameter_less_negtrans|].
  intros x y _ _. apply parameter_less_total.
Qed.

Lemma sort_categories_unique l l' : l ≡ₚ l' -> stable_sort String.ltb l = stable_sort String.ltb l'.
Proof.
  apply stable_sort_unique; [apply string_ltb_asym|apply string_ltb_negtrans|].
  intros x y _ _. apply string_ltb_total.
Qed.

Lemma sort_ids_unique {A} (id : A -> Z) l l' :
  NoDup (map id l) -> l ≡ₚ l' -> stable_sort (id_less id) l = stable_sort (id_less id) l'.
Proof.
  intros Hnd. unfold id_less. apply stable_sort_unique.
  - intros x y. rewrite Z.ltb_lt, Z.ltb_ge. lia.
  - intros x y z. rewrite !Z.ltb_ge. lia.
  - intros x y Hx Hy. rewrite !Z.ltb_ge. intros H1 H2. eapply NoDup_map_inj; [done..|]. lia.
Qed.

(** Definitions that differ only in the order in which their branches, metrics,
    parameters and categories are listed. *)
Definition branch_reordered (b b' : BranchDefinition) : Prop :=
  exists parameters, branch_parameters b ≡ₚ parameters /\ b' = b <| branch_parameters := parameters |>.
Definition metric_reordered (m m' : MetricDefinition) : Prop :=
  exists categories, metric_categories m ≡ₚ categories /\ m' = m <| metric_categories := categories |>.

Record reordered (d d' : ExperimentDefinition) : Prop := {
  reo_branches : exists branches, Forall2 branch_reordered (def_branches d) branches /\ branches ≡ₚ def_branches d';
  reo_metrics : exists metrics, Forall2 metric_reordered (def_metrics d) metrics /\ metrics ≡ₚ def_metrics d';
  reo_parameters : def_parameters d ≡ₚ def_parameters d';
  reo_rest : d' = d <| def_branches := def_branches d' |> <| def_metrics := def_metrics d' |>
    <| def_parameters := def_parameters d' |>
}.

Section Canonicity.
Variable format_real : double -> string.

Lemma enc_branch_reordered tag b b' : branch_reordered b b' -> enc_branch tag b = enc_branch tag b'.
Proof. intros (ps & Hps & ->). unfold enc_branch. simpl. by rewrite (normalize_parameters_unique _ _ Hps). Qed.

Lemma enc_metric_reordered tag m m' :
  metric_reordered m m' -> enc_metric_definition format_real tag m = enc_metric_definition format_real tag m'.
Proof.
  intros (cs & Hcs & ->). unfold enc_metric_definition. simpl. by rewrite (sort_categories_unique _ _ Hcs).
Qed.

(** The bytes of a table sorted by identity. *)
Lemma sorted_table_canonical {A} (id : A -> Z) (R : A -> A -> Prop) (enc : A -> list Z) l m l' :
  (forall x x', R x x' -> id x = id x' /\ enc x = enc x') ->
  NoDup (map id l) -> Forall2 R l m -> m ≡ₚ l' ->
  enc_count (stable_sort (id_less id) l) = enc_count (stable_sort (id_less id) l')
  /\ flat_map enc (stable_sort (id_less id) l) = flat_map enc (stable_sort (id_less id) l').
Proof.
  intros HR Hnd HF Hperm.
  assert (Hids : map id m = map id l).
  { clear Hnd Hperm. induction HF as [|x x' l m Hx _ IH]; simpl; [done|]. by rewrite IH, (proj1 (HR _ _ Hx)). }
  rewrite <- (sort_ids_unique id m l'); [|by rewrite Hids|done]. clear Hnd Hids Hperm.
  assert (HS : Forall2 R (stable_sort (id_less id) l) (stable_sort (id_less id) m)).
  { apply stable_sort_Forall2; [|done]. intros x x' y y' Hx Hy. unfold id_less.
    by rewrite (proj1 (HR _ _ Hx)), (proj1 (HR _ _ Hy)). }
  unfold enc_count, size_of. rewrite (Forall2_length _ _ _ HS). split; [done|].
  induction HS as [|x x' s s' Hx _ IH]; simpl; [done|]. by rewrite IH, (proj2 (HR _ _ Hx)).
Qed.

(** The definition digest is canonical: listing the branches, metrics,
    parameters, branch parameters or declared categories of an experiment in
    another order gives the same digest, whenever branches and metrics have
    distinct identities. *)
Theorem definition_digest_canonical d d' :
  NoDup (map branch_id (def_branches d)) -> NoDup (map metric_id (def_metrics d)) -> reordered d d' ->
  definition_digest format_real d = definition_digest format_real d'.
Proof.
  intros Hb Hm [(bs & HB & Hbs) (ms & HM & Hms) Hps Hrest]. unfold definition_digest. f_equal.
  destruct (sorted_table_canonical branch_id branch_reordered (enc_branch "branch") _ _ _
    ltac:(intros x x' Hx; split; [by destruct Hx as (? & _ & ->)|by apply enc_branch_reordered]) Hb HB Hbs) as [B1 B2].
  destruct (sorted_table_canonical metric_id metric_reordered (enc_metric_definition format_real "metric") _ _ _
    ltac:(intros x x' Hx; split; [by destruct Hx as (? & _ & ->)|by apply enc_metric_reordered]) Hm HM Hms) as [M1 M2].
  apply normalize_parameters_unique in Hps.
  unfold enc_definition. rewrite B1, B2, M1, M2, Hps. by rewrite Hrest.
Qed.

End Canonicity.

(** Two branches and two parameters listed in either order. *)
Definition listed (branches : list BranchDefinition) (parameters : list ParameterAssignment) : ExperimentDefinition :=
  default_ExperimentDefinition <| def_branches := branches |> <| def_parameters := parameters |>.

Lemma definition_digest_canonical_witness :
  let b1 := default_BranchDefinition <| branch_id := 1 |> in
  let b2 := default_BranchDefinition <| branch_id := 2 |> in
  let p1 := default_ParameterAssignment <| param_key := "a"%string |> in
  let p2 := default_ParameterAssignment <| param_key := "b"%string |> in
  definition_digest (fun _ => "x"%string) (listed [b1; b2] [p2; p1])
  = definition_digest (fun _ => "x"%string) (listed [b2; b1] [p1; p2]).
Proof.
  intros b1 b2 p1 p2. apply definition_digest_canonical.
  - vm_compute. repeat constructor; set_solver.
  - vm_compute. constructor.
  - constructor.
    + exists [b1; b2]. split; [|apply perm_swap].
      repeat constructor; eexists; (split; [reflexivity|vm_compute; reflexivity]).
    + exists []. split; [constructor|reflexivity].
    + apply perm_swap.
    + reflexivity.
Defined.
