(* ===== verification/State.v ===== *)
(** * The durable state and its validator (state.hpp, state.cpp)

    The records that persist, the validator that runs on every load and after
    the definition-changing operations, and the digest of one experiment.  The
    validator is translated check by check, in the code's order, each group of
    lines as one definition returning the first failing [Status].  What it
    accepts is specified independently by [record_wf]; the theorem of Validator.v
    shows that it accepts exactly those records. *)
From S2P Require Import Prelude OMap Error Domain Identity Float64 Model Hash Canonical.

Record WorkerIncarnation := mkWorkerIncarnation {
  inc_worker : Z;
  inc_boot : Z;
  inc_epoch : Z;
  inc_producer : Z;
  inc_endpoint : string;
  inc_fingerprint : string;
  inc_registered_sequence : Z;
  inc_revoked : bool;
  inc_revocation_kind : FailureKind;
  inc_revoked_sequence : Z
}.
#[export] Instance etaWorkerIncarnation : Eta WorkerIncarnation := fun r =>
  mkWorkerIncarnation
    (inc_worker r) (inc_boot r) (inc_epoch r) (inc_producer r) (inc_endpoint r)
    (inc_fingerprint r) (inc_registered_sequence r) (inc_revoked r) (inc_revocation_kind r)
    (inc_revoked_sequence r).
Definition default_WorkerIncarnation : WorkerIncarnation :=
  mkWorkerIncarnation 0 0 0 0 "" "" 0
    false FailureKind.NONE 0.

Record ExperimentRecord := mkExperimentRecord {
  rec_definition : ExperimentDefinition;
  rec_hypothesis : HypothesisRec;
  rec_hypothesis_history : list HypothesisRec;
  rec_state : ExperimentState;
  rec_revision_sequence : Z;
  rec_created_sequence : Z;
  rec_trials : omap Z TrialRecord;
  rec_attempts : omap Z AttemptRecord;
  rec_observations : list Observation;
  rec_artifacts : list ArtifactRecord;
  rec_decisions : list Decision;
  rec_rollback_points : list RollbackPoint;
  rec_rejected_evidence : list RejectedEvidence;
  rec_lifecycle_log : list string
}.
#[export] Instance etaExperimentRecord : Eta ExperimentRecord := fun r =>
  mkExperimentRecord
    (rec_definition r) (rec_hypothesis r) (rec_hypothesis_history r) (rec_state r)
    (rec_revision_sequence r) (rec_created_sequence r) (rec_trials r) (rec_attempts r)
    (rec_observations r) (rec_artifacts r) (rec_decisions r) (rec_rollback_points r)
    (rec_rejected_evidence r) (rec_lifecycle_log r).
Definition default_ExperimentRecord : ExperimentRecord :=
  mkExperimentRecord
    default_ExperimentDefinition default_HypothesisRec [] ExperimentState.OPEN 0 0 [] [] [] [] []
    [] [] [].

Record CoordinatorState := mkCoordinatorState {
  st_format_version : Z;
  st_last_epoch : Z;
  st_last_sequence : Z;
  st_experiments : omap Z ExperimentRecord;
  st_workers : list WorkerIncarnation;
  st_next_worker_registration_sequence : Z;
  st_id_watermark_experiment : Z;
  st_id_watermark_hypothesis : Z;
  st_id_watermark_branch : Z;
  st_id_watermark_metric : Z;
  st_id_watermark_policy : Z;
  st_id_watermark_trial : Z;
  st_id_watermark_attempt : Z;
  st_id_watermark_observation : Z;
  st_id_watermark_artifact : Z;
  st_id_watermark_decision : Z;
  st_id_watermark_rollback : Z
}.
#[export] Instance etaCoordinatorState : Eta CoordinatorState := fun r =>
  mkCoordinatorState
    (st_format_version r) (st_last_epoch r) (st_last_sequence r) (st_experiments r) (st_workers r)
    (st_next_worker_registration_sequence r) (st_id_watermark_experiment r)
    (st_id_watermark_hypothesis r) (st_id_watermark_branch r) (st_id_watermark_metric r)
    (st_id_watermark_policy r) (st_id_watermark_trial r) (st_id_watermark_attempt r)
    (st_id_watermark_observation r) (st_id_watermark_artifact r) (st_id_watermark_decision r)
    (st_id_watermark_rollback r).
Definition default_CoordinatorState : CoordinatorState :=
  mkCoordinatorState 0 0 0 [] [] 0 0 0 0
    0 0 0 0 0 0 0 0.

(** ** Sequencing of checks

    [check s; rest] continues when [s] is success and returns [s] otherwise;
    [refuse b s; rest] is an early return of [s] under the condition [b]. *)
Declare Scope check_scope.
Delimit Scope check_scope with check.
Notation "'check' s ; rest" := (if status_ok s then rest else s)
  (at level 10, s at level 100, rest at level 200) : check_scope.
Notation "'refuse' b s ; rest" := (if (b : bool) then s else rest)
  (at level 10, b at level 9, s at level 9, rest at level 200) : check_scope.
#[local] Open Scope check_scope.

Definition corrupt (reason : string) : Status :=
  make_error ErrorCode.CORRUPT_PERSISTENCE ErrorStage.PERSISTENCE reason.
Definition invalid (reason : string) : Status :=
  make_error ErrorCode.INVALID_ARGUMENT ErrorStage.VALIDATION reason.
Definition state_limits_error (reason : string) : Status :=
  make_error ErrorCode.RESOURCE_EXHAUSTED ErrorStage.LIMITS reason.

Definition kMaxGeneration : Z := 4294967296.
Definition kPersistenceFormatVersion : Z := 1.

(** The first failing check over a container, in iteration order. *)
Fixpoint check_each {A} (f : A -> Status) (l : list A) : Status :=
  match l with
  | [] => success
  | x :: rest => check (f x); check_each f rest
  end.

(** A pass that inserts each identity into a [std::set] and stops at the first
    null or repeated one; [f] is the rest of the loop body. *)
Fixpoint check_unique {A} (id : A -> Z) (null_error duplicate_error : Status) (f : A -> Status)
    (seen : list Z) (l : list A) : Status :=
  match l with
  | [] => success
  | x :: rest =>
      refuse (negb (id_valid (id x))) null_error;
      refuse (bool_decide (id x ∈ seen)) duplicate_error;
      check (f x);
      check_unique id null_error duplicate_error f (id x :: seen) rest
  end.

Definition find_branch_definition (branches : list BranchDefinition) (id : Z) : option BranchDefinition :=
  List.find (fun branch => branch_id branch =? id) branches.

(** The [while (cursor.valid())] walk; [remaining] is 4096 less the depth. *)
Fixpoint lineage_walk (context : string) (branches : list BranchDefinition) (remaining : nat)
    (seen : list Z) (cursor : Z) : Status :=
  if negb (id_valid cursor) then success
  else if bool_decide (cursor ∈ seen) then
    corrupt (context +:+ ": branch lineage contains a cycle")
  else
    match remaining with
    | O => corrupt (context +:+ ": branch lineage exceeds depth bound")
    | S remaining' =>
        match find_branch_definition branches cursor with
        | None => success
        | Some branch => lineage_walk context branches remaining' (cursor :: seen) (branch_parent branch)
        end
    end.

Definition lineage_depth_bound : nat := Z.to_nat 4096.

Definition validate_branch_lineage (definition : ExperimentDefinition) (context : string) : Status :=
  let branches := def_branches definition in
  let known := map branch_id branches in
  check (check_unique branch_id (corrupt (context +:+ ": null branch identity"))
           (corrupt (context +:+ ": duplicate branch identity")) (fun _ => success) [] branches);
  check (check_each (fun branch =>
           refuse (id_valid (branch_parent branch) && negb (bool_decide (branch_parent branch ∈ known)))
             (corrupt (context +:+ ": branch parent does not exist"));
           refuse (branch_parent branch =? branch_id branch)
             (corrupt (context +:+ ": branch is its own parent"));
           success) branches);
  refuse (policy_require_baseline (def_policy definition)
          && negb (existsb (fun b => bool_decide (branch_role b = BranchRole.BASELINE)) branches))
    (corrupt (context +:+ ": policy requires a baseline branch but none is designated"));
  check_each (fun branch => lineage_walk context branches lineage_depth_bound [] (branch_id branch)) branches.

(** [a.has_value() && b.has_value() && *a > *b]. *)
Definition bounds_inverted (low high : option double) : bool :=
  match low, high with
  | Some l, Some h => dltb h l
  | _, _ => false
  end.

Fixpoint validate_metric_definitions (limits : Limits) (context : string) (ids : list Z)
    (names : list string) (metrics : list MetricDefinition) : Status :=
  match metrics with
  | [] => success
  | metric :: rest =>
      refuse (negb (id_valid (metric_id metric))) (corrupt (context +:+ ": null metric identity"));
      refuse (bool_decide (metric_id metric ∈ ids)) (corrupt (context +:+ ": duplicate metric identity"));
      refuse (String.eqb (metric_name metric) "" || (max_name_length limits <? str_size (metric_name metric)))
        (invalid (context +:+ ": metric name is empty or too long"));
      refuse (bool_decide (metric_name metric ∈ names)) (invalid (context +:+ ": duplicate metric name"));
      refuse (bool_decide (metric_kind metric = MetricKind.CATEGORICAL)
              && negb (bool_decide (metric_aggregation metric = AggregationRule.MAJORITY))
              && negb (bool_decide (metric_aggregation metric = AggregationRule.NONE)))
        (invalid (context +:+ ": categorical metric requires MAJORITY or NONE aggregation"));
      refuse ((bool_decide (metric_kind metric = MetricKind.REAL)
               || bool_decide (metric_kind metric = MetricKind.INTEGER))
              && bool_decide (metric_aggregation metric = AggregationRule.MAJORITY))
        (invalid (context +:+ ": numeric metric cannot use MAJORITY aggregation"));
      refuse (bounds_inverted (metric_lower_bound metric) (metric_upper_bound metric))
        (invalid (context +:+ ": metric validity bounds are inverted"));
      refuse (bounds_inverted (metric_target_low metric) (metric_target_high metric))
        (invalid (context +:+ ": metric target range is inverted"));
      validate_metric_definitions limits context (metric_id metric :: ids) (metric_name metric :: names) rest
  end.

Definition validate_metrics (definition : ExperimentDefinition) (limits : Limits) (context : string) : Status :=
  let policy := def_policy definition in
  let ids := map metric_id (def_metrics definition) in
  refuse (max_metrics_per_experiment limits <? size_of (def_metrics definition))
    (state_limits_error (context +:+ ": too many metric definitions"));
  check (validate_metric_definitions limits context [] [] (def_metrics definition));
  refuse (max_comparison_rules limits <? size_of (policy_rules policy))
    (state_limits_error (context +:+ ": too many comparison rules"));
  check (check_each (fun rule =>
           refuse (negb (bool_decide (rule_metric rule ∈ ids)))
             (corrupt (context +:+ ": comparison rule references an unknown metric"));
           refuse (bool_decide (rule_op rule = ComparisonOp.TARGET_RANGE)
                   && dltb (rule_target_high rule) (rule_target_low rule))
             (invalid (context +:+ ": comparison target range is inverted"));
           refuse (bool_decide (rule_op rule = ComparisonOp.MAJORITY_WINS)
                   && (dltb (rule_threshold rule) double_zero || dltb double_one (rule_threshold rule)))
             (invalid (context +:+ ": majority-wins threshold must be a fraction in [0,1]"));
           success) (policy_rules policy));
  refuse (policy_use_weighted_score policy
          && existsb (fun metric => metric_required metric
                        && bool_decide (metric_direction metric = MetricDirection.INFORMATIONAL))
               (def_metrics definition))
    (invalid (context +:+ ": weighted scoring requires a directional required metric"));
  refuse (10000 <? policy_majority_wins_min_basis_points policy)
    (invalid (context +:+ ": majority-wins basis points out of range"));
  success.

(** ** The checks of [validate_record] *)

Definition generation_out_of_range (g : Z) : bool := (g =? 0) || (kMaxGeneration <? g).

Definition validate_identity (record : ExperimentRecord) (limits : Limits) (id : Z) (context : string) : Status :=
  let definition := rec_definition record in
  refuse (negb (def_id definition =? id))
    (corrupt (context +:+ ": definition identity does not match its record key"));
  refuse (negb (id_valid (def_generation definition)) || (kMaxGeneration <? def_generation definition))
    (corrupt (context +:+ ": experiment generation is out of range"));
  refuse (negb (id_valid (hyp_id (rec_hypothesis record))) || negb (id_valid (hyp_revision (rec_hypothesis record))))
    (corrupt (context +:+ ": hypothesis identity or revision is null"));
  refuse (negb (hyp_id (rec_hypothesis record) =? def_hypothesis definition))
    (corrupt (context +:+ ": definition hypothesis does not match the current hypothesis"));
  refuse (negb (hyp_revision (rec_hypothesis record) =? def_hypothesis_revision definition))
    (corrupt (context +:+ ": definition hypothesis revision does not match the current hypothesis"));
  refuse (max_branches_per_experiment limits <? size_of (def_branches definition))
    (state_limits_error (context +:+ ": too many branch definitions"));
  refuse (match def_branches definition with [] => true | _ => false end)
    (invalid (context +:+ ": experiment has no branches"));
  success.

Definition validate_parameters (definition : ExperimentDefinition) (limits : Limits) (context : string) : Status :=
  refuse (has_duplicate_parameter_key (def_parameters definition))
    (invalid (context +:+ ": duplicate experiment parameter key"));
  check_each (fun branch =>
    refuse (has_duplicate_parameter_key (branch_parameters branch))
      (invalid (context +:+ ": duplicate branch parameter key"));
    refuse ((branch_planned_trials branch =? 0) || (max_trials_per_branch limits <? branch_planned_trials branch))
      (state_limits_error (context +:+ ": branch planned trial count is out of range"));
    success) (def_branches definition).

(** Branch and metric identities of the definition. *)
Definition branch_ids (record : ExperimentRecord) : list Z := map branch_id (def_branches (rec_definition record)).
Definition metric_ids (record : ExperimentRecord) : list Z := map metric_id (def_metrics (rec_definition record)).

Definition validate_trials (record : ExperimentRecord) (limits : Limits) (context : string) : Status :=
  let definition := rec_definition record in
  refuse (size_of (branch_ids record) * max_trials_per_branch limits <? size_of (rec_trials record))
    (state_limits_error (context +:+ ": too many trials"));
  check_each (fun entry =>
    let trial := snd entry in
    refuse (negb (trial_id trial =? fst entry)) (corrupt (context +:+ ": trial key does not match its identity"));
    refuse (negb (bool_decide (trial_branch trial ∈ branch_ids record)))
      (corrupt (context +:+ ": trial references an unknown branch"));
    refuse (generation_out_of_range (trial_generation trial))
      (corrupt (context +:+ ": trial references an out-of-range experiment generation"));
    refuse (negb (trial_hypothesis trial =? def_hypothesis definition))
      (corrupt (context +:+ ": trial references an unknown hypothesis"));
    refuse (max_attempts_per_trial limits <? trial_attempt_count trial)
      (state_limits_error (context +:+ ": trial attempt count exceeds the bound"));
    refuse (1 <? trial_committed_attempts trial)
      (corrupt (context +:+ ": trial records more than one authoritative completion"));
    success) (rec_trials record).

Definition committed_per_trial (record : ExperimentRecord) : Z :=
  foldr (fun entry total => trial_committed_attempts (snd entry) + total) 0 (rec_trials record).
Definition committed_attempts (record : ExperimentRecord) : Z :=
  foldr (fun entry total => (if attempt_committed (snd entry) then 1 else 0) + total) 0 (rec_attempts record).

Definition validate_attempts (record : ExperimentRecord) (limits : Limits) (context : string) : Status :=
  refuse (size_of (rec_trials record) * max_attempts_per_trial limits <? size_of (rec_attempts record))
    (state_limits_error (context +:+ ": too many attempts"));
  check (check_each (fun entry =>
           let attempt := snd entry in
           refuse (negb (attempt_id attempt =? fst entry))
             (corrupt (context +:+ ": attempt key does not match its identity"));
           refuse (negb (om_mem (attempt_trial attempt) (rec_trials record)))
             (corrupt (context +:+ ": attempt references an unknown trial"));
           refuse (negb (id_valid (attempt_number attempt)))
             (corrupt (context +:+ ": attempt number must be non-zero"));
           refuse (max_attempts_per_trial limits <? attempt_number attempt)
             (state_limits_error (context +:+ ": attempt number exceeds the configured bound"));
           success) (rec_attempts record));
  refuse (negb (committed_attempts record =? committed_per_trial record))
    (corrupt (context +:+ ": committed attempt count disagrees with trial completion count"));
  check_each (fun entry =>
    refuse (id_valid (trial_authoritative_attempt (snd entry))
            && negb (om_mem (trial_authoritative_attempt (snd entry)) (rec_attempts record)))
      (corrupt (context +:+ ": trial authority references an unknown attempt"));
    success) (rec_trials record).

Definition validate_sizes (record : ExperimentRecord) (limits : Limits) (context : string) : Status :=
  refuse (max_observations_per_experiment limits <? size_of (rec_observations record))
    (state_limits_error (context +:+ ": too many observations"));
  refuse (max_artifacts_per_experiment limits <? size_of (rec_artifacts record))
    (state_limits_error (context +:+ ": too many artifacts"));
  refuse (max_decisions_per_experiment limits <? size_of (rec_decisions record))
    (state_limits_error (context +:+ ": too many decisions"));
  refuse (max_decisions_per_experiment limits <? size_of (rec_rollback_points record))
    (state_limits_error (context +:+ ": too many rollback points"));
  success.

(** [++valid_per_trial_metric[trial][metric]] over the VALID observations. *)
Definition valid_per_trial_metric (observations : list Observation) : omap (Z * Z) Z :=
  foldl (fun counts o =>
    if bool_decide (obs_validity o = ObservationValidity.VALID) then
      let key := (obs_trial o, obs_metric o) in
      om_set key (default 0 (om_find key counts) + 1) counts
    else counts) [] observations.

Definition validate_observations (record : ExperimentRecord) (context : string) : Status :=
  check (check_unique obs_id (corrupt (context +:+ ": null observation identity"))
    (corrupt (context +:+ ": duplicate observation identity"))
    (fun o =>
      refuse (negb (om_mem (obs_trial o) (rec_trials record)))
        (corrupt (context +:+ ": observation references an unknown trial"));
      refuse (negb (om_mem (obs_attempt o) (rec_attempts record)))
        (corrupt (context +:+ ": observation references an unknown attempt"));
      refuse (negb (bool_decide (obs_metric o ∈ metric_ids record)))
        (corrupt (context +:+ ": observation references an unknown metric"));
      refuse (negb (id_valid (obs_producer o)))
        (corrupt (context +:+ ": observation has a null producer identity"));
      refuse (generation_out_of_range (obs_generation o))
        (corrupt (context +:+ ": observation references an out-of-range experiment generation"));
      success) [] (rec_observations record));
  refuse (existsb (fun entry => 1 <? snd entry) (valid_per_trial_metric (rec_observations record)))
    (corrupt (context +:+ ": duplicate valid observation for one metric on one trial"));
  success.

Definition validate_artifacts (record : ExperimentRecord) (limits : Limits) (context : string) : Status :=
  check (check_unique artifact_id (corrupt (context +:+ ": null artifact identity"))
    (corrupt (context +:+ ": duplicate artifact identity"))
    (fun a =>
      refuse (negb (om_mem (artifact_trial a) (rec_trials record)))
        (corrupt (context +:+ ": artifact references an unknown trial"));
      refuse (negb (om_mem (artifact_attempt a) (rec_attempts record)))
        (corrupt (context +:+ ": artifact references an unknown attempt"));
      refuse (String.eqb (artifact_locator a) "" || (max_locator_length limits <? str_size (artifact_locator a)))
        (invalid (context +:+ ": artifact locator is empty or too long"));
      success) [] (rec_artifacts record));
  check_each (fun entry =>
    check_each (fun artifact =>
      refuse (negb (bool_decide (artifact ∈ map artifact_id (rec_artifacts record))))
        (corrupt (context +:+ ": trial references an unknown artifact"));
      success) (trial_artifacts (snd entry))) (rec_trials record).

Definition validate_decisions (record : ExperimentRecord) (context : string) : Status :=
  check_unique dec_id (corrupt (context +:+ ": null decision identity"))
    (corrupt (context +:+ ": duplicate decision identity"))
    (fun d =>
      refuse (generation_out_of_range (dec_generation d))
        (corrupt (context +:+ ": decision references an out-of-range experiment generation"));
      refuse (negb (bool_decide (dec_candidate d ∈ branch_ids record)))
        (corrupt (context +:+ ": decision references an unknown candidate branch"));
      refuse (dec_baseline_present d && negb (bool_decide (dec_baseline d ∈ branch_ids record)))
        (corrupt (context +:+ ": decision references an unknown baseline branch"));
      success) [] (rec_decisions record).

Definition validate_point (record : ExperimentRecord) (context : string) (point : RollbackPoint) : Status :=
  refuse (point_decision_present point
          && negb (bool_decide (point_decision point ∈ map dec_id (rec_decisions record))))
    (corrupt (context +:+ ": rollback point references an unknown decision"));
  check_each (fun snapshot =>
    refuse (negb (id_valid (snap_branch snapshot)) || negb (id_valid (snap_generation snapshot)))
      (corrupt (context +:+ ": rollback point carries a null branch authority snapshot"));
    refuse (negb (bool_decide (snap_branch snapshot ∈ branch_ids record)))
      (corrupt (context +:+ ": rollback point references an unknown branch"));
    success) (point_authority point).

Fixpoint validate_rollback_points (record : ExperimentRecord) (context : string) (seen : list Z)
    (previous_sequence : Z) (points : list RollbackPoint) : Status :=
  match points with
  | [] => success
  | point :: rest =>
      refuse (negb (id_valid (point_id point))) (corrupt (context +:+ ": null rollback point identity"));
      refuse (bool_decide (point_id point ∈ seen)) (corrupt (context +:+ ": duplicate rollback point identity"));
      refuse (generation_out_of_range (point_generation point))
        (corrupt (context +:+ ": rollback point references an out-of-range experiment generation"));
      refuse (point_sequence point <=? previous_sequence)
        (corrupt (context +:+ ": rollback points are not ordered by sequence"));
      check (validate_point record context point);
      validate_rollback_points record context (point_id point :: seen) (point_sequence point) rest
  end.

(** [validate_record]. *)
Definition validate_record (record : ExperimentRecord) (limits : Limits) (id : Z) : Status :=
  let context := ("experiment " +:+ id_to_string id)%string in
  check (validate_identity record limits id context);
  check (validate_branch_lineage (rec_definition record) context);
  check (validate_metrics (rec_definition record) limits context);
  check (validate_parameters (rec_definition record) limits context);
  check (validate_trials record limits context);
  check (validate_attempts record limits context);
  check (validate_sizes record limits context);
  check (validate_observations record context);
  check (validate_artifacts record limits context);
  check (validate_decisions record context);
  validate_rollback_points record context [] 0 (rec_rollback_points record).

Definition validate_experiment_record (record : ExperimentRecord) (limits : Limits) (id : Z) : Status :=
  validate_record record limits id.

(** ** The whole state *)

Definition record_count (record : ExperimentRecord) : Z :=
  1 + size_of (rec_trials record) + size_of (rec_attempts record) + size_of (rec_observations record)
  + size_of (rec_artifacts record) + size_of (rec_decisions record)
  + size_of (rec_rollback_points record) + size_of (rec_rejected_evidence record)
  + size_of (rec_hypothesis_history record) + size_of (rec_lifecycle_log record).

(** [CoordinatorState::total_record_count]. *)
Definition total_record_count (state : CoordinatorState) : Z :=
  foldl (fun total entry => total + record_count (snd entry)) (size_of (st_workers state)) (st_experiments state).

Fixpoint validate_incarnations (seen : list (Z * Z)) (workers : list WorkerIncarnation) : Status :=
  match workers with
  | [] => success
  | w :: rest =>
      refuse (negb (id_valid (inc_worker w)) || negb (id_valid (inc_boot w)) || negb (id_valid (inc_epoch w)))
        (corrupt "worker incarnation contains a null identity");
      refuse (bool_decide ((inc_worker w, inc_boot w) ∈ seen)) (corrupt "duplicate worker boot incarnation");
      validate_incarnations ((inc_worker w, inc_boot w) :: seen) rest
  end.

Definition list_max (l : list Z) : Z := foldl Z.max 0 l.

(** The watermark dominates every identity of its kind in the state. *)
Definition dominates (watermark : Z) (ids : ExperimentRecord -> list Z) (state : CoordinatorState) : bool :=
  negb (watermark <? list_max (flat_map (fun entry => ids (snd entry)) (st_experiments state))).

Definition hypothesis_ids (record : ExperimentRecord) : list Z :=
  hyp_id (rec_hypothesis record) :: def_hypothesis (rec_definition record)
  :: map hyp_id (rec_hypothesis_history record).

Definition watermarks_dominate (state : CoordinatorState) : bool :=
  negb (st_id_watermark_experiment state <? list_max (om_keys (st_experiments state)))
  && dominates (st_id_watermark_hypothesis state) hypothesis_ids state
  && dominates (st_id_watermark_branch state) branch_ids state
  && dominates (st_id_watermark_trial state) (fun r => om_keys (rec_trials r)) state
  && dominates (st_id_watermark_attempt state) (fun r => om_keys (rec_attempts r)) state
  && dominates (st_id_watermark_observation state) (fun r => map obs_id (rec_observations r)) state
  && dominates (st_id_watermark_artifact state) (fun r => map artifact_id (rec_artifacts r)) state
  && dominates (st_id_watermark_decision state) (fun r => map dec_id (rec_decisions r)) state
  && dominates (st_id_watermark_rollback state) (fun r => map point_id (rec_rollback_points r)) state.

(** [CoordinatorState::validate]. *)
Definition validate_state (state : CoordinatorState) (limits : Limits) : Status :=
  refuse (negb (st_format_version state =? kPersistenceFormatVersion)) (corrupt "state format version mismatch");
  refuse (max_experiments limits <? size_of (st_experiments state))
    (state_limits_error "state holds more experiments than the configured bound");
  refuse (max_persisted_records limits <? total_record_count state)
    (state_limits_error "state holds more records than the configured bound");
  check (validate_incarnations [] (st_workers state));
  check (check_each (fun entry =>
           refuse (negb (id_valid (fst entry))) (corrupt "null experiment record key");
           validate_record (snd entry) limits (fst entry)) (st_experiments state));
  refuse (negb (watermarks_dominate state))
    (corrupt "identity watermark does not dominate persisted identities");
  success.

(** [CoordinatorState::experiment_digest]. *)
Definition experiment_digest (format_real : double -> string) (state : CoordinatorState) (id : Z) : Digest :=
  match om_find id (st_experiments state) with
  | None => sha_digest_of (write_text "experiment-state-v1" ++ write_text "absent")
  | Some record =>
      sha_digest_of
        (write_text "experiment-state-v1"
         ++ definition_digest format_real (rec_definition record)
         ++ hypothesis_digest (rec_hypothesis record)
         ++ le_u64 (experiment_state_code (rec_state record))
         ++ flat_map (fun entry => enc_trial "trial" (snd entry)) (rec_trials record)
         ++ flat_map (fun entry => le_u64 (fst entry) ++ le_u8 (attempt_state_code (attempt_state (snd entry)))
                                   ++ enc_bool (attempt_committed (snd entry))) (rec_attempts record)
         ++ flat_map (enc_observation format_real "observation") (rec_observations record)
         ++ flat_map (fun a => le_u64 (artifact_id a) ++ enc_bool (artifact_current a)
                               ++ artifact_content_digest a) (rec_artifacts record)
         ++ flat_map (fun d => le_u64 (dec_id d) ++ le_u8 (decision_outcome_code (dec_outcome d))
                               ++ dec_canonical_state_digest d) (rec_decisions record))
  end.
