(* ===== verification/Validator.v ===== *)
(** * What the validator accepts

    [record_wf] says, without reference to the order or the messages of the
    checks, which experiment records are well formed.  The last theorem
    shows that the validator of state.cpp accepts exactly those records; the
    lineage walk with its depth bound is shown to decide that every branch has
    a finite, repetition-free chain of ancestors. *)
From S2P Require Import Prelude OMap Error Domain Identity Float64 Model Hash Canonical State.

(** ** Statuses that pass *)

Definition passes (s : Status) : Prop := status_ok s = true.

Lemma passes_success : passes success.
Proof. reflexivity. Qed.

Lemma passes_check s rest : passes (if status_ok s then rest else s) <-> passes s /\ passes rest.
Proof. unfold passes. destruct (status_ok s) eqn:E; rewrite ?E; intuition congruence. Qed.

Lemma passes_refuse (b : bool) s rest :
  ~ passes s -> passes (if b then s else rest) <-> b = false /\ passes rest.
Proof. intros Hs. destruct b; intuition congruence. Qed.

Lemma not_passes_corrupt r : ~ passes (corrupt r).
Proof. by unfold passes, corrupt, status_ok. Qed.
Lemma not_passes_invalid r : ~ passes (invalid r).
Proof. by unfold passes, invalid, status_ok. Qed.
Lemma not_passes_limits r : ~ passes (state_limits_error r).
Proof. by unfold passes, state_limits_error, status_ok. Qed.

Create HintDb passes.
#[export] Hint Resolve not_passes_corrupt not_passes_invalid not_passes_limits passes_success : passes.

(** Turns a statement that a chain of checks passes into the conjunction of
    its conditions. *)
Ltac passes_steps :=
  repeat first
    [ rewrite passes_check
    | rewrite passes_refuse by auto with passes ].

Lemma passes_check_each {A} (f : A -> Status) l :
  passes (check_each f l) <-> Forall (fun x => passes (f x)) l.
Proof.
  induction l as [|x l IH]; simpl; [by rewrite Forall_nil|].
  by rewrite passes_check, IH, Forall_cons.
Qed.

Lemma passes_check_unique {A} (id : A -> Z) null_error duplicate_error f seen l :
  ~ passes null_error -> ~ passes duplicate_error ->
  passes (check_unique id null_error duplicate_error f seen l)
  <-> Forall (fun x => id x <> 0 /\ (id x ∉ seen) /\ passes (f x)) l /\ NoDup (map id l).
Proof.
  intros Hn Hd. revert seen. induction l as [|x l IH]; intros seen; simpl.
  - rewrite Forall_nil. split; [|done]. intros _. split; [done|constructor].
  - rewrite !passes_refuse, passes_check, IH, Forall_cons, NoDup_cons by done.
    rewrite !Forall_forall, list_elem_of_fmap. unfold id_valid. rewrite negb_involutive, Z.eqb_neq.
    rewrite bool_decide_eq_false. split.
    + intros (Hx & Hseen & Hf & Hall & Hnd). split_and!; auto.
      * intros y Hy. destruct (Hall y Hy) as (? & ? & ?). set_solver.
      * intros (y & Heq & Hy). destruct (Hall y Hy) as (_ & Hni & _). set_solver.
    + intros ([(Hx & Hseen & Hf) Hall] & Hnotin & Hnd). split_and!; auto.
      intros y Hy. destruct (Hall y Hy) as (? & ? & ?). split_and!; auto.
      intros [Heq|Hin]%elem_of_cons; [apply Hnotin; by exists y|done].
Qed.

(** ** Branch lineage *)

(** [lineage_of branches c l]: [l] is [c] and its ancestors up to a root. *)
Inductive lineage_of (branches : list BranchDefinition) : Z -> list Z -> Prop :=
| lineage_root : lineage_of branches 0 []
| lineage_parent c b l :
    c <> 0 -> find_branch_definition branches c = Some b ->
    lineage_of branches (branch_parent b) l -> lineage_of branches c (c :: l).

Lemma lineage_deterministic branches c l1 l2 :
  lineage_of branches c l1 -> lineage_of branches c l2 -> l1 = l2.
Proof.
  intros H1. revert l2. induction H1 as [|c b l1 Hc Hf H1 IH]; intros l2 H2;
    inversion H2; simplify_eq; try done. f_equal. auto.
Qed.

Lemma lineage_suffix branches c l x :
  lineage_of branches c l -> x ∈ l -> exists l', lineage_of branches x l' /\ (length l' <= length l)%nat.
Proof.
  induction 1 as [|c b l Hc Hf Hl IH]; [set_solver|].
  intros [->|Hin]%elem_of_cons.
  - exists (c :: l). split; [by econstructor|done].
  - destruct (IH Hin) as (l' & ? & ?). exists l'. simpl. split; [done|lia].
Qed.

(** A chain of ancestors never repeats a branch: lineage is acyclic. *)
Lemma lineage_acyclic branches c l : lineage_of branches c l -> NoDup l.
Proof.
  induction 1 as [|c b l Hc Hf Hl IH]; constructor; [|done].
  intros Hin. destruct (lineage_suffix _ _ _ _ Hl Hin) as (l' & Hl' & Hlen).
  assert (l' = c :: l) as -> by (eapply lineage_deterministic; [done|by econstructor]).
  simpl in Hlen. lia.
Qed.

Lemma find_branch_elem branches c :
  c ∈ map branch_id branches -> exists b, find_branch_definition branches c = Some b /\ b ∈ branches.
Proof.
  intros (b & -> & Hb)%list_elem_of_fmap. unfold find_branch_definition.
  destruct (List.find _ branches) as [b'|] eqn:E.
  - exists b'. split; [done|]. apply list_elem_of_In. by apply find_some in E as [? _].
  - apply list_elem_of_In in Hb. apply (find_none _ _ E) in Hb. lia.
Qed.

Lemma lineage_walk_spec context branches remaining seen c :
  Forall (fun b => branch_parent b = 0 \/ branch_parent b ∈ map branch_id branches) branches ->
  c = 0 \/ c ∈ map branch_id branches ->
  passes (lineage_walk context branches remaining seen c)
  <-> exists l, lineage_of branches c l /\ (length l <= remaining)%nat /\ forall x, x ∈ l -> x ∉ seen.
Proof.
  intros Hclosed. revert seen c. induction remaining as [|remaining IH]; intros seen c Hc; simpl;
    unfold id_valid; (destruct (Z.eqb_spec c 0) as [->|Hne]; simpl;
      [split; [|done]; intros _; exists []; split; [constructor|]; split; [simpl; lia|set_solver]|]);
    destruct Hc as [?|Hc]; try done; destruct (find_branch_elem _ _ Hc) as (b & Hf & Hb);
    rewrite ?Hf, passes_refuse by auto with passes; rewrite bool_decide_eq_false.
  - split; [intros [_ []%not_passes_corrupt]|].
    intros (l & Hl & Hlen & _). inversion Hl; subst; simpl in *; [done|lia].
  - rewrite Forall_forall in Hclosed. rewrite IH by (by apply Hclosed). split.
    + intros (Hseen & l & Hl & Hlen & Hdisj). exists (c :: l). split; [by econstructor|].
      simpl. split; [lia|]. set_solver.
    + intros (l & Hl & Hlen & Hdisj). inversion Hl as [|? b' l' _ Hf' Hl']; simplify_eq.
      split; [set_solver|]. exists l'. simpl in Hlen. repeat split; [done|lia|].
      apply lineage_acyclic in Hl. apply NoDup_cons in Hl as [Hnotin _]. set_solver.
Qed.

(** ** Well-formed records *)

Section WellFormed.
Context (limits : Limits) (record : ExperimentRecord).
Let definition := rec_definition record.
Let policy := def_policy definition.

Definition generation_ok (g : Z) : Prop := g <> 0 /\ g <= kMaxGeneration.

(** Every branch has an identity of its own and a chain of existing,
    pairwise distinct ancestors that ends in a root. *)
Record lineage_wf : Prop := {
  wf_branch_ids : Forall (fun b => branch_id b <> 0) (def_branches definition);
  wf_branch_unique : NoDup (branch_ids record);
  wf_parents : Forall (fun b => branch_parent b = 0 \/ branch_parent b ∈ branch_ids record)
                 (def_branches definition);
  wf_baseline : policy_require_baseline policy = true ->
    Exists (fun b => branch_role b = BranchRole.BASELINE) (def_branches definition);
  wf_ancestors : Forall (fun b => exists l,
    lineage_of (def_branches definition) (branch_id b) l /\ (length l <= lineage_depth_bound)%nat)
    (def_branches definition)
}.

Definition metric_wf (m : MetricDefinition) : Prop :=
  metric_id m <> 0
  /\ metric_name m <> ""%string /\ str_size (metric_name m) <= max_name_length limits
  /\ (metric_kind m = MetricKind.CATEGORICAL ->
      metric_aggregation m = AggregationRule.MAJORITY \/ metric_aggregation m = AggregationRule.NONE)
  /\ (metric_kind m = MetricKind.REAL \/ metric_kind m = MetricKind.INTEGER ->
      metric_aggregation m <> AggregationRule.MAJORITY)
  /\ bounds_inverted (metric_lower_bound m) (metric_upper_bound m) = false
  /\ bounds_inverted (metric_target_low m) (metric_target_high m) = false.

Definition rule_wf (rule : ComparisonRule) : Prop :=
  rule_metric rule ∈ metric_ids record
  /\ (rule_op rule = ComparisonOp.TARGET_RANGE -> dltb (rule_target_high rule) (rule_target_low rule) = false)
  /\ (rule_op rule = ComparisonOp.MAJORITY_WINS ->
      dltb (rule_threshold rule) double_zero = false /\ dltb double_one (rule_threshold rule) = false).

Record metrics_wf : Prop := {
  wf_metric_count : size_of (def_metrics definition) <= max_metrics_per_experiment limits;
  wf_metrics : Forall metric_wf (def_metrics definition);
  wf_metric_ids_unique : NoDup (metric_ids record);
  wf_metric_names_unique : NoDup (map metric_name (def_metrics definition));
  wf_rule_count : size_of (policy_rules policy) <= max_comparison_rules limits;
  wf_rules : Forall rule_wf (policy_rules policy);
  wf_weighted : policy_use_weighted_score policy = true ->
    Forall (fun m => metric_required m = true -> metric_direction m <> MetricDirection.INFORMATIONAL)
      (def_metrics definition);
  wf_basis_points : policy_majority_wins_min_basis_points policy <= 10000
}.

Definition trial_wf (entry : Z * TrialRecord) : Prop :=
  let t := entry.2 in
  trial_id t = entry.1 /\ trial_branch t ∈ branch_ids record /\ generation_ok (trial_generation t)
  /\ trial_hypothesis t = def_hypothesis definition
  /\ trial_attempt_count t <= max_attempts_per_trial limits
  /\ trial_committed_attempts t <= 1.

Definition attempt_wf (entry : Z * AttemptRecord) : Prop :=
  let a := entry.2 in
  attempt_id a = entry.1 /\ om_mem (attempt_trial a) (rec_trials record) = true
  /\ attempt_number a <> 0 /\ attempt_number a <= max_attempts_per_trial limits.

Definition observation_wf (o : Observation) : Prop :=
  obs_id o <> 0 /\ om_mem (obs_trial o) (rec_trials record) = true
  /\ om_mem (obs_attempt o) (rec_attempts record) = true
  /\ obs_metric o ∈ metric_ids record /\ obs_producer o <> 0 /\ generation_ok (obs_generation o).

(** The (trial, metric) pairs for which valid evidence is held, in order. *)
Definition valid_evidence_keys (observations : list Observation) : list (Z * Z) :=
  map (fun o => (obs_trial o, obs_metric o))
    (List.filter (fun o => bool_decide (obs_validity o = ObservationValidity.VALID)) observations).

Definition artifact_wf (a : ArtifactRecord) : Prop :=
  artifact_id a <> 0 /\ om_mem (artifact_trial a) (rec_trials record) = true
  /\ om_mem (artifact_attempt a) (rec_attempts record) = true
  /\ artifact_locator a <> ""%string /\ str_size (artifact_locator a) <= max_locator_length limits.

Definition decision_wf (d : Decision) : Prop :=
  dec_id d <> 0 /\ generation_ok (dec_generation d) /\ dec_candidate d ∈ branch_ids record
  /\ (dec_baseline_present d = true -> dec_baseline d ∈ branch_ids record).

Definition snapshot_wf (s : BranchAuthoritySnapshot) : Prop :=
  snap_branch s <> 0 /\ snap_generation s <> 0 /\ snap_branch s ∈ branch_ids record.

Definition point_wf (p : RollbackPoint) : Prop :=
  point_id p <> 0 /\ generation_ok (point_generation p)
  /\ (point_decision_present p = true -> point_decision p ∈ map dec_id (rec_decisions record))
  /\ Forall snapshot_wf (point_authority p).

(** Sequences strictly increase from [previous]. *)
Fixpoint sequences_increase (previous : Z) (points : list RollbackPoint) : Prop :=
  match points with
  | [] => True
  | p :: rest => previous < point_sequence p /\ sequences_increase (point_sequence p) rest
  end.

Record record_wf (id : Z) : Prop := {
  wf_id : def_id definition = id;
  wf_generation : generation_ok (def_generation definition);
  wf_hypothesis_ids : hyp_id (rec_hypothesis record) <> 0 /\ hyp_revision (rec_hypothesis record) <> 0;
  wf_hypothesis : hyp_id (rec_hypothesis record) = def_hypothesis definition
    /\ hyp_revision (rec_hypothesis record) = def_hypothesis_revision definition;
  wf_branch_count : 0 < size_of (def_branches definition) <= max_branches_per_experiment limits;
  wf_lineage : lineage_wf;
  wf_metric_section : metrics_wf;
  wf_parameters : NoDup (map param_key (def_parameters definition));
  wf_branch_parameters : Forall (fun b => NoDup (map param_key (branch_parameters b))
      /\ branch_planned_trials b <> 0 /\ branch_planned_trials b <= max_trials_per_branch limits)
    (def_branches definition);
  wf_trial_count :
    size_of (rec_trials record) <= size_of (branch_ids record) * max_trials_per_branch limits;
  wf_trials : Forall trial_wf (rec_trials record);
  wf_attempt_count :
    size_of (rec_attempts record) <= size_of (rec_trials record) * max_attempts_per_trial limits;
  wf_attempts : Forall attempt_wf (rec_attempts record);
  wf_committed : committed_attempts record = committed_per_trial record;
  wf_authoritative : Forall (fun entry => trial_authoritative_attempt entry.2 = 0
      \/ om_mem (trial_authoritative_attempt entry.2) (rec_attempts record) = true) (rec_trials record);
  wf_sizes : size_of (rec_observations record) <= max_observations_per_experiment limits
    /\ size_of (rec_artifacts record) <= max_artifacts_per_experiment limits
    /\ size_of (rec_decisions record) <= max_decisions_per_experiment limits
    /\ size_of (rec_rollback_points record) <= max_decisions_per_experiment limits;
  wf_observations : Forall observation_wf (rec_observations record);
  wf_observation_ids : NoDup (map obs_id (rec_observations record));
  wf_valid_evidence : NoDup (valid_evidence_keys (rec_observations record));
  wf_artifacts : Forall artifact_wf (rec_artifacts record);
  wf_artifact_ids : NoDup (map artifact_id (rec_artifacts record));
  wf_trial_artifacts : Forall (fun entry => Forall (fun a => a ∈ map artifact_id (rec_artifacts record))
      (trial_artifacts entry.2)) (rec_trials record);
  wf_decisions : Forall decision_wf (rec_decisions record);
  wf_decision_ids : NoDup (map dec_id (rec_decisions record));
  wf_points : Forall point_wf (rec_rollback_points record);
  wf_point_ids : NoDup (map point_id (rec_rollback_points record));
  wf_point_order : sequences_increase 0 (rec_rollback_points record)
}.

End WellFormed.

(** ** The validator accepts exactly the well-formed records *)

(** Reads the boolean conditions of the checks as propositions. *)
Create Rewrite HintDb bprop.
#[export] Hint Rewrite negb_false_iff negb_true_iff orb_false_iff Z.eqb_eq Z.eqb_neq Z.ltb_ge Z.leb_gt
  bool_decide_eq_true bool_decide_eq_false : bprop.

Lemma andb_false_impl (a b : bool) : a && b = false <-> (a = true -> b = false).
Proof. destruct a, b; intuition congruence. Qed.

Lemma eqb_empty_false (s : string) : String.eqb s "" = false <-> s <> ""%string.
Proof. apply String.eqb_neq. Qed.

Lemma existsb_false_Forall {A} (f : A -> bool) l : existsb f l = false <-> Forall (fun x => f x = false) l.
Proof.
  induction l as [|x l IH]; simpl; [by rewrite Forall_nil|].
  by rewrite orb_false_iff, IH, Forall_cons.
Qed.

Lemma existsb_true_Exists {A} (f : A -> bool) l : existsb f l = true <-> Exists (fun x => f x = true) l.
Proof. rewrite existsb_exists, Exists_exists. by setoid_rewrite list_elem_of_In. Qed.

#[export] Hint Rewrite andb_false_impl eqb_empty_false @existsb_false_Forall : bprop.

Ltac checks := passes_steps; autorewrite with bprop.

Lemma Forall_iff {A} (P Q : A -> Prop) l : (forall x, P x <-> Q x) -> Forall P l <-> Forall Q l.
Proof. intros Hiff. rewrite !Forall_forall. naive_solver. Qed.

Lemma Forall_and {A} (P Q : A -> Prop) l : Forall (fun x => P x /\ Q x) l <-> Forall P l /\ Forall Q l.
Proof. rewrite !Forall_forall. naive_solver. Qed.

(** The identity pass of a container: non-null, pairwise distinct identities
    and the element checks. *)
Lemma passes_unique_nil {A} (id : A -> Z) null_error duplicate_error f l (P : A -> Prop) :
  ~ passes null_error -> ~ passes duplicate_error -> (forall x, id x <> 0 /\ passes (f x) <-> P x) ->
  passes (check_unique id null_error duplicate_error f [] l) <-> Forall P l /\ NoDup (map id l).
Proof.
  intros Hn Hd HP. rewrite passes_check_unique by done. f_equiv.
  apply Forall_iff. intros x. rewrite <- HP. set_solver.
Qed.

Lemma generation_out_of_range_spec g : generation_out_of_range g = false <-> generation_ok g.
Proof. unfold generation_out_of_range, generation_ok. by autorewrite with bprop. Qed.
#[export] Hint Rewrite generation_out_of_range_spec : bprop.

Lemma id_valid_true i : id_valid i = true <-> i <> 0.
Proof. unfold id_valid. by autorewrite with bprop. Qed.
Lemma id_valid_false i : id_valid i = false <-> i = 0.
Proof. unfold id_valid. by autorewrite with bprop. Qed.
#[export] Hint Rewrite id_valid_true id_valid_false has_duplicate_parameter_key_spec : bprop.

(** Well-formed lineage excludes a branch that is its own parent. *)
Lemma lineage_not_self record b :
  lineage_wf record -> b ∈ def_branches (rec_definition record) -> branch_parent b <> branch_id b.
Proof.
  intros [Hids Hnd _ _ Hanc] Hb Heq. rewrite Forall_forall in Hids, Hanc.
  destruct (Hanc b Hb) as (l & Hl & _). pose proof (Hids b Hb).
  inversion Hl as [|? b' l' Hne Hf Hl']; subst; [done|].
  apply find_some in Hf as [Hin%list_elem_of_In Hid%Z.eqb_eq].
  assert (b' = b) as -> by (by eapply NoDup_map_inj). rewrite Heq in Hl'.
  pose proof (lineage_deterministic _ _ _ _ Hl Hl') as Hcyc.
  apply (f_equal length) in Hcyc. simpl in Hcyc. lia.
Qed.

Lemma baseline_check_spec record :
  policy_require_baseline (def_policy (rec_definition record))
    && negb (existsb (fun b => bool_decide (branch_role b = BranchRole.BASELINE))
               (def_branches (rec_definition record))) = false
  <-> (policy_require_baseline (def_policy (rec_definition record)) = true ->
       Exists (fun b => branch_role b = BranchRole.BASELINE) (def_branches (rec_definition record))).
Proof.
  rewrite andb_false_impl, negb_false_iff, existsb_true_Exists, !Exists_exists.
  by setoid_rewrite bool_decide_eq_true.
Qed.

Lemma branch_ids_elem record b : b ∈ def_branches (rec_definition record) -> branch_id b ∈ branch_ids record.
Proof. intros Hb. apply list_elem_of_fmap. by exists b. Qed.

Lemma validate_branch_lineage_spec record context :
  passes (validate_branch_lineage (rec_definition record) context) <-> lineage_wf record.
Proof.
  unfold validate_branch_lineage.
  rewrite !passes_check, passes_refuse, baseline_check_spec by auto with passes.
  rewrite (passes_unique_nil _ _ _ _ _ (fun b => branch_id b <> 0)) by
    (try (intros b; split; [by intros []|split; [done|apply passes_success]]); auto with passes).
  rewrite !passes_check_each. split.
  - intros ([Hids Hnd] & Hpar & Hbase & Hwalk).
    assert (Hparents : Forall (fun b => branch_parent b = 0 \/ branch_parent b ∈ branch_ids record)
      (def_branches (rec_definition record))).
    { eapply Forall_impl; [exact Hpar|]. intros b; simpl. checks. intros (Himp & _).
      destruct (Z.eq_dec (branch_parent b) 0); auto. }
    constructor; auto.
    rewrite Forall_forall in Hwalk |- *. intros b Hb. specialize (Hwalk b Hb).
    apply lineage_walk_spec in Hwalk as (l & ? & ? & _); eauto using branch_ids_elem.
  - intros Hwf. pose proof (fun b => lineage_not_self record b Hwf) as Hself.
    destruct Hwf as [Hids Hnd Hpar Hbase Hanc].
    rewrite !Forall_forall in *. split_and!; auto.
    + intros b Hb. simpl. checks. split_and!; auto with passes. intros Hne. destruct (Hpar b Hb); done.
    + intros b Hb. destruct (Hanc b Hb) as (l & ? & ?).
      apply lineage_walk_spec; [by apply Forall_forall|right; by apply branch_ids_elem|].
      exists l. split_and!; auto. set_solver.
Qed.

Lemma metric_aggregation_check (m : MetricDefinition) :
  bool_decide (metric_kind m = MetricKind.CATEGORICAL)
    && negb (bool_decide (metric_aggregation m = AggregationRule.MAJORITY))
    && negb (bool_decide (metric_aggregation m = AggregationRule.NONE)) = false
  <-> (metric_kind m = MetricKind.CATEGORICAL ->
       metric_aggregation m = AggregationRule.MAJORITY \/ metric_aggregation m = AggregationRule.NONE).
Proof. destruct (metric_kind m), (metric_aggregation m); simpl; intuition congruence. Qed.

Lemma metric_majority_check (m : MetricDefinition) :
  (bool_decide (metric_kind m = MetricKind.REAL) || bool_decide (metric_kind m = MetricKind.INTEGER))
    && bool_decide (metric_aggregation m = AggregationRule.MAJORITY) = false
  <-> (metric_kind m = MetricKind.REAL \/ metric_kind m = MetricKind.INTEGER ->
       metric_aggregation m <> AggregationRule.MAJORITY).
Proof. destruct (metric_kind m), (metric_aggregation m); simpl; intuition congruence. Qed.

Lemma validate_metric_definitions_spec limits context ids names metrics :
  passes (validate_metric_definitions limits context ids names metrics)
  <-> Forall (metric_wf limits) metrics
      /\ NoDup (map metric_id metrics) /\ NoDup (map metric_name metrics)
      /\ Forall (fun m => (metric_id m ∉ ids) /\ metric_name m ∉ names) metrics.
Proof.
  revert ids names. induction metrics as [|m metrics IH]; intros ids names; simpl.
  - rewrite !Forall_nil. split; [|auto with passes]. intros _. repeat split; constructor.
  - passes_steps. rewrite metric_aggregation_check, metric_majority_check, IH. autorewrite with bprop.
    rewrite !NoDup_cons, !list_elem_of_fmap, !Forall_cons. unfold metric_wf at 2. split.
    + intros (Hid & Hids & [Hn Hlen] & Hname & Hc & Hm & Hb & Ht & Hwf & Hnd & Hnn & Hseen).
      rewrite Forall_forall in Hseen. split_and!; auto.
      * intros (y & Heq & Hy). destruct (Hseen y Hy) as [Hy' _]. set_solver.
      * intros (y & Heq & Hy). destruct (Hseen y Hy) as [_ Hy']. set_solver.
      * apply Forall_forall. intros y Hy. destruct (Hseen y Hy). set_solver.
    + intros ([(Hid & Hn & Hlen & Hc & Hm & Hb & Ht) Hwf] & [Hi Hnd] & [Hn' Hnn] & [Hids Hnames] & Hseen).
      rewrite Forall_forall in Hseen. split_and!; auto.
      apply Forall_forall. intros y Hy. destruct (Hseen y Hy).
      split; intros [Heq|Hin]%elem_of_cons; eauto.
Qed.

Lemma validate_metrics_spec record limits context :
  passes (validate_metrics (rec_definition record) limits context) <-> metrics_wf limits record.
Proof.
  unfold validate_metrics. checks. rewrite validate_metric_definitions_spec, passes_check_each.
  rewrite (Forall_iff _ (rule_wf record)).
  2:{ intros rule. unfold rule_wf, metric_ids. checks. intuition auto with passes. }
  split.
  - intros (Hc & (Hm & Hi & Hn & _) & Hrc & Hr & Hw & Hbp & _). constructor; auto.
    intros Hs. eapply Forall_impl; [by apply Hw|]. intros m. simpl. by autorewrite with bprop.
  - intros [Hc Hm Hi Hn Hrc Hr Hw Hbp]. split_and!; auto with passes.
    + apply Forall_forall. set_solver.
    + intros Hs. eapply Forall_impl; [by apply Hw|]. intros m. simpl. by autorewrite with bprop.
Qed.

Lemma validate_identity_spec record limits id context :
  passes (validate_identity record limits id context)
  <-> def_id (rec_definition record) = id
      /\ generation_ok (def_generation (rec_definition record))
      /\ (hyp_id (rec_hypothesis record) <> 0 /\ hyp_revision (rec_hypothesis record) <> 0)
      /\ (hyp_id (rec_hypothesis record) = def_hypothesis (rec_definition record)
          /\ hyp_revision (rec_hypothesis record) = def_hypothesis_revision (rec_definition record))
      /\ 0 < size_of (def_branches (rec_definition record)) <= max_branches_per_experiment limits.
Proof.
  unfold validate_identity, generation_ok. checks. unfold size_of.
  destruct (def_branches (rec_definition record)); simpl; intuition auto with passes; try lia; try done.
Qed.

Lemma validate_parameters_spec record limits context :
  passes (validate_parameters (rec_definition record) limits context)
  <-> NoDup (map param_key (def_parameters (rec_definition record)))
      /\ Forall (fun b => NoDup (map param_key (branch_parameters b))
          /\ branch_planned_trials b <> 0 /\ branch_planned_trials b <= max_trials_per_branch limits)
        (def_branches (rec_definition record)).
Proof.
  unfold validate_parameters. checks. rewrite passes_check_each. f_equiv. apply Forall_iff.
  intros b. checks. intuition auto with passes.
Qed.

Lemma validate_trials_spec record limits context :
  passes (validate_trials record limits context)
  <-> size_of (rec_trials record) <= size_of (branch_ids record) * max_trials_per_branch limits
      /\ Forall (trial_wf limits record) (rec_trials record).
Proof.
  unfold validate_trials. checks. rewrite passes_check_each. f_equiv. apply Forall_iff.
  intros [k t]. unfold trial_wf. simpl. checks. intuition auto with passes.
Qed.

Lemma validate_attempts_spec record limits context :
  passes (validate_attempts record limits context)
  <-> size_of (rec_attempts record) <= size_of (rec_trials record) * max_attempts_per_trial limits
      /\ Forall (attempt_wf limits record) (rec_attempts record)
      /\ committed_attempts record = committed_per_trial record
      /\ Forall (fun entry => trial_authoritative_attempt entry.2 = 0
          \/ om_mem (trial_authoritative_attempt entry.2) (rec_attempts record) = true) (rec_trials record).
Proof.
  unfold validate_attempts. checks. rewrite !passes_check_each.
  rewrite (Forall_iff _ (attempt_wf limits record)).
  2:{ intros [k a]. unfold attempt_wf. simpl. checks. intuition auto with passes. }
  do 3 f_equiv. apply Forall_iff. intros [k t]. simpl. checks.
  destruct (Z.eq_dec (trial_authoritative_attempt t) 0); intuition auto with passes.
Qed.

Lemma validate_sizes_spec record limits context :
  passes (validate_sizes record limits context)
  <-> size_of (rec_observations record) <= max_observations_per_experiment limits
      /\ size_of (rec_artifacts record) <= max_artifacts_per_experiment limits
      /\ size_of (rec_decisions record) <= max_decisions_per_experiment limits
      /\ size_of (rec_rollback_points record) <= max_decisions_per_experiment limits.
Proof. unfold validate_sizes. checks. intuition auto with passes. Qed.

(** ** Counting valid evidence *)

Definition occurrences (key : Z * Z) (keys : list (Z * Z)) : Z :=
  size_of (List.filter (fun k => bool_decide (k = key)) keys).

Lemma occurrences_app key l1 l2 : occurrences key (l1 ++ l2) = occurrences key l1 + occurrences key l2.
Proof. unfold occurrences, size_of. rewrite List.filter_app, length_app. lia. Qed.

Lemma occurrences_nonneg key l : 0 <= occurrences key l.
Proof. unfold occurrences, size_of. lia. Qed.

Lemma occurrences_singleton key k : occurrences key [k] = if decide (key = k) then 1 else 0.
Proof.
  unfold occurrences, size_of. simpl. case_decide; [by rewrite bool_decide_true|by rewrite bool_decide_false].
Qed.

Lemma occurrences_pos key l : key ∈ l <-> 0 < occurrences key l.
Proof.
  unfold occurrences, size_of. induction l as [|k l IH]; simpl; [split; [set_solver|lia]|].
  rewrite elem_of_cons, IH. case_bool_decide; subst; simpl; [split; [lia|by left]|]. naive_solver.
Qed.

Lemma NoDup_occurrences l : NoDup l <-> forall key, occurrences key l <= 1.
Proof.
  induction l as [|k l IH]; [split; [intros _ key; unfold occurrences, size_of; simpl; lia|constructor]|].
  rewrite NoDup_cons, occurrences_pos, IH. unfold occurrences, size_of in *. simpl. split.
  - intros [Hk Hl] key. specialize (Hl key). case_bool_decide; subst; simpl; lia.
  - intros Hl. split; [|intros key; specialize (Hl key); case_bool_decide; simpl in *; lia].
    specialize (Hl k). rewrite bool_decide_true in Hl by done. simpl in Hl. lia.
Qed.

Lemma valid_per_trial_metric_snoc observations o :
  valid_per_trial_metric (observations ++ [o])
  = (if bool_decide (obs_validity o = ObservationValidity.VALID) then
       om_set (obs_trial o, obs_metric o)
         (default 0 (om_find (obs_trial o, obs_metric o) (valid_per_trial_metric observations)) + 1)
         (valid_per_trial_metric observations)
     else valid_per_trial_metric observations).
Proof. unfold valid_per_trial_metric. by rewrite foldl_app. Qed.

Lemma valid_evidence_keys_snoc observations o :
  valid_evidence_keys (observations ++ [o])
  = valid_evidence_keys observations
    ++ (if bool_decide (obs_validity o = ObservationValidity.VALID) then [(obs_trial o, obs_metric o)] else []).
Proof. unfold valid_evidence_keys. rewrite List.filter_app, map_app. simpl. by case_bool_decide. Qed.

(** The counting map holds, for each pair, how often valid evidence names it. *)
Lemma valid_per_trial_metric_spec observations :
  om_sorted (valid_per_trial_metric observations)
  /\ forall key, om_find key (valid_per_trial_metric observations)
       = if decide (key ∈ valid_evidence_keys observations)
         then Some (occurrences key (valid_evidence_keys observations)) else None.
Proof.
  induction observations as [|o observations [Hs Hf]] using rev_ind; [by split|].
  rewrite valid_per_trial_metric_snoc, valid_evidence_keys_snoc.
  case_bool_decide as Hv; [|by rewrite app_nil_r]. split; [by apply om_set_sorted|].
  intros key. rewrite om_find_set, !Hf, occurrences_app.
  set (k := (obs_trial o, obs_metric o)). rewrite occurrences_singleton.
  destruct (decide (key = k)) as [->|Hne]; case_decide as Hin.
  - rewrite decide_True by set_solver. done.
  - rewrite decide_True by set_solver. rewrite occurrences_pos in Hin.
    pose proof (occurrences_nonneg k (valid_evidence_keys observations)). simpl. f_equal. lia.
  - rewrite decide_True by set_solver. f_equal. lia.
  - rewrite decide_False by set_solver. done.
Qed.

Lemma duplicate_evidence_check observations :
  existsb (fun entry => 1 <? snd entry) (valid_per_trial_metric observations) = false
  <-> NoDup (valid_evidence_keys observations).
Proof.
  destruct (valid_per_trial_metric_spec observations) as [Hs Hf].
  rewrite existsb_false_Forall, Forall_forall, NoDup_occurrences. split.
  - intros Hall key. specialize (Hf key). case_decide as Hin.
    + apply om_find_elem in Hf. apply Hall in Hf. simpl in Hf. blia.
    + rewrite occurrences_pos in Hin. lia.
  - intros Hocc [key n] Hin. apply om_sorted_elem in Hin; [|done]. rewrite Hf in Hin.
    case_decide; simplify_eq. specialize (Hocc key). simpl. blia.
Qed.

Lemma validate_observations_spec record context :
  passes (validate_observations record context)
  <-> Forall (observation_wf record) (rec_observations record)
      /\ NoDup (map obs_id (rec_observations record))
      /\ NoDup (valid_evidence_keys (rec_observations record)).
Proof.
  unfold validate_observations. passes_steps. rewrite duplicate_evidence_check.
  rewrite (passes_unique_nil _ _ _ _ _ (observation_wf record)); auto with passes.
  - intuition auto with passes.
  - intros o. unfold observation_wf. checks. intuition auto with passes.
Qed.

Lemma validate_artifacts_spec record limits context :
  passes (validate_artifacts record limits context)
  <-> Forall (artifact_wf limits record) (rec_artifacts record)
      /\ NoDup (map artifact_id (rec_artifacts record))
      /\ Forall (fun entry => Forall (fun a => a ∈ map artifact_id (rec_artifacts record))
          (trial_artifacts entry.2)) (rec_trials record).
Proof.
  unfold validate_artifacts. passes_steps. rewrite passes_check_each.
  rewrite (passes_unique_nil _ _ _ _ _ (artifact_wf limits record)); auto with passes.
  - rewrite <- Logic.and_assoc. f_equiv. apply Forall_iff. intros [k t]. simpl. rewrite passes_check_each.
    apply Forall_iff. intros a. checks. intuition auto with passes.
  - intros a. unfold artifact_wf. checks. intuition auto with passes.
Qed.

Lemma validate_decisions_spec record context :
  passes (validate_decisions record context)
  <-> Forall (decision_wf record) (rec_decisions record) /\ NoDup (map dec_id (rec_decisions record)).
Proof.
  apply passes_unique_nil; auto with passes.
  intros d. unfold decision_wf. checks. intuition auto with passes.
Qed.

Lemma validate_point_spec record context p :
  passes (validate_point record context p)
  <-> (point_decision_present p = true -> point_decision p ∈ map dec_id (rec_decisions record))
      /\ Forall (snapshot_wf record) (point_authority p).
Proof.
  unfold validate_point. checks. rewrite passes_check_each. f_equiv. apply Forall_iff.
  intros s. unfold snapshot_wf. checks. intuition auto with passes.
Qed.

Lemma validate_rollback_points_spec record context seen previous points :
  passes (validate_rollback_points record context seen previous points)
  <-> Forall (point_wf record) points /\ NoDup (map point_id points)
      /\ sequences_increase previous points /\ Forall (fun p => point_id p ∉ seen) points.
Proof.
  revert seen previous. induction points as [|p points IH]; intros seen previous; simpl.
  - rewrite !Forall_nil. split; [|auto with passes]. intros _. repeat split; constructor.
  - checks. rewrite validate_point_spec, IH, NoDup_cons, !Forall_cons.
    unfold point_wf at 2. split.
    + intros (Hid & Hseen & Hg & Hseq & (Hd & Hs) & Hwf & Hnd & Hinc & Hall).
      rewrite Forall_forall in Hall. split_and!; auto.
      * intros (q & Heq & Hq)%list_elem_of_fmap. specialize (Hall q Hq). set_solver.
      * apply Forall_forall. intros q Hq. specialize (Hall q Hq). set_solver.
    + intros ([(Hid & Hg & Hd & Hs) Hwf] & [Hnotin Hnd] & (Hseq & Hinc) & Hseen & Hall).
      rewrite Forall_forall in Hall. split_and!; auto.
      apply Forall_forall. intros q Hq [Heq|Hin]%elem_of_cons; [|by apply (Hall q)].
      apply Hnotin, list_elem_of_fmap. eauto.
Qed.

Lemma validate_record_wf record limits id :
  status_ok (validate_record record limits id) = true <-> record_wf limits record id.
Proof.
  change (passes (validate_record record limits id) <-> record_wf limits record id).
  unfold validate_record. passes_steps.
  rewrite validate_identity_spec, validate_branch_lineage_spec, validate_metrics_spec,
    validate_parameters_spec, validate_trials_spec, validate_attempts_spec, validate_sizes_spec,
    validate_observations_spec, validate_artifacts_spec, validate_decisions_spec,
    validate_rollback_points_spec.
  split; [intros; destruct_and!; constructor; auto|intros []; split_and!; auto; try tauto].
  apply Forall_forall. set_solver.
Qed.

Lemma validated_wf record limits id :
  status_ok (validate_experiment_record record limits id) = true -> record_wf limits record id.
Proof. intros Hok. by apply validate_record_wf. Qed.

(** C40: the validator that guards every load and every definition change accepts
    a record exactly when it is well formed: [record_wf] states identities,
    acyclic branch lineage, metric and rule sanity, referential integrity of
    trials, attempts, observations, artifacts, decisions and rollback points,
    and at most one valid observation per trial and metric. *)
Theorem validate_record_spec record limits id :
  status_ok (validate_record record limits id) = true <-> record_wf limits record id.
Proof. apply validate_record_wf. Qed.
