(* ===== verification/Wire.v ===== *)
(** * Payload writer and reader (protocol.cpp, [PayloadWriter], [PayloadReader])

    The little-endian primitives every message and every stored record is made
    of.  A write is the list of bytes appended to the buffer; a read takes the
    bytes from the reader's offset on and gives the value with the bytes that
    are left, or the status the code returns.  Lengths and counts are checked
    before they are used, as in the code.

    [reads lim r bytes v] says that the reader [r] turns [bytes], whatever
    follows them, into [v]; the lemmas in the hint database [codec] are the
    round trips of the primitives, from which those of the records follow. *)
From S2P Require Import Prelude Error Domain Float64 Model Hash.

Definition protocol_error (reason : string) : Status :=
  make_error ErrorCode.PROTOCOL_ERROR ErrorStage.VALIDATION reason.

(** ** Little-endian integers *)

(** The [n] low bytes of [v], least significant first. *)
Fixpoint le_bytes (n : nat) (v : Z) : list Z :=
  match n with
  | O => []
  | S n' => Z.land v 255 :: le_bytes n' (Z.shiftr v 8)
  end.

(** The value such bytes spell. *)
Fixpoint le_value (bytes : list Z) : Z :=
  match bytes with
  | [] => 0
  | b :: rest => Z.lor b (Z.shiftl (le_value rest) 8)
  end.

Definition is_byte (b : Z) : Prop := 0 <= b < 256.

Lemma le_bytes_length n v : length (le_bytes n v) = n.
Proof. revert v. induction n as [|n IH]; intros v; simpl; [done|by rewrite IH]. Qed.

Lemma byte_lor b v : is_byte b -> Z.lor b (Z.shiftl v 8) = b + 256 * v.
Proof.
  intros Hb. unfold is_byte in Hb.
  assert (Hl : Z.land b (Z.shiftl v 8) = 0).
  { apply Z.bits_inj'. intros i Hi. rewrite Z.land_spec, Z.bits_0, Z.shiftl_spec by done.
    destruct (Z.lt_ge_cases i 8).
    - rewrite (Z.testbit_neg_r v) by lia. apply andb_false_r.
    - destruct (Z.eq_dec b 0) as [->|Hb0]; [by rewrite Z.bits_0|]. rewrite Z.bits_above_log2; [done|lia|].
      apply Z.log2_lt_pow2; [lia|]. apply Z.lt_le_trans with (2 ^ 8); [lia|]. by apply Z.pow_le_mono_r. }
  rewrite <- Z.lxor_lor, <- Z.add_nocarry_lxor by done. rewrite Z.shiftl_mul_pow2; lia.
Qed.

Lemma low_byte v : Z.land v 255 = v mod 256.
Proof. change 255 with (Z.ones 8). by rewrite Z.land_ones. Qed.

Lemma le_bytes_bytes n v : Forall is_byte (le_bytes n v).
Proof.
  revert v. induction n as [|n IH]; intros v; simpl; [done|]. constructor; [|done].
  rewrite low_byte. by apply Z.mod_pos_bound.
Qed.

Lemma le_value_le_bytes n v : le_value (le_bytes n v) = v mod 256 ^ Z.of_nat n.
Proof.
  revert v. induction n as [|n IH]; intros v; [by rewrite Z.mod_1_r|].
  cbn [le_bytes le_value]. rewrite byte_lor, IH, low_byte by (rewrite low_byte; by apply Z.mod_pos_bound).
  rewrite Nat2Z.inj_succ, Z.pow_succ_r, Z.shiftr_div_pow2 by lia.
  change (2 ^ 8) with 256. rewrite Z.rem_mul_r; lia.
Qed.

Lemma le_value_range bytes : Forall is_byte bytes -> 0 <= le_value bytes < 256 ^ Z.of_nat (length bytes).
Proof.
  induction 1 as [|b bytes Hb _ IH]; [simpl; lia|]. cbn [le_value length]. rewrite byte_lor by done.
  rewrite Nat2Z.inj_succ, Z.pow_succ_r by lia. unfold is_byte in Hb. nia.
Qed.

(** Bytes are the encoding of the value they spell. *)
Lemma le_bytes_le_value bytes : Forall is_byte bytes -> le_bytes (length bytes) (le_value bytes) = bytes.
Proof.
  induction 1 as [|b bytes Hb _ IH]; [done|]. cbn [le_value length le_bytes]. rewrite byte_lor by done.
  unfold is_byte in Hb. f_equal.
  - rewrite low_byte, Z.mul_comm, Z.mod_add, Z.mod_small; lia.
  - rewrite Z.shiftr_div_pow2 by lia. change (2 ^ 8) with 256.
    rewrite Z.mul_comm, Z.div_add, Z.div_small, Z.add_0_l by lia. done.
Qed.

(** ** The binary64 format

    [memcpy] between a [double] and a 64-bit word.  The one NaN of the model
    is written as the quiet NaN. *)
Definition double_bits (x : double) : Z :=
  match x with
  | S754_zero s => if s then 2 ^ 63 else 0
  | S754_infinity s => (if s then 2 ^ 63 else 0) + 2047 * 2 ^ 52
  | S754_nan => 2047 * 2 ^ 52 + 2 ^ 51
  | S754_finite s m e =>
      (if s then 2 ^ 63 else 0)
      + (if Z.pos m <? 2 ^ 52 then Z.pos m else (e + 1075) * 2 ^ 52 + (Z.pos m - 2 ^ 52))
  end.

Definition double_of_bits (bits : Z) : double :=
  let s := Z.testbit bits 63 in
  let exponent := bits / 2 ^ 52 mod 2048 in
  let fraction := bits mod 2 ^ 52 in
  if exponent =? 2047 then if fraction =? 0 then S754_infinity s else S754_nan
  else if exponent =? 0 then
    match fraction with Z.pos m => S754_finite s m (-1074) | _ => S754_zero s end
  else
    match fraction + 2 ^ 52 with Z.pos m => S754_finite s m (exponent - 1075) | _ => S754_nan end.

(** The finite values binary64 has: normal numbers with a 53-bit significand,
    and subnormal ones. *)
Definition is_binary64 (x : double) : bool :=
  match x with
  | S754_finite _ m e =>
      if Z.pos m <? 2 ^ 52 then e =? -1074
      else (Z.pos m <? 2 ^ 53) && (-1074 <=? e) && (e <=? 971)
  | _ => true
  end.

Lemma double_fields (s : bool) exponent fraction :
  0 <= exponent < 2048 -> 0 <= fraction < 2 ^ 52 ->
  let bits := (if s then 2 ^ 63 else 0) + (exponent * 2 ^ 52 + fraction) in
  0 <= bits < u64_modulus /\ Z.testbit bits 63 = s /\ bits / 2 ^ 52 mod 2048 = exponent /\ bits mod 2 ^ 52 = fraction.
Proof.
  intros He Hf bits. unfold bits, u64_modulus.
  change (2 ^ 63) with (2048 * 2 ^ 52). set (k := 2 ^ 52) in *. assert (Hk : k = 4503599627370496) by done.
  assert (Hq : ((if s then 2048 * k else 0) + (exponent * k + fraction)) / k = (if s then 2048 else 0) + exponent).
  { replace ((if s then 2048 * k else 0) + (exponent * k + fraction)) with (fraction + ((if s then 2048 else 0) + exponent) * k)
      by (destruct s; lia). rewrite Z.div_add, Z.div_small by lia. lia. }
  split; [destruct s; lia|]. split; [|split].
  - rewrite Z.testbit_odd, Z.shiftr_div_pow2 by lia. change (2 ^ 63) with (k * 2048).
    rewrite <- Z.div_div, Hq by lia. destruct s.
    + replace (2048 + exponent) with (exponent + 1 * 2048) by lia. by rewrite Z.div_add, Z.div_small by lia.
    + by rewrite Z.div_small by lia.
  - rewrite Hq. destruct s; [|by rewrite Z.mod_small by lia].
    replace (2048 + exponent) with (exponent + 1 * 2048) by lia. by rewrite Z.mod_add, Z.mod_small by lia.
  - replace ((if s then 2048 * k else 0) + (exponent * k + fraction)) with (fraction + ((if s then 2048 else 0) + exponent) * k)
      by (destruct s; lia). by rewrite Z.mod_add, Z.mod_small by lia.
Qed.

Lemma double_of_fields (s : bool) exponent fraction :
  0 <= exponent < 2048 -> 0 <= fraction < 2 ^ 52 ->
  let bits := (if s then 2 ^ 63 else 0) + (exponent * 2 ^ 52 + fraction) in
  0 <= bits < u64_modulus /\ double_of_bits bits =
    (if exponent =? 2047 then if fraction =? 0 then S754_infinity s else S754_nan
     else if exponent =? 0 then
       match fraction with Z.pos m => S754_finite s m (-1074) | _ => S754_zero s end
     else match fraction + 2 ^ 52 with Z.pos m => S754_finite s m (exponent - 1075) | _ => S754_nan end).
Proof.
  intros He Hf bits. destruct (double_fields s exponent fraction He Hf) as (Hr & Hs & Hx & Hm).
  split; [exact Hr|]. unfold double_of_bits. fold bits in Hs, Hx, Hm. by rewrite Hs, Hx, Hm.
Qed.

(** A double survives the passage through its 64 bits. *)
Lemma double_bits_roundtrip x :
  is_binary64 x = true -> 0 <= double_bits x < u64_modulus /\ double_of_bits (double_bits x) = x.
Proof.
  destruct x as [s|s| |s m e]; intros Hx.
  - by destruct s.
  - by destruct s.
  - done.
  - unfold is_binary64 in Hx. unfold double_bits. destruct (Z.ltb_spec (Z.pos m) (2 ^ 52)).
    + apply Z.eqb_eq in Hx as ->. destruct (double_of_fields s 0 (Z.pos m) ltac:(lia) ltac:(lia)) as [Hr Hd].
      rewrite Z.mul_0_l, Z.add_0_l in Hr, Hd. split; [exact Hr|exact Hd].
    + zprop. destruct (double_of_fields s (e + 1075) (Z.pos m - 2 ^ 52) ltac:(lia) ltac:(lia)) as [Hr Hd].
      split; [exact Hr|]. rewrite Hd. destruct (Z.eqb_spec (e + 1075) 2047); [lia|].
      destruct (Z.eqb_spec (e + 1075) 0); [lia|]. rewrite Z.sub_add. by rewrite Z.add_simpl_r.
Qed.

(** ** Texts as bytes *)

Fixpoint bytes_string (bytes : list Z) : string :=
  match bytes with
  | [] => EmptyString
  | b :: rest => String (ascii_of_N (Z.to_N b)) (bytes_string rest)
  end.

Fixpoint string_take (n : nat) (s : string) : string :=
  match n, s with
  | S n', String c rest => String c (string_take n' rest)
  | _, _ => EmptyString
  end.

(** What is left of a text written with the bound [max]. *)
Definition clip (max : Z) (s : string) : string := string_take (Z.to_nat max) s.

Lemma bytes_string_bytes s : bytes_string (string_bytes s) = s.
Proof.
  induction s as [|c s IH]; cbn [string_bytes bytes_string]; [done|]. unfold char_byte.
  by rewrite N2Z.id, ascii_N_embedding, IH.
Qed.

Lemma string_bytes_length s : length (string_bytes s) = String.length s.
Proof. induction s as [|c s IH]; simpl; [done|by rewrite IH]. Qed.

Lemma string_bytes_bytes s : Forall is_byte (string_bytes s).
Proof.
  induction s as [|c s IH]; simpl; [done|]. constructor; [|done]. unfold is_byte, char_byte.
  pose proof (N_ascii_bounded c). lia.
Qed.

Lemma take_string_bytes n s : take n (string_bytes s) = string_bytes (string_take n s).
Proof. revert s. induction n as [|n IH]; intros [|c s]; simpl; [done..|by rewrite IH]. Qed.

Lemma string_take_all n s : (String.length s <= n)%nat -> string_take n s = s.
Proof. revert s. induction n as [|n IH]; intros [|c s]; simpl; intros Hl; [done|lia|done|]. rewrite IH; [done|lia]. Qed.

Lemma string_take_length n s : String.length (string_take n s) = Nat.min n (String.length s).
Proof. revert s. induction n as [|n IH]; intros [|c s]; simpl; [done..|by rewrite IH]. Qed.

Lemma string_take_take n m s : string_take n (string_take m s) = string_take (Nat.min n m) s.
Proof. revert m s. induction n as [|n IH]; intros [|m] [|c s]; simpl; [done..|by rewrite IH]. Qed.

(** A text within its bound is kept whole; cutting twice is cutting once. *)
Lemma clip_short max s : str_size s <= max -> clip max s = s.
Proof. unfold str_size, clip. intros Hs. apply string_take_all. lia. Qed.

Lemma clip_size max s : str_size (clip max s) = Z.min (Z.max 0 max) (str_size s).
Proof. unfold str_size, clip. rewrite string_take_length. lia. Qed.

Lemma clip_clip max s : clip max (clip max s) = clip max s.
Proof. unfold clip. by rewrite string_take_take, Nat.min_id. Qed.

(** ** [PayloadWriter] *)

Definition put_u8 (value : Z) : list Z := le_bytes 1 value.
Definition put_u16 (value : Z) : list Z := le_bytes 2 value.
Definition put_u32 (value : Z) : list Z := le_bytes 4 value.
Definition put_u64 (value : Z) : list Z := le_bytes 8 value.
Definition put_boolean (value : bool) : list Z := put_u8 (if value then 1 else 0).
Definition put_real (value : double) : list Z := put_u64 (double_bits value).
(** [static_cast<std::uint64_t>]: the two's complement of a negative value. *)
Definition put_integer (value : Z) : list Z := put_u64 (u64 value).
Definition put_raw (bytes : list Z) : list Z := bytes.
Definition put_digest (digest : Digest) : list Z := put_raw digest.
(** A text longer than the bound is cut there, silently. *)
Definition put_text (value : string) (max_length : Z) : list Z :=
  let length := u32 (Z.min (str_size value) max_length) in
  put_u32 length ++ take (Z.to_nat length) (string_bytes value).
(** The bound of [count] is not looked at. *)
Definition put_count (value : Z) : list Z := put_u32 (u32 value).

(** ** [PayloadReader] *)

Definition Reader (A : Type) : Type := Limits -> list Z -> Result (A * list Z).

#[export] Instance reader_ret : MRet Reader := fun A a _ bytes => Ok (a, bytes).
#[export] Instance reader_bind : MBind Reader := fun A B k r limits bytes =>
  match r limits bytes with
  | Ok (a, rest) => k a limits rest
  | Err s => Err s
  end.

Definition get_error {A} (s : Status) : Reader A := fun _ _ => Err s.
Definition get_limits : Reader Limits := fun limits bytes => Ok (limits, bytes).

(** [need], then the bytes themselves. *)
Definition get_raw (length : Z) : Reader (list Z) := fun _ bytes =>
  if size_of bytes <? length then Err (protocol_error "payload truncated")
  else Ok (take (Z.to_nat length) bytes, drop (Z.to_nat length) bytes).

Definition get_u8 : Reader Z := bytes ← get_raw 1; mret (le_value bytes).
Definition get_u16 : Reader Z := bytes ← get_raw 2; mret (le_value bytes).
Definition get_u32 : Reader Z := bytes ← get_raw 4; mret (le_value bytes).
Definition get_u64 : Reader Z := bytes ← get_raw 8; mret (le_value bytes).

Definition get_boolean : Reader bool :=
  raw ← get_u8;
  if 1 <? raw then get_error (protocol_error "boolean out of range") else mret (negb (raw =? 0)).

Definition get_real : Reader double := raw ← get_u64; mret (double_of_bits raw).

(** [static_cast<std::int64_t>]. *)
Definition get_integer : Reader Z :=
  raw ← get_u64; mret (if raw <? 2 ^ 63 then raw else raw - u64_modulus).

Definition get_digest : Reader Digest := get_raw 32.

Definition get_text (max_length : Z) : Reader string :=
  length ← get_u32;
  limits ← get_limits;
  if (max_length <? length) || (max_persisted_string_bytes limits <? length)
  then get_error (protocol_error "declared string length exceeds bound")
  else bytes ← get_raw length; mret (bytes_string bytes).

Definition get_count (max_value : Z) : Reader Z :=
  value ← get_u32;
  if max_value <? value
  then get_error (make_error ErrorCode.RESOURCE_EXHAUSTED ErrorStage.LIMITS "declared count exceeds bound")
  else mret value.

(** [expect_end] on what a read has left. *)
Definition expect_end (rest : list Z) : Status :=
  match rest with [] => success | _ => protocol_error "trailing payload bytes" end.

(** ** The helpers of protocol.cpp *)

(** An enumeration with an underlying byte: its values in the order of their
    numbers, which start at zero and leave no gap. *)
Class WireEnum (E : Type) := {
  enum_code : E -> Z;
  enum_values : list E;
  enum_values_code e : 0 <= enum_code e < 256 /\ nth_error enum_values (Z.to_nat (enum_code e)) = Some e
}.

(** [kMax...]: the number of the last enumerator. *)
Definition enum_max (E : Type) `{WireEnum E} : Z := size_of (@enum_values E _) - 1.

Definition write_enum `{WireEnum E} (value : E) : list Z := put_u8 (enum_code value).

Definition read_enum_byte (max_value : Z) (what : string) : Reader Z :=
  raw ← get_u8;
  if max_value <? raw then get_error (protocol_error ("impossible " +:+ what +:+ " value")) else mret raw.

Definition read_enum (E : Type) `{WireEnum E} (what : string) : Reader E :=
  raw ← read_enum_byte (enum_max E) what;
  match nth_error enum_values (Z.to_nat raw) with
  | Some value => mret value
  | None => get_error (protocol_error ("impossible " +:+ what +:+ " value"))
  end.

Definition write_id (id : Z) : list Z := put_u64 id.
Definition read_id : Reader Z := get_u64.

Definition write_optional_u64 (value : option Z) : list Z :=
  put_boolean (match value with Some _ => true | None => false end)
  ++ match value with Some v => put_u64 v | None => [] end.
Definition read_optional_u64 : Reader (option Z) :=
  present ← get_boolean;
  if negb present then mret None else value ← get_u64; mret (Some value).

Definition write_optional_real (value : option double) : list Z :=
  put_boolean (match value with Some _ => true | None => false end)
  ++ match value with Some v => put_real v | None => [] end.
Definition read_optional_real : Reader (option double) :=
  present ← get_boolean;
  if negb present then mret None else value ← get_real; mret (Some value).

Definition write_vector {A} (fn : A -> list Z) (values : list A) : list Z :=
  put_count (size_of values) ++ flat_map fn values.

(** The loop [for (index = 0; index < count; ++index)] of a reader. *)
Fixpoint read_items {A} (count : nat) (read : Reader A) : Reader (list A) :=
  match count with
  | O => mret []
  | S count' => value ← read; rest ← read_items count' read; mret (value :: rest)
  end.
Definition read_vector {A} (max_items : Z) (read : Reader A) : Reader (list A) :=
  count ← get_count max_items; read_items (Z.to_nat count) read.

(** [std::uint8_t] of an error code and of a stage; and back, unchecked. *)
Definition error_code_values : list ErrorCode := map fst kErrorCodeNames.
Definition error_stage_values : list ErrorStage := map fst kErrorStageNames.
Fixpoint position_of `{EqDecision E} (e : E) (l : list E) : option nat :=
  match l with
  | [] => None
  | x :: rest => if bool_decide (x = e) then Some O else S <$> position_of e rest
  end.
Definition error_code_byte (code : ErrorCode) : Z :=
  match code with
  | ErrorCode.UNLISTED byte => byte
  | _ => match position_of code error_code_values with Some n => Z.of_nat n | None => 0 end
  end.
Definition error_code_of_byte (byte : Z) : ErrorCode :=
  match nth_error error_code_values (Z.to_nat byte) with
  | Some code => code
  | None => ErrorCode.UNLISTED byte
  end.
Definition error_stage_byte (stage : ErrorStage) : Z :=
  match stage with
  | ErrorStage.UNLISTED byte => byte
  | _ => match position_of stage error_stage_values with Some n => Z.of_nat n | None => 0 end
  end.
Definition error_stage_of_byte (byte : Z) : ErrorStage :=
  match nth_error error_stage_values (Z.to_nat byte) with
  | Some stage => stage
  | None => ErrorStage.UNLISTED byte
  end.

Ltac solve_enum := intros e; destruct e; split; solve [vm_compute; split; congruence|vm_compute; reflexivity].
#[export, refine] Instance ParameterKind_wire : WireEnum ParameterKind := {
  enum_code := parameter_kind_code;
  enum_values := [ParameterKind.TEXT; ParameterKind.INTEGER; ParameterKind.REAL;
    ParameterKind.BOOLEAN]
}.
Proof. solve_enum. Defined.
#[export, refine] Instance TrialState_wire : WireEnum TrialState := {
  enum_code := trial_state_code;
  enum_values := [TrialState.CREATED; TrialState.READY; TrialState.ASSIGNED; TrialState.RUNNING;
    TrialState.OBSERVING; TrialState.COMPLETED; TrialState.FAILED; TrialState.CANCELLED;
    TrialState.INVALID; TrialState.SUPERSEDED; TrialState.REVALIDATION_REQUIRED]
}.
Proof. solve_enum. Defined.
#[export, refine] Instance ExperimentState_wire : WireEnum ExperimentState := {
  enum_code := experiment_state_code;
  enum_values := [ExperimentState.OPEN; ExperimentState.FINALIZED; ExperimentState.CANCELLED;
    ExperimentState.SUPERSEDED; ExperimentState.RECOVERING]
}.
Proof. solve_enum. Defined.
#[export, refine] Instance BranchState_wire : WireEnum BranchState := {
  enum_code := branch_state_code;
  enum_values := [BranchState.ACTIVE; BranchState.RETIRED; BranchState.INVALID;
    BranchState.SUPERSEDED]
}.
Proof. solve_enum. Defined.
#[export, refine] Instance BranchRole_wire : WireEnum BranchRole := {
  enum_code := branch_role_code;
  enum_values := [BranchRole.BASELINE; BranchRole.CANDIDATE]
}.
Proof. solve_enum. Defined.
#[export, refine] Instance AttemptState_wire : WireEnum AttemptState := {
  enum_code := attempt_state_code;
  enum_values := [AttemptState.ISSUED; AttemptState.RUNNING; AttemptState.PUBLISHED;
    AttemptState.COMPLETED; AttemptState.FAILED; AttemptState.CANCELLED; AttemptState.ABANDONED;
    AttemptState.REVALIDATION_REQUIRED]
}.
Proof. solve_enum. Defined.
#[export, refine] Instance MetricKind_wire : WireEnum MetricKind := {
  enum_code := metric_kind_code;
  enum_values := [MetricKind.REAL; MetricKind.INTEGER; MetricKind.BOOLEAN; MetricKind.CATEGORICAL]
}.
Proof. solve_enum. Defined.
#[export, refine] Instance MetricDirection_wire : WireEnum MetricDirection := {
  enum_code := metric_direction_code;
  enum_values := [MetricDirection.MINIMIZE; MetricDirection.MAXIMIZE; MetricDirection.TARGET;
    MetricDirection.INFORMATIONAL]
}.
Proof. solve_enum. Defined.
#[export, refine] Instance AggregationRule_wire : WireEnum AggregationRule := {
  enum_code := aggregation_rule_code;
  enum_values := [AggregationRule.NONE; AggregationRule.MEAN; AggregationRule.MEDIAN;
    AggregationRule.MIN; AggregationRule.MAX; AggregationRule.SUM; AggregationRule.MAJORITY]
}.
Proof. solve_enum. Defined.
#[export, refine] Instance ObservationValidity_wire : WireEnum ObservationValidity := {
  enum_code := observation_validity_code;
  enum_values := [ObservationValidity.VALID; ObservationValidity.INVALID;
    ObservationValidity.MISSING; ObservationValidity.UNSUPPORTED]
}.
Proof. solve_enum. Defined.
#[export, refine] Instance ComparisonOp_wire : WireEnum ComparisonOp := {
  enum_code := comparison_op_code;
  enum_values := [ComparisonOp.GREATER_THAN; ComparisonOp.LESS_THAN; ComparisonOp.MIN_IMPROVEMENT;
    ComparisonOp.MAX_REGRESSION_TOLERANCE; ComparisonOp.TARGET_RANGE; ComparisonOp.MAJORITY_WINS;
    ComparisonOp.REPORT_ONLY]
}.
Proof. solve_enum. Defined.
#[export, refine] Instance DecisionOutcome_wire : WireEnum DecisionOutcome := {
  enum_code := decision_outcome_code;
  enum_values := [DecisionOutcome.ACCEPT; DecisionOutcome.REJECT; DecisionOutcome.INCONCLUSIVE;
    DecisionOutcome.INSUFFICIENT_EVIDENCE; DecisionOutcome.INVALID; DecisionOutcome.CANCELLED;
    DecisionOutcome.SUPERSEDED]
}.
Proof. solve_enum. Defined.
#[export, refine] Instance FailureKind_wire : WireEnum FailureKind := {
  enum_code := failure_kind_code;
  enum_values := [FailureKind.NONE; FailureKind.EXECUTION_FAILURE; FailureKind.INVALID_OBSERVATION;
    FailureKind.PRODUCER_LOSS; FailureKind.TRANSPORT_FAILURE; FailureKind.CANCELLATION;
    FailureKind.POLICY_REJECTION; FailureKind.INSUFFICIENT_EVIDENCE;
    FailureKind.PERSISTENCE_FAILURE; FailureKind.EXPERIMENT_INVALIDATION;
    FailureKind.LIMIT_EXCEEDED]
}.
Proof. solve_enum. Defined.
#[export, refine] Instance ReproducibilityStatus_wire : WireEnum ReproducibilityStatus := {
  enum_code := reproducibility_status_code;
  enum_values := [ReproducibilityStatus.REPRODUCIBLE; ReproducibilityStatus.PARTIALLY_REPRODUCIBLE;
    ReproducibilityStatus.NOT_REPRODUCIBLE; ReproducibilityStatus.UNKNOWN]
}.
Proof. solve_enum. Defined.
#[export, refine] Instance SeedPolicy_wire : WireEnum SeedPolicy := {
  enum_code := seed_policy_code;
  enum_values := [SeedPolicy.FIXED; SeedPolicy.DERIVED_PER_TRIAL; SeedPolicy.PRODUCER_SUPPLIED;
    SeedPolicy.NONE]
}.
Proof. solve_enum. Defined.
#[export, refine] Instance RetryPolicy_wire : WireEnum RetryPolicy := {
  enum_code := retry_policy_code;
  enum_values := [RetryPolicy.FRESH_ATTEMPT_SAME_TRIAL; RetryPolicy.NEW_TRIAL_IDENTITY;
    RetryPolicy.NO_RETRY]
}.
Proof. solve_enum. Defined.
#[export, refine] Instance PartialFailurePolicy_wire : WireEnum PartialFailurePolicy := {
  enum_code := partial_failure_policy_code;
  enum_values := [PartialFailurePolicy.TOLERATE_IF_EVIDENCE_SUFFICIENT;
    PartialFailurePolicy.INVALIDATE_BRANCH; PartialFailurePolicy.RETRY_ALLOWED]
}.
Proof. solve_enum. Defined.
#[export, refine] Instance LateEvidencePolicy_wire : WireEnum LateEvidencePolicy := {
  enum_code := late_evidence_policy_code;
  enum_values := [LateEvidencePolicy.REJECT_AND_RECORD; LateEvidencePolicy.RETAIN_HISTORICAL]
}.
Proof. solve_enum. Defined.
#[export, refine] Instance Provenance_wire : WireEnum Provenance := {
  enum_code := provenance_code;
  enum_values := [Provenance.REAL; Provenance.SYNTHETIC; Provenance.UNSUPPORTED]
}.
Proof. solve_enum. Defined.

(** ** Values in the range of their machine type

    The predicates [fits_*] say that the numbers of a value are in the range of
    their C++ type.  With [capped] they also ask that every list respects the
    count its reader admits; without, a list only has to be countable in 32
    bits.  What is not capped can be written and may be refused when read. *)
Definition fits (bits : Z) (z : Z) : bool := (0 <=? z) && (z <? 2 ^ bits).
Definition fits_int64 (z : Z) : bool := (- 2 ^ 63 <=? z) && (z <? 2 ^ 63).
Definition fits_digest (digest : Digest) : bool := size_of digest =? 32.
Definition fits_option {A} (ok : A -> bool) (o : option A) : bool :=
  match o with Some a => ok a | None => true end.
Definition fits_count (capped : bool) (max_items n : Z) : bool :=
  if capped then n <=? max_items else n <? u32_modulus.
Definition fits_vector (capped : bool) {A} (max_items : Z) (ok : A -> bool) (l : list A) : bool :=
  fits_count capped max_items (size_of l) && forallb ok l.
Definition fits_error_code (code : ErrorCode) : bool :=
  match code with ErrorCode.UNLISTED byte => (23 <=? byte) && (byte <? 256) | _ => true end.
Definition fits_error_stage (stage : ErrorStage) : bool :=
  match stage with ErrorStage.UNLISTED byte => (14 <=? byte) && (byte <? 256) | _ => true end.

(** The reader admits every text the writer bounds: 4096 bytes is the longest. *)
Definition wide_limits (capped : bool) (limits : Limits) : bool :=
  if capped then 4096 <=? max_persisted_string_bytes limits else true.

(** ** Round trips *)

(** [r] turns [bytes], whatever follows, into [v], and stops right after them;
    without [capped] it may also refuse them, but never turns them into
    anything else. *)
Definition reads (capped : bool) (limits : Limits) {A} (r : Reader A) (bytes : list Z) (v : A) : Prop :=
  forall rest, r limits (bytes ++ rest) = Ok (v, rest)
    \/ capped = false /\ exists s, r limits (bytes ++ rest) = Err s.

Section Reads.
Context (capped : bool) (limits : Limits).

Lemma reads_ret {A} (v : A) : reads capped limits (mret v) [] v.
Proof. by left. Qed.

Lemma reads_bind {A B} (r : Reader A) (k : A -> Reader B) w w' v v' :
  reads capped limits r w v -> reads capped limits (k v) w' v' -> reads capped limits (r ≫= k) (w ++ w') v'.
Proof.
  intros Hr Hk rest. rewrite <- app_assoc. unfold mbind, reader_bind.
  destruct (Hr (w' ++ rest)) as [->|[Hc [s ->]]]; [apply Hk|right; by eauto].
Qed.

Lemma reads_last {A B} (r : Reader A) (k : A -> Reader B) w v v' :
  reads capped limits r w v -> k v = mret v' -> reads capped limits (r ≫= k) w v'.
Proof. intros Hr Hk. rewrite <- (app_nil_r w). eapply reads_bind; [done|]. rewrite Hk. apply reads_ret. Qed.

Lemma reads_limits {A} (k : Limits -> Reader A) w v :
  reads capped limits (k limits) w v -> reads capped limits (get_limits ≫= k) w v.
Proof. intros Hk rest. apply Hk. Qed.

(** A reader whose result is decided by the bytes alone. *)
Lemma reads_intro {A} (r : Reader A) w v :
  (forall rest, r limits (w ++ rest) = Ok (v, rest)) -> reads capped limits r w v.
Proof. intros Hr rest. left. apply Hr. Qed.

Lemma reads_raw n bytes : size_of bytes = n -> reads capped limits (get_raw n) bytes bytes.
Proof.
  intros <-. apply reads_intro. intros rest. unfold get_raw, size_of. rewrite length_app.
  destruct (Z.ltb_spec (Z.of_nat (length bytes + length rest)) (Z.of_nat (length bytes))); [lia|].
  by rewrite Nat2Z.id, take_app_length, drop_app_length.
Qed.

Lemma reads_le n z bits :
  bits = 8 * Z.of_nat n -> fits bits z = true ->
  reads capped limits (bytes ← get_raw (Z.of_nat n); mret (le_value bytes)) (le_bytes n z) z.
Proof.
  intros -> Hf. unfold fits in Hf. zprop. eapply reads_last.
  - apply reads_raw. unfold size_of. by rewrite le_bytes_length.
  - cbn. rewrite le_value_le_bytes, Z.mod_small; [done|].
    change 256 with (2 ^ 8). rewrite <- Z.pow_mul_r; lia.
Qed.

Lemma reads_u8 z : fits 8 z = true -> reads capped limits get_u8 (put_u8 z) z.
Proof. by apply (reads_le 1). Qed.
Lemma reads_u16 z : fits 16 z = true -> reads capped limits get_u16 (put_u16 z) z.
Proof. by apply (reads_le 2). Qed.
Lemma reads_u32 z : fits 32 z = true -> reads capped limits get_u32 (put_u32 z) z.
Proof. by apply (reads_le 4). Qed.
Lemma reads_u64 z : fits 64 z = true -> reads capped limits get_u64 (put_u64 z) z.
Proof. by apply (reads_le 8). Qed.
Lemma reads_id z : fits 64 z = true -> reads capped limits read_id (write_id z) z.
Proof. apply reads_u64. Qed.

Lemma reads_boolean b : reads capped limits get_boolean (put_boolean b) b.
Proof. eapply reads_last; [apply reads_u8; by destruct b|]. by destruct b. Qed.

Lemma reads_real x : is_binary64 x = true -> reads capped limits get_real (put_real x) x.
Proof.
  intros Hx. destruct (double_bits_roundtrip x Hx) as [[Hl Hh] Hd]. eapply reads_last.
  - apply reads_u64. unfold fits, u64_modulus in *. blia.
  - cbn. by rewrite Hd.
Qed.

Lemma reads_integer z : fits_int64 z = true -> reads capped limits get_integer (put_integer z) z.
Proof.
  intros Hz. unfold fits_int64 in Hz. zprop. change (2 ^ 63) with 9223372036854775808 in *.
  pose proof (u64_range z) as Hr. unfold u64_modulus in Hr. eapply reads_last.
  - apply reads_u64. unfold fits. change (2 ^ 64) with 18446744073709551616. blia.
  - cbn. f_equal. change (2 ^ 63) with 9223372036854775808. unfold u64, u64_modulus in *.
    destruct (Z.lt_ge_cases z 0) as [Hn|Hn].
    + assert (Hm : z mod 18446744073709551616 = z + 18446744073709551616).
      { symmetry. apply Z.mod_unique with (-1); lia. }
      rewrite Hm. destruct (Z.ltb_spec (z + 18446744073709551616) 9223372036854775808); f_equal; lia.
    + rewrite Z.mod_small by lia. destruct (Z.ltb_spec z 9223372036854775808); lia.
Qed.

Lemma reads_digest d : fits_digest d = true -> reads capped limits get_digest (put_digest d) d.
Proof. intros Hd. apply reads_raw. unfold fits_digest in Hd. by zprop. Qed.

Lemma reads_text max s :
  0 <= max <= 4096 -> wide_limits capped limits = true ->
  reads capped limits (get_text max) (put_text s max) (clip max s).
Proof.
  intros Hm Hl.
  assert (Hlen : u32 (Z.min (str_size s) max) = str_size (clip max s)).
  { rewrite clip_size. rewrite u32_small; unfold str_size, u32_modulus; lia. }
  pose proof (clip_size max s) as Hc.
  assert (Hs : 0 <= str_size (clip max s) <= max) by (unfold str_size in *; lia).
  assert (Ht : take (Z.to_nat (str_size (clip max s))) (string_bytes s) = string_bytes (clip max s)).
  { unfold str_size. rewrite Nat2Z.id, take_string_bytes. unfold clip at 1. f_equal. unfold clip.
    rewrite string_take_length. destruct (Nat.min_spec (Z.to_nat max) (String.length s)) as [[? ->]|[? ->]]; [done|].
    by rewrite !string_take_all by lia. }
  unfold put_text, get_text. rewrite Hlen, Ht. eapply reads_bind.
  { apply reads_u32. unfold fits. change (2 ^ 32) with 4294967296. blia. }
  apply reads_limits. destruct (Z.ltb_spec max (str_size (clip max s))); [lia|]. cbn [orb].
  destruct (Z.ltb_spec (max_persisted_string_bytes limits) (str_size (clip max s))).
  - intros rest. right. unfold wide_limits in Hl. destruct capped; [zprop; lia|]. split; [done|]. by eexists.
  - eapply reads_last; [apply reads_raw|]; [|cbn; by rewrite bytes_string_bytes].
    unfold size_of, str_size. by rewrite string_bytes_length.
Qed.

Lemma reads_count max n :
  0 <= n -> fits_count capped max n = true -> max < u32_modulus -> reads capped limits (get_count max) (put_count n) n.
Proof.
  intros Hn Hf Hm. assert (n < u32_modulus) by (unfold fits_count in Hf; destruct capped; blia).
  unfold put_count. rewrite u32_small by lia. unfold get_count. rewrite <- (app_nil_r (put_u32 n)).
  eapply reads_bind; [apply reads_u32; unfold fits; change (2 ^ 32) with 4294967296; unfold u32_modulus in *; blia|].
  destruct (Z.ltb_spec max n); [|apply reads_ret]. intros rest. right. unfold fits_count in Hf.
  destruct capped; [zprop; lia|]. split; [done|]. by eexists.
Qed.

Lemma reads_items {A} (r : Reader A) (w : A -> list Z) (c : A -> A) (ok : A -> bool) l :
  (forall x, ok x = true -> reads capped limits r (w x) (c x)) -> forallb ok l = true ->
  reads capped limits (read_items (length l) r) (flat_map w l) (map c l).
Proof.
  intros Hr. induction l as [|x l IH]; cbn [forallb flat_map map length read_items]; [intros _; apply reads_ret|].
  intros [Hx Hl]%andb_true_iff. eapply reads_bind; [by apply Hr|]. eapply reads_last; [by apply IH|done].
Qed.

Lemma reads_vector {A} (r : Reader A) (w : A -> list Z) (c : A -> A) (ok : A -> bool) max l :
  (forall x, ok x = true -> reads capped limits r (w x) (c x)) -> fits_vector capped max ok l = true -> max < u32_modulus ->
  reads capped limits (read_vector max r) (write_vector w l) (map c l).
Proof.
  intros Hr Hl Hm. unfold fits_vector in Hl. apply andb_true_iff in Hl as [Hn Hl].
  unfold write_vector, read_vector. eapply reads_bind; [apply reads_count; [unfold size_of; lia|done|done]|].
  unfold size_of. rewrite Nat2Z.id. by eapply reads_items.
Qed.

Lemma reads_vector_same {A} (r : Reader A) (w : A -> list Z) (ok : A -> bool) max l :
  (forall x, ok x = true -> reads capped limits r (w x) x) -> fits_vector capped max ok l = true -> max < u32_modulus ->
  reads capped limits (read_vector max r) (write_vector w l) l.
Proof. intros Hr Hl Hm. rewrite <- (map_id l) at 2. by eapply (reads_vector r w id ok). Qed.

Lemma reads_enum `{WireEnum E} (e : E) what : reads capped limits (read_enum E what) (write_enum e) e.
Proof.
  destruct (enum_values_code e) as [Hr He]. eapply reads_last.
  - eapply reads_last; [apply reads_u8; unfold fits; change (2 ^ 8) with 256; blia|]. cbn.
    destruct (Z.ltb_spec (enum_max E) (enum_code e)) as [Hlt|]; [|done].
    pose proof (nth_error_Some enum_values (Z.to_nat (enum_code e))) as [Hs _].
    rewrite He in Hs. specialize (Hs ltac:(done)). unfold enum_max, size_of in Hlt. lia.
  - cbn. by rewrite He.
Qed.

Lemma reads_optional_u64 o : fits_option (fits 64) o = true -> reads capped limits read_optional_u64 (write_optional_u64 o) o.
Proof.
  intros Ho. destruct o as [v|]; unfold write_optional_u64, read_optional_u64.
  - eapply reads_bind; [apply reads_boolean|]. cbn. eapply reads_last; [by apply reads_u64|done].
  - eapply reads_bind; [apply reads_boolean|]. apply reads_ret.
Qed.

Lemma reads_optional_real o :
  fits_option is_binary64 o = true -> reads capped limits read_optional_real (write_optional_real o) o.
Proof.
  intros Ho. destruct o as [v|]; unfold write_optional_real, read_optional_real.
  - eapply reads_bind; [apply reads_boolean|]. cbn. eapply reads_last; [by apply reads_real|done].
  - eapply reads_bind; [apply reads_boolean|]. apply reads_ret.
Qed.
End Reads.

(** ** Automation

    A record's reader is a chain of field readers and its writer the
    concatenation of the field writers: the round trip of the record follows
    field by field from the lemmas of the database [codec]. *)
Create HintDb codec.
#[export] Hint Resolve reads_u8 reads_u16 reads_u32 reads_u64 reads_id reads_boolean reads_real reads_integer
  reads_digest reads_enum reads_optional_u64 reads_optional_real : codec.
#[export] Hint Resolve reads_vector_same | 3 : codec.
#[export] Hint Resolve reads_vector | 5 : codec.
#[export] Hint Extern 2 (reads _ _ (get_text _) _ _) => apply reads_text; [split; discriminate|assumption] : codec.
#[export] Hint Extern 1 (_ < u32_modulus) => reflexivity : codec.

Ltac split_fits := repeat match goal with H : _ && _ = true |- _ => apply andb_true_iff in H as [? ?] end.
Ltac read_field := solve [eauto 6 with codec].
Ltac read_record value :=
  repeat (cbv beta;
    first [ eapply reads_bind; [read_field|]
          | eapply reads_last; [read_field|first [reflexivity|destruct value; reflexivity]] ]).
