(* ===== verification/Codec.v ===== *)
(** * Record codecs (protocol.cpp, model codecs)

    How each record of the object model is laid out in a message and in the
    stored image, field by field in the order of the code.  Next to each pair
    stand the values it can carry ([fits_*]), what it leaves of them ([clip_*]:
    the texts cut at the bounds the writer is given) and the round trip: what
    is read back is the clipped value, and the reader stops where the writer
    did. *)
From S2P Require Import Prelude OMap Error Domain Float64 Model Hash State Wire.

(** ** Parameters, values and envelopes *)

Definition write_parameter (parameter : ParameterAssignment) : list Z :=
  put_text (param_key parameter) 128 ++ write_enum (param_kind parameter)
  ++ put_text (param_value parameter) 4096.

Definition read_parameter : Reader ParameterAssignment :=
  key ← get_text 128; kind ← read_enum ParameterKind "parameter kind"; value ← get_text 4096;
  mret (mkParameterAssignment key kind value).

Definition fits_parameter (parameter : ParameterAssignment) : bool :=
  true.

Definition clip_parameter (parameter : ParameterAssignment) : ParameterAssignment :=
  parameter <| param_key := clip 128 (param_key parameter) |>
    <| param_value := clip 4096 (param_value parameter) |>.

Lemma reads_parameter capped limits parameter :
  wide_limits capped limits = true -> fits_parameter parameter = true ->
  reads capped limits read_parameter (write_parameter parameter) (clip_parameter parameter).
Proof.
  intros Hl Hf. unfold fits_parameter in Hf. split_fits.
  unfold read_parameter, write_parameter. read_record parameter.
Qed.
#[export] Hint Resolve reads_parameter : codec.

Definition write_parameters (parameters : list ParameterAssignment) : list Z :=
  write_vector write_parameter parameters.
Definition read_parameters : Reader (list ParameterAssignment) := read_vector 4096 read_parameter.
Definition fits_parameters (capped : bool) (parameters : list ParameterAssignment) : bool :=
  fits_vector capped 4096 fits_parameter parameters.
Definition clip_parameters (parameters : list ParameterAssignment) : list ParameterAssignment :=
  map clip_parameter parameters.

Lemma reads_parameters capped limits parameters :
  wide_limits capped limits = true -> fits_parameters capped parameters = true ->
  reads capped limits read_parameters (write_parameters parameters) (clip_parameters parameters).
Proof. intros Hl Hf. unfold fits_parameters in Hf. unfold read_parameters, write_parameters, clip_parameters. read_field. Qed.
#[export] Hint Resolve reads_parameters : codec.

Definition write_metric_value (value : MetricValue) : list Z :=
  write_enum (mv_kind value) ++ put_real (mv_real value) ++ put_integer (mv_integer value)
  ++ put_boolean (mv_boolean value) ++ put_text (mv_category value) 128.

Definition read_metric_value : Reader MetricValue :=
  kind ← read_enum MetricKind "metric kind"; real ← get_real; integer ← get_integer;
  boolean ← get_boolean; category ← get_text 128;
  mret (mkMetricValue kind real integer boolean category).

Definition fits_metric_value (value : MetricValue) : bool :=
  is_binary64 (mv_real value) && fits_int64 (mv_integer value).

Definition clip_metric_value (value : MetricValue) : MetricValue :=
  value <| mv_category := clip 128 (mv_category value) |>.

Lemma reads_metric_value capped limits value :
  wide_limits capped limits = true -> fits_metric_value value = true ->
  reads capped limits read_metric_value (write_metric_value value) (clip_metric_value value).
Proof.
  intros Hl Hf. unfold fits_metric_value in Hf. split_fits.
  unfold read_metric_value, write_metric_value. read_record value.
Qed.
#[export] Hint Resolve reads_metric_value : codec.

Definition write_envelope (envelope : AuthorityEnvelope) : list Z :=
  write_id (env_epoch envelope) ++ write_id (env_experiment envelope)
  ++ write_id (env_generation envelope) ++ write_id (env_hypothesis envelope)
  ++ write_id (env_hypothesis_revision envelope) ++ write_id (env_policy envelope)
  ++ write_id (env_policy_generation envelope) ++ write_id (env_branch envelope)
  ++ write_id (env_branch_generation envelope) ++ write_id (env_trial envelope)
  ++ write_id (env_attempt envelope) ++ write_id (env_worker envelope) ++ write_id (env_boot envelope)
  ++ write_id (env_producer envelope).

Definition read_envelope : Reader AuthorityEnvelope :=
  epoch ← read_id; experiment ← read_id; generation ← read_id; hypothesis ← read_id;
  hypothesis_revision ← read_id; policy ← read_id; policy_generation ← read_id; branch ← read_id;
  branch_generation ← read_id; trial ← read_id; attempt ← read_id; worker ← read_id; boot ← read_id;
  producer ← read_id;
  mret (mkAuthorityEnvelope epoch experiment generation hypothesis hypothesis_revision policy
    policy_generation branch branch_generation trial attempt worker boot producer).

Definition fits_envelope (envelope : AuthorityEnvelope) : bool :=
  fits 64 (env_epoch envelope) && fits 64 (env_experiment envelope) && fits 64 (env_generation envelope)
  && fits 64 (env_hypothesis envelope) && fits 64 (env_hypothesis_revision envelope)
  && fits 64 (env_policy envelope) && fits 64 (env_policy_generation envelope)
  && fits 64 (env_branch envelope) && fits 64 (env_branch_generation envelope)
  && fits 64 (env_trial envelope) && fits 64 (env_attempt envelope) && fits 64 (env_worker envelope)
  && fits 64 (env_boot envelope) && fits 64 (env_producer envelope).

Lemma reads_envelope capped limits envelope :
  fits_envelope envelope = true ->
  reads capped limits read_envelope (write_envelope envelope) envelope.
Proof.
  intros Hf. unfold fits_envelope in Hf. split_fits.
  unfold read_envelope, write_envelope. read_record envelope.
Qed.
#[export] Hint Resolve reads_envelope : codec.

Definition write_observation (observation : Observation) : list Z :=
  write_id (obs_id observation) ++ write_id (obs_experiment observation)
  ++ write_id (obs_generation observation) ++ write_id (obs_branch observation)
  ++ write_id (obs_branch_generation observation) ++ write_id (obs_trial observation)
  ++ write_id (obs_attempt observation) ++ write_id (obs_metric observation)
  ++ write_id (obs_producer observation) ++ write_id (obs_worker observation)
  ++ write_id (obs_boot observation) ++ write_id (obs_epoch observation)
  ++ write_enum (obs_validity observation) ++ write_metric_value (obs_value observation)
  ++ put_text (obs_detail observation) 512 ++ put_u64 (obs_sequence observation).

Definition read_observation : Reader Observation :=
  id ← read_id; experiment ← read_id; generation ← read_id; branch ← read_id;
  branch_generation ← read_id; trial ← read_id; attempt ← read_id; metric ← read_id;
  producer ← read_id; worker ← read_id; boot ← read_id; epoch ← read_id;
  validity ← read_enum ObservationValidity "observation validity"; value ← read_metric_value;
  detail ← get_text 512; sequence ← get_u64;
  mret (mkObservation id experiment generation branch branch_generation trial attempt metric producer
    worker boot epoch validity value detail sequence).

Definition fits_observation (observation : Observation) : bool :=
  fits 64 (obs_id observation) && fits 64 (obs_experiment observation)
  && fits 64 (obs_generation observation) && fits 64 (obs_branch observation)
  && fits 64 (obs_branch_generation observation) && fits 64 (obs_trial observation)
  && fits 64 (obs_attempt observation) && fits 64 (obs_metric observation)
  && fits 64 (obs_producer observation) && fits 64 (obs_worker observation)
  && fits 64 (obs_boot observation) && fits 64 (obs_epoch observation)
  && fits_metric_value (obs_value observation) && fits 64 (obs_sequence observation).

Definition clip_observation (observation : Observation) : Observation :=
  observation <| obs_value := clip_metric_value (obs_value observation) |>
    <| obs_detail := clip 512 (obs_detail observation) |>.

Lemma reads_observation capped limits observation :
  wide_limits capped limits = true -> fits_observation observation = true ->
  reads capped limits read_observation (write_observation observation) (clip_observation observation).
Proof.
  intros Hl Hf. unfold fits_observation in Hf. split_fits.
  unfold read_observation, write_observation. read_record observation.
Qed.
#[export] Hint Resolve reads_observation : codec.

Definition write_artifact (artifact : ArtifactRecord) : list Z :=
  write_id (artifact_id artifact) ++ write_id (artifact_experiment artifact)
  ++ write_id (artifact_generation artifact) ++ write_id (artifact_branch artifact)
  ++ write_id (artifact_trial artifact) ++ write_id (artifact_attempt artifact)
  ++ put_text (artifact_category artifact) 128 ++ put_text (artifact_locator artifact) 1024
  ++ put_digest (artifact_content_digest artifact) ++ put_boolean (artifact_digest_present artifact)
  ++ put_boolean (artifact_size_present artifact) ++ put_u64 (artifact_size_bytes artifact)
  ++ put_text (artifact_provenance artifact) 512 ++ put_boolean (artifact_current artifact)
  ++ put_u64 (artifact_sequence artifact).

Definition read_artifact : Reader ArtifactRecord :=
  id ← read_id; experiment ← read_id; generation ← read_id; branch ← read_id; trial ← read_id;
  attempt ← read_id; category ← get_text 128; locator ← get_text 1024; content_digest ← get_digest;
  digest_present ← get_boolean; size_present ← get_boolean; size_bytes ← get_u64;
  provenance ← get_text 512; current ← get_boolean; sequence ← get_u64;
  mret (mkArtifactRecord id experiment generation branch trial attempt category locator content_digest
    digest_present size_present size_bytes provenance current sequence).

Definition fits_artifact (artifact : ArtifactRecord) : bool :=
  fits 64 (artifact_id artifact) && fits 64 (artifact_experiment artifact)
  && fits 64 (artifact_generation artifact) && fits 64 (artifact_branch artifact)
  && fits 64 (artifact_trial artifact) && fits 64 (artifact_attempt artifact)
  && fits_digest (artifact_content_digest artifact) && fits 64 (artifact_size_bytes artifact)
  && fits 64 (artifact_sequence artifact).

Definition clip_artifact (artifact : ArtifactRecord) : ArtifactRecord :=
  artifact <| artifact_category := clip 128 (artifact_category artifact) |>
    <| artifact_locator := clip 1024 (artifact_locator artifact) |>
    <| artifact_provenance := clip 512 (artifact_provenance artifact) |>.

Lemma reads_artifact capped limits artifact :
  wide_limits capped limits = true -> fits_artifact artifact = true ->
  reads capped limits read_artifact (write_artifact artifact) (clip_artifact artifact).
Proof.
  intros Hl Hf. unfold fits_artifact in Hf. split_fits.
  unfold read_artifact, write_artifact. read_record artifact.
Qed.
#[export] Hint Resolve reads_artifact : codec.

(** ** Definitions *)

Definition write_metric_definition (metric : MetricDefinition) : list Z :=
  write_id (metric_id metric) ++ put_text (metric_name metric) 128 ++ put_text (metric_unit metric) 32
  ++ write_enum (metric_kind metric) ++ write_enum (metric_direction metric)
  ++ write_enum (metric_aggregation metric) ++ put_boolean (metric_required metric)
  ++ put_boolean (metric_accepts_non_finite metric) ++ write_optional_real (metric_lower_bound metric)
  ++ write_optional_real (metric_upper_bound metric) ++ write_optional_real (metric_target_low metric)
  ++ write_optional_real (metric_target_high metric) ++ put_u32 (metric_weight metric)
  ++ put_u32 (metric_priority metric)
  ++ write_vector (fun value => put_text value 128) (metric_categories metric).

Definition read_metric_definition : Reader MetricDefinition :=
  id ← read_id; name ← get_text 128; unit ← get_text 32; kind ← read_enum MetricKind "metric kind";
  direction ← read_enum MetricDirection "metric direction";
  aggregation ← read_enum AggregationRule "aggregation rule"; required ← get_boolean;
  accepts_non_finite ← get_boolean; lower_bound ← read_optional_real;
  upper_bound ← read_optional_real; target_low ← read_optional_real; target_high ← read_optional_real;
  weight ← get_u32; priority ← get_u32; categories ← read_vector 256 (get_text 128);
  mret (mkMetricDefinition id name unit kind direction aggregation required accepts_non_finite
    lower_bound upper_bound target_low target_high weight priority categories).

Definition fits_metric_definition (capped : bool) (metric : MetricDefinition) : bool :=
  fits 64 (metric_id metric) && fits_option is_binary64 (metric_lower_bound metric)
  && fits_option is_binary64 (metric_upper_bound metric)
  && fits_option is_binary64 (metric_target_low metric)
  && fits_option is_binary64 (metric_target_high metric) && fits 32 (metric_weight metric)
  && fits 32 (metric_priority metric)
  && fits_vector capped 256 (fun _ => true) (metric_categories metric).

Definition clip_metric_definition (metric : MetricDefinition) : MetricDefinition :=
  metric <| metric_name := clip 128 (metric_name metric) |>
    <| metric_unit := clip 32 (metric_unit metric) |>
    <| metric_categories := map (clip 128) (metric_categories metric) |>.

Lemma reads_metric_definition capped limits metric :
  wide_limits capped limits = true -> fits_metric_definition capped metric = true ->
  reads capped limits read_metric_definition (write_metric_definition metric) (clip_metric_definition metric).
Proof.
  intros Hl Hf. unfold fits_metric_definition in Hf. split_fits.
  unfold read_metric_definition, write_metric_definition. read_record metric.
Qed.
#[export] Hint Resolve reads_metric_definition : codec.

Definition write_comparison_rule (rule : ComparisonRule) : list Z :=
  write_id (rule_metric rule) ++ write_enum (rule_op rule) ++ put_real (rule_threshold rule)
  ++ put_real (rule_target_low rule) ++ put_real (rule_target_high rule) ++ put_u32 (rule_priority rule).

Definition read_comparison_rule : Reader ComparisonRule :=
  metric ← read_id; op ← read_enum ComparisonOp "comparison op"; threshold ← get_real;
  target_low ← get_real; target_high ← get_real; priority ← get_u32;
  mret (mkComparisonRule metric op threshold target_low target_high priority).

Definition fits_comparison_rule (rule : ComparisonRule) : bool :=
  fits 64 (rule_metric rule) && is_binary64 (rule_threshold rule) && is_binary64 (rule_target_low rule)
  && is_binary64 (rule_target_high rule) && fits 32 (rule_priority rule).

Lemma reads_comparison_rule capped limits rule :
  fits_comparison_rule rule = true ->
  reads capped limits read_comparison_rule (write_comparison_rule rule) rule.
Proof.
  intros Hf. unfold fits_comparison_rule in Hf. split_fits.
  unfold read_comparison_rule, write_comparison_rule. read_record rule.
Qed.
#[export] Hint Resolve reads_comparison_rule : codec.

Definition write_comparison_policy (policy : ComparisonPolicy) : list Z :=
  write_id (policy_id policy) ++ write_id (policy_generation policy)
  ++ put_boolean (policy_require_baseline policy)
  ++ put_u32 (policy_min_completed_trials_per_branch policy)
  ++ put_u32 (policy_min_valid_observations_per_required_metric policy)
  ++ put_boolean (policy_reject_on_any_invalid_observation policy)
  ++ put_boolean (policy_require_environment_match policy)
  ++ put_u32 (policy_majority_wins_min_basis_points policy)
  ++ put_boolean (policy_use_weighted_score policy) ++ put_real (policy_accept_score_threshold policy)
  ++ write_vector write_comparison_rule (policy_rules policy).

Definition read_comparison_policy : Reader ComparisonPolicy :=
  id ← read_id; generation ← read_id; require_baseline ← get_boolean;
  min_completed_trials_per_branch ← get_u32; min_valid_observations_per_required_metric ← get_u32;
  reject_on_any_invalid_observation ← get_boolean; require_environment_match ← get_boolean;
  majority_wins_min_basis_points ← get_u32; use_weighted_score ← get_boolean;
  accept_score_threshold ← get_real; rules ← read_vector 256 read_comparison_rule;
  mret (mkComparisonPolicy id generation require_baseline min_completed_trials_per_branch
    min_valid_observations_per_required_metric reject_on_any_invalid_observation
    require_environment_match majority_wins_min_basis_points use_weighted_score accept_score_threshold
    rules).

Definition fits_comparison_policy (capped : bool) (policy : ComparisonPolicy) : bool :=
  fits 64 (policy_id policy) && fits 64 (policy_generation policy)
  && fits 32 (policy_min_completed_trials_per_branch policy)
  && fits 32 (policy_min_valid_observations_per_required_metric policy)
  && fits 32 (policy_majority_wins_min_basis_points policy)
  && is_binary64 (policy_accept_score_threshold policy)
  && fits_vector capped 256 fits_comparison_rule (policy_rules policy).

Lemma reads_comparison_policy capped limits policy :
  fits_comparison_policy capped policy = true ->
  reads capped limits read_comparison_policy (write_comparison_policy policy) policy.
Proof.
  intros Hf. unfold fits_comparison_policy in Hf. split_fits.
  unfold read_comparison_policy, write_comparison_policy. read_record policy.
Qed.
#[export] Hint Resolve reads_comparison_policy : codec.

Definition write_branch_definition (branch : BranchDefinition) : list Z :=
  write_id (branch_id branch) ++ put_text (branch_name branch) 128 ++ write_enum (branch_role branch)
  ++ write_id (branch_parent branch) ++ write_id (branch_generation branch)
  ++ write_enum (branch_state branch) ++ write_parameters (branch_parameters branch)
  ++ write_id (branch_input_set branch) ++ put_boolean (branch_input_set_present branch)
  ++ write_id (branch_environment branch) ++ put_boolean (branch_environment_present branch)
  ++ put_text (branch_environment_fingerprint branch) 512 ++ write_optional_u64 (branch_seed branch)
  ++ put_u32 (branch_planned_trials branch) ++ put_u64 (branch_created_sequence branch)
  ++ put_boolean (branch_forked branch).

Definition read_branch_definition : Reader BranchDefinition :=
  id ← read_id; name ← get_text 128; role ← read_enum BranchRole "branch role"; parent ← read_id;
  generation ← read_id; state ← read_enum BranchState "branch state"; parameters ← read_parameters;
  input_set ← read_id; input_set_present ← get_boolean; environment ← read_id;
  environment_present ← get_boolean; environment_fingerprint ← get_text 512; seed ← read_optional_u64;
  planned_trials ← get_u32; created_sequence ← get_u64; forked ← get_boolean;
  mret (mkBranchDefinition id name role parent generation state parameters input_set input_set_present
    environment environment_present environment_fingerprint seed planned_trials created_sequence forked).

Definition fits_branch_definition (capped : bool) (branch : BranchDefinition) : bool :=
  fits 64 (branch_id branch) && fits 64 (branch_parent branch) && fits 64 (branch_generation branch)
  && fits_parameters capped (branch_parameters branch) && fits 64 (branch_input_set branch)
  && fits 64 (branch_environment branch) && fits_option (fits 64) (branch_seed branch)
  && fits 32 (branch_planned_trials branch) && fits 64 (branch_created_sequence branch).

Definition clip_branch_definition (branch : BranchDefinition) : BranchDefinition :=
  branch <| branch_name := clip 128 (branch_name branch) |>
    <| branch_parameters := clip_parameters (branch_parameters branch) |>
    <| branch_environment_fingerprint := clip 512 (branch_environment_fingerprint branch) |>.

Lemma reads_branch_definition capped limits branch :
  wide_limits capped limits = true -> fits_branch_definition capped branch = true ->
  reads capped limits read_branch_definition (write_branch_definition branch) (clip_branch_definition branch).
Proof.
  intros Hl Hf. unfold fits_branch_definition in Hf. split_fits.
  unfold read_branch_definition, write_branch_definition. read_record branch.
Qed.
#[export] Hint Resolve reads_branch_definition : codec.

Definition write_experiment_definition (definition : ExperimentDefinition) : list Z :=
  write_id (def_id definition) ++ write_id (def_generation definition)
  ++ write_id (def_hypothesis definition) ++ write_id (def_hypothesis_revision definition)
  ++ put_text (def_name definition) 128
  ++ write_vector write_branch_definition (def_branches definition)
  ++ write_vector write_metric_definition (def_metrics definition)
  ++ write_comparison_policy (def_policy definition) ++ write_enum (def_seed_policy definition)
  ++ write_optional_u64 (def_experiment_seed definition) ++ write_enum (def_retry_policy definition)
  ++ put_u32 (def_max_attempts_per_trial definition)
  ++ write_enum (def_partial_failure_policy definition)
  ++ write_enum (def_late_evidence_policy definition) ++ write_parameters (def_parameters definition)
  ++ put_text (def_provenance definition) 1024 ++ put_u64 (def_created_sequence definition).

Definition read_experiment_definition : Reader ExperimentDefinition :=
  id ← read_id; generation ← read_id; hypothesis ← read_id; hypothesis_revision ← read_id;
  name ← get_text 128; branches ← read_vector 256 read_branch_definition;
  metrics ← read_vector 128 read_metric_definition; policy ← read_comparison_policy;
  seed_policy ← read_enum SeedPolicy "seed policy"; experiment_seed ← read_optional_u64;
  retry_policy ← read_enum RetryPolicy "retry policy"; max_attempts_per_trial ← get_u32;
  partial_failure_policy ← read_enum PartialFailurePolicy "partial failure policy";
  late_evidence_policy ← read_enum LateEvidencePolicy "late evidence policy";
  parameters ← read_parameters; provenance ← get_text 1024; created_sequence ← get_u64;
  mret (mkExperimentDefinition id generation hypothesis hypothesis_revision name branches metrics policy
    seed_policy experiment_seed retry_policy max_attempts_per_trial partial_failure_policy
    late_evidence_policy parameters provenance created_sequence).

Definition fits_experiment_definition (capped : bool) (definition : ExperimentDefinition) : bool :=
  fits 64 (def_id definition) && fits 64 (def_generation definition)
  && fits 64 (def_hypothesis definition) && fits 64 (def_hypothesis_revision definition)
  && fits_vector capped 256 (fits_branch_definition capped) (def_branches definition)
  && fits_vector capped 128 (fits_metric_definition capped) (def_metrics definition)
  && fits_comparison_policy capped (def_policy definition)
  && fits_option (fits 64) (def_experiment_seed definition)
  && fits 32 (def_max_attempts_per_trial definition)
  && fits_parameters capped (def_parameters definition) && fits 64 (def_created_sequence definition).

Definition clip_experiment_definition (definition : ExperimentDefinition) : ExperimentDefinition :=
  definition <| def_name := clip 128 (def_name definition) |>
    <| def_branches := map clip_branch_definition (def_branches definition) |>
    <| def_metrics := map clip_metric_definition (def_metrics definition) |>
    <| def_parameters := clip_parameters (def_parameters definition) |>
    <| def_provenance := clip 1024 (def_provenance definition) |>.

Lemma reads_experiment_definition capped limits definition :
  wide_limits capped limits = true -> fits_experiment_definition capped definition = true ->
  reads capped limits read_experiment_definition (write_experiment_definition definition) (clip_experiment_definition definition).
Proof.
  intros Hl Hf. unfold fits_experiment_definition in Hf. split_fits.
  unfold read_experiment_definition, write_experiment_definition. read_record definition.
Qed.
#[export] Hint Resolve reads_experiment_definition : codec.

(** The direction a hypothesis expects, when it names one. *)
Definition write_optional_direction (direction : option MetricDirection) : list Z :=
  put_boolean (match direction with Some _ => true | None => false end)
  ++ match direction with Some d => write_enum d | None => [] end.
Definition read_optional_direction : Reader (option MetricDirection) :=
  has_direction ← get_boolean;
  if (has_direction : bool)
  then direction ← read_enum MetricDirection "metric direction"; mret (Some direction)
  else mret None.

Lemma reads_optional_direction capped limits direction :
  reads capped limits read_optional_direction (write_optional_direction direction) direction.
Proof.
  unfold read_optional_direction, write_optional_direction.
  eapply reads_bind; [apply reads_boolean|]. destruct direction; [|apply reads_ret].
  eapply reads_last; [apply reads_enum|done].
Qed.
#[export] Hint Resolve reads_optional_direction : codec.

Definition write_hypothesis (hypothesis : HypothesisRec) : list Z :=
  write_id (hyp_id hypothesis) ++ write_id (hyp_revision hypothesis)
  ++ put_text (hyp_statement hypothesis) 4096
  ++ write_optional_direction (hyp_expected_direction hypothesis)
  ++ write_id (hyp_expected_metric hypothesis) ++ write_id (hyp_parent hypothesis)
  ++ write_id (hyp_parent_revision hypothesis) ++ put_boolean (hyp_superseded hypothesis)
  ++ write_id (hyp_superseded_by_revision hypothesis) ++ put_text (hyp_provenance hypothesis) 1024
  ++ put_u64 (hyp_created_sequence hypothesis).

Definition read_hypothesis : Reader HypothesisRec :=
  id ← read_id; revision ← read_id; statement ← get_text 4096;
  expected_direction ← read_optional_direction; expected_metric ← read_id; parent ← read_id;
  parent_revision ← read_id; superseded ← get_boolean; superseded_by_revision ← read_id;
  provenance ← get_text 1024; created_sequence ← get_u64;
  mret (mkHypothesisRec id revision statement expected_direction expected_metric parent parent_revision
    superseded superseded_by_revision provenance created_sequence).

Definition fits_hypothesis (hypothesis : HypothesisRec) : bool :=
  fits 64 (hyp_id hypothesis) && fits 64 (hyp_revision hypothesis)
  && fits 64 (hyp_expected_metric hypothesis) && fits 64 (hyp_parent hypothesis)
  && fits 64 (hyp_parent_revision hypothesis) && fits 64 (hyp_superseded_by_revision hypothesis)
  && fits 64 (hyp_created_sequence hypothesis).

Definition clip_hypothesis (hypothesis : HypothesisRec) : HypothesisRec :=
  hypothesis <| hyp_statement := clip 4096 (hyp_statement hypothesis) |>
    <| hyp_provenance := clip 1024 (hyp_provenance hypothesis) |>.

Lemma reads_hypothesis capped limits hypothesis :
  wide_limits capped limits = true -> fits_hypothesis hypothesis = true ->
  reads capped limits read_hypothesis (write_hypothesis hypothesis) (clip_hypothesis hypothesis).
Proof.
  intros Hl Hf. unfold fits_hypothesis in Hf. split_fits.
  unfold read_hypothesis, write_hypothesis. read_record hypothesis.
Qed.
#[export] Hint Resolve reads_hypothesis : codec.

(** ** Trials and attempts *)

Definition write_trial (trial : TrialRecord) : list Z :=
  write_id (trial_id trial) ++ write_id (trial_experiment trial) ++ write_id (trial_generation trial)
  ++ write_id (trial_branch trial) ++ write_id (trial_branch_generation trial)
  ++ write_id (trial_hypothesis trial) ++ write_id (trial_hypothesis_revision trial)
  ++ write_id (trial_policy trial) ++ write_id (trial_policy_generation trial)
  ++ write_enum (trial_state trial) ++ write_id (trial_authoritative_attempt trial)
  ++ write_id (trial_next_attempt_number trial) ++ put_u32 (trial_attempt_count trial)
  ++ put_u32 (trial_committed_attempts trial) ++ write_enum (trial_failure_kind trial)
  ++ put_text (trial_failure_detail trial) 512 ++ write_optional_u64 (trial_seed trial)
  ++ write_id (trial_input_set trial) ++ put_boolean (trial_input_set_present trial)
  ++ write_id (trial_environment trial) ++ put_boolean (trial_environment_present trial)
  ++ put_text (trial_environment_fingerprint trial) 512 ++ write_vector write_id (trial_artifacts trial)
  ++ put_text (trial_payload trial) 4096 ++ put_u64 (trial_created_sequence trial)
  ++ put_u64 (trial_updated_sequence trial).

Definition read_trial : Reader TrialRecord :=
  id ← read_id; experiment ← read_id; generation ← read_id; branch ← read_id;
  branch_generation ← read_id; hypothesis ← read_id; hypothesis_revision ← read_id; policy ← read_id;
  policy_generation ← read_id; state ← read_enum TrialState "trial state";
  authoritative_attempt ← read_id; next_attempt_number ← read_id; attempt_count ← get_u32;
  committed_attempts ← get_u32; failure_kind ← read_enum FailureKind "failure kind";
  failure_detail ← get_text 512; seed ← read_optional_u64; input_set ← read_id;
  input_set_present ← get_boolean; environment ← read_id; environment_present ← get_boolean;
  environment_fingerprint ← get_text 512; artifacts ← read_vector 256 read_id;
  payload ← get_text 4096; created_sequence ← get_u64; updated_sequence ← get_u64;
  mret (mkTrialRecord id experiment generation branch branch_generation hypothesis hypothesis_revision
    policy policy_generation state authoritative_attempt next_attempt_number attempt_count
    committed_attempts failure_kind failure_detail seed input_set input_set_present environment
    environment_present environment_fingerprint artifacts payload created_sequence updated_sequence).

Definition fits_trial (capped : bool) (trial : TrialRecord) : bool :=
  fits 64 (trial_id trial) && fits 64 (trial_experiment trial) && fits 64 (trial_generation trial)
  && fits 64 (trial_branch trial) && fits 64 (trial_branch_generation trial)
  && fits 64 (trial_hypothesis trial) && fits 64 (trial_hypothesis_revision trial)
  && fits 64 (trial_policy trial) && fits 64 (trial_policy_generation trial)
  && fits 64 (trial_authoritative_attempt trial) && fits 64 (trial_next_attempt_number trial)
  && fits 32 (trial_attempt_count trial) && fits 32 (trial_committed_attempts trial)
  && fits_option (fits 64) (trial_seed trial) && fits 64 (trial_input_set trial)
  && fits 64 (trial_environment trial) && fits_vector capped 256 (fits 64) (trial_artifacts trial)
  && fits 64 (trial_created_sequence trial) && fits 64 (trial_updated_sequence trial).

Definition clip_trial (trial : TrialRecord) : TrialRecord :=
  trial <| trial_failure_detail := clip 512 (trial_failure_detail trial) |>
    <| trial_environment_fingerprint := clip 512 (trial_environment_fingerprint trial) |>
    <| trial_payload := clip 4096 (trial_payload trial) |>.

Lemma reads_trial capped limits trial :
  wide_limits capped limits = true -> fits_trial capped trial = true ->
  reads capped limits read_trial (write_trial trial) (clip_trial trial).
Proof.
  intros Hl Hf. unfold fits_trial in Hf. split_fits.
  unfold read_trial, write_trial. read_record trial.
Qed.
#[export] Hint Resolve reads_trial : codec.

Definition write_attempt (attempt : AttemptRecord) : list Z :=
  write_id (attempt_id attempt) ++ write_id (attempt_number attempt) ++ write_id (attempt_trial attempt)
  ++ write_id (attempt_experiment attempt) ++ write_id (attempt_generation attempt)
  ++ write_id (attempt_branch attempt) ++ write_id (attempt_branch_generation attempt)
  ++ write_id (attempt_worker attempt) ++ write_id (attempt_boot attempt)
  ++ write_id (attempt_epoch attempt) ++ write_id (attempt_producer attempt)
  ++ write_enum (attempt_state attempt) ++ write_enum (attempt_failure_kind attempt)
  ++ put_text (attempt_failure_detail attempt) 512 ++ put_boolean (attempt_committed attempt)
  ++ put_u64 (attempt_issued_sequence attempt) ++ put_u64 (attempt_updated_sequence attempt).

Definition read_attempt : Reader AttemptRecord :=
  id ← read_id; number ← read_id; trial ← read_id; experiment ← read_id; generation ← read_id;
  branch ← read_id; branch_generation ← read_id; worker ← read_id; boot ← read_id; epoch ← read_id;
  producer ← read_id; state ← read_enum AttemptState "attempt state";
  failure_kind ← read_enum FailureKind "failure kind"; failure_detail ← get_text 512;
  committed ← get_boolean; issued_sequence ← get_u64; updated_sequence ← get_u64;
  mret (mkAttemptRecord id number trial experiment generation branch branch_generation worker boot epoch
    producer state failure_kind failure_detail committed issued_sequence updated_sequence).

Definition fits_attempt (attempt : AttemptRecord) : bool :=
  fits 64 (attempt_id attempt) && fits 64 (attempt_number attempt) && fits 64 (attempt_trial attempt)
  && fits 64 (attempt_experiment attempt) && fits 64 (attempt_generation attempt)
  && fits 64 (attempt_branch attempt) && fits 64 (attempt_branch_generation attempt)
  && fits 64 (attempt_worker attempt) && fits 64 (attempt_boot attempt)
  && fits 64 (attempt_epoch attempt) && fits 64 (attempt_producer attempt)
  && fits 64 (attempt_issued_sequence attempt) && fits 64 (attempt_updated_sequence attempt).

Definition clip_attempt (attempt : AttemptRecord) : AttemptRecord :=
  attempt <| attempt_failure_detail := clip 512 (attempt_failure_detail attempt) |>.

Lemma reads_attempt capped limits attempt :
  wide_limits capped limits = true -> fits_attempt attempt = true ->
  reads capped limits read_attempt (write_attempt attempt) (clip_attempt attempt).
Proof.
  intros Hl Hf. unfold fits_attempt in Hf. split_fits.
  unfold read_attempt, write_attempt. read_record attempt.
Qed.
#[export] Hint Resolve reads_attempt : codec.

(** ** Decisions and rollback points *)

Lemma error_code_byte_roundtrip code :
  fits_error_code code = true -> fits 8 (error_code_byte code) = true /\ error_code_of_byte (error_code_byte code) = code.
Proof.
  destruct code; intros Hf; try (split; reflexivity). unfold fits_error_code in Hf. cbn. split.
  - unfold fits. change (2 ^ 8) with 256. blia.
  - unfold error_code_of_byte. destruct (nth_error _ _) eqn:Hn; [|done].
    assert (Hlt : (Z.to_nat byte < length error_code_values)%nat) by (apply nth_error_Some; by rewrite Hn).
    change (length error_code_values) with 23%nat in Hlt. zprop. lia.
Qed.

Lemma reads_error_code_byte capped limits code :
  fits_error_code code = true -> reads capped limits get_u8 (put_u8 (error_code_byte code)) (error_code_byte code).
Proof. intros Hf. apply reads_u8. by apply error_code_byte_roundtrip. Qed.
#[export] Hint Resolve reads_error_code_byte | 0 : codec.

Definition write_constraint (value : ConstraintResult) : list Z :=
  put_text (constraint_name value) 128 ++ put_boolean (constraint_passed value)
  ++ put_text (constraint_detail value) 512.

Definition read_constraint : Reader ConstraintResult :=
  name ← get_text 128; passed ← get_boolean; detail ← get_text 512;
  mret (mkConstraintResult name passed detail).

Definition fits_constraint (value : ConstraintResult) : bool :=
  true.

Definition clip_constraint (value : ConstraintResult) : ConstraintResult :=
  value <| constraint_name := clip 128 (constraint_name value) |>
    <| constraint_detail := clip 512 (constraint_detail value) |>.

Lemma reads_constraint capped limits value :
  wide_limits capped limits = true -> fits_constraint value = true ->
  reads capped limits read_constraint (write_constraint value) (clip_constraint value).
Proof.
  intros Hl Hf. unfold fits_constraint in Hf. split_fits.
  unfold read_constraint, write_constraint. read_record value.
Qed.
#[export] Hint Resolve reads_constraint : codec.

Definition write_factor (value : ComparisonFactor) : list Z :=
  write_id (factor_metric value) ++ write_enum (factor_op value) ++ put_u32 (factor_priority value)
  ++ put_real (factor_threshold value) ++ put_boolean (factor_has_values value)
  ++ put_real (factor_baseline_value value) ++ put_real (factor_candidate_value value)
  ++ put_real (factor_delta value) ++ put_boolean (factor_satisfied value)
  ++ put_boolean (factor_decisive value) ++ put_text (factor_detail value) 512.

Definition read_factor : Reader ComparisonFactor :=
  metric ← read_id; op ← read_enum ComparisonOp "comparison op"; priority ← get_u32;
  threshold ← get_real; has_values ← get_boolean; baseline_value ← get_real;
  candidate_value ← get_real; delta ← get_real; satisfied ← get_boolean; decisive ← get_boolean;
  detail ← get_text 512;
  mret (mkComparisonFactor metric op priority threshold has_values baseline_value candidate_value delta
    satisfied decisive detail).

Definition fits_factor (value : ComparisonFactor) : bool :=
  fits 64 (factor_metric value) && fits 32 (factor_priority value)
  && is_binary64 (factor_threshold value) && is_binary64 (factor_baseline_value value)
  && is_binary64 (factor_candidate_value value) && is_binary64 (factor_delta value).

Definition clip_factor (value : ComparisonFactor) : ComparisonFactor :=
  value <| factor_detail := clip 512 (factor_detail value) |>.

Lemma reads_factor capped limits value :
  wide_limits capped limits = true -> fits_factor value = true ->
  reads capped limits read_factor (write_factor value) (clip_factor value).
Proof.
  intros Hl Hf. unfold fits_factor in Hf. split_fits.
  unfold read_factor, write_factor. read_record value.
Qed.
#[export] Hint Resolve reads_factor : codec.

Definition write_aggregate (aggregate : MetricAggregate) : list Z :=
  write_id (agg_metric aggregate) ++ write_enum (agg_rule aggregate)
  ++ put_boolean (agg_present aggregate) ++ put_real (agg_value aggregate)
  ++ put_text (agg_category aggregate) 128 ++ put_u32 (agg_valid_count aggregate)
  ++ put_u32 (agg_invalid_count aggregate) ++ put_u32 (agg_missing_count aggregate)
  ++ put_u32 (agg_unsupported_count aggregate) ++ write_vector put_real (agg_raw_values aggregate)
  ++ write_vector (fun value => put_text value 64) (agg_trial_order aggregate).

Definition read_aggregate : Reader MetricAggregate :=
  metric ← read_id; rule ← read_enum AggregationRule "aggregation rule"; present ← get_boolean;
  value ← get_real; category ← get_text 128; valid_count ← get_u32; invalid_count ← get_u32;
  missing_count ← get_u32; unsupported_count ← get_u32; raw_values ← read_vector 4096 get_real;
  trial_order ← read_vector 4096 (get_text 64);
  mret (mkMetricAggregate metric rule present value category valid_count invalid_count missing_count
    unsupported_count raw_values trial_order).

Definition fits_aggregate (capped : bool) (aggregate : MetricAggregate) : bool :=
  fits 64 (agg_metric aggregate) && is_binary64 (agg_value aggregate)
  && fits 32 (agg_valid_count aggregate) && fits 32 (agg_invalid_count aggregate)
  && fits 32 (agg_missing_count aggregate) && fits 32 (agg_unsupported_count aggregate)
  && fits_vector capped 4096 is_binary64 (agg_raw_values aggregate)
  && fits_vector capped 4096 (fun _ => true) (agg_trial_order aggregate).

Definition clip_aggregate (aggregate : MetricAggregate) : MetricAggregate :=
  aggregate <| agg_category := clip 128 (agg_category aggregate) |>
    <| agg_trial_order := map (clip 64) (agg_trial_order aggregate) |>.

Lemma reads_aggregate capped limits aggregate :
  wide_limits capped limits = true -> fits_aggregate capped aggregate = true ->
  reads capped limits read_aggregate (write_aggregate aggregate) (clip_aggregate aggregate).
Proof.
  intros Hl Hf. unfold fits_aggregate in Hf. split_fits.
  unfold read_aggregate, write_aggregate. read_record aggregate.
Qed.
#[export] Hint Resolve reads_aggregate : codec.

Definition write_branch_evidence (value : BranchEvidence) : list Z :=
  write_id (ev_branch value) ++ write_id (ev_generation value) ++ write_enum (ev_role value)
  ++ write_enum (ev_state value) ++ put_u32 (ev_planned_trials value)
  ++ put_u32 (ev_completed_trials value) ++ put_u32 (ev_failed_trials value)
  ++ put_u32 (ev_cancelled_trials value) ++ put_u32 (ev_invalid_trials value)
  ++ put_u32 (ev_superseded_trials value) ++ put_u32 (ev_open_trials value)
  ++ write_vector write_aggregate (ev_aggregates value).

Definition read_branch_evidence : Reader BranchEvidence :=
  branch ← read_id; generation ← read_id; role ← read_enum BranchRole "branch role";
  state ← read_enum BranchState "branch state"; planned_trials ← get_u32; completed_trials ← get_u32;
  failed_trials ← get_u32; cancelled_trials ← get_u32; invalid_trials ← get_u32;
  superseded_trials ← get_u32; open_trials ← get_u32; aggregates ← read_vector 128 read_aggregate;
  mret (mkBranchEvidence branch generation role state planned_trials completed_trials failed_trials
    cancelled_trials invalid_trials superseded_trials open_trials aggregates).

Definition fits_branch_evidence (capped : bool) (value : BranchEvidence) : bool :=
  fits 64 (ev_branch value) && fits 64 (ev_generation value) && fits 32 (ev_planned_trials value)
  && fits 32 (ev_completed_trials value) && fits 32 (ev_failed_trials value)
  && fits 32 (ev_cancelled_trials value) && fits 32 (ev_invalid_trials value)
  && fits 32 (ev_superseded_trials value) && fits 32 (ev_open_trials value)
  && fits_vector capped 128 (fits_aggregate capped) (ev_aggregates value).

Definition clip_branch_evidence (value : BranchEvidence) : BranchEvidence :=
  value <| ev_aggregates := map clip_aggregate (ev_aggregates value) |>.

Lemma reads_branch_evidence capped limits value :
  wide_limits capped limits = true -> fits_branch_evidence capped value = true ->
  reads capped limits read_branch_evidence (write_branch_evidence value) (clip_branch_evidence value).
Proof.
  intros Hl Hf. unfold fits_branch_evidence in Hf. split_fits.
  unfold read_branch_evidence, write_branch_evidence. read_record value.
Qed.
#[export] Hint Resolve reads_branch_evidence : codec.

Definition write_rejected_evidence (evidence : RejectedEvidence) : list Z :=
  put_text (rej_kind evidence) 64 ++ put_u64 (rej_identifier evidence)
  ++ put_u8 (error_code_byte (rej_reason evidence)) ++ put_text (rej_detail evidence) 512.

Definition read_rejected_evidence : Reader RejectedEvidence :=
  kind ← get_text 64; identifier ← get_u64; reason ← get_u8; detail ← get_text 512;
  mret (mkRejectedEvidence kind identifier (error_code_of_byte reason) detail).

Definition fits_rejected_evidence (evidence : RejectedEvidence) : bool :=
  fits 64 (rej_identifier evidence) && fits_error_code (rej_reason evidence).

Definition clip_rejected_evidence (evidence : RejectedEvidence) : RejectedEvidence :=
  evidence <| rej_kind := clip 64 (rej_kind evidence) |>
    <| rej_detail := clip 512 (rej_detail evidence) |>.

Lemma reads_rejected_evidence capped limits evidence :
  wide_limits capped limits = true -> fits_rejected_evidence evidence = true ->
  reads capped limits read_rejected_evidence (write_rejected_evidence evidence) (clip_rejected_evidence evidence).
Proof.
  intros Hl Hf. unfold fits_rejected_evidence in Hf. split_fits.
  unfold read_rejected_evidence, write_rejected_evidence. destruct (error_code_byte_roundtrip (rej_reason evidence)) as [_ Hr]; [done|].
  do 3 (eapply reads_bind; [read_field|]). eapply reads_last; [read_field|]. by rewrite Hr.
Qed.
#[export] Hint Resolve reads_rejected_evidence : codec.

Definition write_decision (decision : Decision) : list Z :=
  write_id (dec_id decision) ++ write_id (dec_experiment decision) ++ write_id (dec_generation decision)
  ++ write_id (dec_hypothesis decision) ++ write_id (dec_hypothesis_revision decision)
  ++ write_id (dec_policy decision) ++ write_id (dec_policy_generation decision)
  ++ write_vector write_id (dec_compared_branches decision) ++ write_id (dec_baseline decision)
  ++ put_boolean (dec_baseline_present decision) ++ write_id (dec_candidate decision)
  ++ write_enum (dec_outcome decision) ++ write_enum (dec_reason_kind decision)
  ++ put_text (dec_reason decision) 4096 ++ write_vector write_constraint (dec_constraints decision)
  ++ write_vector write_factor (dec_factors decision)
  ++ write_vector write_branch_evidence (dec_evidence decision)
  ++ write_vector write_rejected_evidence (dec_rejected_evidence decision)
  ++ put_text (dec_tie_break_rule decision) 256 ++ put_boolean (dec_tied decision)
  ++ put_digest (dec_canonical_state_digest decision) ++ put_u64 (dec_sequence decision).

Definition read_decision : Reader Decision :=
  id ← read_id; experiment ← read_id; generation ← read_id; hypothesis ← read_id;
  hypothesis_revision ← read_id; policy ← read_id; policy_generation ← read_id;
  compared_branches ← read_vector 256 read_id; baseline ← read_id; baseline_present ← get_boolean;
  candidate ← read_id; outcome ← read_enum DecisionOutcome "decision outcome";
  reason_kind ← read_enum FailureKind "failure kind"; reason ← get_text 4096;
  constraints ← read_vector 512 read_constraint; factors ← read_vector 512 read_factor;
  evidence ← read_vector 256 read_branch_evidence;
  rejected_evidence ← read_vector 4096 read_rejected_evidence; tie_break_rule ← get_text 256;
  tied ← get_boolean; canonical_state_digest ← get_digest; sequence ← get_u64;
  mret (mkDecision id experiment generation hypothesis hypothesis_revision policy policy_generation
    compared_branches baseline baseline_present candidate outcome reason_kind reason constraints factors
    evidence rejected_evidence tie_break_rule tied canonical_state_digest sequence).

Definition fits_decision (capped : bool) (decision : Decision) : bool :=
  fits 64 (dec_id decision) && fits 64 (dec_experiment decision) && fits 64 (dec_generation decision)
  && fits 64 (dec_hypothesis decision) && fits 64 (dec_hypothesis_revision decision)
  && fits 64 (dec_policy decision) && fits 64 (dec_policy_generation decision)
  && fits_vector capped 256 (fits 64) (dec_compared_branches decision)
  && fits 64 (dec_baseline decision) && fits 64 (dec_candidate decision)
  && fits_vector capped 512 fits_constraint (dec_constraints decision)
  && fits_vector capped 512 fits_factor (dec_factors decision)
  && fits_vector capped 256 (fits_branch_evidence capped) (dec_evidence decision)
  && fits_vector capped 4096 fits_rejected_evidence (dec_rejected_evidence decision)
  && fits_digest (dec_canonical_state_digest decision) && fits 64 (dec_sequence decision).

Definition clip_decision (decision : Decision) : Decision :=
  decision <| dec_reason := clip 4096 (dec_reason decision) |>
    <| dec_constraints := map clip_constraint (dec_constraints decision) |>
    <| dec_factors := map clip_factor (dec_factors decision) |>
    <| dec_evidence := map clip_branch_evidence (dec_evidence decision) |>
    <| dec_rejected_evidence := map clip_rejected_evidence (dec_rejected_evidence decision) |>
    <| dec_tie_break_rule := clip 256 (dec_tie_break_rule decision) |>.

Lemma reads_decision capped limits decision :
  wide_limits capped limits = true -> fits_decision capped decision = true ->
  reads capped limits read_decision (write_decision decision) (clip_decision decision).
Proof.
  intros Hl Hf. unfold fits_decision in Hf. split_fits.
  unfold read_decision, write_decision. read_record decision.
Qed.
#[export] Hint Resolve reads_decision : codec.

Definition write_snapshot (snapshot : BranchAuthoritySnapshot) : list Z :=
  write_id (snap_branch snapshot) ++ write_id (snap_generation snapshot)
  ++ write_enum (snap_state snapshot).

Definition read_snapshot : Reader BranchAuthoritySnapshot :=
  branch ← read_id; generation ← read_id; state ← read_enum BranchState "branch state";
  mret (mkBranchAuthoritySnapshot branch generation state).

Definition fits_snapshot (snapshot : BranchAuthoritySnapshot) : bool :=
  fits 64 (snap_branch snapshot) && fits 64 (snap_generation snapshot).

Lemma reads_snapshot capped limits snapshot :
  fits_snapshot snapshot = true ->
  reads capped limits read_snapshot (write_snapshot snapshot) snapshot.
Proof.
  intros Hf. unfold fits_snapshot in Hf. split_fits.
  unfold read_snapshot, write_snapshot. read_record snapshot.
Qed.
#[export] Hint Resolve reads_snapshot : codec.

Definition write_rollback_point (point : RollbackPoint) : list Z :=
  write_id (point_id point) ++ write_id (point_experiment point) ++ write_id (point_generation point)
  ++ write_id (point_restored_from point) ++ write_id (point_decision point)
  ++ put_boolean (point_decision_present point) ++ put_digest (point_state_digest point)
  ++ write_vector write_snapshot (point_authority point) ++ put_u64 (point_sequence point).

Definition read_rollback_point : Reader RollbackPoint :=
  id ← read_id; experiment ← read_id; generation ← read_id; restored_from ← read_id;
  decision ← read_id; decision_present ← get_boolean; state_digest ← get_digest;
  authority ← read_vector 256 read_snapshot; sequence ← get_u64;
  mret (mkRollbackPoint id experiment generation restored_from decision decision_present state_digest
    authority sequence).

Definition fits_rollback_point (capped : bool) (point : RollbackPoint) : bool :=
  fits 64 (point_id point) && fits 64 (point_experiment point) && fits 64 (point_generation point)
  && fits 64 (point_restored_from point) && fits 64 (point_decision point)
  && fits_digest (point_state_digest point)
  && fits_vector capped 256 fits_snapshot (point_authority point) && fits 64 (point_sequence point).

Lemma reads_rollback_point capped limits point :
  fits_rollback_point capped point = true ->
  reads capped limits read_rollback_point (write_rollback_point point) point.
Proof.
  intros Hf. unfold fits_rollback_point in Hf. split_fits.
  unfold read_rollback_point, write_rollback_point. read_record point.
Qed.
#[export] Hint Resolve reads_rollback_point : codec.

Definition write_worker_incarnation (incarnation : WorkerIncarnation) : list Z :=
  write_id (inc_worker incarnation) ++ write_id (inc_boot incarnation)
  ++ write_id (inc_epoch incarnation) ++ write_id (inc_producer incarnation)
  ++ put_text (inc_endpoint incarnation) 256 ++ put_text (inc_fingerprint incarnation) 512
  ++ put_u64 (inc_registered_sequence incarnation) ++ put_boolean (inc_revoked incarnation)
  ++ write_enum (inc_revocation_kind incarnation) ++ put_u64 (inc_revoked_sequence incarnation).

Definition read_worker_incarnation : Reader WorkerIncarnation :=
  worker ← read_id; boot ← read_id; epoch ← read_id; producer ← read_id; endpoint ← get_text 256;
  fingerprint ← get_text 512; registered_sequence ← get_u64; revoked ← get_boolean;
  revocation_kind ← read_enum FailureKind "failure kind"; revoked_sequence ← get_u64;
  mret (mkWorkerIncarnation worker boot epoch producer endpoint fingerprint registered_sequence revoked
    revocation_kind revoked_sequence).

Definition fits_worker_incarnation (incarnation : WorkerIncarnation) : bool :=
  fits 64 (inc_worker incarnation) && fits 64 (inc_boot incarnation) && fits 64 (inc_epoch incarnation)
  && fits 64 (inc_producer incarnation) && fits 64 (inc_registered_sequence incarnation)
  && fits 64 (inc_revoked_sequence incarnation).

Definition clip_worker_incarnation (incarnation : WorkerIncarnation) : WorkerIncarnation :=
  incarnation <| inc_endpoint := clip 256 (inc_endpoint incarnation) |>
    <| inc_fingerprint := clip 512 (inc_fingerprint incarnation) |>.

Lemma reads_worker_incarnation capped limits incarnation :
  wide_limits capped limits = true -> fits_worker_incarnation incarnation = true ->
  reads capped limits read_worker_incarnation (write_worker_incarnation incarnation) (clip_worker_incarnation incarnation).
Proof.
  intros Hl Hf. unfold fits_worker_incarnation in Hf. split_fits.
  unfold read_worker_incarnation, write_worker_incarnation. read_record incarnation.
Qed.
#[export] Hint Resolve reads_worker_incarnation : codec.

