(* ===== verification/StateCodec.v ===== *)
(** * Codecs of the durable state (protocol.cpp)

    An experiment record and the whole coordinator state as bytes.  The tables
    of trials and attempts are written as their values and rebuilt under the
    identity each value carries, refusing null and repeated identities.
    [clip_state] is what a state becomes when it is written and read back. *)
From S2P Require Import Prelude OMap Error Identity Domain Float64 Model Hash State Wire Codec.

(** ** Tables *)

(** A loop that fills a [std::map] under each value's own identity. *)
Fixpoint read_table {A} (null_error duplicate_error : Status) (key : A -> Z) (count : nat) (read : Reader A)
    (table : omap Z A) : Reader (omap Z A) :=
  match count with
  | O => mret table
  | S count' =>
      value ← read;
      if negb (id_valid (key value)) then get_error null_error
      else if om_mem (key value) table then get_error duplicate_error
      else read_table null_error duplicate_error key count' read (om_set (key value) value table)
  end.

Definition state_error (reason : string) : Status :=
  make_error ErrorCode.CORRUPT_PERSISTENCE ErrorStage.PERSISTENCE reason.

(** ** Experiment records *)

Definition write_experiment_record (record : ExperimentRecord) : list Z :=
  write_experiment_definition (rec_definition record) ++ write_hypothesis (rec_hypothesis record)
  ++ write_vector write_hypothesis (rec_hypothesis_history record) ++ write_enum (rec_state record)
  ++ put_u64 (rec_revision_sequence record) ++ put_u64 (rec_created_sequence record)
  ++ write_vector write_trial (map snd (rec_trials record))
  ++ write_vector write_attempt (map snd (rec_attempts record))
  ++ write_vector write_observation (rec_observations record)
  ++ write_vector write_artifact (rec_artifacts record) ++ write_vector write_decision (rec_decisions record)
  ++ write_vector write_rollback_point (rec_rollback_points record)
  ++ write_vector write_rejected_evidence (rec_rejected_evidence record)
  ++ write_vector (fun value => put_text value 512) (rec_lifecycle_log record).

Definition read_experiment_record : Reader ExperimentRecord :=
  definition ← read_experiment_definition; hypothesis ← read_hypothesis;
  hypothesis_history ← read_vector 4096 read_hypothesis;
  state ← read_enum ExperimentState "experiment state";
  revision_sequence ← get_u64; created_sequence ← get_u64;
  trial_count ← get_count 4096;
  trials ← read_table (state_error "null trial identity") (state_error "duplicate trial identity")
             trial_id (Z.to_nat trial_count) read_trial [];
  attempt_count ← get_count 32768;
  attempts ← read_table (state_error "null attempt identity") (state_error "duplicate attempt identity")
               attempt_id (Z.to_nat attempt_count) read_attempt [];
  observations ← read_vector 1048576 read_observation; artifacts ← read_vector 65536 read_artifact;
  decisions ← read_vector 1024 read_decision; rollback_points ← read_vector 1024 read_rollback_point;
  rejected_evidence ← read_vector 65536 read_rejected_evidence;
  lifecycle_log ← read_vector 65536 (get_text 512);
  mret (mkExperimentRecord definition hypothesis hypothesis_history state revision_sequence created_sequence
    trials attempts observations artifacts decisions rollback_points rejected_evidence lifecycle_log).

(** ** The coordinator state *)

Definition write_keyed_record (entry : Z * ExperimentRecord) : list Z :=
  write_id (fst entry) ++ write_experiment_record (snd entry).

(** The counters, in the order in which the code writes them. *)
Definition state_watermarks (state : CoordinatorState) : list Z :=
  [st_next_worker_registration_sequence state; st_id_watermark_experiment state;
   st_id_watermark_hypothesis state; st_id_watermark_branch state; st_id_watermark_metric state;
   st_id_watermark_policy state; st_id_watermark_trial state; st_id_watermark_attempt state;
   st_id_watermark_observation state; st_id_watermark_artifact state; st_id_watermark_decision state;
   st_id_watermark_rollback state].

Definition write_coordinator_state (state : CoordinatorState) : list Z :=
  put_u32 (st_format_version state) ++ put_u64 (st_last_epoch state) ++ put_u64 (st_last_sequence state)
  ++ write_vector write_worker_incarnation (st_workers state)
  ++ flat_map put_u64 (state_watermarks state)
  ++ put_count (size_of (st_experiments state)) ++ flat_map write_keyed_record (st_experiments state).

Fixpoint read_records (count : nat) (experiments : omap Z ExperimentRecord) : Reader (omap Z ExperimentRecord) :=
  match count with
  | O => mret experiments
  | S count' =>
      id ← read_id;
      if negb (id_valid id) then get_error (state_error "null experiment identity")
      else
        record ← read_experiment_record;
        if om_mem id experiments then get_error (state_error "duplicate experiment identity")
        else read_records count' (om_set id record experiments)
  end.

Definition read_coordinator_state : Reader CoordinatorState :=
  version ← get_u32; last_epoch ← get_u64; last_sequence ← get_u64;
  workers ← read_vector 4096 read_worker_incarnation;
  registration_sequence ← get_u64; experiment ← get_u64; hypothesis ← get_u64; branch ← get_u64;
  metric ← get_u64; policy ← get_u64; trial ← get_u64; attempt ← get_u64; observation ← get_u64;
  artifact ← get_u64; decision ← get_u64; rollback ← get_u64;
  experiment_count ← get_count 4194304;
  experiments ← read_records (Z.to_nat experiment_count) [];
  mret (mkCoordinatorState version last_epoch last_sequence experiments workers registration_sequence
    experiment hypothesis branch metric policy trial attempt observation artifact decision rollback).

(** ** What is stored, and what comes back *)

Definition fits_table (capped : bool) {A} (max_items : Z) (ok : A -> bool) (table : omap Z A) : bool :=
  fits_count capped max_items (size_of table)
  && forallb (fun entry => implb capped (id_valid (fst entry)) && ok (snd entry)) table.

Definition fits_record (capped : bool) (record : ExperimentRecord) : bool :=
  fits_experiment_definition capped (rec_definition record) && fits_hypothesis (rec_hypothesis record)
  && fits_vector capped 4096 fits_hypothesis (rec_hypothesis_history record)
  && fits 64 (rec_revision_sequence record) && fits 64 (rec_created_sequence record)
  && fits_table capped 4096 (fits_trial capped) (rec_trials record)
  && fits_table capped 32768 fits_attempt (rec_attempts record)
  && fits_vector capped 1048576 fits_observation (rec_observations record)
  && fits_vector capped 65536 fits_artifact (rec_artifacts record)
  && fits_vector capped 1024 (fits_decision capped) (rec_decisions record)
  && fits_vector capped 1024 (fits_rollback_point capped) (rec_rollback_points record)
  && fits_vector capped 65536 fits_rejected_evidence (rec_rejected_evidence record)
  && fits_vector capped 65536 (fun _ => true) (rec_lifecycle_log record).

Definition clip_record (record : ExperimentRecord) : ExperimentRecord :=
  record <| rec_definition := clip_experiment_definition (rec_definition record) |>
    <| rec_hypothesis := clip_hypothesis (rec_hypothesis record) |>
    <| rec_hypothesis_history := map clip_hypothesis (rec_hypothesis_history record) |>
    <| rec_trials := om_map clip_trial (rec_trials record) |>
    <| rec_attempts := om_map clip_attempt (rec_attempts record) |>
    <| rec_observations := map clip_observation (rec_observations record) |>
    <| rec_artifacts := map clip_artifact (rec_artifacts record) |>
    <| rec_decisions := map clip_decision (rec_decisions record) |>
    <| rec_rejected_evidence := map clip_rejected_evidence (rec_rejected_evidence record) |>
    <| rec_lifecycle_log := map (clip 512) (rec_lifecycle_log record) |>.

Definition fits_state (capped : bool) (state : CoordinatorState) : bool :=
  fits 32 (st_format_version state) && fits 64 (st_last_epoch state) && fits 64 (st_last_sequence state)
  && fits_vector capped 4096 fits_worker_incarnation (st_workers state)
  && forallb (fits 64) (state_watermarks state)
  && fits_count capped 4194304 (size_of (st_experiments state))
  && forallb (fun entry => fits 64 (fst entry) && implb capped (id_valid (fst entry))
                           && fits_record capped (snd entry)) (st_experiments state).

Definition clip_state (state : CoordinatorState) : CoordinatorState :=
  state <| st_workers := map clip_worker_incarnation (st_workers state) |>
    <| st_experiments := om_map clip_record (st_experiments state) |>.

(** The tables of a record are in key order, each value under its identity;
    so are those of every record of a state. *)
Definition keyed {A} (key : A -> Z) (table : omap Z A) : Prop :=
  om_sorted table /\ Forall (fun entry => key (snd entry) = fst entry) table.
Definition record_keyed (record : ExperimentRecord) : Prop :=
  keyed trial_id (rec_trials record) /\ keyed attempt_id (rec_attempts record).
Definition state_keyed (state : CoordinatorState) : Prop :=
  om_sorted (st_experiments state) /\ Forall (fun entry => record_keyed (snd entry)) (st_experiments state).

(** ** Round trips *)

Section Tables.
Context (capped : bool) (limits : Limits).

Lemma reads_refused {A} (s : Status) w (v : A) : capped = false -> reads capped limits (get_error s) w v.
Proof. intros Hc rest. right. split; [done|]. by eexists. Qed.

Lemma om_map_snoc {A B} (f : A -> B) (m : omap Z A) k v : om_map f m ++ [(k, f v)] = om_map f (m ++ [(k, v)]).
Proof. unfold om_map. by rewrite map_app. Qed.

(** The entries of [todo], read after those of [past] have been. *)
Lemma reads_table {A} null_error duplicate_error (key : A -> Z) (r : Reader A) (w : A -> list Z) (c : A -> A) (ok : A -> bool)
    todo past :
  (forall x, ok x = true -> reads capped limits r (w x) (c x)) -> (forall x, key (c x) = key x) ->
  om_sorted (past ++ todo) -> Forall (fun entry => key (snd entry) = fst entry) todo ->
  forallb (fun entry => implb capped (id_valid (fst entry)) && ok (snd entry)) todo = true ->
  reads capped limits (read_table null_error duplicate_error key (length todo) r (om_map c past))
    (flat_map w (map snd todo)) (om_map c (past ++ todo)).
Proof.
  intros Hr Hk. revert past. induction todo as [|[k v] todo IH]; intros past Hs Hkeys Hok.
  { rewrite app_nil_r. apply reads_ret. }
  apply Forall_cons_iff in Hkeys as [Hkey Hkeys]. cbn [fst snd] in Hkey.
  cbn [forallb fst snd] in Hok. apply andb_true_iff in Hok as [[Hid Hv]%andb_true_iff Hok].
  cbn [length map flat_map read_table snd]. eapply reads_bind; [by apply Hr|]. rewrite Hk, Hkey.
  destruct (id_valid k) eqn:Hvalid; cbn [negb].
  2: { destruct capped eqn:Hc; [done|]. rewrite <- Hc. by apply reads_refused. }
  assert (Hlt : Forall (fun entry => key_ltb entry.1 k = true) (om_map c past)).
  { apply om_sorted_prefix in Hs. unfold om_map. by apply Forall_map. }
  destruct (om_set_snoc k (c v) (om_map c past) Hlt) as [-> Hnone]. unfold om_mem. rewrite Hnone.
  rewrite om_map_snoc. change ((k, v) :: todo) with ([(k, v)] ++ todo). rewrite (app_assoc past).
  apply IH; [|done..]. by rewrite <- (app_assoc past).
Qed.

(** The records of a state, likewise. *)
Lemma reads_records (r : Reader ExperimentRecord) todo past :
  r = read_experiment_record ->
  (forall x, record_keyed x -> fits_record capped x = true ->
     reads capped limits r (write_experiment_record x) (clip_record x)) ->
  om_sorted (past ++ todo) -> Forall (fun entry => record_keyed (snd entry)) todo ->
  forallb (fun entry => fits 64 (fst entry) && implb capped (id_valid (fst entry))
                        && fits_record capped (snd entry)) todo = true ->
  reads capped limits (read_records (length todo) (om_map clip_record past))
    (flat_map write_keyed_record todo) (om_map clip_record (past ++ todo)).
Proof.
  intros -> Hr. revert past. induction todo as [|[k v] todo IH]; intros past Hs Hkeys Hok.
  { rewrite app_nil_r. apply reads_ret. }
  apply Forall_cons_iff in Hkeys as [Hkey Hkeys]. cbn [fst snd] in Hkey.
  cbn [forallb fst snd] in Hok. apply andb_true_iff in Hok as [[[Hfit Hid]%andb_true_iff Hv]%andb_true_iff Hok].
  cbn [length flat_map read_records]. unfold write_keyed_record at 1. cbn [fst snd]. rewrite <- app_assoc.
  eapply reads_bind; [by apply reads_id|]. cbv beta. destruct (id_valid k) eqn:Hvalid; cbn [negb].
  2: { destruct capped eqn:Hc; [done|]. rewrite <- Hc. by apply reads_refused. }
  eapply reads_bind; [by apply Hr|]. cbv beta.
  assert (Hlt : Forall (fun entry => key_ltb entry.1 k = true) (om_map clip_record past)).
  { apply om_sorted_prefix in Hs. unfold om_map. by apply Forall_map. }
  destruct (om_set_snoc k (clip_record v) (om_map clip_record past) Hlt) as [-> Hnone]. unfold om_mem. rewrite Hnone.
  rewrite om_map_snoc. change ((k, v) :: todo) with ([(k, v)] ++ todo). rewrite (app_assoc past).
  apply IH; [|done..]. by rewrite <- (app_assoc past).
Qed.
End Tables.

Lemma reads_experiment_record capped limits record :
  wide_limits capped limits = true -> record_keyed record -> fits_record capped record = true ->
  reads capped limits read_experiment_record (write_experiment_record record) (clip_record record).
Proof.
  intros Hl [[Hts Htk] [Has Hak]] Hf. unfold fits_record, fits_table in Hf. split_fits.
  unfold read_experiment_record, write_experiment_record.
  do 6 (eapply reads_bind; [read_field|]; cbv beta).
  unfold write_vector at 1. rewrite <- app_assoc.
  eapply reads_bind; [apply (reads_count capped limits 4096); [unfold size_of; lia|unfold size_of; by rewrite length_map|done]|].
  eapply reads_bind; [unfold size_of; rewrite Nat2Z.id, length_map;
    apply (reads_table capped limits _ _ trial_id _ write_trial clip_trial (fits_trial capped) (rec_trials record) []); auto with codec|].
  unfold write_vector at 1. rewrite <- app_assoc.
  eapply reads_bind; [apply (reads_count capped limits 32768); [unfold size_of; lia|unfold size_of; by rewrite length_map|done]|].
  eapply reads_bind; [unfold size_of; rewrite Nat2Z.id, length_map;
    apply (reads_table capped limits _ _ attempt_id _ write_attempt clip_attempt fits_attempt (rec_attempts record) []); auto with codec|].
  cbn [app]. read_record record.
Qed.

(** The whole state, written in one payload and read back, is the clipped
    state, provided it respects the counts the reader admits. *)
Lemma read_write_coordinator_state limits state rest :
  wide_limits true limits = true -> state_keyed state -> fits_state true state = true ->
  read_coordinator_state limits (write_coordinator_state state ++ rest) = Ok (clip_state state, rest).
Proof.
  intros Hl [Hs Hk] Hf. enough (Hr : reads true limits read_coordinator_state (write_coordinator_state state) (clip_state state)).
  { by destruct (Hr rest) as [|[? _]]. }
  unfold fits_state in Hf. cbn [forallb state_watermarks] in Hf. split_fits.
  unfold read_coordinator_state, write_coordinator_state. cbn [flat_map state_watermarks]. rewrite <- !app_assoc.
  do 16 (eapply reads_bind; [read_field|]; cbv beta). cbn [app].
  eapply reads_bind; [apply (reads_count true limits 4194304); [unfold size_of; lia|done|done]|].
  eapply reads_last; [unfold size_of; rewrite Nat2Z.id; apply (reads_records true limits read_experiment_record (st_experiments state) []);
    auto using reads_experiment_record|]. reflexivity.
Qed.

(** Clipping keeps identities, so the tables stay keyed. *)
Lemma keyed_map {A} (key : A -> Z) (f : A -> A) table :
  (forall x, key (f x) = key x) -> keyed key table -> keyed key (om_map f table).
Proof.
  intros Hf [Hs Hk]. split; [by apply om_map_sorted|]. unfold om_map. apply Forall_map.
  eapply Forall_impl; [exact Hk|]. intros [k x] Hx. cbn in *. by rewrite Hf.
Qed.

Lemma clip_record_keyed record : record_keyed record -> record_keyed (clip_record record).
Proof. intros [Ht Ha]. split; simpl; by apply keyed_map. Qed.

Lemma clip_state_keyed state : state_keyed state -> state_keyed (clip_state state).
Proof.
  intros [Hs Hk]. split; simpl; [by apply om_map_sorted|]. unfold om_map. apply Forall_map.
  eapply Forall_impl; [exact Hk|]. intros [k x] Hx. cbn in *. by apply clip_record_keyed.
Qed.
