(* ===== verification/Persistence.v ===== *)
(** * The state image (persistence.cpp)

    The byte image of a coordinator state: a header with a magic number, the
    format version, a checksum of itself, the length and the SHA-256 digest of
    the body; and a body of typed, length-prefixed, checksummed records.
    [serialize] and [deserialize] follow the code check by check.  What is
    deserialized from a serialized state is that state with its texts clipped,
    or nothing. *)
From S2P Require Import Prelude OMap Error Identity Domain Float64 Model Hash State Wire Codec StateCodec.
#[local] Open Scope check_scope.

Definition kHeaderBytes : Z := 56.
Definition kMagic : Z := 0x54415453.

(** [RecordType], by number. *)
Definition STATE_HEADER : Z := 1.
Definition WORKER : Z := 2.
Definition EXPERIMENT : Z := 3.

Definition io_failure (reason : string) : Status :=
  make_error ErrorCode.PERSISTENCE_FAILURE ErrorStage.PERSISTENCE reason.

Definition load_u32 (bytes : list Z) (offset : nat) : Z := le_value (take 4 (drop offset bytes)).
Definition load_u64 (bytes : list Z) (offset : nat) : Z := le_value (take 8 (drop offset bytes)).

Definition append_record (body : list Z) (type : Z) (payload : list Z) : list Z :=
  body ++ put_u32 type ++ put_u32 (size_of payload) ++ put_u32 (crc32 payload) ++ payload.

Definition map_codec_status (status : Status) : Status :=
  if bool_decide (status_code status = ErrorCode.RESOURCE_EXHAUSTED) then status
  else corrupt ("record decode failed: " +:+ status_to_string status).

(** ** Serialization *)

Definition write_state_header (state : CoordinatorState) : list Z :=
  put_u32 (st_format_version state) ++ put_u64 (st_last_epoch state) ++ put_u64 (st_last_sequence state)
  ++ flat_map put_u64 (state_watermarks state).

Definition serialize_body (state : CoordinatorState) : list Z :=
  let body := append_record [] STATE_HEADER (write_state_header state) in
  let body := foldl (fun body incarnation => append_record body WORKER (write_worker_incarnation incarnation))
                body (st_workers state) in
  foldl (fun body entry => append_record body EXPERIMENT (put_u64 (fst entry) ++ write_experiment_record (snd entry)))
    body (st_experiments state).

(** The first sixteen bytes: magic, version, flags and their checksum. *)
Definition image_prefix (version : Z) : list Z :=
  let words := put_u32 kMagic ++ put_u32 version ++ put_u32 0 in
  words ++ put_u32 (crc32 words).

Definition serialize_image (state : CoordinatorState) (limits : Limits) : Result (list Z) :=
  if negb (st_format_version state =? kPersistenceFormatVersion) then
    Err (io_failure "refusing to serialize state with a mismatched format version")
  else if max_persisted_records limits <? total_record_count state then
    Err (make_error ErrorCode.RESOURCE_EXHAUSTED ErrorStage.LIMITS
           "state holds more records than the configured bound")
  else
    let body := serialize_body state in
    Ok (image_prefix (st_format_version state) ++ put_u64 (size_of body) ++ sha_digest_of body ++ body).

(** ** Deserialization *)

(** The header record over the state read so far. *)
Definition read_state_header (state : CoordinatorState) : Reader CoordinatorState :=
  version ← get_u32; last_epoch ← get_u64; last_sequence ← get_u64; registration ← get_u64;
  experiment ← get_u64; hypothesis ← get_u64; branch ← get_u64; metric ← get_u64; policy ← get_u64;
  trial ← get_u64; attempt ← get_u64; observation ← get_u64; artifact ← get_u64; decision ← get_u64;
  rollback ← get_u64;
  mret (mkCoordinatorState version last_epoch last_sequence (st_experiments state) (st_workers state) registration
    experiment hypothesis branch metric policy trial attempt observation artifact decision rollback).

(** [expect_end] once the record has been taken over. *)
Definition end_record {A} (rest : list Z) (value : A) : Result A :=
  if status_ok (expect_end rest) then Ok value else Err (corrupt "record contains trailing bytes").

(** The [switch] on the record type; the flag says whether a header has been seen. *)
Definition decode_record (limits : Limits) (type : Z) (payload : list Z) (acc : bool * CoordinatorState)
    : Result (bool * CoordinatorState) :=
  let '(header_seen, state) := acc in
  if type =? STATE_HEADER then
    if (header_seen : bool) then Err (corrupt "state image contains more than one header record")
    else
      match read_state_header state limits payload with
      | Err s => Err (map_codec_status s)
      | Ok (state, rest) => end_record rest (true, state)
      end
  else if type =? WORKER then
    match read_worker_incarnation limits payload with
    | Err s => Err (map_codec_status s)
    | Ok (incarnation, rest) =>
        if max_registered_workers limits <=? size_of (st_workers state) then
          Err (make_error ErrorCode.RESOURCE_EXHAUSTED ErrorStage.LIMITS
                 "state holds more worker incarnations than the configured bound")
        else end_record rest (header_seen, state <| st_workers ::= fun l => l ++ [incarnation] |>)
    end
  else
    match get_u64 limits payload with
    | Err s => Err (map_codec_status s)
    | Ok (id, rest) =>
        if negb (id_valid id) then Err (corrupt "experiment record carries a null identity")
        else
          match read_experiment_record limits rest with
          | Err s => Err (map_codec_status s)
          | Ok (record, rest) =>
              if max_experiments limits <=? size_of (st_experiments state) then
                Err (make_error ErrorCode.RESOURCE_EXHAUSTED ErrorStage.LIMITS
                       "state holds more experiments than the configured bound")
              else if om_mem id (st_experiments state) then Err (corrupt "duplicate experiment record")
              else end_record rest (header_seen, state <| st_experiments ::= om_set id record |>)
          end
    end.

(** The loop over the body, [offset] bytes of which have been dropped.  Every
    turn consumes at least twelve bytes, so the length of the body is enough
    fuel. *)
Fixpoint decode_records (fuel : nat) (limits : Limits) (record_count : Z) (acc : bool * CoordinatorState)
    (body : list Z) : Result (bool * CoordinatorState) :=
  match body, fuel with
  | [], _ => Ok acc
  | _, O => Err (corrupt "record header is truncated")
  | _, S fuel' =>
      if size_of body <? 12 then Err (corrupt "record header is truncated")
      else
        let raw_type := load_u32 body 0 in
        let payload_length := load_u32 body 4 in
        let payload_crc := load_u32 body 8 in
        if (raw_type <? STATE_HEADER) || (EXPERIMENT <? raw_type) then Err (corrupt "record type is not recognised")
        else if size_of body - 12 <? payload_length then Err (corrupt "record payload is truncated")
        else if max_persisted_records limits <? record_count + 1 then
          Err (make_error ErrorCode.RESOURCE_EXHAUSTED ErrorStage.LIMITS "state holds too many records")
        else
          let payload := take (Z.to_nat payload_length) (drop 12 body) in
          if negb (crc32 payload =? payload_crc) then Err (corrupt "record checksum mismatch")
          else
            match decode_record limits raw_type payload acc with
            | Err s => Err s
            | Ok acc => decode_records fuel' limits (record_count + 1) acc (drop (12 + Z.to_nat payload_length) body)
            end
  end.

Definition deserialize_image (bytes : list Z) (limits : Limits) : Result CoordinatorState :=
  if size_of bytes <? kHeaderBytes then Err (corrupt "state image is shorter than its header")
  else if max_state_file_bytes limits <? size_of bytes then
    Err (make_error ErrorCode.RESOURCE_EXHAUSTED ErrorStage.LIMITS "state image exceeds the configured bound")
  else if negb (load_u32 bytes 0 =? kMagic) then Err (corrupt "state image magic mismatch")
  else if negb (load_u32 bytes 4 =? kPersistenceFormatVersion) then
    Err (corrupt "state image format version is not supported by this build")
  else if negb (load_u32 bytes 8 =? 0) then Err (corrupt "state image flags must be zero")
  else if negb (load_u32 bytes 12 =? crc32 (take 12 bytes)) then Err (corrupt "state image header checksum mismatch")
  else if negb (load_u64 bytes 16 =? size_of bytes - kHeaderBytes) then
    Err (corrupt (if size_of bytes - kHeaderBytes <? load_u64 bytes 16
                  then "state image is truncated" else "state image has trailing garbage"))
  else
    let body := drop 56 bytes in
    if negb (bool_decide (sha_finalize (sha_update sha_reset body) = take 32 (drop 24 bytes))) then
      Err (corrupt "state image body digest mismatch")
    else
      match decode_records (length body) limits 0 (false, default_CoordinatorState) body with
      | Err s => Err s
      | Ok (header_seen, state) =>
          if negb header_seen then Err (corrupt "state image is missing its header record")
          else
            let validated := validate_state state limits in
            if negb (status_ok validated) then Err validated else Ok state
      end.

(** ** Sizes and ranges *)

Definition sha_words_ok (h : Sha256) : Prop := length (sha_state h) = 8%nat.

Lemma sha_round_length kws h : length (foldl sha_round h kws) = length h.
Proof.
  revert h. induction kws as [|kw kws IH]; intros h; simpl; [done|]. rewrite IH.
  unfold sha_round. repeat case_match; done.
Qed.

Lemma sha_compress_length state block : length (sha_compress state block) = length state.
Proof. unfold sha_compress. rewrite length_zip_with, sha_round_length. lia. Qed.

Lemma sha_update_byte_ok h v : sha_words_ok h -> sha_words_ok (sha_update_byte h v).
Proof. unfold sha_words_ok, sha_update_byte. intros Hh. case_match; simpl; [by rewrite sha_compress_length|done]. Qed.

Lemma sha_update_ok data h : sha_words_ok h -> sha_words_ok (sha_update h data).
Proof. revert h. induction data as [|b data IH]; intros h Hh; simpl; [done|]. by apply IH, sha_update_byte_ok. Qed.

Lemma sha_pad_ok fuel h : sha_words_ok h -> sha_words_ok (sha_pad fuel h).
Proof. revert h. induction fuel as [|fuel IH]; intros h Hh; simpl; [done|]. case_match; [done|]. by apply IH, sha_update_byte_ok. Qed.

(** A digest has 32 bytes. *)
Lemma sha_digest_length data : length (sha_digest_of data) = 32%nat.
Proof.
  unfold sha_digest_of, sha_finalize. set (h := sha_pad _ _).
  assert (Hh : sha_words_ok h) by (apply sha_pad_ok, sha_update_byte_ok, sha_update_ok; done).
  unfold sha_words_ok in Hh. clearbody h.
  set (words := sha_compress _ _). assert (Hw : length words = 8%nat) by (unfold words; by rewrite sha_compress_length).
  clearbody words. do 8 (destruct words as [|? words]; [done|]). by destruct words.
Qed.

(** ** One record *)

Definition encode_record (record : Z * list Z) : list Z :=
  put_u32 (fst record) ++ put_u32 (size_of (snd record)) ++ put_u32 (crc32 (snd record)) ++ snd record.

Lemma load_put_u32 before v rest :
  0 <= v < u32_modulus -> load_u32 (before ++ put_u32 v ++ rest) (length before) = v.
Proof.
  intros Hv. unfold load_u32. rewrite drop_app_length. change 4%nat with (length (put_u32 v)).
  rewrite take_app_length. unfold put_u32. rewrite le_value_le_bytes. by apply Z.mod_small.
Qed.

Lemma load_put_u64 before v rest :
  0 <= v < u64_modulus -> load_u64 (before ++ put_u64 v ++ rest) (length before) = v.
Proof.
  intros Hv. unfold load_u64. rewrite drop_app_length. change 8%nat with (length (put_u64 v)).
  rewrite take_app_length. unfold put_u64. rewrite le_value_le_bytes. by apply Z.mod_small.
Qed.

Lemma size_of_put_u32 v : size_of (put_u32 v) = 4.
Proof. reflexivity. Qed.
Lemma size_of_put_u64 v : size_of (put_u64 v) = 8.
Proof. reflexivity. Qed.

(** A record that has been appended is found again: its type, length and
    checksum are recognised and its payload is decoded. *)
Lemma decode_records_cons fuel limits count acc type payload rest :
  STATE_HEADER <= type <= EXPERIMENT -> size_of payload < u32_modulus ->
  decode_records (S fuel) limits count acc (encode_record (type, payload) ++ rest)
  = if max_persisted_records limits <? count + 1
    then Err (make_error ErrorCode.RESOURCE_EXHAUSTED ErrorStage.LIMITS "state holds too many records")
    else match decode_record limits type payload acc with
         | Err s => Err s
         | Ok acc => decode_records fuel limits (count + 1) acc rest
         end.
Proof.
  intros Ht Hp. pose proof (size_of_nonneg payload) as Hp0. pose proof (size_of_nonneg rest) as Hr0.
  unfold STATE_HEADER, EXPERIMENT in Ht. unfold encode_record. cbn [fst snd]. rewrite <- !app_assoc.
  set (body := put_u32 type ++ _).
  assert (Hb : size_of body = 12 + size_of payload + size_of rest).
  { unfold body. rewrite !size_of_app, !size_of_put_u32. lia. }
  assert (Hne : exists b body', body = b :: body') by by eexists _, _.
  destruct Hne as (b & body' & Hne). cbn [decode_records]. rewrite Hne, <- Hne. clear b body' Hne.
  assert (Hl0 : load_u32 body 0 = type).
  { apply (load_put_u32 []). unfold u32_modulus. lia. }
  assert (Hl4 : load_u32 body 4 = size_of payload).
  { unfold body. change 4%nat with (length (put_u32 type)). apply load_put_u32. lia. }
  assert (Hl8 : load_u32 body 8 = crc32 payload).
  { unfold body. rewrite app_assoc. change 8%nat with (length (put_u32 type ++ put_u32 (size_of payload))).
    apply load_put_u32. pose proof (crc32_range payload). unfold u32_modulus. lia. }
  assert (Hd : drop 12 body = payload ++ rest).
  { unfold body. rewrite !app_assoc, <- (app_assoc _ payload).
    change 12%nat with (length ((put_u32 type ++ put_u32 (size_of payload)) ++ put_u32 (crc32 payload))).
    by rewrite drop_app_length. }
  rewrite Hl0, Hl4, Hl8, Hb. unfold STATE_HEADER, EXPERIMENT.
  destruct (Z.ltb_spec (12 + size_of payload + size_of rest) 12); [lia|].
  destruct (Z.ltb_spec type 1); [lia|]. destruct (Z.ltb_spec 3 type); [lia|]. cbn [orb].
  destruct (Z.ltb_spec (12 + size_of payload + size_of rest - 12) (size_of payload)); [lia|].
  destruct (_ <? _); [done|].
  assert (Htk : take (Z.to_nat (size_of payload)) (drop 12 body) = payload).
  { rewrite Hd. unfold size_of. by rewrite Nat2Z.id, take_app_length. }
  assert (Hdr : drop (12 + Z.to_nat (size_of payload)) body = rest).
  { rewrite <- drop_drop, Hd. unfold size_of. by rewrite Nat2Z.id, drop_app_length. }
  rewrite Htk, Hdr, Z.eqb_refl. done.
Qed.

(** ** What a serialized body decodes to *)

Definition worker_records (workers : list WorkerIncarnation) : list (Z * list Z) :=
  map (fun incarnation => (WORKER, write_worker_incarnation incarnation)) workers.
Definition experiment_records (experiments : omap Z ExperimentRecord) : list (Z * list Z) :=
  map (fun entry => (EXPERIMENT, write_keyed_record entry)) experiments.
Definition image_records (state : CoordinatorState) : list (Z * list Z) :=
  (STATE_HEADER, write_state_header state) :: worker_records (st_workers state) ++ experiment_records (st_experiments state).

Lemma append_record_encode body type payload : append_record body type payload = body ++ encode_record (type, payload).
Proof. done. Qed.

Lemma serialize_body_records state : serialize_body state = flat_map encode_record (image_records state).
Proof.
  assert (Hfold : forall (A : Type) (type : Z) (w : A -> list Z) l body,
    foldl (fun body x => append_record body type (w x)) body l = body ++ flat_map encode_record (map (fun x => (type, w x)) l)).
  { intros A type w l. induction l as [|x l IH]; intros body; cbn [foldl map flat_map]; [by rewrite app_nil_r|].
    by rewrite IH, append_record_encode, <- app_assoc. }
  unfold serialize_body. rewrite (Hfold _ WORKER), (Hfold _ EXPERIMENT), append_record_encode.
  unfold image_records, worker_records, experiment_records. cbn [flat_map app]. rewrite flat_map_app.
  by rewrite <- app_assoc.
Qed.

(** What an image can carry: the counters and the records fit, and every
    record is short enough for its length field. *)
Definition fits_image (capped : bool) (state : CoordinatorState) : bool :=
  fits 32 (st_format_version state) && fits 64 (st_last_epoch state) && fits 64 (st_last_sequence state)
  && forallb (fits 64) (state_watermarks state)
  && forallb fits_worker_incarnation (st_workers state)
  && forallb (fun entry => fits 64 (fst entry) && implb capped (id_valid (fst entry))
                           && fits_record capped (snd entry)) (st_experiments state)
  && forallb (fun record => size_of (snd record) <? u32_modulus) (image_records state)
  && (size_of (serialize_body state) <? u64_modulus).

(** The bounds a load applies to a whole image. *)
Definition image_within (capped : bool) (limits : Limits) (state : CoordinatorState) : bool :=
  if capped
  then (kHeaderBytes + size_of (serialize_body state) <=? max_state_file_bytes limits)
       && (size_of (image_records state) <=? max_persisted_records limits)
       && (size_of (st_workers state) <=? max_registered_workers limits)
       && (size_of (st_experiments state) <=? max_experiments limits)
       && status_ok (validate_state (clip_state state) limits)
  else true.

Section Decode.
Context (capped : bool) (limits : Limits).
Hypothesis wide : wide_limits capped limits = true.

(** Either the expected outcome, or, without [capped], a refusal. *)
Definition yields {A} (result expected : Result A) : Prop :=
  result = expected \/ capped = false /\ exists s, result = Err s.

Lemma yields_refused {A} (s : Status) (expected : Result A) : capped = false -> yields (Err s) expected.
Proof. intros Hc. right. split; [done|]. by eexists. Qed.

Lemma yields_trans {A} (r r' r'' : Result A) : yields r r' -> yields r' r'' -> yields r r''.
Proof. intros [->|H] H'; [done|by right]. Qed.

Lemma decode_header state :
  fits 32 (st_format_version state) && fits 64 (st_last_epoch state) && fits 64 (st_last_sequence state) = true ->
  forallb (fits 64) (state_watermarks state) = true ->
  yields (decode_record limits STATE_HEADER (write_state_header state) (false, default_CoordinatorState))
    (Ok (true, state <| st_workers := [] |> <| st_experiments := [] |>)).
Proof.
  intros Hf Hw. cbn [forallb state_watermarks] in Hw. split_fits.
  assert (Hr : reads capped limits (read_state_header default_CoordinatorState) (write_state_header state)
                 (state <| st_workers := [] |> <| st_experiments := [] |>)).
  { unfold read_state_header, write_state_header. cbn [flat_map state_watermarks]. rewrite !app_assoc.
    rewrite app_nil_r, <- !app_assoc. read_record state. }
  unfold decode_record, STATE_HEADER. cbn [Z.eqb Pos.eqb]. specialize (Hr []). rewrite app_nil_r in Hr.
  destruct Hr as [->|[Hc [s ->]]]; [by left|by apply yields_refused].
Qed.

Lemma decode_worker state incarnation :
  fits_worker_incarnation incarnation = true ->
  (capped = true -> size_of (st_workers state) < max_registered_workers limits) ->
  yields (decode_record limits WORKER (write_worker_incarnation incarnation) (true, state))
    (Ok (true, state <| st_workers ::= fun l => l ++ [clip_worker_incarnation incarnation] |>)).
Proof.
  intros Hf Hn. pose proof (reads_worker_incarnation capped limits incarnation wide Hf []) as Hr. rewrite app_nil_r in Hr.
  unfold decode_record, STATE_HEADER, WORKER. cbn [Z.eqb Pos.eqb].
  destruct Hr as [->|[Hc [s ->]]]; [|by apply yields_refused].
  destruct (Z.leb_spec (max_registered_workers limits) (size_of (st_workers state))); [|by left].
  destruct capped eqn:Hc; [specialize (Hn eq_refl); lia|]. right. split; [done|by eexists].
Qed.

Lemma decode_experiment state past id record :
  st_experiments state = past -> fits 64 id = true -> implb capped (id_valid id) = true ->
  record_keyed record -> fits_record capped record = true ->
  Forall (fun entry => key_ltb entry.1 id = true) past ->
  (capped = true -> size_of past < max_experiments limits) ->
  yields (decode_record limits EXPERIMENT (write_keyed_record (id, record)) (true, state))
    (Ok (true, state <| st_experiments := past ++ [(id, clip_record record)] |>)).
Proof.
  intros Hx Hid Hv Hk Hf Hlt Hn. unfold decode_record, STATE_HEADER, WORKER, EXPERIMENT, write_keyed_record.
  cbn [Z.eqb Pos.eqb fst snd]. destruct (reads_id capped limits id Hid (write_experiment_record record)) as [Hr|[Hc [s Hr]]];
    unfold read_id in Hr; rewrite Hr; [|by apply yields_refused].
  destruct (id_valid id) eqn:Hvalid; cbn [negb].
  2: { destruct capped eqn:Hc; [done|]. right. split; [done|by eexists]. }
  pose proof (reads_experiment_record capped limits record wide Hk Hf []) as Hr'. rewrite app_nil_r in Hr'.
  destruct Hr' as [->|[Hc [s ->]]]; [|by apply yields_refused]. rewrite Hx.
  destruct (Z.leb_spec (max_experiments limits) (size_of past)).
  { destruct capped eqn:Hc; [specialize (Hn eq_refl); lia|]. right. split; [done|by eexists]. }
  destruct (om_set_snoc id (clip_record record) past Hlt) as [Hs Hnone]. unfold om_mem. rewrite Hnone.
  left. cbn. unfold upd, field_update. cbn. by rewrite Hx, Hs.
Qed.

(** One step of the loop on a record that decodes. *)
Lemma decode_step fuel count acc acc' type payload rest :
  STATE_HEADER <= type <= EXPERIMENT -> size_of payload < u32_modulus ->
  (capped = true -> count < max_persisted_records limits) ->
  yields (decode_record limits type payload acc) (Ok acc') ->
  yields (decode_records (S fuel) limits count acc (encode_record (type, payload) ++ rest))
    (decode_records fuel limits (count + 1) acc' rest).
Proof.
  intros Ht Hp Hn Hd. rewrite decode_records_cons by done.
  destruct (Z.ltb_spec (max_persisted_records limits) (count + 1)).
  { destruct capped eqn:Hc; [specialize (Hn eq_refl); lia|]. right. split; [done|by eexists]. }
  destruct Hd as [->|[Hc [s ->]]]; [by left|by apply yields_refused].
Qed.

Lemma workers_appended (state : CoordinatorState) w ws :
  (state <| st_workers ::= fun l => l ++ [w] |>) <| st_workers := st_workers (state <| st_workers ::= fun l => l ++ [w] |>) ++ ws |>
  = state <| st_workers := st_workers state ++ w :: ws |>.
Proof. destruct state. unfold upd, field_update. simpl. by rewrite <- app_assoc. Qed.

Lemma workers_unchanged (state : CoordinatorState) : state <| st_workers := st_workers state ++ [] |> = state.
Proof. destruct state. unfold upd, field_update. simpl. by rewrite app_nil_r. Qed.

Lemma experiments_unchanged (state : CoordinatorState) experiments :
  st_experiments state = experiments -> state <| st_experiments := experiments |> = state.
Proof. intros <-. by destruct state. Qed.

Lemma forallb_Forall {A} (f : A -> bool) l : forallb f l = true <-> Forall (fun x => f x = true) l.
Proof. rewrite forallb_forall, Forall_forall. by setoid_rewrite list_elem_of_In. Qed.

Definition short_record (record : Z * list Z) : Prop := (size_of (snd record) <? u32_modulus) = true.

Lemma decode_workers workers fuel count state rest :
  Forall (fun w => fits_worker_incarnation w = true) workers -> Forall short_record (worker_records workers) ->
  (capped = true -> count + size_of workers <= max_persisted_records limits) ->
  (capped = true -> size_of (st_workers state) + size_of workers <= max_registered_workers limits) ->
  yields
    (decode_records (length workers + fuel) limits count (true, state) (flat_map encode_record (worker_records workers) ++ rest))
    (decode_records fuel limits (count + size_of workers)
       (true, state <| st_workers := st_workers state ++ map clip_worker_incarnation workers |>) rest).
Proof.
  revert count state. induction workers as [|w workers IH]; intros count state Hf Hp Hn Hw.
  { left. cbn [length Nat.add worker_records map flat_map app]. rewrite workers_unchanged.
    change (size_of (@nil WorkerIncarnation)) with 0. by rewrite Z.add_0_r. }
  apply Forall_cons_iff in Hf as [Hfw Hf]. apply Forall_cons_iff in Hp as [Hpw Hp]. apply Z.ltb_lt in Hpw.
  assert (Hs : size_of (w :: workers) = 1 + size_of workers) by (unfold size_of; cbn [length]; lia).
  pose proof (size_of_nonneg workers) as Hnn.
  eapply yields_trans.
  { cbn [worker_records map flat_map length Nat.add]. rewrite <- app_assoc. eapply decode_step; [done|exact Hpw| |].
    - intros Hc. specialize (Hn Hc). lia.
    - apply decode_worker; [done|]. intros Hc. specialize (Hw Hc). lia. }
  eapply yields_trans; [apply (IH (count + 1)); [done|done|intros Hc; specialize (Hn Hc); lia|]|].
  { intros Hc. specialize (Hw Hc).
    change (st_workers (state <| st_workers ::= fun l => l ++ [clip_worker_incarnation w] |>))
      with (st_workers state ++ [clip_worker_incarnation w]). rewrite size_of_snoc. lia. }
  left. by rewrite Hs, workers_appended, Z.add_assoc.
Qed.

Lemma decode_experiments experiments past fuel count state rest :
  st_experiments state = om_map clip_record past -> om_sorted (past ++ experiments) ->
  Forall (fun entry => record_keyed (snd entry)) experiments ->
  Forall (fun entry => fits 64 (fst entry) && implb capped (id_valid (fst entry))
                       && fits_record capped (snd entry) = true) experiments ->
  Forall short_record (experiment_records experiments) ->
  (capped = true -> count + size_of experiments <= max_persisted_records limits) ->
  (capped = true -> size_of past + size_of experiments <= max_experiments limits) ->
  yields
    (decode_records (length experiments + fuel) limits count (true, state)
       (flat_map encode_record (experiment_records experiments) ++ rest))
    (decode_records fuel limits (count + size_of experiments)
       (true, state <| st_experiments := om_map clip_record (past ++ experiments) |>) rest).
Proof.
  revert past count state. induction experiments as [|[id record] experiments IH]; intros past count state Hx Hs Hk Hf Hp Hn Hw.
  { left. cbn [length Nat.add experiment_records map flat_map app]. rewrite app_nil_r, experiments_unchanged by done.
    change (size_of (@nil (Z * ExperimentRecord))) with 0. by rewrite Z.add_0_r. }
  apply Forall_cons_iff in Hk as [Hk Hks]. apply Forall_cons_iff in Hf as [Hfr Hf].
  apply Forall_cons_iff in Hp as [Hpr Hp]. apply Z.ltb_lt in Hpr. cbn [fst snd] in Hfr, Hk. split_fits.
  assert (Hsz : size_of ((id, record) :: experiments) = 1 + size_of experiments) by (unfold size_of; cbn [length]; lia).
  pose proof (size_of_nonneg experiments) as Hnn.
  eapply yields_trans.
  { cbn [experiment_records map flat_map length Nat.add]. rewrite <- app_assoc.
    eapply decode_step; [done|exact Hpr|intros Hc; specialize (Hn Hc); lia|].
    apply (decode_experiment state (om_map clip_record past)); try done.
    - apply om_sorted_prefix in Hs. unfold om_map. by apply Forall_map.
    - intros Hc. specialize (Hw Hc). unfold size_of, om_map in *. rewrite length_map. lia. }
  eapply yields_trans; [apply (IH (past ++ [(id, record)]) (count + 1)); try done|].
  { by rewrite <- om_map_snoc. }
  { by rewrite <- app_assoc. }
  { intros Hc. specialize (Hn Hc). lia. }
  { intros Hc. specialize (Hw Hc). rewrite size_of_snoc. lia. }
  left. by rewrite Hsz, <- app_assoc, Z.add_assoc.
Qed.

(** The records of a state, decoded in order, make up its clipped state. *)
Lemma decode_image_records state fuel :
  state_keyed state -> fits_image capped state = true ->
  (capped = true -> size_of (image_records state) <= max_persisted_records limits
     /\ size_of (st_workers state) <= max_registered_workers limits
     /\ size_of (st_experiments state) <= max_experiments limits) ->
  (length (image_records state) <= fuel)%nat ->
  yields (decode_records fuel limits 0 (false, default_CoordinatorState) (serialize_body state)) (Ok (true, clip_state state)).
Proof.
  intros [Hs Hk] Hf Hn Hfuel. rewrite serialize_body_records. unfold fits_image in Hf.
  rewrite !andb_true_iff in Hf. destruct Hf as [[[[[Hh Hm] Hw] Hx] Hp] _].
  rewrite forallb_Forall in Hw. rewrite forallb_Forall in Hx. rewrite forallb_Forall in Hp. unfold image_records in *. apply Forall_cons_iff in Hp as [Hph Hp].
  apply Z.ltb_lt in Hph. cbn [snd] in Hph. apply Forall_app in Hp as [Hpw Hpx].
  set (workers := st_workers state) in *. set (experiments := st_experiments state) in *.
  assert (Hlen : length ((STATE_HEADER, write_state_header state) :: worker_records workers ++ experiment_records experiments)
    = S (length workers + length experiments)).
  { unfold worker_records, experiment_records. cbn [length]. by rewrite length_app, !length_map. }
  unfold size_of at 1 in Hn. rewrite Hlen in Hn, Hfuel. unfold size_of in Hn.
  remember (fuel - S (length workers + length experiments))%nat as spare.
  replace fuel with (S (length workers + (length experiments + spare)))%nat by lia.
  cbn [flat_map]. rewrite flat_map_app. rewrite <- (app_nil_r (flat_map encode_record (experiment_records _))).
  eapply yields_trans.
  { eapply decode_step; [done|exact Hph|intros Hc; destruct (Hn Hc); lia|].
    apply decode_header; [|done]. by rewrite !andb_true_iff. }
  eapply yields_trans; [apply decode_workers; try done|].
  1-2: intros Hc; destruct (Hn Hc) as (? & ? & ?); unfold size_of; cbn [length st_workers upd field_update]; lia.
  eapply yields_trans; [apply (decode_experiments experiments []); try done|].
  1-2: intros Hc; destruct (Hn Hc) as (? & ? & ?); unfold size_of; cbn [length]; lia.
  left. destruct spare; done.
Qed.
End Decode.

(** ** Images *)

Section Images.
Context (limits : Limits).

Lemma image_prefix_length version : length (image_prefix version) = 16%nat.
Proof. reflexivity. Qed.

(** The fixed part of an image passes the checks of the loader. *)
Lemma image_parts version body :
  0 <= version < u32_modulus -> size_of body < u64_modulus ->
  let image := image_prefix version ++ put_u64 (size_of body) ++ sha_digest_of body ++ body in
  size_of image = kHeaderBytes + size_of body /\ load_u32 image 0 = kMagic /\ load_u32 image 4 = version
  /\ load_u32 image 8 = 0 /\ load_u32 image 12 = crc32 (take 12 image) /\ load_u64 image 16 = size_of body
  /\ drop 56 image = body /\ take 32 (drop 24 image) = sha_digest_of body.
Proof.
  intros Hv Hb image. pose proof (size_of_nonneg body) as Hb0. pose proof (sha_digest_length body) as Hd.
  set (words := put_u32 kMagic ++ put_u32 version ++ put_u32 0).
  assert (Hw : image = words ++ put_u32 (crc32 words) ++ put_u64 (size_of body) ++ sha_digest_of body ++ body).
  { unfold image, image_prefix. by rewrite <- app_assoc. }
  assert (H24 : image = (image_prefix version ++ put_u64 (size_of body)) ++ sha_digest_of body ++ body)
    by (unfold image; by rewrite <- app_assoc).
  clearbody image. split_and!.
  - rewrite H24, !size_of_app. assert (Hd32 : size_of (sha_digest_of body) = 32) by (unfold size_of; by rewrite Hd).
    rewrite Hd32. unfold kHeaderBytes. change (size_of (image_prefix version)) with 16.
    rewrite size_of_put_u64. lia.
  - rewrite Hw. unfold words. rewrite <- !app_assoc. by apply (load_put_u32 []).
  - rewrite Hw. unfold words. rewrite <- !app_assoc. by apply (load_put_u32 (put_u32 kMagic)).
  - rewrite Hw. unfold words. rewrite <- !app_assoc, (app_assoc (put_u32 kMagic)).
    by apply (load_put_u32 (put_u32 kMagic ++ put_u32 version)).
  - rewrite Hw. change 12%nat with (length words). rewrite take_app_length.
    apply load_put_u32. pose proof (crc32_range words). unfold u32_modulus. lia.
  - rewrite Hw, (app_assoc words). change 16%nat with (length (words ++ put_u32 (crc32 words))).
    apply load_put_u64. lia.
  - rewrite H24, app_assoc. replace 56%nat with (length ((image_prefix version ++ put_u64 (size_of body)) ++ sha_digest_of body)).
    { by rewrite drop_app_length. } rewrite length_app, Hd. reflexivity.
  - rewrite H24. replace 32%nat with (length (sha_digest_of body)) by done. change 24%nat with (length (image_prefix version ++ put_u64 (size_of body))).
    rewrite drop_app_length. by rewrite take_app_length.
Qed.

Lemma records_le_bytes records : (length records <= length (flat_map encode_record records))%nat.
Proof.
  induction records as [|r records IH]; cbn [length flat_map]; [done|]. rewrite length_app.
  assert (Hr : (12 <= length (encode_record r))%nat).
  { unfold encode_record, put_u32. rewrite !length_app, !le_bytes_length. lia. }
  lia.
Qed.

(** Loading the image of a state gives its clipped state or, without [capped],
    nothing. *)
Lemma deserialize_yields capped save_limits state image :
  serialize_image state save_limits = Ok image -> wide_limits capped limits = true ->
  state_keyed state -> fits_image capped state = true -> image_within capped limits state = true ->
  yields capped (deserialize_image image limits) (Ok (clip_state state)).
Proof.
  unfold serialize_image. destruct (negb _) eqn:Hver; [done|]. destruct (_ <? _); [done|]. intros <-%Ok_inj.
  zprop. intros Hl Hk Hf Hin.
  assert (Hbody : size_of (serialize_body state) < u64_modulus).
  { unfold fits_image in Hf. apply andb_true_iff in Hf as [_ Hlast]. by apply Z.ltb_lt in Hlast. }
  pose proof (image_parts (st_format_version state) (serialize_body state)) as Hparts. rewrite Hver in *.
  specialize (Hparts ltac:(unfold kPersistenceFormatVersion, u32_modulus; lia) Hbody).
  set (image := image_prefix _ ++ _) in *. clearbody image.
  destruct Hparts as (Hsz & Hmagic & Hvr & Hflags & Hcrc & Hlen & Hdrop & Hdig).
  pose proof (size_of_nonneg (serialize_body state)) as H0. unfold deserialize_image.
  rewrite Hsz, Hmagic, Hvr, Hflags, <- Hcrc, Hlen, Hdrop, Hdig.
  replace (kHeaderBytes + size_of (serialize_body state) - kHeaderBytes) with (size_of (serialize_body state)) by lia.
  rewrite !Z.eqb_refl. cbn [negb]. destruct (Z.ltb_spec (kHeaderBytes + size_of (serialize_body state)) kHeaderBytes); [lia|].
  destruct (Z.ltb_spec (max_state_file_bytes limits) (kHeaderBytes + size_of (serialize_body state))).
  { unfold image_within in Hin. destruct capped; [zprop; lia|]. by apply yields_refused. }
  rewrite bool_decide_true by done. cbn [negb].
  assert (Hdec : yields capped (decode_records (length (serialize_body state)) limits 0 (false, default_CoordinatorState) (serialize_body state))
                   (Ok (true, clip_state state))).
  { apply decode_image_records; try done.
    - intros ->. unfold image_within in Hin. zprop. done.
    - rewrite serialize_body_records. apply records_le_bytes. }
  destruct Hdec as [->|[Hc [s ->]]]; [|by apply yields_refused]. cbn [negb].
  destruct (status_ok (validate_state (clip_state state) limits)) eqn:Hval; [by left|].
  unfold image_within in Hin. destruct capped; [|by apply yields_refused].
  apply andb_true_iff in Hin as [_ Hin]. by rewrite Hin in Hval.
Qed.

(** C10: the image of a state loads as that state with its texts clipped, when
    the state and the image are within the bounds of the loader and the
    clipped state passes the validator. *)
Theorem image_roundtrip save_limits state image :
  serialize_image state save_limits = Ok image -> wide_limits true limits = true ->
  state_keyed state -> fits_image true state = true -> image_within true limits state = true ->
  deserialize_image image limits = Ok (clip_state state).
Proof. intros Hs Hl Hk Hf Hin. by destruct (deserialize_yields true _ _ _ Hs Hl Hk Hf Hin) as [|[? _]]. Qed.

(** Whatever the bounds, the image of a state never loads as anything but
    that state with its texts clipped. *)
Lemma image_never_confused save_limits state image state' :
  serialize_image state save_limits = Ok image -> state_keyed state -> fits_image false state = true ->
  deserialize_image image limits = Ok state' -> state' = clip_state state.
Proof.
  intros Hs Hk Hf Hd. destruct (deserialize_yields false _ _ _ Hs eq_refl Hk Hf eq_refl) as [Hr|[_ [s Hr]]];
    rewrite Hr in Hd; [by injection Hd as <-|done].
Qed.

(** What a load accepts: an image of exactly the declared length whose body has
    the stored digest, and a state the validator accepts. *)
Lemma deserialize_image_accepts bytes state :
  deserialize_image bytes limits = Ok state ->
  load_u64 bytes 16 = size_of bytes - kHeaderBytes
  /\ sha_digest_of (drop 56 bytes) = take 32 (drop 24 bytes)
  /\ status_ok (validate_state state limits) = true.
Proof.
  unfold deserialize_image. repeat (case_match; [done|]). intros Hd. zprop.
  repeat case_match; simplify_eq. split_and!; [done|done|by apply negb_false_iff].
Qed.

(** The bytes of an image that loads, continued or not, declare its length. *)
Lemma declared_length bytes extra state :
  deserialize_image bytes limits = Ok state -> load_u64 (bytes ++ extra) 16 = size_of bytes - kHeaderBytes.
Proof.
  intros Hd. destruct (deserialize_image_accepts _ _ Hd) as (<- & _).
  assert (Hl : (24 <= length bytes)%nat).
  { unfold deserialize_image in Hd. destruct (Z.ltb_spec (size_of bytes) kHeaderBytes) as [|Hge]; [done|].
    unfold size_of, kHeaderBytes in Hge. lia. }
  unfold load_u64. rewrite drop_app_le by lia. rewrite take_app_le; [done|]. rewrite length_drop. lia.
Qed.

(** An image cut short or continued is refused: of two byte strings one of
    which properly extends the other, at most one loads. *)
Lemma image_length_checked bytes extra state state' :
  extra <> [] -> deserialize_image (bytes ++ extra) limits = Ok state -> deserialize_image bytes limits <> Ok state'.
Proof.
  intros Hne (Hlong & _)%deserialize_image_accepts Hd. rewrite (declared_length _ extra _ Hd), size_of_app in Hlong.
  destruct extra; [done|]. unfold size_of in Hlong. simpl in Hlong. lia.
Qed.

(** What is left of a serialized image after a cut loads only as the state. *)
Lemma cut_image_loads save_limits state image n state' :
  serialize_image state save_limits = Ok image -> state_keyed state -> fits_image false state = true ->
  deserialize_image (take n image) limits = Ok state' -> state' = clip_state state.
Proof.
  intros Hs Hk Hf Hd. destruct (decide (length image <= n)%nat) as [Hn|Hn].
  { rewrite take_ge in Hd by done.
    destruct (deserialize_yields false _ _ _ Hs eq_refl Hk Hf eq_refl) as [Hr|[_ [s Hr]]]; rewrite Hr in Hd; [by injection Hd as <-|done]. }
  exfalso. pose proof (declared_length _ (drop n image) _ Hd) as Hdl. rewrite take_drop in Hdl.
  unfold serialize_image in Hs. destruct (negb _) eqn:Hver; [done|]. destruct (_ <? _); [done|]. apply Ok_inj in Hs.
  assert (Hbody : size_of (serialize_body state) < u64_modulus).
  { unfold fits_image in Hf. apply andb_true_iff in Hf as [_ Hlast]. by apply Z.ltb_lt in Hlast. }
  apply negb_false_iff, Z.eqb_eq in Hver.
  pose proof (image_parts (st_format_version state) (serialize_body state)) as Hparts. rewrite Hver in Hparts, Hs.
  specialize (Hparts ltac:(unfold kPersistenceFormatVersion, u32_modulus; lia) Hbody). rewrite Hs in Hparts.
  destruct Hparts as (Hsz & _ & _ & _ & _ & Hlen & _). rewrite Hlen in Hdl. unfold size_of, kHeaderBytes in *.
  rewrite length_take in Hdl. lia.
Qed.
End Images.

(** The loop over the records of a body ends with the body: it takes at most
    as many turns as the body has bytes, so that any fuel from there on gives
    the same result, whatever the bytes are. *)
Theorem decode_records_terminates fuel limits count acc body :
  (length body <= fuel)%nat ->
  decode_records fuel limits count acc body = decode_records (length body) limits count acc body.
Proof.
  enough (Hall : forall n fuel count acc body, (length body <= n)%nat -> (length body <= fuel)%nat ->
    decode_records fuel limits count acc body = decode_records n limits count acc body) by (intros; by apply Hall).
  clear. induction n as [|n IH]; intros [|fuel] count acc [|b body] Hn Hf; try done; [simpl in Hn; lia|simpl in Hf; lia|].
  cbn [decode_records]. repeat (case_match; [done|]). case_match; [|done].
  apply IH; rewrite length_drop; simpl in *; lia.
Qed.

(** ** A small image *)

Definition sample_state : CoordinatorState :=
  default_CoordinatorState <| st_format_version := 1 |> <| st_last_epoch := 3 |> <| st_last_sequence := 9 |>.

Lemma decode_records_terminates_witness :
  decode_records 500 default_Limits 0 (false, default_CoordinatorState) (serialize_body sample_state)
  = decode_records 144 default_Limits 0 (false, default_CoordinatorState) (serialize_body sample_state).
Proof. apply (decode_records_terminates 500). apply Nat.leb_le. by_evaluation. Defined.

Lemma image_roundtrip_witness :
  exists image, serialize_image sample_state default_Limits = Ok image
    /\ deserialize_image image default_Limits = Ok sample_state.
Proof.
  exists (image_prefix 1 ++ put_u64 (size_of (serialize_body sample_state)) ++ sha_digest_of (serialize_body sample_state)
            ++ serialize_body sample_state). split; [reflexivity|].
  apply (image_roundtrip default_Limits default_Limits sample_state); [reflexivity|reflexivity| | |].
  - split; constructor.
  - by_evaluation.
  - by_evaluation.
Defined.
