(* ===== verification/Frames.v ===== *)
(** * Frames (protocol.hpp, protocol.cpp, Framing)

    The fixed 32-byte header around every payload: magic number, version,
    message type, correlation, length and checksum of the payload, checksum of
    the header itself, and a reserved word.  [encode_frame] and [decode_frame]
    follow the code check by check.  A buffer is accepted exactly when it
    starts with the encoding of the frame it is decoded to, and no frame with
    one byte changed is accepted. *)
From S2P Require Import Prelude Error Model Hash Wire.

Definition kFrameHeaderBytes : Z := 32.
Definition kFrameMagic : Z := 0x4D524645.
Definition kProtocolVersion : Z := 1.
Definition kMaxMessageType : Z := 25.

Module MessageType.
Inductive MessageType : Type :=
| INVALID | HELLO | HELLO_ACK | REGISTER_WORKER | REGISTER_ACK | CLAIM_TRIAL | CLAIM_RESULT
| PUBLISH_OBSERVATION | PUBLISH_ARTIFACT | COMMIT_TRIAL | FAIL_TRIAL | HEARTBEAT | ACK
| CREATE_EXPERIMENT | CREATE_TRIAL | CANCEL_TRIAL | CANCEL_EXPERIMENT | FINALIZE_EXPERIMENT
| ROLLBACK | QUERY | QUERY_RESULT | SHUTDOWN | ERROR_REPLY | FORK_BRANCH | CREATE_HYPOTHESIS
| REVISE_HYPOTHESIS.
End MessageType.
Abbreviation MessageType := MessageType.MessageType.

#[export] Instance MessageType_eq_dec : EqDecision MessageType.
Proof. solve_decision. Defined.

(** The enumerators in the order of their numbers, which run from 0 to 25. *)
Definition message_types : list MessageType :=
  [MessageType.INVALID; MessageType.HELLO; MessageType.HELLO_ACK; MessageType.REGISTER_WORKER;
   MessageType.REGISTER_ACK; MessageType.CLAIM_TRIAL; MessageType.CLAIM_RESULT;
   MessageType.PUBLISH_OBSERVATION; MessageType.PUBLISH_ARTIFACT; MessageType.COMMIT_TRIAL;
   MessageType.FAIL_TRIAL; MessageType.HEARTBEAT; MessageType.ACK; MessageType.CREATE_EXPERIMENT;
   MessageType.CREATE_TRIAL; MessageType.CANCEL_TRIAL; MessageType.CANCEL_EXPERIMENT;
   MessageType.FINALIZE_EXPERIMENT; MessageType.ROLLBACK; MessageType.QUERY;
   MessageType.QUERY_RESULT; MessageType.SHUTDOWN; MessageType.ERROR_REPLY;
   MessageType.FORK_BRANCH; MessageType.CREATE_HYPOTHESIS; MessageType.REVISE_HYPOTHESIS].

Definition message_type_to_string (type : MessageType) : string :=
  match type with
  | MessageType.INVALID => "INVALID"
  | MessageType.HELLO => "HELLO"
  | MessageType.HELLO_ACK => "HELLO_ACK"
  | MessageType.REGISTER_WORKER => "REGISTER_WORKER"
  | MessageType.REGISTER_ACK => "REGISTER_ACK"
  | MessageType.CLAIM_TRIAL => "CLAIM_TRIAL"
  | MessageType.CLAIM_RESULT => "CLAIM_RESULT"
  | MessageType.PUBLISH_OBSERVATION => "PUBLISH_OBSERVATION"
  | MessageType.PUBLISH_ARTIFACT => "PUBLISH_ARTIFACT"
  | MessageType.COMMIT_TRIAL => "COMMIT_TRIAL"
  | MessageType.FAIL_TRIAL => "FAIL_TRIAL"
  | MessageType.HEARTBEAT => "HEARTBEAT"
  | MessageType.ACK => "ACK"
  | MessageType.CREATE_EXPERIMENT => "CREATE_EXPERIMENT"
  | MessageType.CREATE_TRIAL => "CREATE_TRIAL"
  | MessageType.CANCEL_TRIAL => "CANCEL_TRIAL"
  | MessageType.CANCEL_EXPERIMENT => "CANCEL_EXPERIMENT"
  | MessageType.FINALIZE_EXPERIMENT => "FINALIZE_EXPERIMENT"
  | MessageType.ROLLBACK => "ROLLBACK"
  | MessageType.QUERY => "QUERY"
  | MessageType.QUERY_RESULT => "QUERY_RESULT"
  | MessageType.SHUTDOWN => "SHUTDOWN"
  | MessageType.ERROR_REPLY => "ERROR_REPLY"
  | MessageType.FORK_BRANCH => "FORK_BRANCH"
  | MessageType.CREATE_HYPOTHESIS => "CREATE_HYPOTHESIS"
  | MessageType.REVISE_HYPOTHESIS => "REVISE_HYPOTHESIS"
  end%string.

(** The first enumerator, by number, whose name is [name]. *)
Definition parse_message_type (name : string) : option MessageType :=
  find (fun type => String.eqb (message_type_to_string type) name) message_types.

(** [static_cast] to and from the underlying 16-bit number. *)
Fixpoint index_of (type : MessageType) (types : list MessageType) : Z :=
  match types with
  | [] => 0
  | t :: rest => if decide (t = type) then 0 else 1 + index_of type rest
  end.
Definition message_type_code (type : MessageType) : Z := index_of type message_types.
Definition message_type_of_code (code : Z) : option MessageType := nth_error message_types (Z.to_nat code).

Lemma message_type_code_spec type :
  0 <= message_type_code type <= kMaxMessageType /\ message_type_of_code (message_type_code type) = Some type
  /\ (message_type_code type = 0 -> type = MessageType.INVALID).
Proof. destruct type; vm_compute; (split; [split; discriminate|split; [reflexivity|done]]). Qed.

Lemma message_type_of_code_inv code type :
  0 <= code -> message_type_of_code code = Some type -> message_type_code type = code.
Proof.
  intros Hc Ht. unfold message_type_of_code in Ht.
  assert (Hb : (Z.to_nat code < 26)%nat).
  { change 26%nat with (length message_types). apply nth_error_Some. by rewrite Ht. }
  assert (Hin : In (Z.to_nat code) (seq 0 26)) by (apply in_seq; lia).
  rewrite <- (Z2Nat.id code) by done. clear Hc Hb.
  set (n := Z.to_nat code) in *. clearbody n. simpl in Hin.
  repeat (destruct Hin as [<-|Hin]; [injection Ht as <-; reflexivity|]). destruct Hin.
Qed.

(** Names parse back to the types they print. *)
Lemma parse_message_type_name type : parse_message_type (message_type_to_string type) = Some type.
Proof. by destruct type. Qed.

(** ** Encoding *)

Record Frame := mkFrame {
  frame_version : Z;
  frame_type : MessageType;
  frame_correlation : Z;
  frame_payload : list Z
}.
#[export] Instance etaFrame : Eta Frame := fun r =>
  mkFrame (frame_version r) (frame_type r) (frame_correlation r) (frame_payload r).
Definition default_Frame : Frame := mkFrame kProtocolVersion MessageType.INVALID 0 [].

Record FrameHeaderInfo := mkFrameHeaderInfo {
  info_version : Z;
  info_type : MessageType;
  info_correlation : Z;
  info_payload_length : Z;
  info_payload_crc : Z;
  info_header_crc : Z;
  info_reserved : Z
}.

(** The first 24 bytes, which the header checksum covers. *)
Definition header_words (frame : Frame) (payload : list Z) : list Z :=
  put_u32 kFrameMagic ++ put_u16 (frame_version frame) ++ put_u16 (message_type_code (frame_type frame))
  ++ put_u64 (frame_correlation frame) ++ put_u32 (u32 (size_of payload)) ++ put_u32 (crc32 payload).

Definition encode_frame_header (frame : Frame) (payload : list Z) : list Z :=
  header_words frame payload ++ put_u32 (crc32 (header_words frame payload)) ++ put_u32 0.

Definition encode_frame (frame : Frame) (limits : Limits) : Result (list Z) :=
  if negb (frame_version frame =? kProtocolVersion) then
    Err (protocol_error "refusing to encode unsupported protocol version")
  else if bool_decide (frame_type frame = MessageType.INVALID) then
    Err (protocol_error "refusing to encode INVALID message type")
  else if max_frame_payload_bytes limits <? size_of (frame_payload frame) then
    Err (make_error ErrorCode.RESOURCE_EXHAUSTED ErrorStage.LIMITS "frame payload exceeds bound")
  else Ok (encode_frame_header frame (frame_payload frame) ++ frame_payload frame).

(** ** Decoding *)

(** The little-endian word of [width] bytes at [offset]. *)
Definition field_at (width offset : nat) (bytes : list Z) : Z := le_value (take width (drop offset bytes)).

Definition parse_frame_header (header : list Z) (limits : Limits) : Result FrameHeaderInfo :=
  if negb (size_of header =? kFrameHeaderBytes) then Err (protocol_error "frame header size mismatch")
  else
    let stored_header_crc := crc32 (take 24 header) in
    if negb (stored_header_crc =? field_at 4 24 header) then Err (protocol_error "frame header checksum mismatch")
    else if negb (field_at 4 0 header =? kFrameMagic) then Err (protocol_error "frame magic mismatch")
    else if negb (field_at 2 4 header =? kProtocolVersion) then Err (protocol_error "unsupported protocol version")
    else
      let raw_type := field_at 2 6 header in
      if (raw_type =? 0) || (kMaxMessageType <? raw_type) then Err (protocol_error "unknown message type")
      else if negb (field_at 4 28 header =? 0) then Err (protocol_error "reserved header word must be zero")
      else if max_frame_payload_bytes limits <? field_at 4 16 header then
        Err (make_error ErrorCode.RESOURCE_EXHAUSTED ErrorStage.LIMITS "frame payload exceeds bound")
      else
        match message_type_of_code raw_type with
        | None => Err (protocol_error "unknown message type")
        | Some type =>
            Ok (mkFrameHeaderInfo (field_at 2 4 header) type (field_at 8 8 header) (field_at 4 16 header)
                  (field_at 4 20 header) stored_header_crc (field_at 4 28 header))
        end.

Record FrameDecodeOutcome := mkFrameDecodeOutcome {
  outcome_status : Status;
  outcome_consumed : Z;
  outcome_frame : Frame
}.
(** An outcome whose [status] alone has been set. *)
Definition refused (status : Status) : FrameDecodeOutcome := mkFrameDecodeOutcome status 0 default_Frame.

Definition decode_frame (bytes : list Z) (limits : Limits) : FrameDecodeOutcome :=
  if size_of bytes <? kFrameHeaderBytes then refused (protocol_error "short frame header")
  else
    match parse_frame_header (take 32 bytes) limits with
    | Err s => refused s
    | Ok info =>
        let total := kFrameHeaderBytes + info_payload_length info in
        if size_of bytes <? total then refused (protocol_error "short frame payload")
        else
          let payload := take (Z.to_nat (info_payload_length info)) (drop 32 bytes) in
          if negb (crc32 payload =? info_payload_crc info) then
            refused (protocol_error "frame payload checksum mismatch")
          else
            mkFrameDecodeOutcome success total
              (mkFrame (info_version info) (info_type info) (info_correlation info) payload)
    end.

(** ** Fields of a buffer *)

Lemma field_head n v rest : 0 <= v < 256 ^ Z.of_nat n -> field_at n 0 (le_bytes n v ++ rest) = v.
Proof.
  intros Hv. unfold field_at. rewrite drop_0, take_app_length' by (symmetry; apply le_bytes_length).
  rewrite le_value_le_bytes. by apply Z.mod_small.
Qed.

Lemma field_skip n o k v rest : (k <= o)%nat -> field_at n o (le_bytes k v ++ rest) = field_at n (o - k) rest.
Proof. intros Hk. unfold field_at. by rewrite drop_app_ge, le_bytes_length by (rewrite le_bytes_length; done). Qed.

(** A buffer is the encoding of its first field and what follows it. *)
Lemma field_split n o bytes :
  Forall is_byte bytes -> (n + o <= length bytes)%nat ->
  drop o bytes = le_bytes n (field_at n o bytes) ++ drop (n + o) bytes.
Proof.
  intros Hb Hl. unfold field_at. set (w := take n (drop o bytes)).
  assert (Hw : length w = n) by (unfold w; rewrite length_take, length_drop; lia).
  rewrite <- Hw at 1. rewrite le_bytes_le_value by (unfold w; by apply Forall_take, Forall_drop).
  unfold w. rewrite Nat.add_comm, <- drop_drop. by rewrite take_drop.
Qed.

Lemma field_range n o bytes :
  Forall is_byte bytes -> (n + o <= length bytes)%nat -> 0 <= field_at n o bytes < 256 ^ Z.of_nat n.
Proof.
  intros Hb Hl. unfold field_at.
  assert (Hw : length (take n (drop o bytes)) = n) by (rewrite length_take, length_drop; lia).
  rewrite <- Hw at 3. apply le_value_range. by apply Forall_take, Forall_drop.
Qed.

Lemma field_prefix n o k bytes : (n + o <= k)%nat -> field_at n o (take k bytes) = field_at n o bytes.
Proof. intros Hk. unfold field_at. rewrite skipn_firstn_comm, take_take. f_equal. f_equal. lia. Qed.

Lemma take_prefix k n (bytes : list Z) : (k <= n)%nat -> take k (take n bytes) = take k bytes.
Proof. intros Hk. rewrite take_take. f_equal. lia. Qed.

(** ** A frame decodes to itself *)

(** The members of the frame are in the range of their types. *)
Definition frame_in_range (frame : Frame) : Prop :=
  0 <= frame_correlation frame < u64_modulus /\ Forall is_byte (frame_payload frame).

Lemma header_words_length frame payload : length (header_words frame payload) = 24%nat.
Proof. reflexivity. Qed.

Lemma encode_frame_header_length frame payload : length (encode_frame_header frame payload) = 32%nat.
Proof. reflexivity. Qed.

(** The fields of an encoded header. *)
Lemma header_fields frame payload :
  frame_version frame = kProtocolVersion -> 0 <= frame_correlation frame < u64_modulus -> size_of payload < u32_modulus ->
  let header := encode_frame_header frame payload in
  take 24 header = header_words frame payload /\
  field_at 4 24 header = crc32 (header_words frame payload) /\ field_at 4 0 header = kFrameMagic /\
  field_at 2 4 header = kProtocolVersion /\ field_at 2 6 header = message_type_code (frame_type frame) /\
  field_at 8 8 header = frame_correlation frame /\ field_at 4 16 header = size_of payload /\
  field_at 4 20 header = crc32 payload /\ field_at 4 28 header = 0.
Proof.
  intros Hv Hc Hp header. pose proof (size_of_nonneg payload) as Hp0.
  pose proof (crc32_range payload) as Hcp. pose proof (crc32_range (header_words frame payload)) as Hch.
  pose proof (message_type_code_spec (frame_type frame)) as [Ht _].
  split; [unfold header, encode_frame_header; by rewrite take_app_length' by reflexivity|].
  unfold header, encode_frame_header. set (crc := crc32 (header_words frame payload)) in *. clearbody crc.
  unfold header_words. rewrite Hv, u32_small by lia. unfold put_u32, put_u16, put_u64. rewrite <- !app_assoc.
  unfold u64_modulus, u32_modulus, kMaxMessageType in *.
  repeat split;
    repeat (rewrite field_skip by lia; cbn [Nat.sub]);
    first [by rewrite field_head by (simpl; lia)|rewrite <- (app_nil_r (le_bytes 4 0)); by rewrite field_head by (simpl; lia)].
Qed.

Lemma decode_encode_frame frame limits encoded rest :
  max_frame_payload_bytes limits < u32_modulus -> frame_in_range frame ->
  encode_frame frame limits = Ok encoded ->
  decode_frame (encoded ++ rest) limits = mkFrameDecodeOutcome success (size_of encoded) frame.
Proof.
  intros Hl [Hc _] He. unfold encode_frame in He.
  destruct (Z.eqb_spec (frame_version frame) kProtocolVersion) as [Hv|]; [cbn [negb] in He|done].
  case_bool_decide as Ht; [done|].
  destruct (Z.ltb_spec (max_frame_payload_bytes limits) (size_of (frame_payload frame))) as [|Hp]; [done|].
  apply Ok_inj in He as <-.
  destruct (header_fields frame (frame_payload frame) Hv Hc ltac:(lia)) as (H24 & Hcrc & Hmagic & Hver & Htype & Hcorr & Hlen & Hpcrc & Hres).
  pose proof (message_type_code_spec (frame_type frame)) as (Htr & Htc & Ht0).
  set (header := encode_frame_header frame (frame_payload frame)) in *.
  assert (Hhl : length header = 32%nat) by apply encode_frame_header_length.
  assert (Hparse : parse_frame_header header limits = Ok (mkFrameHeaderInfo kProtocolVersion (frame_type frame)
    (frame_correlation frame) (size_of (frame_payload frame)) (crc32 (frame_payload frame))
    (crc32 (header_words frame (frame_payload frame))) 0)).
  { unfold parse_frame_header. unfold size_of at 1. rewrite Hhl. change (negb (Z.of_nat 32 =? kFrameHeaderBytes)) with false.
    rewrite H24, Hcrc, Z.eqb_refl, Hmagic, Hver, Htype, Hres, Hlen, Hcorr, Hpcrc.
    change (negb (kFrameMagic =? kFrameMagic)) with false. change (negb (kProtocolVersion =? kProtocolVersion)) with false.
    destruct (Z.eqb_spec (message_type_code (frame_type frame)) 0) as [H0|_]; [by apply Ht0 in H0|].
    destruct (Z.ltb_spec kMaxMessageType (message_type_code (frame_type frame))); [lia|].
    destruct (Z.ltb_spec (max_frame_payload_bytes limits) (size_of (frame_payload frame))); [lia|].
    cbn [negb orb Z.eqb]. by rewrite Htc. }
  unfold decode_frame. rewrite <- app_assoc.
  pose proof (size_of_nonneg (frame_payload frame)) as Hp0. pose proof (size_of_nonneg rest) as Hr0.
  assert (Hh32 : size_of header = 32) by (unfold size_of; by rewrite Hhl).
  rewrite !size_of_app, Hh32. unfold kFrameHeaderBytes.
  destruct (Z.ltb_spec (32 + (size_of (frame_payload frame) + size_of rest)) 32); [lia|].
  rewrite take_app_length', drop_app_length' by done. rewrite Hparse. cbn [info_payload_length info_payload_crc].
  destruct (Z.ltb_spec (32 + (size_of (frame_payload frame) + size_of rest)) (32 + size_of (frame_payload frame))); [lia|].
  assert (Htk : take (Z.to_nat (size_of (frame_payload frame))) (frame_payload frame ++ rest) = frame_payload frame).
  { unfold size_of. by rewrite Nat2Z.id, take_app_length. }
  rewrite Htk, Z.eqb_refl. cbn [negb info_version info_type info_correlation]. f_equal.
  destruct frame as [v t c p]. simpl in Hv |- *. by rewrite Hv.
Qed.

(** ** Only encoded frames are accepted *)

(** An outcome that only carries a failure is not an accepted one. *)
Ltac not_accepted :=
  let H := fresh in
  intros H; apply (f_equal (fun o => status_ok (outcome_status o))) in H; discriminate H.

(** What has been checked of an accepted buffer. *)
Lemma decode_frame_inv bytes limits consumed frame :
  0 <= max_frame_payload_bytes limits -> Forall is_byte bytes ->
  decode_frame bytes limits = mkFrameDecodeOutcome success consumed frame ->
  let n := size_of (frame_payload frame) in
  consumed = 32 + n /\ consumed <= size_of bytes /\ n <= max_frame_payload_bytes limits
  /\ field_at 4 24 bytes = crc32 (take 24 bytes) /\ field_at 4 0 bytes = kFrameMagic
  /\ field_at 2 4 bytes = kProtocolVersion /\ frame_version frame = kProtocolVersion
  /\ field_at 2 6 bytes = message_type_code (frame_type frame) /\ frame_type frame <> MessageType.INVALID
  /\ field_at 8 8 bytes = frame_correlation frame /\ field_at 4 16 bytes = n
  /\ field_at 4 20 bytes = crc32 (frame_payload frame) /\ field_at 4 28 bytes = 0
  /\ frame_payload frame = take (Z.to_nat n) (drop 32 bytes).
Proof.
  intros Hl Hb. unfold decode_frame. destruct (Z.ltb_spec (size_of bytes) kFrameHeaderBytes) as [|H32]; [not_accepted|].
  unfold kFrameHeaderBytes, size_of in H32.
  unfold parse_frame_header. destruct (negb (size_of (take 32 bytes) =? _)); [not_accepted|].
  rewrite !field_prefix, take_prefix by lia.
  destruct (Z.eqb_spec (crc32 (take 24 bytes)) (field_at 4 24 bytes)) as [Hcrc|]; [|not_accepted].
  destruct (Z.eqb_spec (field_at 4 0 bytes) kFrameMagic) as [Hmagic|]; [|not_accepted].
  destruct (Z.eqb_spec (field_at 2 4 bytes) kProtocolVersion) as [Hver|]; [|not_accepted]. cbn [negb].
  destruct (Z.eqb_spec (field_at 2 6 bytes) 0) as [|Ht0]; [not_accepted|].
  destruct (Z.ltb_spec kMaxMessageType (field_at 2 6 bytes)); [not_accepted|]. cbn [orb].
  destruct (Z.eqb_spec (field_at 4 28 bytes) 0) as [Hres|]; [|not_accepted]. cbn [negb].
  destruct (Z.ltb_spec (max_frame_payload_bytes limits) (field_at 4 16 bytes)) as [|Hmax]; [not_accepted|].
  destruct (message_type_of_code _) as [type|] eqn:Htype; [|not_accepted]. cbn [info_payload_length info_payload_crc].
  pose proof (field_range 2 6 bytes Hb ltac:(lia)) as H6. pose proof (field_range 4 16 bytes Hb ltac:(lia)) as H16.
  apply message_type_of_code_inv in Htype; [|lia].
  destruct (Z.ltb_spec (size_of bytes) (kFrameHeaderBytes + field_at 4 16 bytes)) as [|Hsize]; [not_accepted|].
  destruct (Z.eqb_spec (crc32 (take (Z.to_nat (field_at 4 16 bytes)) (drop 32 bytes))) (field_at 4 20 bytes)) as [Hpcrc|];
    [|not_accepted]. cbn [negb info_version info_type info_correlation].
  intros [= <- <-]. cbn [frame_payload frame_version frame_type frame_correlation].
  assert (Hn : size_of (take (Z.to_nat (field_at 4 16 bytes)) (drop 32 bytes)) = field_at 4 16 bytes).
  { unfold size_of in *. rewrite length_take, length_drop. unfold kFrameHeaderBytes in Hsize. lia. }
  rewrite Hn. unfold kFrameHeaderBytes in *.
  repeat split; try done; try lia. intros ->. rewrite <- Htype in Ht0. by apply Ht0.
Qed.

(** An accepted buffer starts with the encoding of its frame. *)
Lemma decode_frame_canonical bytes limits consumed frame :
  0 <= max_frame_payload_bytes limits < u32_modulus -> Forall is_byte bytes ->
  decode_frame bytes limits = mkFrameDecodeOutcome success consumed frame ->
  frame_in_range frame /\ exists encoded rest,
    bytes = encoded ++ rest /\ consumed = size_of encoded /\ encode_frame frame limits = Ok encoded.
Proof.
  intros Hl Hb Hd.
  apply decode_frame_inv in Hd as (Hcons & Hsize & Hmax & Hcrc & Hmagic & Hver & Hfver & Htype & Hinv & Hcorr & Hlen & Hpcrc & Hres & Hp); [|lia|done].
  pose proof (size_of_nonneg (frame_payload frame)) as Hp0.
  assert (H32 : (32 <= length bytes)%nat) by (unfold size_of in *; lia).
  split.
  { split; [rewrite <- Hcorr; by apply (field_range 8 8); [done|lia]|]. rewrite Hp. by apply Forall_take, Forall_drop. }
  set (rest := drop (Z.to_nat (size_of (frame_payload frame))) (drop 32 bytes)).
  assert (H24 : drop 0 bytes = header_words frame (frame_payload frame) ++ drop 24 bytes).
  { unfold header_words, put_u32, put_u16, put_u64. rewrite u32_small by lia.
    rewrite <- Hmagic, Hfver, <- Hver, <- Htype, <- Hcorr, <- Hpcrc. rewrite <- Hlen. rewrite <- !app_assoc.
    rewrite (field_split 4 0 bytes) by (done || lia). f_equal. cbn [Nat.add].
    rewrite (field_split 2 4 bytes) by (done || lia). f_equal. cbn [Nat.add].
    rewrite (field_split 2 6 bytes) by (done || lia). f_equal. cbn [Nat.add].
    rewrite (field_split 8 8 bytes) by (done || lia). f_equal. cbn [Nat.add].
    rewrite (field_split 4 16 bytes) by (done || lia). f_equal. cbn [Nat.add].
    by rewrite (field_split 4 20 bytes) by (done || lia). }
  rewrite drop_0 in H24.
  assert (Hw : take 24 bytes = header_words frame (frame_payload frame)).
  { rewrite H24. by rewrite take_app_length' by reflexivity. }
  exists (encode_frame_header frame (frame_payload frame) ++ frame_payload frame), rest. split; [|split].
  - unfold encode_frame_header. rewrite <- !app_assoc. rewrite H24 at 1. f_equal.
    rewrite (field_split 4 24 bytes) by (done || lia). rewrite Hcrc, Hw. f_equal. cbn [Nat.add].
    rewrite (field_split 4 28 bytes) by (done || lia). rewrite Hres. f_equal. cbn [Nat.add].
    unfold rest. rewrite <- (take_drop (Z.to_nat (size_of (frame_payload frame))) (drop 32 bytes)) at 1. by rewrite <- Hp.
  - rewrite size_of_app. change (size_of (encode_frame_header frame (frame_payload frame))) with 32. lia.
  - unfold encode_frame. rewrite Hfver, Z.eqb_refl. cbn [negb]. rewrite bool_decide_eq_false_2 by done.
    destruct (Z.ltb_spec (max_frame_payload_bytes limits) (size_of (frame_payload frame))); [lia|done].
Qed.

(** C32: a buffer is accepted as a frame, with so many bytes consumed, exactly
    when it starts with that many bytes and they are the encoding of the frame:
    decoding inverts encoding, whatever follows the frame, and accepts nothing
    else. *)
Theorem decode_frame_spec bytes limits consumed frame :
  0 <= max_frame_payload_bytes limits < u32_modulus -> Forall is_byte bytes ->
  decode_frame bytes limits = mkFrameDecodeOutcome success consumed frame <->
  frame_in_range frame /\ exists encoded rest,
    bytes = encoded ++ rest /\ consumed = size_of encoded /\ encode_frame frame limits = Ok encoded.
Proof.
  intros Hl Hb. split; [by apply decode_frame_canonical|].
  intros (Hr & encoded & rest & -> & -> & He). by apply decode_encode_frame; [lia|..].
Qed.

(** ** One changed byte *)

Section OneByte.
Context (before after : list Z).
Notation "'changed' c" := (before ++ c :: after) (at level 9).

Lemma window_outside n o c c' :
  (length before < o \/ o + n <= length before)%nat -> take n (drop o (changed c)) = take n (drop o (changed c')).
Proof.
  intros [Ho|Ho].
  - rewrite !drop_app_ge by lia. by destruct (o - length before)%nat eqn:?; [lia|].
  - rewrite !drop_app_le by lia. rewrite !take_app_le; [done|rewrite length_drop; lia..].
Qed.

Lemma window_inside n o :
  (o <= length before < o + n)%nat -> exists p q, forall c, take n (drop o (changed c)) = p ++ c :: q.
Proof.
  intros Ho. exists (drop o before), (take (n - length (drop o before) - 1) after). intros c.
  rewrite drop_app_le by lia. rewrite take_app_ge by (rewrite length_drop; lia). f_equal.
  rewrite length_drop. destruct (n - (length before - o))%nat eqn:?; [lia|]. simpl. f_equal. f_equal. lia.
Qed.

Lemma field_outside n o c c' :
  (length before < o \/ o + n <= length before)%nat -> field_at n o (changed c) = field_at n o (changed c').
Proof. intros Ho. unfold field_at. by rewrite (window_outside n o c c'). Qed.

Lemma field_inside n o c c' :
  Forall is_byte (changed c) -> Forall is_byte (changed c') ->
  (o <= length before < o + n)%nat -> field_at n o (changed c) = field_at n o (changed c') -> c = c'.
Proof.
  intros Hb Hb' Ho Heq. destruct (window_inside n o Ho) as (p & q & Hw). unfold field_at in Heq.
  assert (Hc := f_equal (fun v => le_bytes (length (p ++ c :: q)) v) Heq). cbv beta in Hc.
  rewrite !Hw in Hc. rewrite le_bytes_le_value in Hc by (rewrite <- Hw; by apply Forall_take, Forall_drop).
  replace (length (p ++ c :: q)) with (length (p ++ c' :: q)) in Hc by (by rewrite !length_app).
  rewrite le_bytes_le_value in Hc by (rewrite <- Hw; by apply Forall_take, Forall_drop).
  by apply app_inv_head in Hc as [= ?].
Qed.

Lemma crc_inside n o c c' :
  is_byte c -> is_byte c' -> (o <= length before < o + n)%nat ->
  crc32 (take n (drop o (changed c))) = crc32 (take n (drop o (changed c'))) -> c = c'.
Proof.
  intros Hc Hc' Ho Heq. destruct (window_inside n o Ho) as (p & q & Hw). rewrite !Hw in Heq.
  by eapply crc32_one_byte.
Qed.
End OneByte.

(** Bytes that agree but for one place are not both accepted, when that place
    is within the frame. *)
Lemma accepted_one_byte limits before after c c' consumed frame consumed' frame' :
  0 <= max_frame_payload_bytes limits ->
  Forall is_byte (before ++ c :: after) -> Forall is_byte (before ++ c' :: after) ->
  (Z.of_nat (length before) < consumed) ->
  decode_frame (before ++ c :: after) limits = mkFrameDecodeOutcome success consumed frame ->
  decode_frame (before ++ c' :: after) limits = mkFrameDecodeOutcome success consumed' frame' ->
  c = c'.
Proof.
  intros Hl Hb Hb' Hin Hd Hd'.
  assert (Hc : is_byte c) by (apply Forall_app in Hb as [_ Hb]; by inversion Hb).
  assert (Hc' : is_byte c') by (apply Forall_app in Hb' as [_ Hb']; by inversion Hb').
  apply decode_frame_inv in Hd as (Hcons & _ & _ & Hcrc & _ & _ & _ & _ & _ & _ & Hlen & Hpcrc & Hres & Hp); [|done..].
  apply decode_frame_inv in Hd' as (_ & _ & _ & Hcrc' & _ & _ & _ & _ & _ & _ & Hlen' & Hpcrc' & Hres' & Hp'); [|done..].
  destruct (decide (length before < 24)%nat).
  { rewrite (field_outside before after 4 24 c c') in Hcrc by lia. rewrite Hcrc in Hcrc'.
    eapply (crc_inside before after 24 0); [done..|lia|exact Hcrc']. }
  destruct (decide (length before < 28)%nat).
  { assert (Ht : take 24 (before ++ c :: after) = take 24 (before ++ c' :: after)).
    { apply (window_outside before after 24 0 c c'). lia. }
    rewrite Ht, <- Hcrc' in Hcrc. eapply (field_inside before after 4 24); [done..|lia|exact Hcrc]. }
  destruct (decide (length before < 32)%nat).
  { eapply (field_inside before after 4 28); [done..|lia|]. by rewrite Hres, Hres'. }
  assert (Hn : size_of (frame_payload frame) = size_of (frame_payload frame')).
  { rewrite <- Hlen, <- Hlen'. apply field_outside. lia. }
  eapply (crc_inside before after (Z.to_nat (size_of (frame_payload frame))) 32); [done..|lia|].
  rewrite <- Hp, Hn, <- Hp', <- Hpcrc, <- Hpcrc'. apply field_outside. lia.
Qed.

(** C36: the encoding of a frame with any one byte replaced by another is
    refused, whatever follows it in the buffer. *)
Theorem changed_frame_refused frame limits before b b' after rest :
  0 <= max_frame_payload_bytes limits < u32_modulus -> frame_in_range frame ->
  encode_frame frame limits = Ok (before ++ b :: after) ->
  is_byte b' -> b' <> b -> Forall is_byte rest ->
  outcome_status (decode_frame ((before ++ b' :: after) ++ rest) limits) <> success.
Proof.
  intros Hl Hr He Hb' Hne Hrest Hs.
  assert (Hd := decode_encode_frame frame limits _ rest ltac:(lia) Hr He).
  assert (Hbytes : Forall is_byte (before ++ b :: after)).
  { unfold encode_frame in He. repeat (case_match; [done|]). apply Ok_inj in He as <-.
    unfold encode_frame_header, header_words, put_u32, put_u16, put_u64.
    repeat (apply Forall_app_2; [|first [apply le_bytes_bytes|apply Hr|idtac]]); try apply le_bytes_bytes. }
  destruct (decode_frame ((before ++ b' :: after) ++ rest) limits) as [status consumed' frame'] eqn:Hd'.
  simpl in Hs. subst status. rewrite <- !app_assoc in Hd, Hd'. cbn [app] in Hd, Hd'.
  apply Forall_app in Hbytes as [Hbefore Hafter]. apply Forall_cons_iff in Hafter as [Hb Hafter].
  apply Hne. symmetry.
  eapply (accepted_one_byte limits before (after ++ rest) b b'); [lia|..|exact Hd|exact Hd'].
  - apply Forall_app_2; [done|]. constructor; [done|]. by apply Forall_app_2.
  - apply Forall_app_2; [done|]. constructor; [done|]. by apply Forall_app_2.
  - unfold size_of. rewrite length_app. simpl. lia.
Qed.

(** ** On a small frame *)

Definition sample_frame : Frame := mkFrame kProtocolVersion MessageType.HEARTBEAT 7 [104; 105].
Definition sample_bytes : list Z := Eval vm_compute in encode_frame_header sample_frame [104; 105] ++ [104; 105].

Lemma forallb_bytes bytes : forallb (fun b => (0 <=? b) && (b <? 256)) bytes = true -> Forall is_byte bytes.
Proof.
  induction bytes as [|b bytes IH]; cbn [forallb]; [constructor|]. intros [Hb Hr]%andb_true_iff.
  constructor; [unfold is_byte; blia|by apply IH].
Qed.

Lemma sample_encoded : encode_frame sample_frame default_Limits = Ok sample_bytes.
Proof. by_evaluation. Qed.

Lemma sample_in_range : frame_in_range sample_frame.
Proof. split; [done|]. by apply forallb_bytes. Qed.

Lemma decode_frame_spec_witness :
  decode_frame (sample_bytes ++ [1; 2; 3]) default_Limits = mkFrameDecodeOutcome success 34 sample_frame
  /\ frame_in_range sample_frame.
Proof.
  assert (Hb : Forall is_byte (sample_bytes ++ [1; 2; 3])) by by apply forallb_bytes.
  assert (Hl : 0 <= max_frame_payload_bytes default_Limits < u32_modulus) by done.
  assert (Hd : decode_frame (sample_bytes ++ [1; 2; 3]) default_Limits = mkFrameDecodeOutcome success 34 sample_frame)
    by by_evaluation.
  exact (conj Hd (proj1 (proj1 (decode_frame_spec _ default_Limits 34 sample_frame Hl Hb) Hd))).
Defined.

Lemma changed_frame_refused_witness :
  outcome_status (decode_frame (([] ++ 70 :: tail sample_bytes) ++ []) default_Limits) <> success.
Proof.
  apply (changed_frame_refused sample_frame default_Limits [] 69 70 (tail sample_bytes) []);
    [done|exact sample_in_range|exact sample_encoded|done|done|constructor].
Defined.
