(* ===== verification/Messages.v ===== *)
(** * Requests, replies and specifications (coordinator.hpp, protocol.hpp)

    The declarative specifications a client submits, the messages a worker
    exchanges with the coordinator, and the live registration of a worker
    process ([LiveWorker] of coordinator_internal.hpp), which is never
    persisted. *)
From S2P Require Import Prelude OMap Error Domain Float64 Model.

(** ** Specifications *)

Record MetricSpec := mkMetricSpec {
  mspec_name : string;
  mspec_unit : string;
  mspec_kind : MetricKind;
  mspec_direction : MetricDirection;
  mspec_aggregation : AggregationRule;
  mspec_required : bool;
  mspec_accepts_non_finite : bool;
  mspec_lower_bound : option double;
  mspec_upper_bound : option double;
  mspec_target_low : option double;
  mspec_target_high : option double;
  mspec_weight : Z;
  mspec_priority : Z;
  mspec_categories : list string
}.
#[export] Instance etaMetricSpec : Eta MetricSpec := fun r =>
  mkMetricSpec (mspec_name r)
    (mspec_unit r) (mspec_kind r) (mspec_direction r) (mspec_aggregation r) (mspec_required r)
    (mspec_accepts_non_finite r) (mspec_lower_bound r) (mspec_upper_bound r) (mspec_target_low r)
    (mspec_target_high r) (mspec_weight r) (mspec_priority r) (mspec_categories r).
Definition default_MetricSpec : MetricSpec :=
  mkMetricSpec "" "" MetricKind.REAL
    MetricDirection.MINIMIZE AggregationRule.MEAN true false None None None None 1 0 [].

Record BranchSpec := mkBranchSpec {
  bspec_name : string;
  bspec_role : BranchRole;
  bspec_fork_from : option string;
  bspec_parameters : list ParameterAssignment;
  bspec_input_set : option string;
  bspec_environment : option string;
  bspec_environment_fingerprint : string;
  bspec_seed : option Z;
  bspec_planned_trials : Z
}.
#[export] Instance etaBranchSpec : Eta BranchSpec := fun r =>
  mkBranchSpec (bspec_name r)
    (bspec_role r) (bspec_fork_from r) (bspec_parameters r) (bspec_input_set r)
    (bspec_environment r) (bspec_environment_fingerprint r) (bspec_seed r)
    (bspec_planned_trials r).
Definition default_BranchSpec : BranchSpec :=
  mkBranchSpec "" BranchRole.CANDIDATE None [] None
    None "" None 1.

Record ComparisonRuleSpec := mkComparisonRuleSpec {
  rspec_metric : string;
  rspec_op : ComparisonOp;
  rspec_threshold : double;
  rspec_target_low : double;
  rspec_target_high : double;
  rspec_priority : Z
}.
#[export] Instance etaComparisonRuleSpec : Eta ComparisonRuleSpec := fun r =>
  mkComparisonRuleSpec
    (rspec_metric r) (rspec_op r) (rspec_threshold r) (rspec_target_low r) (rspec_target_high r)
    (rspec_priority r).
Definition default_ComparisonRuleSpec : ComparisonRuleSpec :=
  mkComparisonRuleSpec ""
    ComparisonOp.MIN_IMPROVEMENT double_zero double_zero double_zero 0.

Record ExperimentSpec := mkExperimentSpec {
  spec_name : string;
  spec_hypothesis_statement : string;
  spec_expected_direction : option MetricDirection;
  spec_expected_metric : option string;
  spec_provenance : string;
  spec_branches : list BranchSpec;
  spec_metrics : list MetricSpec;
  spec_require_baseline : bool;
  spec_min_completed_trials_per_branch : Z;
  spec_min_valid_observations_per_required_metric : Z;
  spec_reject_on_any_invalid_observation : bool;
  spec_require_environment_match : bool;
  spec_majority_wins_min_basis_points : Z;
  spec_use_weighted_score : bool;
  spec_accept_score_threshold : double;
  spec_rules : list ComparisonRuleSpec;
  spec_seed_policy : SeedPolicy;
  spec_experiment_seed : option Z;
  spec_retry_policy : RetryPolicy;
  spec_max_attempts_per_trial : Z;
  spec_partial_failure_policy : PartialFailurePolicy;
  spec_late_evidence_policy : LateEvidencePolicy;
  spec_parameters : list ParameterAssignment
}.
#[export] Instance etaExperimentSpec : Eta ExperimentSpec := fun r =>
  mkExperimentSpec
    (spec_name r) (spec_hypothesis_statement r) (spec_expected_direction r)
    (spec_expected_metric r) (spec_provenance r) (spec_branches r) (spec_metrics r)
    (spec_require_baseline r) (spec_min_completed_trials_per_branch r)
    (spec_min_valid_observations_per_required_metric r) (spec_reject_on_any_invalid_observation r)
    (spec_require_environment_match r) (spec_majority_wins_min_basis_points r)
    (spec_use_weighted_score r) (spec_accept_score_threshold r) (spec_rules r)
    (spec_seed_policy r) (spec_experiment_seed r) (spec_retry_policy r)
    (spec_max_attempts_per_trial r) (spec_partial_failure_policy r) (spec_late_evidence_policy r)
    (spec_parameters r).
Definition default_ExperimentSpec : ExperimentSpec :=
  mkExperimentSpec "" "" None None "" [] []
    true 1 1 false true 5000 false double_zero [] SeedPolicy.DERIVED_PER_TRIAL None
    RetryPolicy.FRESH_ATTEMPT_SAME_TRIAL 2 PartialFailurePolicy.TOLERATE_IF_EVIDENCE_SUFFICIENT
    LateEvidencePolicy.REJECT_AND_RECORD [].

Record HypothesisRevisionSpec := mkHypothesisRevisionSpec {
  hspec_statement : string;
  hspec_expected_direction : option MetricDirection;
  hspec_expected_metric : Z;
  hspec_provenance : string
}.
#[export] Instance etaHypothesisRevisionSpec : Eta HypothesisRevisionSpec := fun r =>
  mkHypothesisRevisionSpec
    (hspec_statement r) (hspec_expected_direction r) (hspec_expected_metric r)
    (hspec_provenance r).
Definition default_HypothesisRevisionSpec : HypothesisRevisionSpec :=
  mkHypothesisRevisionSpec
    "" None 0 "".

(** ** Messages *)

Record RegisterWorkerRequest := mkRegisterWorkerRequest {
  reg_claimed_epoch : Z;
  reg_worker : Z;
  reg_boot : Z;
  reg_producer : Z;
  reg_endpoint : string;
  reg_max_concurrent_assignments : Z;
  reg_fingerprint : string
}.
#[export] Instance etaRegisterWorkerRequest : Eta RegisterWorkerRequest := fun r =>
  mkRegisterWorkerRequest
    (reg_claimed_epoch r) (reg_worker r) (reg_boot r) (reg_producer r) (reg_endpoint r)
    (reg_max_concurrent_assignments r) (reg_fingerprint r).
Definition default_RegisterWorkerRequest : RegisterWorkerRequest :=
  mkRegisterWorkerRequest 0 0
    0 0 "" 1 "".

Record RegisterWorkerReply := mkRegisterWorkerReply {
  regr_epoch : Z;
  regr_boot : Z;
  regr_producer : Z;
  regr_accepted : bool;
  regr_status : Status
}.
#[export] Instance etaRegisterWorkerReply : Eta RegisterWorkerReply := fun r =>
  mkRegisterWorkerReply
    (regr_epoch r) (regr_boot r) (regr_producer r) (regr_accepted r) (regr_status r).
Definition default_RegisterWorkerReply : RegisterWorkerReply :=
  mkRegisterWorkerReply 0 0 0
    false success.

Record ClaimTrialRequest := mkClaimTrialRequest {
  claim_epoch : Z;
  claim_worker : Z;
  claim_boot : Z;
  claim_max_claims : Z
}.
#[export] Instance etaClaimTrialRequest : Eta ClaimTrialRequest := fun r =>
  mkClaimTrialRequest
    (claim_epoch r) (claim_worker r) (claim_boot r) (claim_max_claims r).
Definition default_ClaimTrialRequest : ClaimTrialRequest :=
  mkClaimTrialRequest 0 0 0 1.

Record AssignedMetric := mkAssignedMetric {
  am_metric : Z;
  am_observation_id : Z;
  am_name : string;
  am_kind : MetricKind;
  am_direction : MetricDirection;
  am_required : bool
}.
#[export] Instance etaAssignedMetric : Eta AssignedMetric := fun r =>
  mkAssignedMetric
    (am_metric r) (am_observation_id r) (am_name r) (am_kind r) (am_direction r) (am_required r).
Definition default_AssignedMetric : AssignedMetric :=
  mkAssignedMetric 0 0 "" MetricKind.REAL
    MetricDirection.MINIMIZE true.

Record TrialAssignment := mkTrialAssignment {
  asg_envelope : AuthorityEnvelope;
  asg_attempt_number : Z;
  asg_trial_payload : string;
  asg_parameters : list ParameterAssignment;
  asg_metrics : list AssignedMetric;
  asg_artifact_ids : list Z;
  asg_planned_observations : Z
}.
#[export] Instance etaTrialAssignment : Eta TrialAssignment := fun r =>
  mkTrialAssignment
    (asg_envelope r) (asg_attempt_number r) (asg_trial_payload r) (asg_parameters r)
    (asg_metrics r) (asg_artifact_ids r) (asg_planned_observations r).
Definition default_TrialAssignment : TrialAssignment :=
  mkTrialAssignment
    default_AuthorityEnvelope 0 "" [] [] [] 0.

Record ClaimTrialReply := mkClaimTrialReply {
  claimr_status : Status;
  claimr_assignments : list TrialAssignment
}.
#[export] Instance etaClaimTrialReply : Eta ClaimTrialReply := fun r =>
  mkClaimTrialReply
    (claimr_status r) (claimr_assignments r).
Definition default_ClaimTrialReply : ClaimTrialReply :=
  mkClaimTrialReply success [].

Record PublishObservationRequest := mkPublishObservationRequest {
  pubo_epoch : Z;
  pubo_worker : Z;
  pubo_boot : Z;
  pubo_observation : Observation
}.
#[export] Instance etaPublishObservationRequest : Eta PublishObservationRequest := fun r =>
  mkPublishObservationRequest
    (pubo_epoch r) (pubo_worker r) (pubo_boot r) (pubo_observation r).
Definition default_PublishObservationRequest : PublishObservationRequest :=
  mkPublishObservationRequest
    0 0 0 default_Observation.

Record PublishArtifactRequest := mkPublishArtifactRequest {
  puba_epoch : Z;
  puba_worker : Z;
  puba_boot : Z;
  puba_artifact : ArtifactRecord
}.
#[export] Instance etaPublishArtifactRequest : Eta PublishArtifactRequest := fun r =>
  mkPublishArtifactRequest
    (puba_epoch r) (puba_worker r) (puba_boot r) (puba_artifact r).
Definition default_PublishArtifactRequest : PublishArtifactRequest :=
  mkPublishArtifactRequest 0
    0 0 default_ArtifactRecord.

Record CommitTrialRequest := mkCommitTrialRequest {
  commit_epoch : Z;
  commit_worker : Z;
  commit_boot : Z;
  commit_envelope : AuthorityEnvelope;
  commit_artifacts : list ArtifactRecord;
  commit_result_payload : string
}.
#[export] Instance etaCommitTrialRequest : Eta CommitTrialRequest := fun r =>
  mkCommitTrialRequest
    (commit_epoch r) (commit_worker r) (commit_boot r) (commit_envelope r) (commit_artifacts r)
    (commit_result_payload r).
Definition default_CommitTrialRequest : CommitTrialRequest :=
  mkCommitTrialRequest 0 0 0
    default_AuthorityEnvelope [] "".

Record FailTrialRequest := mkFailTrialRequest {
  fail_epoch : Z;
  fail_worker : Z;
  fail_boot : Z;
  fail_envelope : AuthorityEnvelope;
  fail_kind : FailureKind;
  fail_detail : string;
  fail_retryable : bool
}.
#[export] Instance etaFailTrialRequest : Eta FailTrialRequest := fun r =>
  mkFailTrialRequest
    (fail_epoch r) (fail_worker r) (fail_boot r) (fail_envelope r) (fail_kind r) (fail_detail r)
    (fail_retryable r).
Definition default_FailTrialRequest : FailTrialRequest :=
  mkFailTrialRequest 0 0 0
    default_AuthorityEnvelope FailureKind.EXECUTION_FAILURE "" false.

Record HeartbeatRequest := mkHeartbeatRequest {
  beat_epoch : Z;
  beat_worker : Z;
  beat_boot : Z;
  beat_active_assignments : Z
}.
#[export] Instance etaHeartbeatRequest : Eta HeartbeatRequest := fun r =>
  mkHeartbeatRequest
    (beat_epoch r) (beat_worker r) (beat_boot r) (beat_active_assignments r).
Definition default_HeartbeatRequest : HeartbeatRequest :=
  mkHeartbeatRequest 0 0 0 0.

Record CancelTrialRequest := mkCancelTrialRequest {
  canr_trial : Z;
  canr_reason : string
}.
#[export] Instance etaCancelTrialRequest : Eta CancelTrialRequest := fun r =>
  mkCancelTrialRequest
    (canr_trial r) (canr_reason r).
Definition default_CancelTrialRequest : CancelTrialRequest :=
  mkCancelTrialRequest 0 "".

Record CancelExperimentRequest := mkCancelExperimentRequest {
  canx_experiment : Z;
  canx_reason : string
}.
#[export] Instance etaCancelExperimentRequest : Eta CancelExperimentRequest := fun r =>
  mkCancelExperimentRequest
    (canx_experiment r) (canx_reason r).
Definition default_CancelExperimentRequest : CancelExperimentRequest :=
  mkCancelExperimentRequest
    0 "".

Record FinalizeExperimentRequest := mkFinalizeExperimentRequest {
  finr_experiment : Z;
  finr_candidate : Z;
  finr_reason : string
}.
#[export] Instance etaFinalizeExperimentRequest : Eta FinalizeExperimentRequest := fun r =>
  mkFinalizeExperimentRequest
    (finr_experiment r) (finr_candidate r) (finr_reason r).
Definition default_FinalizeExperimentRequest : FinalizeExperimentRequest :=
  mkFinalizeExperimentRequest
    0 0 "".

Record RollbackRequest := mkRollbackRequest {
  rolr_experiment : Z;
  rolr_target_generation : Z;
  rolr_reason : string
}.
#[export] Instance etaRollbackRequest : Eta RollbackRequest := fun r =>
  mkRollbackRequest
    (rolr_experiment r) (rolr_target_generation r) (rolr_reason r).
Definition default_RollbackRequest : RollbackRequest :=
  mkRollbackRequest 0 0 "".

Record AckReply := mkAckReply {
  ackr_status : Status
}.
#[export] Instance etaAckReply : Eta AckReply := fun r =>
  mkAckReply (ackr_status r).
Definition default_AckReply : AckReply :=
  mkAckReply success.

Record ErrorReply := mkErrorReply {
  errr_status : Status;
  errr_detail : string
}.
#[export] Instance etaErrorReply : Eta ErrorReply := fun r =>
  mkErrorReply (errr_status r)
    (errr_detail r).
Definition default_ErrorReply : ErrorReply :=
  mkErrorReply success "".

Record QueryResult := mkQueryResult {
  qres_status : Status;
  qres_lines : list string
}.
#[export] Instance etaQueryResult : Eta QueryResult := fun r =>
  mkQueryResult (qres_status r)
    (qres_lines r).
Definition default_QueryResult : QueryResult :=
  mkQueryResult success [].

Record ValueReply := mkValueReply {
  valr_status : Status;
  valr_value : Z
}.
#[export] Instance etaValueReply : Eta ValueReply := fun r =>
  mkValueReply (valr_status r)
    (valr_value r).
Definition default_ValueReply : ValueReply :=
  mkValueReply success 0.

Record CreateTrialRequest := mkCreateTrialRequest {
  crtr_experiment : Z;
  crtr_branch : Z;
  crtr_payload : string
}.
#[export] Instance etaCreateTrialRequest : Eta CreateTrialRequest := fun r =>
  mkCreateTrialRequest
    (crtr_experiment r) (crtr_branch r) (crtr_payload r).
Definition default_CreateTrialRequest : CreateTrialRequest :=
  mkCreateTrialRequest 0 0 "".

Record ForkBranchRequest := mkForkBranchRequest {
  frkr_experiment : Z;
  frkr_parent : Z;
  frkr_name : string;
  frkr_role : BranchRole;
  frkr_parameters : list ParameterAssignment;
  frkr_seed : option Z;
  frkr_planned_trials : Z
}.
#[export] Instance etaForkBranchRequest : Eta ForkBranchRequest := fun r =>
  mkForkBranchRequest
    (frkr_experiment r) (frkr_parent r) (frkr_name r) (frkr_role r) (frkr_parameters r)
    (frkr_seed r) (frkr_planned_trials r).
Definition default_ForkBranchRequest : ForkBranchRequest :=
  mkForkBranchRequest 0 0 ""
    BranchRole.CANDIDATE [] None 1.

Record ReviseHypothesisRequest := mkReviseHypothesisRequest {
  revr_experiment : Z;
  revr_statement : string;
  revr_has_direction : bool;
  revr_direction : MetricDirection;
  revr_metric : Z;
  revr_provenance : string
}.
#[export] Instance etaReviseHypothesisRequest : Eta ReviseHypothesisRequest := fun r =>
  mkReviseHypothesisRequest
    (revr_experiment r) (revr_statement r) (revr_has_direction r) (revr_direction r)
    (revr_metric r) (revr_provenance r).
Definition default_ReviseHypothesisRequest : ReviseHypothesisRequest :=
  mkReviseHypothesisRequest
    0 "" false MetricDirection.MINIMIZE 0 "".

(** Kinds of queries; the numbers on the wire run from 0 to 13. *)
Module QueryKind.
Inductive QueryKind : Type :=
| INVALID | STATUS | LIST_EXPERIMENTS | EXPERIMENT_SNAPSHOT | BRANCH_LINEAGE | TRIALS | OBSERVATIONS
| REJECTED_EVIDENCE | ARTIFACTS | EXPLAIN_DECISION | REPRODUCIBILITY | VALIDATE_STATE | HYPOTHESIS
| WORKERS.
End QueryKind.
Abbreviation QueryKind := QueryKind.QueryKind.

(** ** Live workers *)

Record LiveWorker := mkLiveWorker {
  live_worker : Z;
  live_boot : Z;
  live_producer : Z;
  live_endpoint : string;
  live_fingerprint : string;
  live_active_assignments : Z;
  live_total_assignments : Z;
  live_max_concurrent_assignments : Z;
  live_revoked : bool;
  live_revocation_kind : FailureKind;
  live_registered_sequence : Z
}.
#[export] Instance etaLiveWorker : Eta LiveWorker := fun r =>
  mkLiveWorker (live_worker r)
    (live_boot r) (live_producer r) (live_endpoint r) (live_fingerprint r)
    (live_active_assignments r) (live_total_assignments r) (live_max_concurrent_assignments r)
    (live_revoked r) (live_revocation_kind r) (live_registered_sequence r).
Definition default_LiveWorker : LiveWorker :=
  mkLiveWorker 0 0 0 "" "" 0 0 1 false
    FailureKind.NONE 0.
