(* ===== verification/MessageCodec.v ===== *)
(** * Typed messages (protocol.cpp, Typed messages)

    How each request and each reply is laid out in the payload of a frame, and
    how the payload is parsed back: field by field, to the last byte.  A status
    is carried inside another message as a counted blob of its own. *)
From S2P Require Import Prelude OMap Error Domain Float64 Model Hash State Wire Codec Messages.

(** Every decoder ends with [expect_end]. *)
Definition decode_with {A} (read : Reader A) (payload : list Z) (limits : Limits) : Result A :=
  match read limits payload with
  | Err s => Err s
  | Ok (value, rest) => if status_ok (expect_end rest) then Ok value else Err (expect_end rest)
  end.

Lemma decode_with_reads capped limits {A} (r : Reader A) w v :
  reads capped limits r w v ->
  (decode_with r w limits = Ok v \/ capped = false /\ exists s, decode_with r w limits = Err s)
  /\ forall b extra, exists s, decode_with r (w ++ b :: extra) limits = Err s.
Proof.
  intros Hr. unfold decode_with. split.
  - specialize (Hr []). rewrite app_nil_r in Hr. destruct Hr as [->|[Hc [s ->]]]; [by left|right; by eauto].
  - intros b extra. destruct (Hr (b :: extra)) as [->|[_ [s ->]]]; by eexists.
Qed.

(** ** Statuses *)

Definition encode_status (value : Status) : list Z :=
  put_u8 (error_code_byte (status_code value)) ++ put_u8 (error_stage_byte (status_stage value))
  ++ put_text (status_reason value) 1024.

Definition read_status_fields : Reader (Z * Z * string) :=
  code ← get_u8; stage ← get_u8;
  if error_stage_byte ErrorStage.LIMITS <? stage then get_error (protocol_error "impossible error stage value")
  else reason ← get_text 1024; mret (code, stage, reason).

(** The code is looked at after the end of the payload. *)
Definition decode_status (payload : list Z) (limits : Limits) : Result Status :=
  match decode_with read_status_fields payload limits with
  | Err s => Err s
  | Ok (code, stage, reason) =>
      if error_code_byte ErrorCode.INTERNAL <? code then Err (protocol_error "impossible error code value")
      else Ok (make_error (error_code_of_byte code) (error_stage_of_byte stage) reason)
  end.

Definition clip_status (value : Status) : Status :=
  make_error (status_code value) (status_stage value) (clip 1024 (status_reason value)).

(** A status of the enumerations; without [capped] any pair of bytes. *)
Definition error_stage_named (stage : ErrorStage) : bool :=
  match stage with ErrorStage.UNLISTED _ => false | _ => true end.
Definition fits_status (capped : bool) (value : Status) : bool :=
  fits_error_code (status_code value) && fits_error_stage (status_stage value)
  && implb capped (error_code_named (status_code value) && error_stage_named (status_stage value)).

Lemma error_stage_byte_roundtrip stage :
  fits_error_stage stage = true ->
  fits 8 (error_stage_byte stage) = true /\ error_stage_of_byte (error_stage_byte stage) = stage.
Proof.
  destruct stage; try (intros _; split; vm_compute; reflexivity). unfold fits_error_stage. intros Hf. zprop.
  cbn [error_stage_byte]. split; [unfold fits; change (2 ^ 8) with 256; blia|].
  unfold error_stage_of_byte. destruct (nth_error error_stage_values (Z.to_nat byte)) eqn:Hn; [|done].
  assert (Hs : nth_error error_stage_values (Z.to_nat byte) <> None) by by rewrite Hn.
  apply nth_error_Some in Hs. change (length error_stage_values) with 14%nat in Hs. lia.
Qed.

Lemma decode_encode_status capped limits value :
  wide_limits capped limits = true -> fits_status capped value = true ->
  (decode_status (encode_status value) limits = Ok (clip_status value)
   \/ capped = false /\ exists s, decode_status (encode_status value) limits = Err s)
  /\ forall b extra, exists s, decode_status (encode_status value ++ b :: extra) limits = Err s.
Proof.
  intros Hl Hf. unfold fits_status in Hf. apply andb_true_iff in Hf as [[Hc Hs]%andb_true_iff Hn].
  apply error_code_byte_roundtrip in Hc as [Hc8 Hc]. apply error_stage_byte_roundtrip in Hs as [Hs8 Hs].
  assert (Hr : reads capped limits read_status_fields (encode_status value)
    (error_code_byte (status_code value), error_stage_byte (status_stage value), clip 1024 (status_reason value))).
  { unfold read_status_fields, encode_status. eapply reads_bind; [by apply reads_u8|].
    eapply reads_bind; [by apply reads_u8|]. destruct (Z.ltb_spec (error_stage_byte ErrorStage.LIMITS) (error_stage_byte (status_stage value))) as [Hlt|].
    - intros rest. right. destruct capped; [|split; [done|by eexists]]. cbn [implb] in Hn.
      apply andb_true_iff in Hn as [_ Hn]. clear -Hn Hlt. by destruct (status_stage value).
    - eapply reads_last; [read_field|done]. }
  apply decode_with_reads in Hr as [Hr Htrail]. unfold decode_status. split.
  - destruct Hr as [->|[-> [s ->]]]; [|right; by eauto].
    destruct (Z.ltb_spec (error_code_byte ErrorCode.INTERNAL) (error_code_byte (status_code value))) as [Hlt|].
    + right. destruct capped; [|split; [done|by eexists]]. cbn [implb] in Hn.
      apply andb_true_iff in Hn as [Hn _]. clear -Hn Hlt. by destruct (status_code value).
    + left. by rewrite Hc, Hs.
  - intros b extra. destruct (Htrail b extra) as [s ->]. by eexists.
Qed.

(** The limits hold 32-bit words. *)
Definition limits_in_range (limits : Limits) : bool :=
  fits 32 (max_frame_payload_bytes limits) && fits 32 (max_batch_items limits).

(** A status inside a message: its length and its bytes. *)
Definition write_wrapped_status (value : Status) : list Z :=
  put_u32 (u32 (size_of (encode_status value))) ++ put_raw (encode_status value).
Definition read_wrapped_status : Reader Status :=
  limits ← get_limits; length ← get_count (max_frame_payload_bytes limits); bytes ← get_raw length;
  match decode_status bytes limits with Err s => get_error s | Ok status => mret status end.
Definition fits_wrapped_status (capped : bool) (limits : Limits) (value : Status) : bool :=
  fits_status capped value && fits_count capped (max_frame_payload_bytes limits) (size_of (encode_status value)).

Lemma reads_wrapped_status capped limits value :
  wide_limits capped limits = true -> limits_in_range limits = true -> fits_wrapped_status capped limits value = true ->
  reads capped limits read_wrapped_status (write_wrapped_status value) (clip_status value).
Proof.
  intros Hl Hr Hf. unfold fits_wrapped_status in Hf. apply andb_true_iff in Hf as [Hf Hc].
  apply andb_true_iff in Hr as [Hr _]. unfold fits in Hr. change (2 ^ 32) with u32_modulus in Hr.
  unfold read_wrapped_status, write_wrapped_status. apply reads_limits. eapply reads_bind.
  { apply reads_count; [apply size_of_nonneg|done|blia]. }
  unfold put_raw. rewrite <- (app_nil_r (encode_status value)) at 2. eapply reads_bind; [by apply reads_raw|].
  destruct (decode_encode_status capped limits value Hl Hf) as [[->|[-> [s ->]]] _]; [apply reads_ret|].
  intros rest. right. split; [done|by eexists].
Qed.
#[export] Hint Resolve reads_wrapped_status : codec.

(** A batch is bounded by the configuration of the reader. *)
Definition read_batch {A} (read : Reader A) : Reader (list A) :=
  limits ← get_limits; read_vector (max_batch_items limits) read.

Lemma reads_batch capped limits {A} (r : Reader A) (w : A -> list Z) (c : A -> A) (ok : A -> bool) l :
  limits_in_range limits = true -> (forall x, ok x = true -> reads capped limits r (w x) (c x)) ->
  fits_vector capped (max_batch_items limits) ok l = true ->
  reads capped limits (read_batch r) (write_vector w l) (map c l).
Proof.
  intros Hr He Hl. unfold limits_in_range, fits in Hr. change (2 ^ 32) with u32_modulus in Hr.
  apply reads_limits. eapply reads_vector; [exact He|exact Hl|blia].
Qed.
#[export] Hint Resolve reads_batch : codec.

(** ** Requests *)

Definition encode_register_worker (value : RegisterWorkerRequest) : list Z :=
  write_id (reg_claimed_epoch value) ++ write_id (reg_worker value) ++ write_id (reg_boot value)
  ++ write_id (reg_producer value) ++ put_text (reg_endpoint value) 256
  ++ put_u32 (reg_max_concurrent_assignments value) ++ put_text (reg_fingerprint value) 512.

Definition read_register_worker : Reader RegisterWorkerRequest :=
  claimed_epoch ← read_id; worker ← read_id; boot ← read_id; producer ← read_id;
  endpoint ← get_text 256; max_concurrent_assignments ← get_u32; fingerprint ← get_text 512;
  mret (mkRegisterWorkerRequest claimed_epoch worker boot producer endpoint max_concurrent_assignments
    fingerprint).
Definition decode_register_worker : list Z -> Limits -> Result RegisterWorkerRequest := decode_with read_register_worker.

Definition fits_register_worker (value : RegisterWorkerRequest) : bool :=
  fits 64 (reg_claimed_epoch value) && fits 64 (reg_worker value) && fits 64 (reg_boot value)
  && fits 64 (reg_producer value) && fits 32 (reg_max_concurrent_assignments value).

Definition clip_register_worker (value : RegisterWorkerRequest) : RegisterWorkerRequest :=
  value <| reg_endpoint := clip 256 (reg_endpoint value) |>
    <| reg_fingerprint := clip 512 (reg_fingerprint value) |>.

Lemma reads_register_worker capped limits value :
  wide_limits capped limits = true -> fits_register_worker value = true ->
  reads capped limits read_register_worker (encode_register_worker value) (clip_register_worker value).
Proof.
  intros Hl Hf. unfold fits_register_worker in Hf. split_fits.
  unfold read_register_worker, encode_register_worker. read_record value.
Qed.
#[export] Hint Resolve reads_register_worker : codec.

Definition encode_claim_trial (value : ClaimTrialRequest) : list Z :=
  write_id (claim_epoch value) ++ write_id (claim_worker value) ++ write_id (claim_boot value)
  ++ put_u32 (claim_max_claims value).

Definition read_claim_trial : Reader ClaimTrialRequest :=
  epoch ← read_id; worker ← read_id; boot ← read_id; max_claims ← get_u32;
  mret (mkClaimTrialRequest epoch worker boot max_claims).
Definition decode_claim_trial : list Z -> Limits -> Result ClaimTrialRequest := decode_with read_claim_trial.

Definition fits_claim_trial (value : ClaimTrialRequest) : bool :=
  fits 64 (claim_epoch value) && fits 64 (claim_worker value) && fits 64 (claim_boot value)
  && fits 32 (claim_max_claims value).

Lemma reads_claim_trial capped limits value :
  fits_claim_trial value = true ->
  reads capped limits read_claim_trial (encode_claim_trial value) value.
Proof.
  intros Hf. unfold fits_claim_trial in Hf. split_fits.
  unfold read_claim_trial, encode_claim_trial. read_record value.
Qed.
#[export] Hint Resolve reads_claim_trial : codec.

Definition encode_publish_observation (value : PublishObservationRequest) : list Z :=
  write_id (pubo_epoch value) ++ write_id (pubo_worker value) ++ write_id (pubo_boot value)
  ++ write_observation (pubo_observation value).

Definition read_publish_observation : Reader PublishObservationRequest :=
  epoch ← read_id; worker ← read_id; boot ← read_id; observation ← read_observation;
  mret (mkPublishObservationRequest epoch worker boot observation).
Definition decode_publish_observation : list Z -> Limits -> Result PublishObservationRequest := decode_with read_publish_observation.

Definition fits_publish_observation (value : PublishObservationRequest) : bool :=
  fits 64 (pubo_epoch value) && fits 64 (pubo_worker value) && fits 64 (pubo_boot value)
  && fits_observation (pubo_observation value).

Definition clip_publish_observation (value : PublishObservationRequest) : PublishObservationRequest :=
  value <| pubo_observation := clip_observation (pubo_observation value) |>.

Lemma reads_publish_observation capped limits value :
  wide_limits capped limits = true -> fits_publish_observation value = true ->
  reads capped limits read_publish_observation (encode_publish_observation value) (clip_publish_observation value).
Proof.
  intros Hl Hf. unfold fits_publish_observation in Hf. split_fits.
  unfold read_publish_observation, encode_publish_observation. read_record value.
Qed.
#[export] Hint Resolve reads_publish_observation : codec.

Definition encode_publish_artifact (value : PublishArtifactRequest) : list Z :=
  write_id (puba_epoch value) ++ write_id (puba_worker value) ++ write_id (puba_boot value)
  ++ write_artifact (puba_artifact value).

Definition read_publish_artifact : Reader PublishArtifactRequest :=
  epoch ← read_id; worker ← read_id; boot ← read_id; artifact ← read_artifact;
  mret (mkPublishArtifactRequest epoch worker boot artifact).
Definition decode_publish_artifact : list Z -> Limits -> Result PublishArtifactRequest := decode_with read_publish_artifact.

Definition fits_publish_artifact (value : PublishArtifactRequest) : bool :=
  fits 64 (puba_epoch value) && fits 64 (puba_worker value) && fits 64 (puba_boot value)
  && fits_artifact (puba_artifact value).

Definition clip_publish_artifact (value : PublishArtifactRequest) : PublishArtifactRequest :=
  value <| puba_artifact := clip_artifact (puba_artifact value) |>.

Lemma reads_publish_artifact capped limits value :
  wide_limits capped limits = true -> fits_publish_artifact value = true ->
  reads capped limits read_publish_artifact (encode_publish_artifact value) (clip_publish_artifact value).
Proof.
  intros Hl Hf. unfold fits_publish_artifact in Hf. split_fits.
  unfold read_publish_artifact, encode_publish_artifact. read_record value.
Qed.
#[export] Hint Resolve reads_publish_artifact : codec.

Definition encode_commit_trial (value : CommitTrialRequest) : list Z :=
  write_id (commit_epoch value) ++ write_id (commit_worker value) ++ write_id (commit_boot value)
  ++ write_envelope (commit_envelope value) ++ write_vector write_artifact (commit_artifacts value)
  ++ put_text (commit_result_payload value) 4096.

Definition read_commit_trial : Reader CommitTrialRequest :=
  epoch ← read_id; worker ← read_id; boot ← read_id; envelope ← read_envelope;
  artifacts ← read_vector 256 read_artifact; result_payload ← get_text 4096;
  mret (mkCommitTrialRequest epoch worker boot envelope artifacts result_payload).
Definition decode_commit_trial : list Z -> Limits -> Result CommitTrialRequest := decode_with read_commit_trial.

Definition fits_commit_trial (capped : bool) (value : CommitTrialRequest) : bool :=
  fits 64 (commit_epoch value) && fits 64 (commit_worker value) && fits 64 (commit_boot value)
  && fits_envelope (commit_envelope value)
  && fits_vector capped 256 fits_artifact (commit_artifacts value).

Definition clip_commit_trial (value : CommitTrialRequest) : CommitTrialRequest :=
  value <| commit_artifacts := map clip_artifact (commit_artifacts value) |>
    <| commit_result_payload := clip 4096 (commit_result_payload value) |>.

Lemma reads_commit_trial capped limits value :
  wide_limits capped limits = true -> fits_commit_trial capped value = true ->
  reads capped limits read_commit_trial (encode_commit_trial value) (clip_commit_trial value).
Proof.
  intros Hl Hf. unfold fits_commit_trial in Hf. split_fits.
  unfold read_commit_trial, encode_commit_trial. read_record value.
Qed.
#[export] Hint Resolve reads_commit_trial : codec.

Definition encode_fail_trial (value : FailTrialRequest) : list Z :=
  write_id (fail_epoch value) ++ write_id (fail_worker value) ++ write_id (fail_boot value)
  ++ write_envelope (fail_envelope value) ++ write_enum (fail_kind value)
  ++ put_text (fail_detail value) 512 ++ put_boolean (fail_retryable value).

Definition read_fail_trial : Reader FailTrialRequest :=
  epoch ← read_id; worker ← read_id; boot ← read_id; envelope ← read_envelope;
  kind ← read_enum FailureKind "failure kind"; detail ← get_text 512; retryable ← get_boolean;
  mret (mkFailTrialRequest epoch worker boot envelope kind detail retryable).
Definition decode_fail_trial : list Z -> Limits -> Result FailTrialRequest := decode_with read_fail_trial.

Definition fits_fail_trial (value : FailTrialRequest) : bool :=
  fits 64 (fail_epoch value) && fits 64 (fail_worker value) && fits 64 (fail_boot value)
  && fits_envelope (fail_envelope value).

Definition clip_fail_trial (value : FailTrialRequest) : FailTrialRequest :=
  value <| fail_detail := clip 512 (fail_detail value) |>.

Lemma reads_fail_trial capped limits value :
  wide_limits capped limits = true -> fits_fail_trial value = true ->
  reads capped limits read_fail_trial (encode_fail_trial value) (clip_fail_trial value).
Proof.
  intros Hl Hf. unfold fits_fail_trial in Hf. split_fits.
  unfold read_fail_trial, encode_fail_trial. read_record value.
Qed.
#[export] Hint Resolve reads_fail_trial : codec.

Definition encode_heartbeat (value : HeartbeatRequest) : list Z :=
  write_id (beat_epoch value) ++ write_id (beat_worker value) ++ write_id (beat_boot value)
  ++ put_u32 (beat_active_assignments value).

Definition read_heartbeat : Reader HeartbeatRequest :=
  epoch ← read_id; worker ← read_id; boot ← read_id; active_assignments ← get_u32;
  mret (mkHeartbeatRequest epoch worker boot active_assignments).
Definition decode_heartbeat : list Z -> Limits -> Result HeartbeatRequest := decode_with read_heartbeat.

Definition fits_heartbeat (value : HeartbeatRequest) : bool :=
  fits 64 (beat_epoch value) && fits 64 (beat_worker value) && fits 64 (beat_boot value)
  && fits 32 (beat_active_assignments value).

Lemma reads_heartbeat capped limits value :
  fits_heartbeat value = true ->
  reads capped limits read_heartbeat (encode_heartbeat value) value.
Proof.
  intros Hf. unfold fits_heartbeat in Hf. split_fits.
  unfold read_heartbeat, encode_heartbeat. read_record value.
Qed.
#[export] Hint Resolve reads_heartbeat : codec.

Definition encode_cancel_trial (value : CancelTrialRequest) : list Z :=
  write_id (canr_trial value) ++ put_text (canr_reason value) 512.

Definition read_cancel_trial : Reader CancelTrialRequest :=
  trial ← read_id; reason ← get_text 512;
  mret (mkCancelTrialRequest trial reason).
Definition decode_cancel_trial : list Z -> Limits -> Result CancelTrialRequest := decode_with read_cancel_trial.

Definition fits_cancel_trial (value : CancelTrialRequest) : bool :=
  fits 64 (canr_trial value).

Definition clip_cancel_trial (value : CancelTrialRequest) : CancelTrialRequest :=
  value <| canr_reason := clip 512 (canr_reason value) |>.

Lemma reads_cancel_trial capped limits value :
  wide_limits capped limits = true -> fits_cancel_trial value = true ->
  reads capped limits read_cancel_trial (encode_cancel_trial value) (clip_cancel_trial value).
Proof.
  intros Hl Hf. unfold fits_cancel_trial in Hf. split_fits.
  unfold read_cancel_trial, encode_cancel_trial. read_record value.
Qed.
#[export] Hint Resolve reads_cancel_trial : codec.

Definition encode_cancel_experiment (value : CancelExperimentRequest) : list Z :=
  write_id (canx_experiment value) ++ put_text (canx_reason value) 512.

Definition read_cancel_experiment : Reader CancelExperimentRequest :=
  experiment ← read_id; reason ← get_text 512;
  mret (mkCancelExperimentRequest experiment reason).
Definition decode_cancel_experiment : list Z -> Limits -> Result CancelExperimentRequest := decode_with read_cancel_experiment.

Definition fits_cancel_experiment (value : CancelExperimentRequest) : bool :=
  fits 64 (canx_experiment value).

Definition clip_cancel_experiment (value : CancelExperimentRequest) : CancelExperimentRequest :=
  value <| canx_reason := clip 512 (canx_reason value) |>.

Lemma reads_cancel_experiment capped limits value :
  wide_limits capped limits = true -> fits_cancel_experiment value = true ->
  reads capped limits read_cancel_experiment (encode_cancel_experiment value) (clip_cancel_experiment value).
Proof.
  intros Hl Hf. unfold fits_cancel_experiment in Hf. split_fits.
  unfold read_cancel_experiment, encode_cancel_experiment. read_record value.
Qed.
#[export] Hint Resolve reads_cancel_experiment : codec.

Definition encode_finalize_experiment (value : FinalizeExperimentRequest) : list Z :=
  write_id (finr_experiment value) ++ write_id (finr_candidate value)
  ++ put_text (finr_reason value) 512.

Definition read_finalize_experiment : Reader FinalizeExperimentRequest :=
  experiment ← read_id; candidate ← read_id; reason ← get_text 512;
  mret (mkFinalizeExperimentRequest experiment candidate reason).
Definition decode_finalize_experiment : list Z -> Limits -> Result FinalizeExperimentRequest := decode_with read_finalize_experiment.

Definition fits_finalize_experiment (value : FinalizeExperimentRequest) : bool :=
  fits 64 (finr_experiment value) && fits 64 (finr_candidate value).

Definition clip_finalize_experiment (value : FinalizeExperimentRequest) : FinalizeExperimentRequest :=
  value <| finr_reason := clip 512 (finr_reason value) |>.

Lemma reads_finalize_experiment capped limits value :
  wide_limits capped limits = true -> fits_finalize_experiment value = true ->
  reads capped limits read_finalize_experiment (encode_finalize_experiment value) (clip_finalize_experiment value).
Proof.
  intros Hl Hf. unfold fits_finalize_experiment in Hf. split_fits.
  unfold read_finalize_experiment, encode_finalize_experiment. read_record value.
Qed.
#[export] Hint Resolve reads_finalize_experiment : codec.

Definition encode_rollback (value : RollbackRequest) : list Z :=
  write_id (rolr_experiment value) ++ write_id (rolr_target_generation value)
  ++ put_text (rolr_reason value) 512.

Definition read_rollback : Reader RollbackRequest :=
  experiment ← read_id; target_generation ← read_id; reason ← get_text 512;
  mret (mkRollbackRequest experiment target_generation reason).
Definition decode_rollback : list Z -> Limits -> Result RollbackRequest := decode_with read_rollback.

Definition fits_rollback (value : RollbackRequest) : bool :=
  fits 64 (rolr_experiment value) && fits 64 (rolr_target_generation value).

Definition clip_rollback (value : RollbackRequest) : RollbackRequest :=
  value <| rolr_reason := clip 512 (rolr_reason value) |>.

Lemma reads_rollback capped limits value :
  wide_limits capped limits = true -> fits_rollback value = true ->
  reads capped limits read_rollback (encode_rollback value) (clip_rollback value).
Proof.
  intros Hl Hf. unfold fits_rollback in Hf. split_fits.
  unfold read_rollback, encode_rollback. read_record value.
Qed.
#[export] Hint Resolve reads_rollback : codec.

Definition encode_create_trial (value : CreateTrialRequest) : list Z :=
  write_id (crtr_experiment value) ++ write_id (crtr_branch value) ++ put_text (crtr_payload value) 4096.

Definition read_create_trial : Reader CreateTrialRequest :=
  experiment ← read_id; branch ← read_id; payload ← get_text 4096;
  mret (mkCreateTrialRequest experiment branch payload).
Definition decode_create_trial : list Z -> Limits -> Result CreateTrialRequest := decode_with read_create_trial.

Definition fits_create_trial (value : CreateTrialRequest) : bool :=
  fits 64 (crtr_experiment value) && fits 64 (crtr_branch value).

Definition clip_create_trial (value : CreateTrialRequest) : CreateTrialRequest :=
  value <| crtr_payload := clip 4096 (crtr_payload value) |>.

Lemma reads_create_trial capped limits value :
  wide_limits capped limits = true -> fits_create_trial value = true ->
  reads capped limits read_create_trial (encode_create_trial value) (clip_create_trial value).
Proof.
  intros Hl Hf. unfold fits_create_trial in Hf. split_fits.
  unfold read_create_trial, encode_create_trial. read_record value.
Qed.
#[export] Hint Resolve reads_create_trial : codec.

Definition encode_fork_branch (value : ForkBranchRequest) : list Z :=
  write_id (frkr_experiment value) ++ write_id (frkr_parent value) ++ put_text (frkr_name value) 128
  ++ write_enum (frkr_role value) ++ write_parameters (frkr_parameters value)
  ++ write_optional_u64 (frkr_seed value) ++ put_u32 (frkr_planned_trials value).

Definition read_fork_branch : Reader ForkBranchRequest :=
  experiment ← read_id; parent ← read_id; name ← get_text 128;
  role ← read_enum BranchRole "branch role"; parameters ← read_parameters; seed ← read_optional_u64;
  planned_trials ← get_u32;
  mret (mkForkBranchRequest experiment parent name role parameters seed planned_trials).
Definition decode_fork_branch : list Z -> Limits -> Result ForkBranchRequest := decode_with read_fork_branch.

Definition fits_fork_branch (capped : bool) (value : ForkBranchRequest) : bool :=
  fits 64 (frkr_experiment value) && fits 64 (frkr_parent value)
  && fits_parameters capped (frkr_parameters value) && fits_option (fits 64) (frkr_seed value)
  && fits 32 (frkr_planned_trials value).

Definition clip_fork_branch (value : ForkBranchRequest) : ForkBranchRequest :=
  value <| frkr_name := clip 128 (frkr_name value) |>
    <| frkr_parameters := clip_parameters (frkr_parameters value) |>.

Lemma reads_fork_branch capped limits value :
  wide_limits capped limits = true -> fits_fork_branch capped value = true ->
  reads capped limits read_fork_branch (encode_fork_branch value) (clip_fork_branch value).
Proof.
  intros Hl Hf. unfold fits_fork_branch in Hf. split_fits.
  unfold read_fork_branch, encode_fork_branch. read_record value.
Qed.
#[export] Hint Resolve reads_fork_branch : codec.

Definition encode_revise_hypothesis (value : ReviseHypothesisRequest) : list Z :=
  write_id (revr_experiment value) ++ put_text (revr_statement value) 4096
  ++ put_boolean (revr_has_direction value) ++ write_enum (revr_direction value)
  ++ write_id (revr_metric value) ++ put_text (revr_provenance value) 1024.

Definition read_revise_hypothesis : Reader ReviseHypothesisRequest :=
  experiment ← read_id; statement ← get_text 4096; has_direction ← get_boolean;
  direction ← read_enum MetricDirection "metric direction"; metric ← read_id;
  provenance ← get_text 1024;
  mret (mkReviseHypothesisRequest experiment statement has_direction direction metric provenance).
Definition decode_revise_hypothesis : list Z -> Limits -> Result ReviseHypothesisRequest := decode_with read_revise_hypothesis.

Definition fits_revise_hypothesis (value : ReviseHypothesisRequest) : bool :=
  fits 64 (revr_experiment value) && fits 64 (revr_metric value).

Definition clip_revise_hypothesis (value : ReviseHypothesisRequest) : ReviseHypothesisRequest :=
  value <| revr_statement := clip 4096 (revr_statement value) |>
    <| revr_provenance := clip 1024 (revr_provenance value) |>.

Lemma reads_revise_hypothesis capped limits value :
  wide_limits capped limits = true -> fits_revise_hypothesis value = true ->
  reads capped limits read_revise_hypothesis (encode_revise_hypothesis value) (clip_revise_hypothesis value).
Proof.
  intros Hl Hf. unfold fits_revise_hypothesis in Hf. split_fits.
  unfold read_revise_hypothesis, encode_revise_hypothesis. read_record value.
Qed.
#[export] Hint Resolve reads_revise_hypothesis : codec.

(** The kinds of query, by number. *)
Definition query_kinds : list QueryKind :=
  [QueryKind.INVALID; QueryKind.STATUS; QueryKind.LIST_EXPERIMENTS; QueryKind.EXPERIMENT_SNAPSHOT;
   QueryKind.BRANCH_LINEAGE; QueryKind.TRIALS; QueryKind.OBSERVATIONS; QueryKind.REJECTED_EVIDENCE;
   QueryKind.ARTIFACTS; QueryKind.EXPLAIN_DECISION; QueryKind.REPRODUCIBILITY;
   QueryKind.VALIDATE_STATE; QueryKind.HYPOTHESIS; QueryKind.WORKERS].
#[export] Instance QueryKind_eq_dec : EqDecision QueryKind.
Proof. solve_decision. Defined.
Definition query_kind_code (kind : QueryKind) : Z :=
  match position_of kind query_kinds with Some n => Z.of_nat n | None => 0 end.

Definition encode_query_request (kind : QueryKind) (argument : string) : list Z :=
  put_u16 (query_kind_code kind) ++ put_text argument 128.
Definition read_query_request : Reader (QueryKind * string) :=
  kind ← get_u16;
  if (kind =? 0) || (query_kind_code QueryKind.WORKERS <? kind) then get_error (protocol_error "unknown query kind")
  else
    argument ← get_text 128;
    match nth_error query_kinds (Z.to_nat kind) with
    | Some kind => mret (kind, argument)
    | None => get_error (protocol_error "unknown query kind")
    end.
Definition decode_query_request : list Z -> Limits -> Result (QueryKind * string) := decode_with read_query_request.

Lemma reads_query_request capped limits kind argument :
  wide_limits capped limits = true -> kind <> QueryKind.INVALID ->
  reads capped limits read_query_request (encode_query_request kind argument) (kind, clip 128 argument).
Proof.
  intros Hl Hk. unfold read_query_request, encode_query_request.
  eapply reads_bind; [apply reads_u16; by destruct kind|].
  replace ((query_kind_code kind =? 0) || (query_kind_code QueryKind.WORKERS <? query_kind_code kind)) with false by by destruct kind.
  eapply reads_last; [read_field|]. by destruct kind.
Qed.

(** ** Replies *)

Definition encode_register_reply (value : RegisterWorkerReply) : list Z :=
  write_id (regr_epoch value) ++ write_id (regr_boot value) ++ write_id (regr_producer value)
  ++ put_boolean (regr_accepted value) ++ write_wrapped_status (regr_status value).

Definition read_register_reply : Reader RegisterWorkerReply :=
  epoch ← read_id; boot ← read_id; producer ← read_id; accepted ← get_boolean;
  status ← read_wrapped_status;
  mret (mkRegisterWorkerReply epoch boot producer accepted status).
Definition decode_register_reply : list Z -> Limits -> Result RegisterWorkerReply := decode_with read_register_reply.

Definition fits_register_reply (capped : bool) (limits : Limits) (value : RegisterWorkerReply) : bool :=
  fits 64 (regr_epoch value) && fits 64 (regr_boot value) && fits 64 (regr_producer value)
  && fits_wrapped_status capped limits (regr_status value).

Definition clip_register_reply (value : RegisterWorkerReply) : RegisterWorkerReply :=
  value <| regr_status := clip_status (regr_status value) |>.

Lemma reads_register_reply capped limits value :
  wide_limits capped limits = true -> limits_in_range limits = true -> fits_register_reply capped limits value = true ->
  reads capped limits read_register_reply (encode_register_reply value) (clip_register_reply value).
Proof.
  intros Hl Hr Hf. unfold fits_register_reply in Hf. split_fits.
  unfold read_register_reply, encode_register_reply. read_record value.
Qed.
#[export] Hint Resolve reads_register_reply : codec.

Definition write_assigned_metric (metric : AssignedMetric) : list Z :=
  write_id (am_metric metric) ++ write_id (am_observation_id metric) ++ put_text (am_name metric) 128
  ++ write_enum (am_kind metric) ++ write_enum (am_direction metric) ++ put_boolean (am_required metric).

Definition read_assigned_metric : Reader AssignedMetric :=
  metric ← read_id; observation_id ← read_id; name ← get_text 128;
  kind ← read_enum MetricKind "metric kind"; direction ← read_enum MetricDirection "metric direction";
  required ← get_boolean;
  mret (mkAssignedMetric metric observation_id name kind direction required).

Definition fits_assigned_metric (metric : AssignedMetric) : bool :=
  fits 64 (am_metric metric) && fits 64 (am_observation_id metric).

Definition clip_assigned_metric (metric : AssignedMetric) : AssignedMetric :=
  metric <| am_name := clip 128 (am_name metric) |>.

Lemma reads_assigned_metric capped limits metric :
  wide_limits capped limits = true -> fits_assigned_metric metric = true ->
  reads capped limits read_assigned_metric (write_assigned_metric metric) (clip_assigned_metric metric).
Proof.
  intros Hl Hf. unfold fits_assigned_metric in Hf. split_fits.
  unfold read_assigned_metric, write_assigned_metric. read_record metric.
Qed.
#[export] Hint Resolve reads_assigned_metric : codec.

Definition write_assignment (assignment : TrialAssignment) : list Z :=
  write_envelope (asg_envelope assignment) ++ put_text (asg_trial_payload assignment) 4096
  ++ write_parameters (asg_parameters assignment) ++ write_id (asg_attempt_number assignment)
  ++ write_vector write_assigned_metric (asg_metrics assignment)
  ++ write_vector write_id (asg_artifact_ids assignment)
  ++ put_u32 (asg_planned_observations assignment).

Definition read_assignment : Reader TrialAssignment :=
  envelope ← read_envelope; trial_payload ← get_text 4096; parameters ← read_parameters;
  attempt_number ← read_id; metrics ← read_vector 128 read_assigned_metric;
  artifact_ids ← read_vector 256 read_id; planned_observations ← get_u32;
  mret (mkTrialAssignment envelope attempt_number trial_payload parameters metrics artifact_ids
    planned_observations).

Definition fits_assignment (capped : bool) (assignment : TrialAssignment) : bool :=
  fits_envelope (asg_envelope assignment) && fits_parameters capped (asg_parameters assignment)
  && fits 64 (asg_attempt_number assignment)
  && fits_vector capped 128 fits_assigned_metric (asg_metrics assignment)
  && fits_vector capped 256 (fits 64) (asg_artifact_ids assignment)
  && fits 32 (asg_planned_observations assignment).

Definition clip_assignment (assignment : TrialAssignment) : TrialAssignment :=
  assignment <| asg_trial_payload := clip 4096 (asg_trial_payload assignment) |>
    <| asg_parameters := clip_parameters (asg_parameters assignment) |>
    <| asg_metrics := map clip_assigned_metric (asg_metrics assignment) |>.

Lemma reads_assignment capped limits assignment :
  wide_limits capped limits = true -> fits_assignment capped assignment = true ->
  reads capped limits read_assignment (write_assignment assignment) (clip_assignment assignment).
Proof.
  intros Hl Hf. unfold fits_assignment in Hf. split_fits.
  unfold read_assignment, write_assignment. read_record assignment.
Qed.
#[export] Hint Resolve reads_assignment : codec.

Definition encode_claim_reply (value : ClaimTrialReply) : list Z :=
  write_wrapped_status (claimr_status value) ++ write_vector write_assignment (claimr_assignments value).

Definition read_claim_reply : Reader ClaimTrialReply :=
  status ← read_wrapped_status; assignments ← read_batch read_assignment;
  mret (mkClaimTrialReply status assignments).
Definition decode_claim_reply : list Z -> Limits -> Result ClaimTrialReply := decode_with read_claim_reply.

Definition fits_claim_reply (capped : bool) (limits : Limits) (value : ClaimTrialReply) : bool :=
  fits_wrapped_status capped limits (claimr_status value)
  && fits_vector capped (max_batch_items limits) (fits_assignment capped) (claimr_assignments value).

Definition clip_claim_reply (value : ClaimTrialReply) : ClaimTrialReply :=
  value <| claimr_status := clip_status (claimr_status value) |>
    <| claimr_assignments := map clip_assignment (claimr_assignments value) |>.

Lemma reads_claim_reply capped limits value :
  wide_limits capped limits = true -> limits_in_range limits = true -> fits_claim_reply capped limits value = true ->
  reads capped limits read_claim_reply (encode_claim_reply value) (clip_claim_reply value).
Proof.
  intros Hl Hr Hf. unfold fits_claim_reply in Hf. split_fits.
  unfold read_claim_reply, encode_claim_reply. read_record value.
Qed.
#[export] Hint Resolve reads_claim_reply : codec.

Definition encode_error_reply (value : ErrorReply) : list Z :=
  write_wrapped_status (errr_status value) ++ put_text (errr_detail value) 1024.

Definition read_error_reply : Reader ErrorReply :=
  status ← read_wrapped_status; detail ← get_text 1024;
  mret (mkErrorReply status detail).
Definition decode_error_reply : list Z -> Limits -> Result ErrorReply := decode_with read_error_reply.

Definition fits_error_reply (capped : bool) (limits : Limits) (value : ErrorReply) : bool :=
  fits_wrapped_status capped limits (errr_status value).

Definition clip_error_reply (value : ErrorReply) : ErrorReply :=
  value <| errr_status := clip_status (errr_status value) |>
    <| errr_detail := clip 1024 (errr_detail value) |>.

Lemma reads_error_reply capped limits value :
  wide_limits capped limits = true -> limits_in_range limits = true -> fits_error_reply capped limits value = true ->
  reads capped limits read_error_reply (encode_error_reply value) (clip_error_reply value).
Proof.
  intros Hl Hr Hf. unfold fits_error_reply in Hf. split_fits.
  unfold read_error_reply, encode_error_reply. read_record value.
Qed.
#[export] Hint Resolve reads_error_reply : codec.

Definition encode_query_result (value : QueryResult) : list Z :=
  write_wrapped_status (qres_status value)
  ++ write_vector (fun value => put_text value 512) (qres_lines value).

Definition read_query_result : Reader QueryResult :=
  status ← read_wrapped_status; lines ← read_vector 65536 (get_text 512);
  mret (mkQueryResult status lines).
Definition decode_query_result : list Z -> Limits -> Result QueryResult := decode_with read_query_result.

Definition fits_query_result (capped : bool) (limits : Limits) (value : QueryResult) : bool :=
  fits_wrapped_status capped limits (qres_status value)
  && fits_vector capped 65536 (fun _ => true) (qres_lines value).

Definition clip_query_result (value : QueryResult) : QueryResult :=
  value <| qres_status := clip_status (qres_status value) |>
    <| qres_lines := map (clip 512) (qres_lines value) |>.

Lemma reads_query_result capped limits value :
  wide_limits capped limits = true -> limits_in_range limits = true -> fits_query_result capped limits value = true ->
  reads capped limits read_query_result (encode_query_result value) (clip_query_result value).
Proof.
  intros Hl Hr Hf. unfold fits_query_result in Hf. split_fits.
  unfold read_query_result, encode_query_result. read_record value.
Qed.
#[export] Hint Resolve reads_query_result : codec.

Definition encode_value_reply (value : ValueReply) : list Z :=
  write_wrapped_status (valr_status value) ++ put_u64 (valr_value value).

Definition read_value_reply : Reader ValueReply :=
  status ← read_wrapped_status; value ← get_u64;
  mret (mkValueReply status value).
Definition decode_value_reply : list Z -> Limits -> Result ValueReply := decode_with read_value_reply.

Definition fits_value_reply (capped : bool) (limits : Limits) (value : ValueReply) : bool :=
  fits_wrapped_status capped limits (valr_status value) && fits 64 (valr_value value).

Definition clip_value_reply (value : ValueReply) : ValueReply :=
  value <| valr_status := clip_status (valr_status value) |>.

Lemma reads_value_reply capped limits value :
  wide_limits capped limits = true -> limits_in_range limits = true -> fits_value_reply capped limits value = true ->
  reads capped limits read_value_reply (encode_value_reply value) (clip_value_reply value).
Proof.
  intros Hl Hr Hf. unfold fits_value_reply in Hf. split_fits.
  unfold read_value_reply, encode_value_reply. read_record value.
Qed.
#[export] Hint Resolve reads_value_reply : codec.

Definition encode_ack (value : AckReply) : list Z := encode_status (ackr_status value).
Definition decode_ack (payload : list Z) (limits : Limits) : Result AckReply :=
  match decode_status payload limits with Err s => Err s | Ok status => Ok (mkAckReply status) end.

Definition encode_decision_reply (status : Status) (decision : Decision) : list Z :=
  write_wrapped_status status ++ write_decision decision.
Definition read_decision_reply : Reader (Status * Decision) :=
  status ← read_wrapped_status; decision ← read_decision; mret (status, decision).
Definition decode_decision_reply : list Z -> Limits -> Result (Status * Decision) := decode_with read_decision_reply.

Lemma reads_decision_reply capped limits status decision :
  wide_limits capped limits = true -> limits_in_range limits = true ->
  fits_wrapped_status capped limits status = true -> fits_decision capped decision = true ->
  reads capped limits read_decision_reply (encode_decision_reply status decision) (clip_status status, clip_decision decision).
Proof.
  intros Hl Hr Hs Hd. unfold read_decision_reply, encode_decision_reply.
  eapply reads_bind; [read_field|]. eapply reads_last; [read_field|done].
Qed.

(** The lines of a query reply, or the failure it reports. *)
Definition unwrap_query_lines (reply : QueryResult) : Result (list string) :=
  if negb (status_ok (qres_status reply)) then Err (qres_status reply)
  else if max_explanation_lines default_Limits <? size_of (qres_lines reply) then
    Err (make_error ErrorCode.RESOURCE_EXHAUSTED ErrorStage.LIMITS "query reply returns too many lines")
  else Ok (qres_lines reply).

(** ** Every message

    The overloads of [encode] as one function on the sum of the message types,
    and the decoder that the type of a message selects. *)
Module Message.
Inductive Message : Type :=
| register_worker (value : RegisterWorkerRequest)
| claim_trial (value : ClaimTrialRequest)
| publish_observation (value : PublishObservationRequest)
| publish_artifact (value : PublishArtifactRequest)
| commit_trial (value : CommitTrialRequest)
| fail_trial (value : FailTrialRequest)
| heartbeat (value : HeartbeatRequest)
| cancel_trial (value : CancelTrialRequest)
| cancel_experiment (value : CancelExperimentRequest)
| finalize_experiment (value : FinalizeExperimentRequest)
| rollback (value : RollbackRequest)
| create_trial (value : CreateTrialRequest)
| fork_branch (value : ForkBranchRequest)
| revise_hypothesis (value : ReviseHypothesisRequest)
| register_reply (value : RegisterWorkerReply)
| claim_reply (value : ClaimTrialReply)
| error_reply (value : ErrorReply)
| query_result (value : QueryResult)
| value_reply (value : ValueReply)
| query_request (kind : QueryKind) (argument : string)
| status (value : Status)
| ack (value : AckReply)
| decision_reply (status : Status) (decision : Decision).
End Message.
Abbreviation Message := Message.Message.

Definition encode (message : Message) : list Z :=
  match message with
  | Message.register_worker value => encode_register_worker value
  | Message.claim_trial value => encode_claim_trial value
  | Message.publish_observation value => encode_publish_observation value
  | Message.publish_artifact value => encode_publish_artifact value
  | Message.commit_trial value => encode_commit_trial value
  | Message.fail_trial value => encode_fail_trial value
  | Message.heartbeat value => encode_heartbeat value
  | Message.cancel_trial value => encode_cancel_trial value
  | Message.cancel_experiment value => encode_cancel_experiment value
  | Message.finalize_experiment value => encode_finalize_experiment value
  | Message.rollback value => encode_rollback value
  | Message.create_trial value => encode_create_trial value
  | Message.fork_branch value => encode_fork_branch value
  | Message.revise_hypothesis value => encode_revise_hypothesis value
  | Message.register_reply value => encode_register_reply value
  | Message.claim_reply value => encode_claim_reply value
  | Message.error_reply value => encode_error_reply value
  | Message.query_result value => encode_query_result value
  | Message.value_reply value => encode_value_reply value
  | Message.query_request kind argument => encode_query_request kind argument
  | Message.status value => encode_status value
  | Message.ack value => encode_ack value
  | Message.decision_reply status decision => encode_decision_reply status decision
  end.

Definition result_map {A B} (f : A -> B) (r : Result A) : Result B :=
  match r with Ok a => Ok (f a) | Err s => Err s end.

(** The decoder for messages of the type of [message]. *)
Definition decode_as (message : Message) (payload : list Z) (limits : Limits) : Result Message :=
  match message with
  | Message.register_worker _ => result_map Message.register_worker (decode_register_worker payload limits)
  | Message.claim_trial _ => result_map Message.claim_trial (decode_claim_trial payload limits)
  | Message.publish_observation _ => result_map Message.publish_observation (decode_publish_observation payload limits)
  | Message.publish_artifact _ => result_map Message.publish_artifact (decode_publish_artifact payload limits)
  | Message.commit_trial _ => result_map Message.commit_trial (decode_commit_trial payload limits)
  | Message.fail_trial _ => result_map Message.fail_trial (decode_fail_trial payload limits)
  | Message.heartbeat _ => result_map Message.heartbeat (decode_heartbeat payload limits)
  | Message.cancel_trial _ => result_map Message.cancel_trial (decode_cancel_trial payload limits)
  | Message.cancel_experiment _ => result_map Message.cancel_experiment (decode_cancel_experiment payload limits)
  | Message.finalize_experiment _ => result_map Message.finalize_experiment (decode_finalize_experiment payload limits)
  | Message.rollback _ => result_map Message.rollback (decode_rollback payload limits)
  | Message.create_trial _ => result_map Message.create_trial (decode_create_trial payload limits)
  | Message.fork_branch _ => result_map Message.fork_branch (decode_fork_branch payload limits)
  | Message.revise_hypothesis _ => result_map Message.revise_hypothesis (decode_revise_hypothesis payload limits)
  | Message.register_reply _ => result_map Message.register_reply (decode_register_reply payload limits)
  | Message.claim_reply _ => result_map Message.claim_reply (decode_claim_reply payload limits)
  | Message.error_reply _ => result_map Message.error_reply (decode_error_reply payload limits)
  | Message.query_result _ => result_map Message.query_result (decode_query_result payload limits)
  | Message.value_reply _ => result_map Message.value_reply (decode_value_reply payload limits)
  | Message.query_request _ _ =>
      result_map (fun '(kind, argument) => Message.query_request kind argument) (decode_query_request payload limits)
  | Message.status _ => result_map Message.status (decode_status payload limits)
  | Message.ack _ => result_map Message.ack (decode_ack payload limits)
  | Message.decision_reply _ _ =>
      result_map (fun '(status, decision) => Message.decision_reply status decision) (decode_decision_reply payload limits)
  end.

(** The numbers of a message are in range; with [capped] its lists respect the
    counts their readers admit and its status is one of the enumerations. *)
Definition fits_message (capped : bool) (limits : Limits) (message : Message) : bool :=
  match message with
  | Message.register_worker value => fits_register_worker value
  | Message.claim_trial value => fits_claim_trial value
  | Message.publish_observation value => fits_publish_observation value
  | Message.publish_artifact value => fits_publish_artifact value
  | Message.commit_trial value => fits_commit_trial capped value
  | Message.fail_trial value => fits_fail_trial value
  | Message.heartbeat value => fits_heartbeat value
  | Message.cancel_trial value => fits_cancel_trial value
  | Message.cancel_experiment value => fits_cancel_experiment value
  | Message.finalize_experiment value => fits_finalize_experiment value
  | Message.rollback value => fits_rollback value
  | Message.create_trial value => fits_create_trial value
  | Message.fork_branch value => fits_fork_branch capped value
  | Message.revise_hypothesis value => fits_revise_hypothesis value
  | Message.register_reply value => fits_register_reply capped limits value
  | Message.claim_reply value => fits_claim_reply capped limits value
  | Message.error_reply value => fits_error_reply capped limits value
  | Message.query_result value => fits_query_result capped limits value
  | Message.value_reply value => fits_value_reply capped limits value
  | Message.query_request kind _ => negb (bool_decide (kind = QueryKind.INVALID))
  | Message.status value => fits_status capped value
  | Message.ack value => fits_status capped (ackr_status value)
  | Message.decision_reply status decision => fits_wrapped_status capped limits status && fits_decision capped decision
  end.

(** The message with its texts cut at the bounds of the writer. *)
Definition clip_message (message : Message) : Message :=
  match message with
  | Message.register_worker value => Message.register_worker (clip_register_worker value)
  | Message.claim_trial value => Message.claim_trial value
  | Message.publish_observation value => Message.publish_observation (clip_publish_observation value)
  | Message.publish_artifact value => Message.publish_artifact (clip_publish_artifact value)
  | Message.commit_trial value => Message.commit_trial (clip_commit_trial value)
  | Message.fail_trial value => Message.fail_trial (clip_fail_trial value)
  | Message.heartbeat value => Message.heartbeat value
  | Message.cancel_trial value => Message.cancel_trial (clip_cancel_trial value)
  | Message.cancel_experiment value => Message.cancel_experiment (clip_cancel_experiment value)
  | Message.finalize_experiment value => Message.finalize_experiment (clip_finalize_experiment value)
  | Message.rollback value => Message.rollback (clip_rollback value)
  | Message.create_trial value => Message.create_trial (clip_create_trial value)
  | Message.fork_branch value => Message.fork_branch (clip_fork_branch value)
  | Message.revise_hypothesis value => Message.revise_hypothesis (clip_revise_hypothesis value)
  | Message.register_reply value => Message.register_reply (clip_register_reply value)
  | Message.claim_reply value => Message.claim_reply (clip_claim_reply value)
  | Message.error_reply value => Message.error_reply (clip_error_reply value)
  | Message.query_result value => Message.query_result (clip_query_result value)
  | Message.value_reply value => Message.value_reply (clip_value_reply value)
  | Message.query_request kind argument => Message.query_request kind (clip 128 argument)
  | Message.status value => Message.status (clip_status value)
  | Message.ack value => Message.ack (mkAckReply (clip_status (ackr_status value)))
  | Message.decision_reply status decision => Message.decision_reply (clip_status status) (clip_decision decision)
  end.

(** What is promised of a message and its decoder. *)
Definition round_trips (capped : bool) (limits : Limits) {A} (decode : list Z -> Limits -> Result A) (w : list Z) (v : A) : Prop :=
  (decode w limits = Ok v \/ capped = false /\ exists s, decode w limits = Err s)
  /\ forall b extra, exists s, decode (w ++ b :: extra) limits = Err s.

Lemma round_trips_map capped limits {A B} (f : A -> B) (decode : list Z -> Limits -> Result A) w v :
  round_trips capped limits decode w v ->
  round_trips capped limits (fun payload limits => result_map f (decode payload limits)) w (f v).
Proof.
  intros [Hd Ht]. split.
  - destruct Hd as [->|[Hc [s ->]]]; [by left|right; split; [done|by eexists]].
  - intros b extra. destruct (Ht b extra) as [s ->]. by eexists.
Qed.

(** C37: a message whose numbers fit their types, encoded and parsed back by its
    decoder under 32-bit limits, gives the message with its texts cut at the
    documented bounds.  If one of its lists is longer than the decoder admits,
    or its status is outside the enumerations, it may be refused instead, but
    it is never read as another message; and a payload with any byte after the
    message is refused. *)
Theorem message_roundtrip capped limits message :
  limits_in_range limits = true -> wide_limits capped limits = true -> fits_message capped limits message = true ->
  (decode_as message (encode message) limits = Ok (clip_message message)
   \/ capped = false /\ exists s, decode_as message (encode message) limits = Err s)
  /\ forall b extra, exists s, decode_as message (encode message ++ b :: extra) limits = Err s.
Proof.
  intros Hr Hl Hf. change (round_trips capped limits (decode_as message) (encode message) (clip_message message)).
  destruct message; cbv beta iota delta [fits_message decode_as encode clip_message] in Hf |- *;
    match goal with
    | |- round_trips _ _ _ (encode_query_request ?kind _) _ =>
        apply (round_trips_map _ _ (fun '(kind, argument) => Message.query_request kind argument)
                 decode_query_request _ (kind, _)), decode_with_reads, reads_query_request;
          [done|]; by apply negb_true_iff, bool_decide_eq_false in Hf
    | |- round_trips _ _ _ (encode_decision_reply _ _) _ =>
        apply andb_true_iff in Hf as [? ?];
          apply (round_trips_map _ _ (fun '(status, decision) => Message.decision_reply status decision)
                   decode_decision_reply _ (clip_status _, clip_decision _)), decode_with_reads; by apply reads_decision_reply
    | |- round_trips _ _ _ (encode_status _) (Message.status _) =>
        apply (round_trips_map _ _ Message.status decode_status); by apply decode_encode_status
    | |- round_trips _ _ _ (encode_ack _) _ =>
        apply (round_trips_map _ _ Message.ack decode_ack _ (mkAckReply _)),
          (round_trips_map _ _ mkAckReply decode_status); by apply decode_encode_status
    | |- _ => apply round_trips_map, decode_with_reads; solve [eauto with codec]
    end.
Qed.

Definition sample_message : Message := Message.cancel_trial (mkCancelTrialRequest 7 "operator request").

Lemma message_roundtrip_witness :
  fits_message true default_Limits sample_message = true
  /\ (decode_as sample_message (encode sample_message) default_Limits = Ok sample_message
      \/ true = false /\ exists s, decode_as sample_message (encode sample_message) default_Limits = Err s).
Proof.
  assert (Hc : clip_message sample_message = sample_message) by by_evaluation.
  assert (Hf : fits_message true default_Limits sample_message = true) by by_evaluation.
  split; [exact Hf|]. rewrite <- Hc at 2.
  exact (proj1 (message_roundtrip true default_Limits sample_message eq_refl eq_refl Hf)).
Defined.
