(* ===== verification/Decoding.v ===== *)
(** * What a decoder lets through

    The readers of protocol.cpp are the boundary where bytes of a peer become
    values of the program.  Whatever the bytes are, a value that comes out of
    a decoder is well typed: every number is in the range of its machine type,
    every real is a binary64 value, every text and every list respects its
    documented bound, every enumerator is one of its enumeration.  The records
    follow field by field from the primitives, as in Codec.v. *)
From S2P Require Import Prelude OMap Error Domain Float64 Model Hash State Wire Codec Frames Messages MessageCodec.

(** [r] yields only [good] values, whatever bytes it is given. *)
Definition yields (limits : Limits) {A} (r : Reader A) (good : A -> Prop) : Prop :=
  forall bytes v rest, Forall is_byte bytes -> r limits bytes = Ok (v, rest) -> good v /\ Forall is_byte rest.

Section Yields.
Context (limits : Limits).

Lemma yields_ret {A} (v : A) (good : A -> Prop) : good v -> yields limits (mret v) good.
Proof. intros Hv bytes v' rest Hb Hr. by injection Hr as <- <-. Qed.

Lemma yields_error {A} s (good : A -> Prop) : yields limits (get_error s) good.
Proof. done. Qed.

Lemma yields_bind {A B} (r : Reader A) (k : A -> Reader B) good good' :
  yields limits r good -> (forall v, good v -> yields limits (k v) good') -> yields limits (r ≫= k) good'.
Proof.
  intros Hr Hk bytes v rest Hb Heq. unfold mbind, reader_bind in Heq.
  destruct (r limits bytes) as [[a rest']|s] eqn:Ha; [|done].
  apply Hr in Ha as [Ha Hrest]; [|done]. by apply (Hk a Ha rest').
Qed.

Lemma yields_limits {A} (k : Limits -> Reader A) good : yields limits (k limits) good -> yields limits (get_limits ≫= k) good.
Proof. intros Hk bytes v rest Hb Heq. by apply (Hk bytes). Qed.

Lemma yields_weaken {A} (r : Reader A) (good good' : A -> Prop) :
  yields limits r good -> (forall v, good v -> good' v) -> yields limits r good'.
Proof. intros Hr Hw bytes v rest Hb Heq. destruct (Hr bytes v rest Hb Heq). auto. Qed.

Lemma yields_raw n : 0 <= n -> yields limits (get_raw n) (fun bytes => size_of bytes = n /\ Forall is_byte bytes).
Proof.
  intros Hn bytes v rest Hb Hr. unfold get_raw in Hr. destruct (Z.ltb_spec (size_of bytes) n); [done|].
  injection Hr as <- <-. split; [split|].
  - unfold size_of in *. rewrite length_take. lia.
  - by apply Forall_take.
  - by apply Forall_drop.
Qed.

Lemma yields_le n : yields limits (bytes ← get_raw (Z.of_nat n); mret (le_value bytes)) (fun z => fits (8 * Z.of_nat n) z = true).
Proof.
  eapply yields_bind; [apply yields_raw; lia|]. intros bytes [Hs Hb]. apply yields_ret.
  pose proof (le_value_range bytes Hb) as Hr. unfold size_of in Hs. rewrite Hs in Hr.
  change 256 with (2 ^ 8) in Hr. rewrite <- Z.pow_mul_r in Hr by lia. unfold fits. blia.
Qed.

Lemma yields_u8 : yields limits get_u8 (fun z => fits 8 z = true).
Proof. apply (yields_le 1). Qed.
Lemma yields_u16 : yields limits get_u16 (fun z => fits 16 z = true).
Proof. apply (yields_le 2). Qed.
Lemma yields_u32 : yields limits get_u32 (fun z => fits 32 z = true).
Proof. apply (yields_le 4). Qed.
Lemma yields_u64 : yields limits get_u64 (fun z => fits 64 z = true).
Proof. apply (yields_le 8). Qed.
Lemma yields_id : yields limits read_id (fun z => fits 64 z = true).
Proof. apply yields_u64. Qed.

Lemma yields_boolean : yields limits get_boolean (fun _ => True).
Proof. eapply yields_bind; [apply yields_u8|]. intros raw _. destruct (1 <? raw); [apply yields_error|by apply yields_ret]. Qed.

Lemma double_of_bits_binary64 bits : is_binary64 (double_of_bits bits) = true.
Proof.
  unfold double_of_bits. pose proof (Z.mod_pos_bound bits (2 ^ 52) ltac:(done)) as Hf.
  pose proof (Z.mod_pos_bound (bits / 2 ^ 52) 2048 ltac:(done)) as He.
  set (fraction := bits mod 2 ^ 52) in *. set (exponent := bits / 2 ^ 52 mod 2048) in *. clearbody fraction exponent.
  destruct (Z.eqb_spec exponent 2047); [by destruct (fraction =? 0)|].
  destruct (Z.eqb_spec exponent 0).
  - destruct fraction as [|m|m]; try done. unfold is_binary64. by rewrite (proj2 (Z.ltb_lt _ _)) by lia.
  - destruct (fraction + 2 ^ 52) as [|m|m] eqn:Hm; [lia| |lia]. unfold is_binary64.
    change (2 ^ 53) with (2 ^ 52 + 2 ^ 52). destruct (Z.ltb_spec (Z.pos m) (2 ^ 52)); [exfalso; lia|]. rewrite !andb_true_iff, Z.ltb_lt, !Z.leb_le. lia.
Qed.

Lemma yields_real : yields limits get_real (fun x => is_binary64 x = true).
Proof. eapply yields_bind; [apply yields_u64|]. intros raw _. apply yields_ret, double_of_bits_binary64. Qed.

Lemma yields_integer : yields limits get_integer (fun z => fits_int64 z = true).
Proof.
  eapply yields_bind; [apply yields_u64|]. intros raw Hraw. apply yields_ret. unfold fits, fits_int64, u64_modulus in *. zprop.
  change (2 ^ 64) with 18446744073709551616 in *. change (2 ^ 63) with 9223372036854775808.
  destruct (Z.ltb_spec raw 9223372036854775808); blia.
Qed.

Lemma yields_digest : yields limits get_digest (fun d => fits_digest d = true).
Proof. eapply yields_weaken; [by apply yields_raw|]. intros d [Hd _]. unfold fits_digest. blia. Qed.

Lemma bytes_string_size bytes : str_size (bytes_string bytes) = size_of bytes.
Proof. unfold str_size, size_of. f_equal. induction bytes as [|b bytes IH]; simpl; [done|by rewrite IH]. Qed.

Lemma yields_text max : yields limits (get_text max) (fun s => clip max s = s /\ str_size s <= max).
Proof.
  eapply yields_bind; [apply yields_u32|]. intros length Hlength. apply yields_limits.
  destruct (Z.ltb_spec max length); [apply yields_error|]. cbn [orb].
  destruct (_ <? length); [apply yields_error|]. unfold fits in Hlength. zprop.
  eapply yields_bind; [by apply yields_raw|]. intros bytes [Hs _]. apply yields_ret.
  assert (str_size (bytes_string bytes) <= max) by (rewrite bytes_string_size; lia). split; [by apply clip_short|done].
Qed.

Lemma yields_count max : yields limits (get_count max) (fun n => 0 <= n <= max).
Proof.
  eapply yields_bind; [apply yields_u32|]. intros n Hn. unfold fits in Hn. zprop.
  destruct (Z.ltb_spec max n); [apply yields_error|by apply yields_ret].
Qed.

Lemma yields_items {A} (r : Reader A) good n :
  yields limits r good -> yields limits (read_items n r) (fun l => length l = n /\ Forall good l).
Proof.
  intros Hr. induction n as [|n IH]; [by apply yields_ret|]. cbn [read_items].
  eapply yields_bind; [exact Hr|]. intros v Hv. eapply yields_bind; [exact IH|]. intros l [<- Hl]. apply yields_ret.
  split; [done|by constructor].
Qed.

Lemma yields_vector {A} (r : Reader A) (ok : A -> bool) (c : A -> A) max :
  yields limits r (fun v => ok v = true /\ c v = v) ->
  yields limits (read_vector max r) (fun l => fits_vector true max ok l = true /\ map c l = l).
Proof.
  intros Hr. eapply yields_bind; [apply yields_count|]. intros n Hn.
  eapply yields_weaken; [by apply yields_items|]. intros l [Hlength Hl]. cbv beta in Hn, Hl. split.
  - unfold fits_vector, fits_count, size_of. rewrite andb_true_iff. split; [apply Z.leb_le; lia|].
    clear Hlength. induction Hl as [|v l' [Hv _] _ IH]; [done|]. simpl. by rewrite Hv, IH.
  - clear Hlength. induction Hl as [|v l' [_ Hv] _ IH]; [done|]. simpl. by rewrite Hv, IH.
Qed.

Lemma yields_vector_same {A} (r : Reader A) (ok : A -> bool) max :
  yields limits r (fun v => ok v = true) -> yields limits (read_vector max r) (fun l => fits_vector true max ok l = true).
Proof.
  intros Hr. eapply yields_weaken.
  - apply (yields_vector r ok id). eapply yields_weaken; [exact Hr|]. intros v Hv. by split.
  - by intros l [Hl _].
Qed.

Lemma yields_texts max_items max :
  yields limits (read_vector max_items (get_text max))
    (fun l => fits_vector true max_items (fun _ => true) l = true /\ map (clip max) l = l).
Proof. apply yields_vector. eapply yields_weaken; [apply yields_text|]. by intros s [Hs _]. Qed.

Lemma yields_enum `{WireEnum E} what : yields limits (read_enum E what) (fun _ => True).
Proof.
  eapply yields_bind; [|intros raw _].
  - eapply yields_bind; [apply yields_u8|]. intros raw _. destruct (_ <? raw); [apply yields_error|].
    by apply (yields_ret raw (fun _ => True)).
  - destruct (nth_error _ _); [by apply yields_ret|apply yields_error].
Qed.

Lemma yields_optional_u64 : yields limits read_optional_u64 (fun o => fits_option (fits 64) o = true).
Proof.
  eapply yields_bind; [apply yields_boolean|]. intros present _. destruct present; [|by apply yields_ret].
  eapply yields_bind; [apply yields_u64|]. intros v Hv. by apply yields_ret.
Qed.

Lemma yields_optional_real : yields limits read_optional_real (fun o => fits_option is_binary64 o = true).
Proof.
  eapply yields_bind; [apply yields_boolean|]. intros present _. destruct present; [|by apply yields_ret].
  eapply yields_bind; [apply yields_real|]. intros v Hv. by apply yields_ret.
Qed.
End Yields.

(** The database [decoding] has what each reader yields; a record is read field
    by field and its conditions are those of its fields. *)
Create HintDb decoding.
#[export] Hint Resolve yields_u8 yields_u16 yields_u32 yields_u64 yields_id yields_boolean yields_real yields_integer
  yields_digest yields_text yields_enum yields_optional_u64 yields_optional_real : decoding.
#[export] Hint Resolve yields_texts | 1 : decoding.
#[export] Hint Resolve yields_vector | 3 : decoding.
#[export] Hint Resolve yields_vector_same | 4 : decoding.

Ltac yield_fields :=
  repeat (cbv beta; first [ eapply yields_bind; [solve [eauto 6 with decoding]|intros ? ?] | apply yields_ret ]).
Ltac split_good := cbv beta in *; repeat match goal with H : _ /\ _ |- _ => destruct H end.
Ltac fields_fit fits := unfold fits; repeat first [assumption|reflexivity|apply andb_true_iff; split].

Ltac keep_fields := repeat match goal with H : ?clipped = ?v |- context [?clipped] => is_var v; rewrite H end; reflexivity.

(** ** The object model *)

Lemma error_code_of_byte_fits byte : fits 8 byte = true -> fits_error_code (error_code_of_byte byte) = true.
Proof.
  intros Hb. unfold fits in Hb. zprop. change (2 ^ 8) with 256 in *. unfold error_code_of_byte.
  destruct (nth_error error_code_values (Z.to_nat byte)) as [code|] eqn:Hn.
  - apply nth_error_In, list_elem_of_In in Hn. revert code Hn.
    apply (Forall_forall (fun code => fits_error_code code = true)). vm_compute. repeat constructor.
  - apply nth_error_None in Hn. change (length error_code_values) with 23%nat in Hn. cbn [fits_error_code]. blia.
Qed.

Lemma yields_optional_direction limits : yields limits read_optional_direction (fun _ => True).
Proof.
  unfold read_optional_direction. eapply yields_bind; [apply yields_boolean|]. intros present _. destruct present; [|by apply yields_ret].
  eapply yields_bind; [apply yields_enum|]. intros v _. by apply yields_ret.
Qed.
#[export] Hint Resolve yields_optional_direction : decoding.

Lemma yields_parameter limits :
  yields limits read_parameter (fun v => fits_parameter v = true /\ clip_parameter v = v).
Proof.
  unfold read_parameter. yield_fields. split_good.
  split; [fields_fit fits_parameter|unfold clip_parameter; cbn -[clip]; keep_fields].
Qed.
#[export] Hint Resolve yields_parameter : decoding.

Lemma yields_parameters limits :
  yields limits read_parameters (fun v => fits_parameters true v = true /\ clip_parameters v = v).
Proof. apply yields_vector, yields_parameter. Qed.
#[export] Hint Resolve yields_parameters : decoding.

Lemma yields_metric_value limits :
  yields limits read_metric_value (fun v => fits_metric_value v = true /\ clip_metric_value v = v).
Proof.
  unfold read_metric_value. yield_fields. split_good.
  split; [fields_fit fits_metric_value|unfold clip_metric_value; cbn -[clip]; keep_fields].
Qed.
#[export] Hint Resolve yields_metric_value : decoding.

Lemma yields_envelope limits :
  yields limits read_envelope (fun v => fits_envelope v = true).
Proof.
  unfold read_envelope. yield_fields. split_good.
  fields_fit fits_envelope.
Qed.
#[export] Hint Resolve yields_envelope : decoding.

Lemma yields_observation limits :
  yields limits read_observation (fun v => fits_observation v = true /\ clip_observation v = v).
Proof.
  unfold read_observation. yield_fields. split_good.
  split; [fields_fit fits_observation|unfold clip_observation; cbn -[clip clip_metric_value]; keep_fields].
Qed.
#[export] Hint Resolve yields_observation : decoding.

Lemma yields_artifact limits :
  yields limits read_artifact (fun v => fits_artifact v = true /\ clip_artifact v = v).
Proof.
  unfold read_artifact. yield_fields. split_good.
  split; [fields_fit fits_artifact|unfold clip_artifact; cbn -[clip]; keep_fields].
Qed.
#[export] Hint Resolve yields_artifact : decoding.

Lemma yields_metric_definition limits :
  yields limits read_metric_definition (fun v => fits_metric_definition true v = true /\ clip_metric_definition v = v).
Proof.
  unfold read_metric_definition. yield_fields. split_good.
  split; [fields_fit fits_metric_definition|unfold clip_metric_definition; cbn -[clip]; keep_fields].
Qed.
#[export] Hint Resolve yields_metric_definition : decoding.

Lemma yields_comparison_rule limits :
  yields limits read_comparison_rule (fun v => fits_comparison_rule v = true).
Proof.
  unfold read_comparison_rule. yield_fields. split_good.
  fields_fit fits_comparison_rule.
Qed.
#[export] Hint Resolve yields_comparison_rule : decoding.

Lemma yields_comparison_policy limits :
  yields limits read_comparison_policy (fun v => fits_comparison_policy true v = true).
Proof.
  unfold read_comparison_policy. yield_fields. split_good.
  fields_fit fits_comparison_policy.
Qed.
#[export] Hint Resolve yields_comparison_policy : decoding.

Lemma yields_branch_definition limits :
  yields limits read_branch_definition (fun v => fits_branch_definition true v = true /\ clip_branch_definition v = v).
Proof.
  unfold read_branch_definition. yield_fields. split_good.
  split; [fields_fit fits_branch_definition|unfold clip_branch_definition; cbn -[clip clip_parameters]; keep_fields].
Qed.
#[export] Hint Resolve yields_branch_definition : decoding.

Lemma yields_experiment_definition limits :
  yields limits read_experiment_definition (fun v => fits_experiment_definition true v = true /\ clip_experiment_definition v = v).
Proof.
  unfold read_experiment_definition. yield_fields. split_good.
  split; [fields_fit fits_experiment_definition|unfold clip_experiment_definition; cbn -[clip clip_branch_definition clip_metric_definition clip_parameters]; keep_fields].
Qed.
#[export] Hint Resolve yields_experiment_definition : decoding.

Lemma yields_hypothesis limits :
  yields limits read_hypothesis (fun v => fits_hypothesis v = true /\ clip_hypothesis v = v).
Proof.
  unfold read_hypothesis. yield_fields. split_good.
  split; [fields_fit fits_hypothesis|unfold clip_hypothesis; cbn -[clip]; keep_fields].
Qed.
#[export] Hint Resolve yields_hypothesis : decoding.

Lemma yields_trial limits :
  yields limits read_trial (fun v => fits_trial true v = true /\ clip_trial v = v).
Proof.
  unfold read_trial. yield_fields. split_good.
  split; [fields_fit fits_trial|unfold clip_trial; cbn -[clip]; keep_fields].
Qed.
#[export] Hint Resolve yields_trial : decoding.

Lemma yields_attempt limits :
  yields limits read_attempt (fun v => fits_attempt v = true /\ clip_attempt v = v).
Proof.
  unfold read_attempt. yield_fields. split_good.
  split; [fields_fit fits_attempt|unfold clip_attempt; cbn -[clip]; keep_fields].
Qed.
#[export] Hint Resolve yields_attempt : decoding.

Lemma yields_constraint limits :
  yields limits read_constraint (fun v => fits_constraint v = true /\ clip_constraint v = v).
Proof.
  unfold read_constraint. yield_fields. split_good.
  split; [fields_fit fits_constraint|unfold clip_constraint; cbn -[clip]; keep_fields].
Qed.
#[export] Hint Resolve yields_constraint : decoding.

Lemma yields_factor limits :
  yields limits read_factor (fun v => fits_factor v = true /\ clip_factor v = v).
Proof.
  unfold read_factor. yield_fields. split_good.
  split; [fields_fit fits_factor|unfold clip_factor; cbn -[clip]; keep_fields].
Qed.
#[export] Hint Resolve yields_factor : decoding.

Lemma yields_aggregate limits :
  yields limits read_aggregate (fun v => fits_aggregate true v = true /\ clip_aggregate v = v).
Proof.
  unfold read_aggregate. yield_fields. split_good.
  split; [fields_fit fits_aggregate|unfold clip_aggregate; cbn -[clip]; keep_fields].
Qed.
#[export] Hint Resolve yields_aggregate : decoding.

Lemma yields_branch_evidence limits :
  yields limits read_branch_evidence (fun v => fits_branch_evidence true v = true /\ clip_branch_evidence v = v).
Proof.
  unfold read_branch_evidence. yield_fields. split_good.
  split; [fields_fit fits_branch_evidence|unfold clip_branch_evidence; cbn -[clip_aggregate]; keep_fields].
Qed.
#[export] Hint Resolve yields_branch_evidence : decoding.

Lemma yields_rejected_evidence limits :
  yields limits read_rejected_evidence (fun v => fits_rejected_evidence v = true /\ clip_rejected_evidence v = v).
Proof.
  unfold read_rejected_evidence. yield_fields. split_good. split; [|unfold clip_rejected_evidence; cbn -[clip]; keep_fields].
  unfold fits_rejected_evidence. apply andb_true_iff. split; [assumption|]. by apply error_code_of_byte_fits.
Qed.
#[export] Hint Resolve yields_rejected_evidence : decoding.

Lemma yields_decision limits :
  yields limits read_decision (fun v => fits_decision true v = true /\ clip_decision v = v).
Proof.
  unfold read_decision. yield_fields. split_good.
  split; [fields_fit fits_decision|unfold clip_decision; cbn -[clip clip_branch_evidence clip_constraint clip_factor clip_rejected_evidence]; keep_fields].
Qed.
#[export] Hint Resolve yields_decision : decoding.

Lemma yields_snapshot limits :
  yields limits read_snapshot (fun v => fits_snapshot v = true).
Proof.
  unfold read_snapshot. yield_fields. split_good.
  fields_fit fits_snapshot.
Qed.
#[export] Hint Resolve yields_snapshot : decoding.

Lemma yields_rollback_point limits :
  yields limits read_rollback_point (fun v => fits_rollback_point true v = true).
Proof.
  unfold read_rollback_point. yield_fields. split_good.
  fields_fit fits_rollback_point.
Qed.
#[export] Hint Resolve yields_rollback_point : decoding.

Lemma yields_worker_incarnation limits :
  yields limits read_worker_incarnation (fun v => fits_worker_incarnation v = true /\ clip_worker_incarnation v = v).
Proof.
  unfold read_worker_incarnation. yield_fields. split_good.
  split; [fields_fit fits_worker_incarnation|unfold clip_worker_incarnation; cbn -[clip]; keep_fields].
Qed.
#[export] Hint Resolve yields_worker_incarnation : decoding.

(** ** Statuses and batches *)

(** What a reader has consumed. *)
Lemma raw_consumes limits n bytes v rest :
  0 <= n -> get_raw n limits bytes = Ok (v, rest) -> size_of bytes = n + size_of rest /\ size_of v = n.
Proof.
  intros Hn Hr. unfold get_raw in Hr. destruct (Z.ltb_spec (size_of bytes) n); [done|]. injection Hr as <- <-.
  unfold size_of in *. rewrite length_take, length_drop. lia.
Qed.

Lemma u8_consumes limits bytes v rest : get_u8 limits bytes = Ok (v, rest) -> size_of bytes = 1 + size_of rest.
Proof.
  unfold get_u8, mbind, reader_bind. destruct (get_raw 1 limits bytes) as [[raw rest']|] eqn:Hr; [|done].
  apply raw_consumes in Hr as [Hr _]; [|done]. intros Heq. by injection Heq as _ <-.
Qed.

Lemma text_consumes limits max bytes s rest :
  Forall is_byte bytes -> get_text max limits bytes = Ok (s, rest) -> size_of bytes = 4 + str_size s + size_of rest.
Proof.
  intros Hb. unfold get_text, get_u32, get_limits, mbind, reader_bind, mret, reader_ret.
  destruct (get_raw 4 limits bytes) as [[raw rest1]|] eqn:H1; [|done].
  pose proof (yields_raw limits 4 ltac:(done) _ _ _ Hb H1) as [[_ Hraw] _].
  pose proof (le_value_range raw Hraw) as Hrange. apply raw_consumes in H1 as [H1 _]; [|done].
  destruct (_ || _); [done|]. destruct (get_raw (le_value raw) limits rest1) as [[body rest2]|] eqn:H2; [|done].
  apply raw_consumes in H2 as [H2 Hbody]; [|lia]. intros Heq. injection Heq as <- <-. rewrite bytes_string_size. lia.
Qed.

Lemma encode_status_length s :
  str_size (status_reason s) <= 1024 -> size_of (encode_status s) = 6 + str_size (status_reason s).
Proof.
  intros Hs. unfold encode_status, put_text, put_u8, put_u32, size_of. rewrite !length_app, !le_bytes_length, length_take, string_bytes_length.
  assert (Hr : 0 <= str_size (status_reason s)) by (unfold str_size; lia).
  rewrite u32_small by (unfold u32_modulus; lia). unfold str_size in *. lia.
Qed.

Lemma named_codes code : fits 8 code = true -> code <= error_code_byte ErrorCode.INTERNAL ->
  fits_error_code (error_code_of_byte code) = true /\ error_code_named (error_code_of_byte code) = true.
Proof.
  intros Hf Hc. unfold fits in Hf. zprop. change (error_code_byte ErrorCode.INTERNAL) with 22 in Hc.
  assert (Hin : code ∈ seqZ 0 23) by (apply elem_of_seqZ; lia). clear -Hin. revert code Hin.
  apply (Forall_forall (fun code => fits_error_code (error_code_of_byte code) = true /\ error_code_named (error_code_of_byte code) = true)).
  vm_compute. repeat constructor.
Qed.

Lemma named_stages stage : fits 8 stage = true -> stage <= error_stage_byte ErrorStage.LIMITS ->
  fits_error_stage (error_stage_of_byte stage) = true /\ error_stage_named (error_stage_of_byte stage) = true.
Proof.
  intros Hf Hc. unfold fits in Hf. zprop. change (error_stage_byte ErrorStage.LIMITS) with 13 in Hc.
  assert (Hin : stage ∈ seqZ 0 14) by (apply elem_of_seqZ; lia). clear -Hin. revert stage Hin.
  apply (Forall_forall (fun stage => fits_error_stage (error_stage_of_byte stage) = true /\ error_stage_named (error_stage_of_byte stage) = true)).
  vm_compute. repeat constructor.
Qed.

Lemma decode_with_yields {A} limits (r : Reader A) good payload v :
  yields limits r good -> Forall is_byte payload -> decode_with r payload limits = Ok v ->
  good v /\ r limits payload = Ok (v, []).
Proof.
  intros Hr Hb Hd. unfold decode_with in Hd. destruct (r limits payload) as [[v' rest]|] eqn:Heq; [|done].
  destruct rest; [|done]. apply Ok_inj in Hd as ->. by destruct (Hr payload v [] Hb Heq).
Qed.

Lemma yields_status_fields limits :
  yields limits read_status_fields (fun '(code, stage, reason) =>
    fits 8 code = true /\ (fits 8 stage = true /\ stage <= error_stage_byte ErrorStage.LIMITS)
    /\ clip 1024 reason = reason /\ str_size reason <= 1024).
Proof.
  eapply yields_bind; [apply yields_u8|]. intros code Hc. eapply yields_bind; [apply yields_u8|]. intros stage Hs.
  destruct (Z.ltb_spec (error_stage_byte ErrorStage.LIMITS) stage); [apply yields_error|].
  eapply yields_bind; [apply yields_text|]. intros reason Hreason. by apply yields_ret.
Qed.

Lemma decode_status_yields limits payload s :
  Forall is_byte payload -> decode_status payload limits = Ok s ->
  fits_status true s = true /\ clip_status s = s /\ size_of (encode_status s) = size_of payload.
Proof.
  intros Hb Hd. unfold decode_status in Hd. destruct (decode_with _ _ _) as [[[code stage] reason]|] eqn:Hw; [|done].
  destruct (decode_with_yields _ _ _ _ _ (yields_status_fields limits) Hb Hw) as [(Hc & [Hs Hsle] & Hclip & Hsize) Hread].
  destruct (Z.ltb_spec (error_code_byte ErrorCode.INTERNAL) code); [done|]. apply Ok_inj in Hd as <-.
  destruct (named_codes code Hc) as [Hc1 Hc2]; [done|]. destruct (named_stages stage Hs Hsle) as [Hs1 Hs2].
  split; [|split].
  - unfold fits_status. cbn [status_code status_stage]. by rewrite Hc1, Hs1, Hc2, Hs2.
  - unfold clip_status. cbn [status_code status_stage status_reason]. by rewrite Hclip.
  - rewrite encode_status_length by done. cbn [status_reason].
    unfold read_status_fields, mbind, reader_bind in Hread.
    destruct (get_u8 limits payload) as [[v1 rest1]|] eqn:H1; [|done].
    pose proof (yields_u8 limits _ _ _ Hb H1) as [_ Hb1]. apply u8_consumes in H1.
    destruct (get_u8 limits rest1) as [[v2 rest2]|] eqn:H2; [|done].
    pose proof (yields_u8 limits _ _ _ Hb1 H2) as [_ Hb2]. apply u8_consumes in H2.
    destruct (_ <? v2); [done|]. destruct (get_text 1024 limits rest2) as [[v3 rest3]|] eqn:H3; [|done].
    apply text_consumes in H3; [|done]. unfold mret, reader_ret in Hread. injection Hread as _ _ <- ->.
    change (size_of []) with 0 in H3. lia.
Qed.

Lemma yields_wrapped_status limits :
  yields limits read_wrapped_status (fun s => fits_wrapped_status true limits s = true /\ clip_status s = s).
Proof.
  apply yields_limits. eapply yields_bind; [apply yields_count|]. intros n Hn. cbv beta in Hn.
  eapply yields_bind; [apply yields_raw; lia|]. intros bytes [Hsize Hb].
  destruct (decode_status bytes limits) as [s|e] eqn:Hd; [|apply yields_error].
  apply decode_status_yields in Hd as (Hf & Hc & Hs); [|done]. apply yields_ret. split; [|done].
  unfold fits_wrapped_status, fits_count. rewrite Hf, Hs. apply Z.leb_le. lia.
Qed.
#[export] Hint Resolve yields_wrapped_status : decoding.

Lemma yields_batch {A} limits (r : Reader A) (ok : A -> bool) (c : A -> A) :
  yields limits r (fun v => ok v = true /\ c v = v) ->
  yields limits (read_batch r) (fun l => fits_vector true (max_batch_items limits) ok l = true /\ map c l = l).
Proof. intros Hr. apply yields_limits. by apply yields_vector. Qed.
#[export] Hint Resolve yields_batch : decoding.

(** ** Messages *)

Lemma yields_register_worker limits :
  yields limits read_register_worker (fun v => fits_register_worker v = true /\ clip_register_worker v = v).
Proof.
  unfold read_register_worker. yield_fields. split_good.
  split; [fields_fit fits_register_worker|unfold clip_register_worker; cbn -[clip]; keep_fields].
Qed.
#[export] Hint Resolve yields_register_worker : decoding.

Lemma yields_claim_trial limits :
  yields limits read_claim_trial (fun v => fits_claim_trial v = true).
Proof.
  unfold read_claim_trial. yield_fields. split_good.
  fields_fit fits_claim_trial.
Qed.
#[export] Hint Resolve yields_claim_trial : decoding.

Lemma yields_publish_observation limits :
  yields limits read_publish_observation (fun v => fits_publish_observation v = true /\ clip_publish_observation v = v).
Proof.
  unfold read_publish_observation. yield_fields. split_good.
  split; [fields_fit fits_publish_observation|unfold clip_publish_observation; cbn -[clip_observation]; keep_fields].
Qed.
#[export] Hint Resolve yields_publish_observation : decoding.

Lemma yields_publish_artifact limits :
  yields limits read_publish_artifact (fun v => fits_publish_artifact v = true /\ clip_publish_artifact v = v).
Proof.
  unfold read_publish_artifact. yield_fields. split_good.
  split; [fields_fit fits_publish_artifact|unfold clip_publish_artifact; cbn -[clip_artifact]; keep_fields].
Qed.
#[export] Hint Resolve yields_publish_artifact : decoding.

Lemma yields_commit_trial limits :
  yields limits read_commit_trial (fun v => fits_commit_trial true v = true /\ clip_commit_trial v = v).
Proof.
  unfold read_commit_trial. yield_fields. split_good.
  split; [fields_fit fits_commit_trial|unfold clip_commit_trial; cbn -[clip clip_artifact]; keep_fields].
Qed.
#[export] Hint Resolve yields_commit_trial : decoding.

Lemma yields_fail_trial limits :
  yields limits read_fail_trial (fun v => fits_fail_trial v = true /\ clip_fail_trial v = v).
Proof.
  unfold read_fail_trial. yield_fields. split_good.
  split; [fields_fit fits_fail_trial|unfold clip_fail_trial; cbn -[clip]; keep_fields].
Qed.
#[export] Hint Resolve yields_fail_trial : decoding.

Lemma yields_heartbeat limits :
  yields limits read_heartbeat (fun v => fits_heartbeat v = true).
Proof.
  unfold read_heartbeat. yield_fields. split_good.
  fields_fit fits_heartbeat.
Qed.
#[export] Hint Resolve yields_heartbeat : decoding.

Lemma yields_cancel_trial limits :
  yields limits read_cancel_trial (fun v => fits_cancel_trial v = true /\ clip_cancel_trial v = v).
Proof.
  unfold read_cancel_trial. yield_fields. split_good.
  split; [fields_fit fits_cancel_trial|unfold clip_cancel_trial; cbn -[clip]; keep_fields].
Qed.
#[export] Hint Resolve yields_cancel_trial : decoding.

Lemma yields_cancel_experiment limits :
  yields limits read_cancel_experiment (fun v => fits_cancel_experiment v = true /\ clip_cancel_experiment v = v).
Proof.
  unfold read_cancel_experiment. yield_fields. split_good.
  split; [fields_fit fits_cancel_experiment|unfold clip_cancel_experiment; cbn -[clip]; keep_fields].
Qed.
#[export] Hint Resolve yields_cancel_experiment : decoding.

Lemma yields_finalize_experiment limits :
  yields limits read_finalize_experiment (fun v => fits_finalize_experiment v = true /\ clip_finalize_experiment v = v).
Proof.
  unfold read_finalize_experiment. yield_fields. split_good.
  split; [fields_fit fits_finalize_experiment|unfold clip_finalize_experiment; cbn -[clip]; keep_fields].
Qed.
#[export] Hint Resolve yields_finalize_experiment : decoding.

Lemma yields_rollback limits :
  yields limits read_rollback (fun v => fits_rollback v = true /\ clip_rollback v = v).
Proof.
  unfold read_rollback. yield_fields. split_good.
  split; [fields_fit fits_rollback|unfold clip_rollback; cbn -[clip]; keep_fields].
Qed.
#[export] Hint Resolve yields_rollback : decoding.

Lemma yields_create_trial limits :
  yields limits read_create_trial (fun v => fits_create_trial v = true /\ clip_create_trial v = v).
Proof.
  unfold read_create_trial. yield_fields. split_good.
  split; [fields_fit fits_create_trial|unfold clip_create_trial; cbn -[clip]; keep_fields].
Qed.
#[export] Hint Resolve yields_create_trial : decoding.

Lemma yields_fork_branch limits :
  yields limits read_fork_branch (fun v => fits_fork_branch true v = true /\ clip_fork_branch v = v).
Proof.
  unfold read_fork_branch. yield_fields. split_good.
  split; [fields_fit fits_fork_branch|unfold clip_fork_branch; cbn -[clip clip_parameters]; keep_fields].
Qed.
#[export] Hint Resolve yields_fork_branch : decoding.

Lemma yields_revise_hypothesis limits :
  yields limits read_revise_hypothesis (fun v => fits_revise_hypothesis v = true /\ clip_revise_hypothesis v = v).
Proof.
  unfold read_revise_hypothesis. yield_fields. split_good.
  split; [fields_fit fits_revise_hypothesis|unfold clip_revise_hypothesis; cbn -[clip]; keep_fields].
Qed.
#[export] Hint Resolve yields_revise_hypothesis : decoding.

Lemma yields_register_reply limits :
  yields limits read_register_reply (fun v => fits_register_reply true limits v = true /\ clip_register_reply v = v).
Proof.
  unfold read_register_reply. yield_fields. split_good.
  split; [fields_fit fits_register_reply|unfold clip_register_reply; cbn -[clip_status]; keep_fields].
Qed.
#[export] Hint Resolve yields_register_reply : decoding.

Lemma yields_assigned_metric limits :
  yields limits read_assigned_metric (fun v => fits_assigned_metric v = true /\ clip_assigned_metric v = v).
Proof.
  unfold read_assigned_metric. yield_fields. split_good.
  split; [fields_fit fits_assigned_metric|unfold clip_assigned_metric; cbn -[clip]; keep_fields].
Qed.
#[export] Hint Resolve yields_assigned_metric : decoding.

Lemma yields_assignment limits :
  yields limits read_assignment (fun v => fits_assignment true v = true /\ clip_assignment v = v).
Proof.
  unfold read_assignment. yield_fields. split_good.
  split; [fields_fit fits_assignment|unfold clip_assignment; cbn -[clip clip_assigned_metric clip_parameters]; keep_fields].
Qed.
#[export] Hint Resolve yields_assignment : decoding.

Lemma yields_claim_reply limits :
  yields limits read_claim_reply (fun v => fits_claim_reply true limits v = true /\ clip_claim_reply v = v).
Proof.
  unfold read_claim_reply. yield_fields. split_good.
  split; [fields_fit fits_claim_reply|unfold clip_claim_reply; cbn -[clip_assignment clip_status]; keep_fields].
Qed.
#[export] Hint Resolve yields_claim_reply : decoding.

Lemma yields_error_reply limits :
  yields limits read_error_reply (fun v => fits_error_reply true limits v = true /\ clip_error_reply v = v).
Proof.
  unfold read_error_reply. yield_fields. split_good.
  split; [fields_fit fits_error_reply|unfold clip_error_reply; cbn -[clip clip_status]; keep_fields].
Qed.
#[export] Hint Resolve yields_error_reply : decoding.

Lemma yields_query_result limits :
  yields limits read_query_result (fun v => fits_query_result true limits v = true /\ clip_query_result v = v).
Proof.
  unfold read_query_result. yield_fields. split_good.
  split; [fields_fit fits_query_result|unfold clip_query_result; cbn -[clip clip_status]; keep_fields].
Qed.
#[export] Hint Resolve yields_query_result : decoding.

Lemma yields_value_reply limits :
  yields limits read_value_reply (fun v => fits_value_reply true limits v = true /\ clip_value_reply v = v).
Proof.
  unfold read_value_reply. yield_fields. split_good.
  split; [fields_fit fits_value_reply|unfold clip_value_reply; cbn -[clip_status]; keep_fields].
Qed.
#[export] Hint Resolve yields_value_reply : decoding.

Lemma yields_query_request limits :
  yields limits read_query_request (fun '(kind, argument) => kind <> QueryKind.INVALID /\ clip 128 argument = argument).
Proof.
  unfold read_query_request. eapply yields_bind; [apply yields_u16|]. intros raw Hraw.
  destruct ((raw =? 0) || _) eqn:Hguard; [apply yields_error|]. apply orb_false_iff in Hguard as [Hzero _].
  eapply yields_bind; [apply yields_text|]. intros argument [Ha _].
  destruct (nth_error query_kinds (Z.to_nat raw)) as [kind|] eqn:Hn; [|apply yields_error]. apply yields_ret. split; [|done].
  unfold fits in Hraw. zprop. destruct (Z.to_nat raw) as [|n] eqn:Hr; [lia|]. cbn [query_kinds nth_error] in Hn.
  intros ->. apply nth_error_In in Hn. simpl in Hn. intuition discriminate.
Qed.

Lemma yields_decision_reply limits :
  yields limits read_decision_reply (fun '(status, decision) =>
    (fits_wrapped_status true limits status = true /\ clip_status status = status)
    /\ fits_decision true decision = true /\ clip_decision decision = decision).
Proof. unfold read_decision_reply. yield_fields. by split. Qed.

Lemma decode_with_good {A} limits (r : Reader A) (good : A -> Prop) payload v :
  yields limits r good -> Forall is_byte payload -> decode_with r payload limits = Ok v -> good v.
Proof. intros Hr Hb Hd. by destruct (decode_with_yields limits r good payload v Hr Hb Hd). Qed.


