(* ===== verification/Spec.v ===== *)
(** * Experiment specifications (coordinator.cpp, [validate_spec] and building)

    [validate_spec] translated check by check, and the passes that turn a
    specification into a definition: metrics, rules and branches with the
    identities drawn for them and the parameters a forked branch inherits. *)
From S2P Require Import Prelude OMap Error Domain Identity Float64 Model Hash Sorting Canonical State Messages.
#[local] Open Scope check_scope.

Definition invalid_argument (reason : string) : Status :=
  make_error ErrorCode.INVALID_ARGUMENT ErrorStage.VALIDATION reason.
Definition definition_error (reason : string) : Status :=
  make_error ErrorCode.INVALID_ARGUMENT ErrorStage.DEFINITION reason.
Definition not_found (reason : string) : Status :=
  make_error ErrorCode.NOT_FOUND ErrorStage.LIFECYCLE reason.
Definition limits_error (reason : string) : Status :=
  make_error ErrorCode.RESOURCE_EXHAUSTED ErrorStage.LIMITS reason.
Definition lifecycle_error (code : ErrorCode) (reason : string) : Status :=
  make_error code ErrorStage.LIFECYCLE reason.

Definition str_empty (s : string) : bool := String.eqb s "".
Definition list_empty {A} (l : list A) : bool := match l with [] => true | _ => false end.

(** The loop over [spec.metrics]; [names] is [metric_names] so far. *)
Fixpoint validate_metric_specs (limits : Limits) (names : list string) (metrics : list MetricSpec) : Status :=
  match metrics with
  | [] => success
  | metric :: rest =>
      refuse (str_empty (mspec_name metric) || (max_name_length limits <? str_size (mspec_name metric)))
        (definition_error "metric name is empty or too long");
      refuse (max_unit_length limits <? str_size (mspec_unit metric))
        (definition_error "metric unit is too long");
      refuse (bool_decide (mspec_name metric ∈ names)) (definition_error "duplicate metric name");
      refuse (bool_decide (mspec_kind metric = MetricKind.CATEGORICAL)
              && negb (bool_decide (mspec_aggregation metric = AggregationRule.MAJORITY))
              && negb (bool_decide (mspec_aggregation metric = AggregationRule.NONE)))
        (definition_error "categorical metric requires MAJORITY or NONE aggregation");
      refuse ((bool_decide (mspec_kind metric = MetricKind.REAL)
               || bool_decide (mspec_kind metric = MetricKind.INTEGER))
              && bool_decide (mspec_aggregation metric = AggregationRule.MAJORITY))
        (definition_error "numeric metric cannot use MAJORITY aggregation");
      refuse (bounds_inverted (mspec_lower_bound metric) (mspec_upper_bound metric))
        (definition_error "metric validity bounds are inverted");
      refuse (bounds_inverted (mspec_target_low metric) (mspec_target_high metric))
        (definition_error "metric target range is inverted");
      validate_metric_specs limits (mspec_name metric :: names) rest
  end.

(** The loop over [spec.branches]; [names] are the branches declared so far. *)
Fixpoint validate_branch_specs (limits : Limits) (names : list string) (branches : list BranchSpec) : Status :=
  match branches with
  | [] => success
  | branch :: rest =>
      refuse (str_empty (bspec_name branch) || (max_name_length limits <? str_size (bspec_name branch)))
        (definition_error "branch name is empty or too long");
      refuse (bool_decide (bspec_name branch ∈ names)) (definition_error "duplicate branch name");
      refuse (match bspec_fork_from branch with
              | Some parent => negb (bool_decide (parent ∈ names))
              | None => false
              end)
        (definition_error "branch fork parent must be declared earlier in the specification");
      refuse ((bspec_planned_trials branch =? 0) || (max_trials_per_branch limits <? bspec_planned_trials branch))
        (limits_error "branch planned trial count is out of range");
      refuse (has_duplicate_parameter_key (bspec_parameters branch))
        (definition_error "duplicate branch parameter key");
      validate_branch_specs limits (bspec_name branch :: names) rest
  end.

Definition validate_rule_spec (metric_names : list string) (rule : ComparisonRuleSpec) : Status :=
  refuse (negb (bool_decide (rspec_metric rule ∈ metric_names)))
    (definition_error "comparison rule references an unknown metric name");
  refuse (bool_decide (rspec_op rule = ComparisonOp.TARGET_RANGE)
          && dltb (rspec_target_high rule) (rspec_target_low rule))
    (definition_error "comparison target range is inverted");
  refuse (bool_decide (rspec_op rule = ComparisonOp.MAJORITY_WINS)
          && (dltb (rspec_threshold rule) double_zero || dltb double_one (rspec_threshold rule)))
    (definition_error "majority-wins threshold must be a fraction in [0,1]");
  success.

Definition is_baseline_spec (branch : BranchSpec) : bool :=
  bool_decide (bspec_role branch = BranchRole.BASELINE).

(** [validate_spec]. *)
Definition validate_spec (spec : ExperimentSpec) (limits : Limits) : Status :=
  refuse (str_empty (spec_name spec) || (max_name_length limits <? str_size (spec_name spec)))
    (definition_error "experiment name is empty or too long");
  refuse (max_provenance_length limits <? str_size (spec_provenance spec))
    (definition_error "experiment provenance text is too long");
  refuse (str_empty (spec_hypothesis_statement spec)
          || (max_statement_length limits <? str_size (spec_hypothesis_statement spec)))
    (definition_error "hypothesis statement is empty or too long");
  refuse (list_empty (spec_metrics spec)) (definition_error "experiment must declare at least one metric");
  refuse (max_metrics_per_experiment limits <? size_of (spec_metrics spec))
    (limits_error "experiment declares more metrics than the configured bound");
  refuse (list_empty (spec_branches spec)) (definition_error "experiment must declare at least one branch");
  refuse (max_branches_per_experiment limits <? size_of (spec_branches spec))
    (limits_error "experiment declares more branches than the configured bound");
  check (validate_metric_specs limits [] (spec_metrics spec));
  check (validate_branch_specs limits [] (spec_branches spec));
  refuse (spec_require_baseline spec && negb (existsb is_baseline_spec (spec_branches spec)))
    (definition_error "policy requires a baseline branch but none is designated");
  refuse (max_comparison_rules limits <? size_of (spec_rules spec)) (limits_error "too many comparison rules");
  check (check_each (validate_rule_spec (map mspec_name (spec_metrics spec))) (spec_rules spec));
  refuse (has_duplicate_parameter_key (spec_parameters spec))
    (definition_error "duplicate experiment parameter key");
  refuse (10000 <? spec_majority_wins_min_basis_points spec)
    (definition_error "majority-wins basis points out of range");
  refuse ((spec_max_attempts_per_trial spec =? 0)
          || (max_attempts_per_trial limits <? spec_max_attempts_per_trial spec))
    (limits_error "max attempts per trial is out of range");
  refuse (spec_require_baseline spec && (size_of (spec_branches spec) <? 2))
    (definition_error "baseline comparison requires a baseline and at least one candidate branch");
  success.

(** ** From a specification to a definition *)

(** [std::map<std::string, V>] used by name only: the first entry wins, as
    [emplace] keeps it. *)
Fixpoint name_find {V} (name : string) (entries : list (string * V)) : option V :=
  match entries with
  | [] => None
  | (name', v) :: rest => if String.eqb name name' then Some v else name_find name rest
  end.

Definition build_metric (id : Z) (m : MetricSpec) : MetricDefinition := {|
  metric_id := id;
  metric_name := mspec_name m;
  metric_unit := mspec_unit m;
  metric_kind := mspec_kind m;
  metric_direction := mspec_direction m;
  metric_aggregation := mspec_aggregation m;
  metric_required := mspec_required m;
  metric_accepts_non_finite := mspec_accepts_non_finite m;
  metric_lower_bound := mspec_lower_bound m;
  metric_upper_bound := mspec_upper_bound m;
  metric_target_low := mspec_target_low m;
  metric_target_high := mspec_target_high m;
  metric_weight := mspec_weight m;
  metric_priority := mspec_priority m;
  metric_categories := mspec_categories m |}.

(** The metric loop: each metric draws the next value of
    [id_watermark_metric]; the final watermark is returned with the metrics. *)
Fixpoint build_metrics (watermark : Z) (metrics : list MetricSpec) : Z * list MetricDefinition :=
  match metrics with
  | [] => (watermark, [])
  | m :: rest =>
      let id := u64 (watermark + 1) in
      let '(watermark', built) := build_metrics id rest in
      (watermark', build_metric id m :: built)
  end.

Definition metric_names_of (metrics : list MetricDefinition) : list (string * Z) :=
  map (fun m => (metric_name m, metric_id m)) metrics.

(** [metric_ids.at(rule_spec.metric)]; [validate_spec] has checked the name. *)
Definition build_rule (names : list (string * Z)) (r : ComparisonRuleSpec) : ComparisonRule := {|
  rule_metric := default 0 (name_find (rspec_metric r) names);
  rule_op := rspec_op r;
  rule_threshold := rspec_threshold r;
  rule_target_low := rspec_target_low r;
  rule_target_high := rspec_target_high r;
  rule_priority := rspec_priority r |}.

(** Each assignment replaces the inherited ones of its key and goes last. *)
Definition override_parameters (inherited overrides : list ParameterAssignment) : list ParameterAssignment :=
  foldl (fun merged assignment =>
    List.filter (fun candidate => negb (String.eqb (param_key candidate) (param_key assignment))) merged
    ++ [assignment]) inherited overrides.

Definition build_root_branch (id sequence : Z) (b : BranchSpec) : BranchDefinition :=
  default_BranchDefinition
    <| branch_id := id |>
    <| branch_name := bspec_name b |>
    <| branch_role := bspec_role b |>
    <| branch_generation := 1 |>
    <| branch_state := BranchState.ACTIVE |>
    <| branch_parameters := normalize_parameters (bspec_parameters b) |>
    <| branch_input_set := match bspec_input_set b with Some s => fnv1a64 s | None => 0 end |>
    <| branch_input_set_present := bool_decide (is_Some (bspec_input_set b)) |>
    <| branch_environment := match bspec_environment b with Some s => fnv1a64 s | None => 0 end |>
    <| branch_environment_present := bool_decide (is_Some (bspec_environment b)) |>
    <| branch_environment_fingerprint := bspec_environment_fingerprint b |>
    <| branch_seed := bspec_seed b |>
    <| branch_planned_trials := bspec_planned_trials b |>
    <| branch_created_sequence := sequence |>.

(** What a branch that forks from an earlier branch of the specification takes
    from that branch's own specification. *)
Definition inherit_from_spec (parent_id : Z) (parent : BranchSpec) (branch : BranchDefinition) : BranchDefinition :=
  let branch := branch
    <| branch_parent := parent_id |>
    <| branch_forked := true |>
    <| branch_parameters := normalize_parameters
         (override_parameters (normalize_parameters (bspec_parameters parent)) (branch_parameters branch)) |> in
  let branch :=
    match bspec_input_set parent with
    | Some s => if branch_input_set_present branch then branch
                else branch <| branch_input_set := fnv1a64 s |> <| branch_input_set_present := true |>
    | None => branch
    end in
  let branch :=
    match bspec_environment parent with
    | Some s => if branch_environment_present branch then branch
                else branch <| branch_environment := fnv1a64 s |> <| branch_environment_present := true |>
    | None => branch
    end in
  if str_empty (branch_environment_fingerprint branch)
  then branch <| branch_environment_fingerprint := bspec_environment_fingerprint parent |>
  else branch.

(** The branch loop: [known] is [branch_ids] and [branch_specs]; the watermark
    advances even when the pass stops at an unknown fork parent. *)
Fixpoint build_branches (sequence watermark : Z) (known : list (string * (Z * BranchSpec)))
    (branches : list BranchSpec) : Z * Result (list BranchDefinition) :=
  match branches with
  | [] => (watermark, Ok [])
  | b :: rest =>
      let id := u64 (watermark + 1) in
      let root := build_root_branch id sequence b in
      let continue branch :=
        let '(watermark', built) :=
          build_branches sequence id (known ++ [(bspec_name b, (id, b))]) rest in
        (watermark', match built with Ok l => Ok (branch :: l) | Err e => Err e end) in
      match bspec_fork_from b with
      | None => continue root
      | Some parent =>
          match name_find parent known with
          | None => (id, Err (definition_error
              "branch fork parent must be declared earlier in the specification"))
          | Some (parent_id, parent_spec) => continue (inherit_from_spec parent_id parent_spec root)
          end
      end
  end.

Definition build_policy (id : Z) (names : list (string * Z)) (spec : ExperimentSpec) : ComparisonPolicy := {|
  policy_id := id;
  policy_generation := 1;
  policy_require_baseline := spec_require_baseline spec;
  policy_min_completed_trials_per_branch := spec_min_completed_trials_per_branch spec;
  policy_min_valid_observations_per_required_metric := spec_min_valid_observations_per_required_metric spec;
  policy_reject_on_any_invalid_observation := spec_reject_on_any_invalid_observation spec;
  policy_require_environment_match := spec_require_environment_match spec;
  policy_majority_wins_min_basis_points := spec_majority_wins_min_basis_points spec;
  policy_use_weighted_score := spec_use_weighted_score spec;
  policy_accept_score_threshold := spec_accept_score_threshold spec;
  policy_rules := map (build_rule names) (spec_rules spec) |}.
