(* ===== verification/Coordinator.v ===== *)
(** * The coordinator's state and definition operations (coordinator.cpp)

    [Impl] is the coordinator object: configuration, durable state, the epoch
    of this process, the live workers and the identity indexes.  Every
    operation is a function from [Impl] to [Impl] and a result; an early return
    gives back the state as the code has left it.  Each runs under the one
    state lock, so a call is one atomic step.

    Persistence is an interface, [Storage]: the coordinator sees whether a
    write of the whole state succeeded and what a load returns.  [World] is
    the part of the machine those calls act on. *)
From S2P Require Import Prelude OMap Error Domain Identity Float64 Model Hash Sorting Canonical State Wire Codec StateCodec Messages Spec.
#[local] Open Scope check_scope.

(** What persistence.hpp offers to the coordinator. *)
Class Storage := {
  World : Type;
  serialize : CoordinatorState -> Limits -> Result (list Z);
  save_image : string -> CoordinatorState -> Limits -> World -> World * Status;
  image_exists : string -> World -> bool;
  load_image : string -> Limits -> World -> Result CoordinatorState;
  discard_temporary_images : string -> World -> World * Result Z
}.

(** What the coordinator relies on: a save replaces the image atomically, so a
    later load sees the saved state, its texts cut at the bounds of the format,
    or what was there before; once it has reported success the image exists and
    nothing else can be loaded from it, and when it fails the image is as it
    was; and discarding the temporary images makes no other state loadable and
    keeps the image.  A refusal to serialize is an error. *)
Class StorageLaws `{Storage} : Prop := {
  serialize_refuses state limits status : serialize state limits = Err status -> status_ok status = false;
  save_image_atomic path state limits world world' status :
    state_keyed state -> save_image path state limits world = (world', status) ->
    forall path' limits' state', load_image path' limits' world' = Ok state' ->
      state' = clip_state state \/ load_image path' limits' world = Ok state';
  save_image_stored path state limits world world' status :
    state_keyed state -> save_image path state limits world = (world', status) -> status_ok status = true ->
    image_exists path world' = true
    /\ forall limits' state', load_image path limits' world' = Ok state' -> state' = clip_state state;
  save_image_refused path state limits world world' status :
    save_image path state limits world = (world', status) -> status_ok status = false ->
    image_exists path world' = image_exists path world
    /\ forall limits', load_image path limits' world' = load_image path limits' world;
  discard_preserves path world world' result :
    discard_temporary_images path world = (world', result) ->
    forall path' limits' state', load_image path' limits' world' = Ok state' ->
      load_image path' limits' world = Ok state';
  discard_keeps path world world' result :
    discard_temporary_images path world = (world', result) -> image_exists path world' = image_exists path world
}.

(** [Coordinator::Config], the members the core reads. *)
Record Config := mkConfig {
  config_limits : Limits;
  config_state_path : string;
  config_persist_on_mutation : bool;
  config_epoch_seed : Z;
  config_observer : bool
}.

(** What an installed observer is told, in order. *)
Inductive Notification :=
| OnEvent (event : string)
| OnDecision (decision : Decision).

Section Impl.
Context `{Storage}.

Record Impl := mkImpl {
  impl_config : Config;
  impl_limits : Limits;
  impl_state : CoordinatorState;
  impl_epoch : Z;
  impl_admitting_work : bool;
  impl_persistence_degraded : bool;
  impl_live_workers : omap (Z * Z) LiveWorker;
  impl_observation_index : omap Z (omap Z nat);
  impl_artifact_index : omap Z (omap Z nat);
  impl_notified : list Notification;
  impl_world : World
}.
#[global] Instance etaImpl : Eta Impl := fun r =>
  mkImpl (impl_config r) (impl_limits r) (impl_state r) (impl_epoch r) (impl_admitting_work r)
    (impl_persistence_degraded r) (impl_live_workers r) (impl_observation_index r)
    (impl_artifact_index r) (impl_notified r) (impl_world r).

(** A status-returning and a value-returning operation. *)
Definition Call (A : Type) : Type := Impl * A.

(** ** Identity allocation

    [++watermark] in 64 bits; the drawn identity is the new watermark. *)
Definition increment (v : Z) : Z := u64 (v + 1).

Definition alloc_experiment_id (impl : Impl) : Z * Impl :=
  let v := increment (st_id_watermark_experiment (impl_state impl)) in
  (v, impl <| impl_state ::= fun s => s <| st_id_watermark_experiment := v |> |>).
Definition alloc_hypothesis_id (impl : Impl) : Z * Impl :=
  let v := increment (st_id_watermark_hypothesis (impl_state impl)) in
  (v, impl <| impl_state ::= fun s => s <| st_id_watermark_hypothesis := v |> |>).
Definition alloc_branch_id (impl : Impl) : Z * Impl :=
  let v := increment (st_id_watermark_branch (impl_state impl)) in
  (v, impl <| impl_state ::= fun s => s <| st_id_watermark_branch := v |> |>).
Definition alloc_trial_id (impl : Impl) : Z * Impl :=
  let v := increment (st_id_watermark_trial (impl_state impl)) in
  (v, impl <| impl_state ::= fun s => s <| st_id_watermark_trial := v |> |>).
Definition alloc_attempt_id (impl : Impl) : Z * Impl :=
  let v := increment (st_id_watermark_attempt (impl_state impl)) in
  (v, impl <| impl_state ::= fun s => s <| st_id_watermark_attempt := v |> |>).
Definition alloc_observation_id (impl : Impl) : Z * Impl :=
  let v := increment (st_id_watermark_observation (impl_state impl)) in
  (v, impl <| impl_state ::= fun s => s <| st_id_watermark_observation := v |> |>).
Definition alloc_artifact_id (impl : Impl) : Z * Impl :=
  let v := increment (st_id_watermark_artifact (impl_state impl)) in
  (v, impl <| impl_state ::= fun s => s <| st_id_watermark_artifact := v |> |>).
Definition alloc_decision_id (impl : Impl) : Z * Impl :=
  let v := increment (st_id_watermark_decision (impl_state impl)) in
  (v, impl <| impl_state ::= fun s => s <| st_id_watermark_decision := v |> |>).
Definition alloc_rollback_id (impl : Impl) : Z * Impl :=
  let v := increment (st_id_watermark_rollback (impl_state impl)) in
  (v, impl <| impl_state ::= fun s => s <| st_id_watermark_rollback := v |> |>).

Definition next_sequence (impl : Impl) : Z * Impl :=
  let v := increment (st_last_sequence (impl_state impl)) in
  (v, impl <| impl_state ::= fun s => s <| st_last_sequence := v |> |>).
Definition current_sequence (impl : Impl) : Z := st_last_sequence (impl_state impl).

(** ** Lookup *)

Definition find_experiment (id : Z) (impl : Impl) : option ExperimentRecord :=
  om_find id (st_experiments (impl_state impl)).
Definition find_branch (record : ExperimentRecord) (id : Z) : option BranchDefinition :=
  find_branch_definition (def_branches (rec_definition record)) id.
Definition find_metric (record : ExperimentRecord) (id : Z) : option MetricDefinition :=
  List.find (fun metric => metric_id metric =? id) (def_metrics (rec_definition record)).
Definition find_live_worker (worker boot : Z) (impl : Impl) : option LiveWorker :=
  om_find (worker, boot) (impl_live_workers impl).

(** A write through the pointer [find_experiment] returned. *)
Definition put_experiment (id : Z) (record : ExperimentRecord) (impl : Impl) : Impl :=
  impl <| impl_state ::= fun s => s <| st_experiments ::= om_set id record |> |>.
(** A write through the pointer [find_branch] returned: the first match. *)
Fixpoint update_branch (id : Z) (f : BranchDefinition -> BranchDefinition) (branches : list BranchDefinition) :
    list BranchDefinition :=
  match branches with
  | [] => []
  | b :: rest => if branch_id b =? id then f b :: rest else b :: update_branch id f rest
  end.

(** [index[id] = position] for the elements of a vector. *)
Fixpoint index_from {A} (id : A -> Z) (position : nat) (l : list A) (index : omap Z nat) : omap Z nat :=
  match l with
  | [] => index
  | x :: rest => index_from id (S position) rest (om_set (id x) position index)
  end.

Definition rebuild_indexes (impl : Impl) : Impl :=
  impl
    <| impl_observation_index :=
         om_map (fun record => index_from obs_id 0 (rec_observations record) [])
           (st_experiments (impl_state impl)) |>
    <| impl_artifact_index :=
         om_map (fun record => index_from artifact_id 0 (rec_artifacts record) [])
           (st_experiments (impl_state impl)) |>.

(** [log]: a bounded lifecycle log, oldest line first. *)
Definition log_line (line : string) (lines : list string) : list string :=
  (if size_of lines >=? 65536 then tail lines else lines) ++ [line].
Definition log (line : string) (record : ExperimentRecord) : ExperimentRecord :=
  record <| rec_lifecycle_log ::= log_line line |>.

(** [persist_locked(required)]. *)
Definition persist_locked_if (required : bool) (impl : Impl) : Call Status :=
  if str_empty (config_state_path (impl_config impl)) then (impl, success)
  else if negb required && negb (config_persist_on_mutation (impl_config impl)) then (impl, success)
  else
    match serialize (impl_state impl) (impl_limits impl) with
    | Err e => (impl <| impl_persistence_degraded := true |>, e)
    | Ok _ =>
        let '(world, written) :=
          save_image (config_state_path (impl_config impl)) (impl_state impl) (impl_limits impl) (impl_world impl) in
        let impl := impl <| impl_world := world |> in
        if status_ok written then (impl <| impl_persistence_degraded := false |>, success)
        else (impl <| impl_persistence_degraded := true |>, written)
    end.
Definition persist_locked (impl : Impl) : Call Status := persist_locked_if true impl.

Definition notify_event (event : string) (impl : Impl) : Impl :=
  if config_observer (impl_config impl) then impl <| impl_notified ::= fun l => l ++ [OnEvent event] |> else impl.
Definition notify_decision (decision : Decision) (impl : Impl) : Impl :=
  if config_observer (impl_config impl) then impl <| impl_notified ::= fun l => l ++ [OnDecision decision] |> else impl.

(** [Coordinator::save] and [Coordinator::validate_state]. *)
Definition coordinator_save (impl : Impl) : Call Status := persist_locked impl.
Definition coordinator_validate_state (impl : Impl) : Status :=
  validate_state (impl_state impl) (impl_limits impl).

(** ** Recovery *)

Definition restart_detail : string := "coordinator restart: live process authority was not inherited".

(** Phase one on an attempt; the threaded state is the sequence counter and
    whether anything was touched. *)
Definition stage_attempt (acc : Z * bool) (attempt : AttemptRecord) : (Z * bool) * AttemptRecord :=
  if is_attempt_terminal (attempt_state attempt) then (acc, attempt)
  else
    let sequence := increment (fst acc) in
    ((sequence, true), attempt
      <| attempt_state := AttemptState.REVALIDATION_REQUIRED |>
      <| attempt_failure_kind := FailureKind.PRODUCER_LOSS |>
      <| attempt_failure_detail := restart_detail |>
      <| attempt_updated_sequence := sequence |>).

(** Phase one on a trial; the lifecycle log is threaded as well. *)
Definition stage_trial (acc : Z * bool * list string) (trial : TrialRecord) : (Z * bool * list string) * TrialRecord :=
  let '(sequence, touched, lines) := acc in
  if is_terminal (trial_state trial) then (acc, trial)
  else
    let lines := log_line ("recovery:trial " +:+ id_to_string (trial_id trial) +:+ " moved from "
                   +:+ trial_state_to_string (trial_state trial) +:+ " to REVALIDATION_REQUIRED")%string lines in
    let sequence := increment sequence in
    ((sequence, true, lines), trial
      <| trial_state := TrialState.REVALIDATION_REQUIRED |>
      <| trial_updated_sequence := sequence |>).

(** The body of phase one's loop over the experiments. *)
Definition stage_record (sequence : Z) (record : ExperimentRecord) : Z * bool * bool * ExperimentRecord :=
  let reopened := bool_decide (rec_state record = ExperimentState.RECOVERING) in
  let record := if reopened then record <| rec_state := ExperimentState.OPEN |> else record in
  let '((sequence, touched), attempts) := om_map_acc stage_attempt (sequence, false) (rec_attempts record) in
  let '((sequence, touched, lines), trials) :=
    om_map_acc stage_trial (sequence, touched, rec_lifecycle_log record) (rec_trials record) in
  (sequence, touched, reopened, record
    <| rec_attempts := attempts |> <| rec_trials := trials |> <| rec_lifecycle_log := lines |>).

(** Phase one, over the keys of the experiment map: the conservative state of
    each touched experiment is durable before the next one is visited. *)
Fixpoint stage_recovered (keys : list Z) (changed : bool) (impl : Impl) : Call (Result bool) :=
  match keys with
  | [] => (impl, Ok changed)
  | id :: rest =>
      match find_experiment id impl with
      | None => stage_recovered rest changed impl
      | Some record =>
          let '(sequence, touched, reopened, record) :=
            stage_record (st_last_sequence (impl_state impl)) record in
          let impl := put_experiment id record impl in
          let impl := impl <| impl_state ::= fun s => s <| st_last_sequence := sequence |> |> in
          let changed := changed || reopened || touched in
          if touched then
            let '(impl, staged) := persist_locked impl in
            if status_ok staged then stage_recovered rest changed impl else (impl, Err staged)
          else stage_recovered rest changed impl
      end
  end.

(** Phase two resolves the attempts of one trial. *)
Definition abandon_recovered_attempt (trial : Z) (sequence : Z) (attempt : AttemptRecord) : Z * AttemptRecord :=
  if negb (attempt_trial attempt =? trial) || is_attempt_terminal (attempt_state attempt) then (sequence, attempt)
  else
    let sequence := increment sequence in
    (sequence, attempt
      <| attempt_state := AttemptState.ABANDONED |>
      <| attempt_failure_kind := FailureKind.PRODUCER_LOSS |>
      <| attempt_failure_detail := "recovered: the previous process incarnation holds no authority" |>
      <| attempt_updated_sequence := sequence |>).

(** Whether a recovered trial may be attempted again. *)
Definition recoverable (record : ExperimentRecord) (trial : TrialRecord) : bool :=
  let branch_eligible :=
    match find_branch record (trial_branch trial) with
    | Some branch => is_branch_eligible (branch_state branch)
                     && (branch_generation branch =? trial_branch_generation trial)
    | None => false
    end in
  (trial_attempt_count trial <? def_max_attempts_per_trial (rec_definition record))
  && branch_eligible && is_experiment_mutable (rec_state record)
  && (trial_generation trial =? def_generation (rec_definition record)).

Definition resolve_trial (record : ExperimentRecord) (trial : TrialRecord) : TrialRecord :=
  if recoverable record trial then
    trial
      <| trial_state := TrialState.READY |>
      <| trial_authoritative_attempt := 0 |>
      <| trial_next_attempt_number := u32 (trial_attempt_count trial + 1) |>
      <| trial_failure_kind := FailureKind.PRODUCER_LOSS |>
      <| trial_failure_detail := "recovered: fresh attempt required before the trial can complete" |>
  else
    trial
      <| trial_state := TrialState.FAILED |>
      <| trial_failure_kind := FailureKind.PRODUCER_LOSS |>
      <| trial_failure_detail := "recovered: no authoritative completion and no retry budget remains" |>.

(** The body of phase two's loop over the trials of an experiment: the key is
    the trial's, the threaded state the sequence counter and the record. *)
Definition resolve_in_record (acc : Z * ExperimentRecord) (key : Z) : Z * ExperimentRecord :=
  let '(sequence, record) := acc in
  match om_find key (rec_trials record) with
  | None => acc
  | Some trial =>
      if bool_decide (trial_state trial = TrialState.REVALIDATION_REQUIRED) then
        let outcome := if recoverable record trial then " resolved to READY" else " resolved to FAILED" in
        let resolved := resolve_trial record trial in
        let record := log ("recovery:trial " +:+ id_to_string (trial_id trial) +:+ outcome)%string record in
        let '(sequence, attempts) :=
          om_map_acc (abandon_recovered_attempt (trial_id trial)) sequence (rec_attempts record) in
        let sequence := increment sequence in
        (sequence, record
          <| rec_attempts := attempts |>
          <| rec_trials ::= om_set key (resolved <| trial_updated_sequence := sequence |>) |>)
      else acc
  end.

Definition resolve_record (sequence : Z) (record : ExperimentRecord) : Z * ExperimentRecord :=
  foldl resolve_in_record (sequence, record) (om_keys (rec_trials record)).

Definition resolve_recovered (impl : Impl) : Impl :=
  let '(sequence, experiments) :=
    om_map_acc resolve_record (st_last_sequence (impl_state impl)) (st_experiments (impl_state impl)) in
  impl <| impl_state ::= fun s => s <| st_last_sequence := sequence |> <| st_experiments := experiments |> |>.

(** [Coordinator::reconcile_recovered_state]. *)
Definition reconcile_recovered_state (impl : Impl) : Call Status :=
  match stage_recovered (om_keys (st_experiments (impl_state impl))) false impl with
  | (impl, Err e) => (impl, e)
  | (impl, Ok false) => (impl, success)
  | (impl, Ok true) => persist_locked (resolve_recovered impl)
  end.

(** [Coordinator::create]: a failure yields no coordinator; the world keeps
    what has been written. *)
Definition create (config : Config) (world : World) : World * Result Impl :=
  if negb (is_coherent (config_limits config)) then
    (world, Err (invalid_argument "limits configuration is not coherent"))
  else
    let fresh := default_CoordinatorState <| st_format_version := kPersistenceFormatVersion |> in
    let '(world, loaded) :=
      if str_empty (config_state_path config) then (world, Ok fresh)
      else
        match discard_temporary_images (config_state_path config) world with
        | (world, Err e) => (world, Err e)
        | (world, Ok _) =>
            if image_exists (config_state_path config) world
            then (world, load_image (config_state_path config) (config_limits config) world)
            else (world, Ok fresh)
        end in
    match loaded with
    | Err e => (world, Err e)
    | Ok state =>
        let next_epoch := u64 (st_last_epoch state + 1) in
        let next_epoch :=
          if negb (config_epoch_seed config =? 0) && (next_epoch <? config_epoch_seed config)
          then config_epoch_seed config else next_epoch in
        let next_epoch := if next_epoch =? 0 then 1 else next_epoch in
        let impl := mkImpl config (config_limits config) (state <| st_last_epoch := next_epoch |>) next_epoch
                      true false [] [] [] [] world in
        let '(impl, recovered) := reconcile_recovered_state (rebuild_indexes impl) in
        if status_ok recovered then (impl_world impl, Ok impl) else (impl_world impl, Err recovered)
    end.

(** ** Definition operations *)

(** The record [create_experiment] stores. *)
Definition new_record (experiment hypothesis policy sequence : Z) (spec : ExperimentSpec)
    (metrics : list MetricDefinition) (branches : list BranchDefinition) (expected_metric : Z) : ExperimentRecord :=
  let definition := default_ExperimentDefinition
    <| def_id := experiment |>
    <| def_generation := 1 |>
    <| def_name := spec_name spec |>
    <| def_hypothesis := hypothesis |>
    <| def_hypothesis_revision := 1 |>
    <| def_provenance := spec_provenance spec |>
    <| def_seed_policy := spec_seed_policy spec |>
    <| def_experiment_seed := spec_experiment_seed spec |>
    <| def_retry_policy := spec_retry_policy spec |>
    <| def_max_attempts_per_trial := spec_max_attempts_per_trial spec |>
    <| def_partial_failure_policy := spec_partial_failure_policy spec |>
    <| def_late_evidence_policy := spec_late_evidence_policy spec |>
    <| def_parameters := normalize_parameters (spec_parameters spec) |>
    <| def_created_sequence := sequence |>
    <| def_metrics := metrics |>
    <| def_policy := build_policy policy (metric_names_of metrics) spec |>
    <| def_branches := branches |> in
  let hypothesis := default_HypothesisRec
    <| hyp_id := hypothesis |>
    <| hyp_revision := 1 |>
    <| hyp_statement := spec_hypothesis_statement spec |>
    <| hyp_expected_direction := spec_expected_direction spec |>
    <| hyp_expected_metric := expected_metric |>
    <| hyp_provenance := spec_provenance spec |>
    <| hyp_created_sequence := sequence |> in
  log ("experiment-created generation=" +:+ id_to_string 1)%string
    (default_ExperimentRecord
      <| rec_created_sequence := sequence |>
      <| rec_revision_sequence := sequence |>
      <| rec_state := ExperimentState.OPEN |>
      <| rec_definition := definition |>
      <| rec_hypothesis := hypothesis |>).

(** [Coordinator::create_experiment]. *)
Definition create_experiment (spec : ExperimentSpec) (impl : Impl) : Call (Result Z) :=
  let valid := validate_spec spec (impl_limits impl) in
  if negb (status_ok valid) then (impl, Err valid)
  else if negb (impl_admitting_work impl) then
    (impl, Err (make_error ErrorCode.SHUTTING_DOWN ErrorStage.SHUTDOWN "coordinator is shutting down"))
  else if max_experiments (impl_limits impl) <=? size_of (st_experiments (impl_state impl)) then
    (impl, Err (limits_error "too many experiments"))
  else
    let '(experiment, impl) := alloc_experiment_id impl in
    if om_mem experiment (st_experiments (impl_state impl)) then
      (impl, Err (make_error ErrorCode.ALREADY_EXISTS ErrorStage.IDENTITY "experiment identity collision"))
    else
      let '(sequence, impl) := next_sequence impl in
      let '(hypothesis, impl) := alloc_hypothesis_id impl in
      let '(metric_watermark, metrics) :=
        build_metrics (st_id_watermark_metric (impl_state impl)) (spec_metrics spec) in
      let impl := impl <| impl_state ::= fun s => s <| st_id_watermark_metric := metric_watermark |> |> in
      match match spec_expected_metric spec with
            | None => Some 0
            | Some name => name_find name (metric_names_of metrics)
            end with
      | None => (impl, Err (definition_error "hypothesis references an unknown expected metric name"))
      | Some expected_metric =>
          let policy := increment (st_id_watermark_policy (impl_state impl)) in
          let impl := impl <| impl_state ::= fun s => s <| st_id_watermark_policy := policy |> |> in
          let '(branch_watermark, built) :=
            build_branches sequence (st_id_watermark_branch (impl_state impl)) [] (spec_branches spec) in
          let impl := impl <| impl_state ::= fun s => s <| st_id_watermark_branch := branch_watermark |> |> in
          match built with
          | Err e => (impl, Err e)
          | Ok branches =>
              let record := new_record experiment hypothesis policy sequence spec metrics branches expected_metric in
              let erase impl := impl <| impl_state ::= fun s => s <| st_experiments ::= om_erase experiment |> |> in
              let impl := impl <| impl_state ::= fun s => s <| st_experiments ::= om_emplace experiment record |> |> in
              let validated :=
                match find_experiment experiment impl with
                | None => make_error ErrorCode.INTERNAL ErrorStage.IDENTITY "the new experiment record was not stored"
                | Some stored => validate_experiment_record stored (impl_limits impl) experiment
                end in
              if negb (status_ok validated) then (erase impl, Err validated)
              else
                let '(impl, persisted) := persist_locked impl in
                if negb (status_ok persisted) then (erase impl, Err persisted)
                else (notify_event ("experiment-created:" +:+ id_to_string experiment)%string impl, Ok experiment)
          end
      end.

(** [abandon_stale_live_work]. *)
Definition generation_change : string := "superseded by an experiment generation change".
Definition abandon_attempt (kind : FailureKind) (detail : string) (sequence : Z) (attempt : AttemptRecord) : AttemptRecord :=
  attempt
    <| attempt_state := AttemptState.ABANDONED |>
    <| attempt_failure_kind := kind |>
    <| attempt_failure_detail := detail |>
    <| attempt_updated_sequence := sequence |>.
Definition supersede_trial (detail : string) (sequence : Z) (trial : TrialRecord) : TrialRecord :=
  trial
    <| trial_state := TrialState.SUPERSEDED |>
    <| trial_failure_kind := FailureKind.EXPERIMENT_INVALIDATION |>
    <| trial_failure_detail := detail |>
    <| trial_updated_sequence := sequence |>.
Definition abandon_stale_live_work (sequence : Z) (record : ExperimentRecord) : ExperimentRecord :=
  record
    <| rec_attempts ::= om_map (fun attempt =>
         if is_attempt_terminal (attempt_state attempt) then attempt
         else abandon_attempt FailureKind.EXPERIMENT_INVALIDATION generation_change sequence attempt) |>
    <| rec_trials ::= om_map (fun trial =>
         if is_terminal (trial_state trial) then trial
         else supersede_trial generation_change sequence trial) |>.

(** [Coordinator::revise_hypothesis]: the record after the revision. *)
Definition revise_record (spec : HypothesisRevisionSpec) (sequence : Z) (record : ExperimentRecord) : ExperimentRecord :=
  let revision := u64 (hyp_revision (rec_hypothesis record) + 1) in
  let superseded := (rec_hypothesis record)
    <| hyp_superseded := true |> <| hyp_superseded_by_revision := revision |> in
  let record := record
    <| rec_hypothesis_history ::= fun history => history ++ [superseded] |>
    <| rec_hypothesis ::= fun hypothesis => hypothesis
         <| hyp_revision := revision |>
         <| hyp_statement := hspec_statement spec |>
         <| hyp_expected_direction := hspec_expected_direction spec |>
         <| hyp_expected_metric := hspec_expected_metric spec |>
         <| hyp_provenance := hspec_provenance spec |>
         <| hyp_created_sequence := sequence |>
         <| hyp_superseded := false |>
         <| hyp_superseded_by_revision := 0 |> |>
    <| rec_definition ::= fun definition => definition
         <| def_hypothesis_revision := revision |>
         <| def_generation := u64 (def_generation definition + 1) |> |>
    <| rec_revision_sequence := sequence |> in
  let record := abandon_stale_live_work sequence record in
  log ("hypothesis-revised revision=" +:+ id_to_string (hyp_revision (rec_hypothesis record))
       +:+ " generation=" +:+ id_to_string (def_generation (rec_definition record)))%string record.

Definition revise_hypothesis (experiment : Z) (spec : HypothesisRevisionSpec) (impl : Impl) : Call (Result Z) :=
  match find_experiment experiment impl with
  | None => (impl, Err (not_found "experiment does not exist"))
  | Some record =>
      if negb (is_experiment_mutable (rec_state record)) then
        (impl, Err (lifecycle_error ErrorCode.INVALID_TRANSITION
                      "experiment does not accept new hypothesis revisions"))
      else if str_empty (hspec_statement spec)
              || (max_statement_length (impl_limits impl) <? str_size (hspec_statement spec)) then
        (impl, Err (definition_error "hypothesis statement is empty or too long"))
      else if id_valid (hspec_expected_metric spec)
              && negb (bool_decide (is_Some (find_metric record (hspec_expected_metric spec)))) then
        (impl, Err (definition_error "hypothesis references an unknown metric"))
      else
        let '(sequence, impl) := next_sequence impl in
        let record := revise_record spec sequence record in
        let '(impl, persisted) := persist_locked (put_experiment experiment record impl) in
        if negb (status_ok persisted) then (impl, Err persisted)
        else (notify_event ("hypothesis-revised:" +:+ id_to_string experiment)%string impl,
              Ok (hyp_revision (rec_hypothesis record)))
  end.

(** [Coordinator::fork_branch]: the branch it appends. *)
Definition forked_branch (id sequence parent : Z) (parent_branch : BranchDefinition) (spec : BranchSpec) : BranchDefinition :=
  default_BranchDefinition
    <| branch_id := id |>
    <| branch_name := bspec_name spec |>
    <| branch_role := bspec_role spec |>
    <| branch_parent := parent |>
    <| branch_generation := 1 |>
    <| branch_state := BranchState.ACTIVE |>
    <| branch_created_sequence := sequence |>
    <| branch_forked := true |>
    <| branch_planned_trials := bspec_planned_trials spec |>
    <| branch_parameters := normalize_parameters
         (override_parameters (normalize_parameters (branch_parameters parent_branch))
            (normalize_parameters (bspec_parameters spec))) |>
    <| branch_input_set := branch_input_set parent_branch |>
    <| branch_input_set_present := branch_input_set_present parent_branch |>
    <| branch_environment := branch_environment parent_branch |>
    <| branch_environment_present := branch_environment_present parent_branch |>
    <| branch_environment_fingerprint := branch_environment_fingerprint parent_branch |>
    <| branch_seed := match bspec_seed spec with Some s => Some s | None => branch_seed parent_branch end |>.

Definition push_branch (branch : BranchDefinition) (record : ExperimentRecord) : ExperimentRecord :=
  record <| rec_definition ::= fun d => d <| def_branches ::= fun l => l ++ [branch] |> |>.
(** [branches.pop_back()]. *)
Definition pop_branch (record : ExperimentRecord) : ExperimentRecord :=
  record <| rec_definition ::= fun d => d <| def_branches ::= fun l => removelast l |> |>.

(** The conditions under which [fork_branch] refuses, in order. *)
Definition fork_refusal (record : ExperimentRecord) (parent_branch : BranchDefinition) (spec : BranchSpec)
    (limits : Limits) : Status :=
  let branches := def_branches (rec_definition record) in
  refuse (bool_decide (branch_state parent_branch = BranchState.INVALID)
          || bool_decide (branch_state parent_branch = BranchState.SUPERSEDED))
    (lifecycle_error ErrorCode.STALE_BRANCH "parent branch is not eligible for forking");
  refuse (max_branches_per_experiment limits <=? size_of branches) (limits_error "too many branches");
  refuse (str_empty (bspec_name spec) || (max_name_length limits <? str_size (bspec_name spec)))
    (definition_error "branch name is empty or too long");
  refuse (existsb (fun existing => String.eqb (branch_name existing) (bspec_name spec)) branches)
    (make_error ErrorCode.ALREADY_EXISTS ErrorStage.DEFINITION "branch name already exists");
  refuse ((bspec_planned_trials spec =? 0) || (max_trials_per_branch limits <? bspec_planned_trials spec))
    (limits_error "branch planned trial count is out of range");
  refuse (has_duplicate_parameter_key (bspec_parameters spec))
    (definition_error "duplicate branch parameter key");
  refuse (existsb (fun existing => bool_decide (branch_role existing = BranchRole.BASELINE)) branches
          && is_baseline_spec spec)
    (definition_error "an experiment generation may designate only one baseline branch");
  success.

Definition fork_branch (experiment parent : Z) (spec : BranchSpec) (impl : Impl) : Call (Result Z) :=
  match find_experiment experiment impl with
  | None => (impl, Err (not_found "experiment does not exist"))
  | Some record =>
      if negb (is_experiment_mutable (rec_state record)) then
        (impl, Err (lifecycle_error ErrorCode.INVALID_TRANSITION "experiment does not accept new branches"))
      else
        match find_branch record parent with
        | None => (impl, Err (not_found "parent branch does not exist"))
        | Some parent_branch =>
            let refusal := fork_refusal record parent_branch spec (impl_limits impl) in
            if negb (status_ok refusal) then (impl, Err refusal)
            else
              let '(sequence, impl) := next_sequence impl in
              let '(id, impl) := alloc_branch_id impl in
              let record := push_branch (forked_branch id sequence parent parent_branch spec) record in
              let record := record <| rec_revision_sequence := sequence |> in
              let record := log ("branch-forked branch=" +:+ id_to_string id +:+ " parent="
                                 +:+ id_to_string parent)%string record in
              let validated := validate_experiment_record record (impl_limits impl) experiment in
              if negb (status_ok validated) then (put_experiment experiment (pop_branch record) impl, Err validated)
              else
                let '(impl, persisted) := persist_locked (put_experiment experiment record impl) in
                if negb (status_ok persisted) then (put_experiment experiment (pop_branch record) impl, Err persisted)
                else (notify_event ("branch-forked:" +:+ id_to_string id)%string impl, Ok id)
        end
  end.

(** [Coordinator::retire_branch]: the record after retiring. *)
Definition retire_record (branch : Z) (reason : string) (sequence : Z) (record : ExperimentRecord) : ExperimentRecord :=
  let detail := ("branch retired: " +:+ reason)%string in
  let record := record
    <| rec_definition ::= fun d => d <| def_branches ::= update_branch branch (fun b => b
         <| branch_state := BranchState.RETIRED |>
         <| branch_generation := u64 (branch_generation b + 1) |>) |> |>
    <| rec_trials ::= om_map (fun trial =>
         if negb (trial_branch trial =? branch) || is_terminal (trial_state trial) then trial
         else supersede_trial detail sequence trial) |>
    <| rec_attempts ::= om_map (fun attempt =>
         if negb (attempt_branch attempt =? branch) || is_attempt_terminal (attempt_state attempt) then attempt
         else abandon_attempt FailureKind.EXPERIMENT_INVALIDATION detail sequence attempt) |>
    <| rec_revision_sequence := sequence |> in
  log ("branch-retired branch=" +:+ id_to_string branch +:+ " reason=" +:+ reason)%string record.

Definition retire_branch (experiment branch : Z) (reason : string) (impl : Impl) : Call (Result Z) :=
  match find_experiment experiment impl with
  | None => (impl, Err (not_found "experiment does not exist"))
  | Some record =>
      match find_branch record branch with
      | None => (impl, Err (not_found "branch does not exist"))
      | Some definition =>
          if negb (is_valid_branch_transition (branch_state definition) BranchState.RETIRED) then
            (impl, Err (invalid_transition_status "branch" (branch_state_to_string (branch_state definition)) "RETIRED"))
          else
            let '(sequence, impl) := next_sequence impl in
            let record := retire_record branch reason sequence record in
            let '(impl, persisted) := persist_locked (put_experiment experiment record impl) in
            if negb (status_ok persisted) then (impl, Err persisted)
            else (notify_event ("branch-retired:" +:+ id_to_string branch)%string impl, Ok branch)
      end
  end.

(** [Coordinator::create_trial]: the trial it stores. *)
Definition new_trial (id experiment sequence : Z) (record : ExperimentRecord) (branch : BranchDefinition)
    (branch_key : Z) (payload : string) : TrialRecord :=
  let definition := rec_definition record in
  default_TrialRecord
    <| trial_id := id |>
    <| trial_experiment := experiment |>
    <| trial_generation := def_generation definition |>
    <| trial_branch := branch_key |>
    <| trial_branch_generation := branch_generation branch |>
    <| trial_hypothesis := def_hypothesis definition |>
    <| trial_hypothesis_revision := def_hypothesis_revision definition |>
    <| trial_policy := policy_id (def_policy definition) |>
    <| trial_policy_generation := policy_generation (def_policy definition) |>
    <| trial_state := TrialState.READY |>
    <| trial_next_attempt_number := 1 |>
    <| trial_input_set := branch_input_set branch |>
    <| trial_input_set_present := branch_input_set_present branch |>
    <| trial_environment := branch_environment branch |>
    <| trial_environment_present := branch_environment_present branch |>
    <| trial_environment_fingerprint := branch_environment_fingerprint branch |>
    <| trial_payload := payload |>
    <| trial_created_sequence := sequence |>
    <| trial_updated_sequence := sequence |>
    <| trial_seed :=
         match def_seed_policy definition with
         | SeedPolicy.FIXED => def_experiment_seed definition
         | SeedPolicy.DERIVED_PER_TRIAL => Some (derive_trial_seed (default 0 (def_experiment_seed definition)) id)
         | SeedPolicy.PRODUCER_SUPPLIED | SeedPolicy.NONE => None
         end |>.

(** Trials of the branch in the current generation. *)
Definition existing_trials (record : ExperimentRecord) (branch : Z) : Z :=
  u32 (size_of (List.filter (fun entry => (trial_branch (snd entry) =? branch)
    && (trial_generation (snd entry) =? def_generation (rec_definition record))) (rec_trials record))).

Definition create_trial (experiment branch : Z) (payload : string) (impl : Impl) : Call (Result Z) :=
  match find_experiment experiment impl with
  | None => (impl, Err (not_found "experiment does not exist"))
  | Some record =>
      if negb (is_experiment_mutable (rec_state record)) then
        (impl, Err (lifecycle_error ErrorCode.INVALID_TRANSITION "experiment does not accept new trials"))
      else
        match find_branch record branch with
        | None => (impl, Err (not_found "branch does not exist"))
        | Some definition =>
            if negb (is_branch_eligible (branch_state definition)) then
              (impl, Err (lifecycle_error ErrorCode.STALE_BRANCH "branch is not eligible for new trials"))
            else if max_payload_text_length (impl_limits impl) <? str_size payload then
              (impl, Err (limits_error "trial payload exceeds the configured bound"))
            else if branch_planned_trials definition <=? existing_trials record branch then
              (impl, Err (limits_error "branch already holds its planned number of trials"))
            else if size_of (def_branches (rec_definition record)) * max_trials_per_branch (impl_limits impl)
                    <=? size_of (rec_trials record) then
              (impl, Err (limits_error "experiment holds too many trials"))
            else
              let '(sequence, impl) := next_sequence impl in
              let '(id, impl) := alloc_trial_id impl in
              let trial := new_trial id experiment sequence record definition branch payload in
              let record := record <| rec_trials ::= om_emplace id trial |> in
              let record := log ("trial-created trial=" +:+ id_to_string id +:+ " branch="
                                 +:+ id_to_string branch)%string record in
              let undo record := record <| rec_trials ::= om_erase id |> in
              let validated := validate_experiment_record record (impl_limits impl) experiment in
              if negb (status_ok validated) then (put_experiment experiment (undo record) impl, Err validated)
              else
                let '(impl, persisted) := persist_locked (put_experiment experiment record impl) in
                if negb (status_ok persisted) then (put_experiment experiment (undo record) impl, Err persisted)
                else (notify_event ("trial-created:" +:+ id_to_string id)%string impl, Ok id)
        end
  end.

End Impl.
#[global] Arguments Impl {_}.
#[global] Arguments Call {_} _.
