(* ===== verification/Files.v ===== *)
(** * The commit protocol on a file system (persistence.cpp: save, load, discard)

    The machine's files as a map from directory and name to contents, and the
    operations the code performs on them.  What the environment decides - which
    of the coming I/O calls fail, and how much of a failed write reached the
    file - is a list of faults consumed call by call.

    [save] writes the image to a temporary file of the same directory and
    renames it over the live file.  The last part shows that this storage
    keeps the promises of the interface [StorageLaws], and that a crash at any
    point of a save leaves the live file with the old or the new image. *)
From S2P Require Import Prelude OMap Error Identity Domain Float64 Model Hash State Wire Codec StateCodec Persistence Messages Spec Coordinator.
From stdpp Require Import gmap.
#[local] Open Scope Z_scope.

(** ** The machine *)

(** A directory and a file name in it. *)
Abbreviation FileKey := (string * string)%type.

Record FileSystem := mkFileSystem {
  fs_files : gmap FileKey (list Z);
  fs_directories : gset string;
  fs_sequence : Z;               (** the counter behind temporary names *)
  fs_faults : list (option nat)  (** the coming I/O calls: [Some n] fails, after [n] bytes if it writes *)
}.
#[export] Instance etaFileSystem : Eta FileSystem := fun r =>
  mkFileSystem (fs_files r) (fs_directories r) (fs_sequence r) (fs_faults r).

(** The outcome of the next I/O call. *)
Definition next_fault (fs : FileSystem) : option nat * FileSystem :=
  match fs_faults fs with
  | [] => (None, fs)
  | fault :: rest => (fault, fs <| fs_faults := rest |>)
  end.

(** ** Paths *)

(** The part of [path] before its last slash, if it has one, and the rest. *)
Fixpoint split_path (path : string) : option string * string :=
  match path with
  | EmptyString => (None, ""%string)
  | String c rest =>
      match split_path rest with
      | (Some before, name) => (Some (String c before), name)
      | (None, name) => if Ascii.eqb c "/" then (Some ""%string, name) else (None, String c name)
      end
  end.

(** Separators at the end of a directory do not belong to its name. *)
Fixpoint trim_slashes (s : string) : string :=
  match s with
  | EmptyString => EmptyString
  | String c rest =>
      let trimmed := trim_slashes rest in
      if Ascii.eqb c "/" && str_empty trimmed then EmptyString else String c trimmed
  end.

Definition parent_path (path : string) : string :=
  match (split_path path).1 with
  | None => ""
  | Some before => let parent := trim_slashes before in if str_empty parent then "/" else parent
  end.
Definition filename (path : string) : string := (split_path path).2.

(** A path without a directory names a file of the working directory. *)
Definition has_parent (path : string) : bool := negb (str_empty (parent_path path)).
Definition locate (path : string) : FileKey :=
  (if str_empty (parent_path path) then "." else parent_path path, filename path).

Example locate_examples :
  (locate "state.bin", locate "/state.bin", locate "/var/lib//ef/state.bin")
  = ((".", "state.bin"), ("/", "state.bin"), ("/var/lib//ef", "state.bin"))%string.
Proof. reflexivity. Qed.

Definition temporary_prefix (name : string) : string := name +:+ ".tmp.".
(** [std::to_string] on an unsigned counter. *)
Definition temporary_key (key : FileKey) (sequence : Z) : FileKey :=
  (key.1, temporary_prefix key.2 +:+ id_to_string sequence).

(** ** [save] *)

(** [std::filesystem::remove], its error ignored. *)
Definition remove_file (key : FileKey) (fs : FileSystem) : bool * FileSystem :=
  let '(fault, fs) := next_fault fs in
  match fault with
  | Some _ => (false, fs)
  | None => (bool_decide (is_Some (fs_files fs !! key)), fs <| fs_files ::= delete key |>)
  end.

(** [create_directories]; the directory may have been there before. *)
Definition create_directories (directory : string) (fs : FileSystem) : FileSystem :=
  let '(fault, fs) := next_fault fs in
  match fault with
  | Some _ => fs
  | None => fs <| fs_directories ::= fun l => {[directory]} ∪ l |>
  end.

(** The stream on the temporary file: opened and truncated, written and
    flushed, closed; a failure removes the file.  The result is the failure. *)
Definition write_temporary (temporary : FileKey) (image : list Z) (fs : FileSystem) : FileSystem * option Status :=
  let '(fault, fs) := next_fault fs in
  if bool_decide (is_Some fault) || negb (bool_decide (temporary.1 ∈ fs_directories fs)) then
    (fs, Some (io_failure "cannot open the temporary state image for writing"))
  else
    let fs := fs <| fs_files ::= <[temporary := []]> |> in
    let '(fault, fs) := next_fault fs in
    match fault with
    | Some written =>
        let fs := fs <| fs_files ::= <[temporary := take written image]> |> in
        ((remove_file temporary fs).2, Some (io_failure "failed while writing the temporary state image"))
    | None =>
        let fs := fs <| fs_files ::= <[temporary := image]> |> in
        let '(fault, fs) := next_fault fs in
        match fault with
        | Some _ => ((remove_file temporary fs).2, Some (io_failure "failed while closing the temporary state image"))
        | None => (fs, None)
        end
    end.

(** [std::filesystem::rename]: the live file is replaced in one step. *)
Definition rename_file (from to : FileKey) (fs : FileSystem) : bool * FileSystem :=
  let '(fault, fs) := next_fault fs in
  match fault, fs_files fs !! from with
  | None, Some contents => (true, fs <| fs_files ::= fun files => <[to := contents]> (delete from files) |>)
  | _, _ => (false, fs)
  end.

(** [save] from the serialized image on. *)
Definition save_bytes (path : string) (image : list Z) (fs : FileSystem) : FileSystem * Status :=
  let key := locate path in
  let fs := if has_parent path then create_directories key.1 fs else fs in
  if has_parent path && negb (bool_decide (key.1 ∈ fs_directories fs)) then
    (fs, io_failure "cannot create the state directory")
  else
    let sequence := u64 (fs_sequence fs + 1) in
    let temporary := temporary_key key sequence in
    let '(fs, failure) := write_temporary temporary image (fs <| fs_sequence := sequence |>) in
    match failure with
    | Some s => (fs, s)
    | None =>
        let '(renamed, fs) := rename_file temporary key fs in
        if (renamed : bool) then (fs, success)
        else ((remove_file temporary fs).2, io_failure "atomic replacement of the state image failed")
    end.

Definition save (path : string) (state : CoordinatorState) (limits : Limits) (fs : FileSystem) : FileSystem * Status :=
  match serialize_image state limits with
  | Err s => (fs, s)
  | Ok image => save_bytes path image fs
  end.

(** ** [load] and [discard_temporary_images] *)

(** A read that fails: its size cannot be had, it cannot be opened, or it comes short. *)
Definition read_failure (stage : nat) : Status :=
  match stage with
  | 0%nat => io_failure "cannot determine the size of the state image"
  | 1%nat => io_failure "cannot open the state image for reading"
  | _ => corrupt "state image could not be read in full"
  end.

(** A load changes nothing; [fault] is what goes wrong with reading the file. *)
Definition load (path : string) (limits : Limits) (fault : option nat) (fs : FileSystem) : Result CoordinatorState :=
  match fs_files fs !! locate path with
  | None => Err (make_error ErrorCode.NOT_FOUND ErrorStage.PERSISTENCE "no persisted state image exists")
  | Some bytes =>
      if bool_decide (fault = Some 0%nat) then Err (read_failure 0)
      else if max_state_file_bytes limits <? size_of bytes then
        Err (make_error ErrorCode.RESOURCE_EXHAUSTED ErrorStage.LIMITS "state image exceeds the configured bound")
      else
        match fault with
        | Some stage => Err (read_failure stage)
        | None => deserialize_image bytes limits
        end
  end.

Definition is_temporary (key candidate : FileKey) : bool :=
  String.eqb candidate.1 key.1 && String.prefix (temporary_prefix key.2) candidate.2.

Definition discard (path : string) (fs : FileSystem) : FileSystem * Result Z :=
  let key := locate path in
  if negb (bool_decide (key.1 ∈ fs_directories fs)) then (fs, Ok 0)
  else
    let '(fs, removed) :=
      foldl (fun acc candidate =>
               let '(done, fs) := remove_file candidate acc.1 in
               (fs, if (done : bool) then u32 (acc.2 + 1) else acc.2))
        (fs, 0) (List.filter (is_temporary key) (map fst (map_to_list (fs_files fs)))) in
    (fs, Ok removed).

(** ** The storage interface

    The interface's load is the one whose reads succeed: a read that fails
    refuses the start and changes nothing.  A state outside [fits_image false]
    has a number outside its C++ type or a record of four gigabytes; no process
    holds one, and the storage refuses it. *)
Definition file_save (path : string) (state : CoordinatorState) (limits : Limits) (fs : FileSystem) : FileSystem * Status :=
  if fits_image false state then save path state limits fs
  else (fs, io_failure "the state is not a state of the program").

Definition file_storage : Storage := {|
  World := FileSystem;
  serialize := serialize_image;
  save_image := file_save;
  image_exists := fun path fs => bool_decide (is_Some (fs_files fs !! locate path));
  load_image := fun path limits fs => load path limits None fs;
  discard_temporary_images := discard
|}.

(** ** What a save leaves in the files *)

(** Every file of [fs'] is a file of [fs] or holds the first bytes of [image]. *)
Definition files_from (image : list Z) (fs fs' : FileSystem) : Prop :=
  forall key bytes, fs_files fs' !! key = Some bytes ->
    fs_files fs !! key = Some bytes \/ exists n, bytes = take n image.

#[global] Instance files_from_preorder image : PreOrder (files_from image).
Proof.
  split; [by left|]. intros fs1 fs2 fs3 H12 H23 key bytes Hk.
  destruct (H23 key bytes Hk) as [Hk2|Hn]; [by apply H12|by right].
Qed.

Lemma files_from_same image fs fs' : fs_files fs' = fs_files fs -> files_from image fs fs'.
Proof. intros Hf key bytes. rewrite Hf. by left. Qed.

Lemma files_from_put image fs key n :
  files_from image fs (fs <| fs_files ::= <[key := take n image]> |>).
Proof.
  intros key' bytes. simpl. destruct (decide (key' = key)) as [->|Hne].
  - rewrite lookup_insert_eq. intros [= <-]. right. by exists n.
  - rewrite lookup_insert_ne by done. by left.
Qed.

Lemma next_fault_files fs : fs_files (next_fault fs).2 = fs_files fs /\ fs_directories (next_fault fs).2 = fs_directories fs.
Proof. unfold next_fault. by case_match. Qed.

(** Removing takes files away and adds none. *)
Lemma remove_file_files key fs :
  fs_directories (remove_file key fs).2 = fs_directories fs
  /\ forall key', fs_files (remove_file key fs).2 !! key' = fs_files fs !! key'
              \/ key' = key /\ fs_files (remove_file key fs).2 !! key' = None.
Proof.
  unfold remove_file. destruct (next_fault fs) as [fault fs1] eqn:E.
  destruct (next_fault_files fs) as [Hf Hd]. rewrite E in Hf, Hd. simpl in Hf, Hd.
  destruct fault; simpl; rewrite ?Hd; (split; [done|]); intros key'; rewrite Hf; [by left|].
  destruct (decide (key' = key)) as [->|Hne]; [right|left].
  - by rewrite lookup_delete_eq.
  - by rewrite lookup_delete_ne.
Qed.

Lemma remove_file_from image key fs : files_from image fs (remove_file key fs).2.
Proof.
  destruct (remove_file_files key fs) as [_ Hr]. intros key' bytes Hk. left.
  destruct (Hr key') as [Heq|[_ Hn]]; congruence.
Qed.

(** Follow the next I/O call: its outcome and the same files. *)
Ltac next_call :=
  match goal with
  | |- context [next_fault ?fs] =>
      let E := fresh "E" in let Hf := fresh "Hf" in let Hd := fresh "Hd" in
      destruct (next_fault_files fs) as [Hf Hd]; destruct (next_fault fs) as [? ?] eqn:E; simpl in Hf, Hd
  end.

Lemma create_directories_files directory fs : fs_files (create_directories directory fs) = fs_files fs.
Proof. unfold create_directories. next_call. by case_match. Qed.

(** A written temporary file holds the whole image; nothing else has changed
    but, after a failure, part of it may stay. *)
Lemma write_temporary_files temporary image fs fs' failure :
  write_temporary temporary image fs = (fs', failure) ->
  files_from image fs fs'
  /\ (failure = None -> fs_files fs' = <[temporary := image]> (fs_files fs))
  /\ (forall s, failure = Some s -> status_ok s = false).
Proof.
  unfold write_temporary. next_call. destruct (_ || _).
  { intros [= <- <-]. split_and!; [by apply files_from_same|done|by intros s [= <-]]. }
  next_call. simpl in Hf0. destruct o0 as [written|].
  { intros [= <- <-]. split_and!; [|done|by intros s [= <-]].
    etransitivity; [|apply remove_file_from]. etransitivity; [|apply files_from_put].
    etransitivity; [by apply files_from_same|]. etransitivity; [apply (files_from_put image f temporary 0)|].
    by apply files_from_same. }
  next_call. simpl in Hf1.
  assert (Hput : files_from image fs f1).
  { etransitivity; [by apply files_from_same|]. etransitivity; [apply (files_from_put image f temporary 0)|].
    etransitivity; [by apply files_from_same|].
    etransitivity; [apply (files_from_put image f0 temporary (length image))|].
    apply files_from_same. rewrite Hf1. simpl. by rewrite firstn_all. }
  destruct o0 as [?|]; intros [= <- <-]; split_and!; try done.
  - etransitivity; [exact Hput|apply remove_file_from].
  - by intros s [= <-].
  - intros _. rewrite Hf1, Hf0. simpl. rewrite Hf. by rewrite insert_insert_eq.
Qed.

Lemma rename_file_files from to image fs renamed fs' :
  rename_file from to fs = (renamed, fs') ->
  (forall contents, fs_files fs !! from = Some contents -> contents = image) ->
  files_from image fs fs' /\ (renamed = true -> fs_files fs' !! to = Some image).
Proof.
  unfold rename_file. next_call. intros Heq Hc.
  destruct o as [?|]; [injection Heq as <- <-; split; [by apply files_from_same|done]|].
  destruct (fs_files f !! from) as [contents|] eqn:Hfrom; injection Heq as <- <-; [|split; [by apply files_from_same|done]].
  rewrite Hf in Hfrom. rewrite (Hc _ Hfrom). simpl. split; [|intros _; by rewrite lookup_insert_eq].
  intros key bytes. simpl. rewrite Hf. destruct (decide (key = to)) as [->|Hne].
  - rewrite lookup_insert_eq. intros [= <-]. right. exists (length image). by rewrite firstn_all.
  - rewrite lookup_insert_ne by done. rewrite lookup_delete_Some. intros [_ Hk]. by left.
Qed.

(** A save adds nothing but beginnings of the image, whatever fails, and once
    it reports success the live file holds the image. *)
Lemma save_bytes_files path image fs fs' status :
  save_bytes path image fs = (fs', status) ->
  files_from image fs fs' /\ (status_ok status = true -> fs_files fs' !! locate path = Some image).
Proof.
  unfold save_bytes. set (fs1 := if has_parent path then _ else fs).
  assert (Hfs1 : fs_files fs1 = fs_files fs).
  { unfold fs1. case_match; [apply create_directories_files|done]. }
  clearbody fs1. destruct (has_parent path && _); [intros [= <- <-]; split; [by apply files_from_same|done]|].
  destruct (write_temporary _ _ _) as [fs2 failure] eqn:Hw. apply write_temporary_files in Hw as (Hfrom & Hok & Hbad).
  assert (H12 : files_from image fs fs2) by (etransitivity; [by apply files_from_same|exact Hfrom]).
  destruct failure as [s|]; [intros [= <- <-]; split; [done|]; intros Hs; by rewrite (Hbad s) in Hs|].
  specialize (Hok eq_refl). destruct (rename_file _ _ _) as [renamed fs3] eqn:Hr.
  apply (rename_file_files _ _ image) in Hr as [H23 Hlive].
  2: { intros contents. rewrite Hok, lookup_insert_eq. by intros [= <-]. }
  destruct renamed; intros [= <- <-].
  - split; [by etransitivity|auto].
  - split; [|done]. etransitivity; [exact H12|]. etransitivity; [exact H23|apply remove_file_from].
Qed.

(** Until the rename, a save touches the temporary file alone. *)
Lemma remove_file_elsewhere key key' fs : key' <> key -> fs_files (remove_file key fs).2 !! key' = fs_files fs !! key'.
Proof. intros Hne. destruct (remove_file_files key fs) as [_ Hr]. by destruct (Hr key') as [|[? _]]. Qed.

Lemma write_temporary_elsewhere temporary image fs key :
  key <> temporary -> fs_files (write_temporary temporary image fs).1 !! key = fs_files fs !! key.
Proof.
  intros Hne. unfold write_temporary. next_call. destruct (_ || _); [by simpl; rewrite Hf|].
  next_call. simpl in Hf0. destruct o0 as [written|].
  - cbn [fst]. rewrite remove_file_elsewhere by done. simpl. by rewrite lookup_insert_ne, Hf0, lookup_insert_ne, Hf by done.
  - next_call. simpl in Hf1. assert (Hf' : fs_files f1 !! key = fs_files fs !! key).
    { by rewrite Hf1, lookup_insert_ne, Hf0, lookup_insert_ne, Hf by done. }
    destruct o0; cbn [fst]; [by rewrite remove_file_elsewhere|done].
Qed.

Lemma string_app_longer (s t : string) : t <> ""%string -> (s +:+ t)%string <> s.
Proof. intros Ht. induction s as [|c s IH]; simpl; [done|]. rewrite string_app_cons. congruence. Qed.

Lemma temporary_not_live key sequence : key <> temporary_key key sequence.
Proof.
  unfold temporary_key, temporary_prefix. destruct key as [directory name]. cbn [fst snd]. intros [= Hn].
  rewrite string_app_assoc in Hn. symmetry in Hn. revert Hn. by apply string_app_longer.
Qed.

(** A save that fails leaves the live file as it was. *)
Lemma save_bytes_refused path image fs fs' status :
  save_bytes path image fs = (fs', status) -> status_ok status = false ->
  fs_files fs' !! locate path = fs_files fs !! locate path.
Proof.
  unfold save_bytes. set (fs1 := if has_parent path then _ else fs).
  assert (Hfs1 : fs_files fs1 = fs_files fs).
  { unfold fs1. case_match; [apply create_directories_files|done]. }
  clearbody fs1. destruct (has_parent path && _); [intros [= <- _] _; by rewrite Hfs1|].
  pose proof (temporary_not_live (locate path) (u64 (fs_sequence fs1 + 1))) as Hne.
  pose proof (write_temporary_elsewhere _ image (fs1 <| fs_sequence := u64 (fs_sequence fs1 + 1) |>) _ Hne) as Hw.
  destruct (write_temporary _ _ _) as [fs2 failure]. cbn [fst] in Hw. simpl in Hw. rewrite Hfs1 in Hw.
  destruct failure as [s|]; [by intros [= <- _]|].
  destruct (rename_file _ _ _) as [renamed fs3] eqn:Hr. destruct renamed; [by intros [= _ <-]|].
  intros [= <- _] _. rewrite remove_file_elsewhere by done. rewrite <- Hw. f_equal.
  revert Hr. unfold rename_file. next_call. destruct o; [by intros [= <-]|]. destruct (fs_files f !! _); intros [= <-]; done.
Qed.

(** ** Discarding *)

Lemma prefix_longer s t : String.prefix s t = true -> (String.length s <= String.length t)%nat.
Proof.
  revert t. induction s as [|c s IH]; intros [|d t]; simpl; [lia|lia|done|].
  destruct (ascii_dec c d); [|done]. intros Hp%IH. lia.
Qed.

Lemma live_not_temporary key : is_temporary key key = false.
Proof.
  unfold is_temporary. rewrite String.eqb_refl. simpl. destruct (String.prefix _ _) eqn:Hp; [|done].
  apply prefix_longer in Hp. unfold temporary_prefix in Hp. exfalso. revert Hp. generalize key.2. intros s.
  induction s as [|c s IH]; simpl in *; lia.
Qed.

Lemma discard_files path fs fs' result :
  discard path fs = (fs', result) ->
  fs_files fs' !! locate path = fs_files fs !! locate path
  /\ forall key bytes, fs_files fs' !! key = Some bytes -> fs_files fs !! key = Some bytes.
Proof.
  unfold discard. destruct (negb _); [intros [= <- <-]; auto|].
  assert (Hall : forall keys acc, Forall (fun key => is_temporary (locate path) key = true) keys ->
    let fs' := (foldl (fun acc candidate => let '(done, fs) := remove_file candidate acc.1 in
                  (fs, if (done : bool) then u32 (acc.2 + 1) else acc.2)) acc keys).1 in
    fs_files fs' !! locate path = fs_files acc.1 !! locate path
    /\ forall key bytes, fs_files fs' !! key = Some bytes -> fs_files acc.1 !! key = Some bytes).
  { induction keys as [|k keys IH]; intros acc Hk; simpl; [auto|]. apply Forall_cons_iff in Hk as [Hk Hks].
    destruct (remove_file_files k acc.1) as [_ Hr]. destruct (remove_file k acc.1) as [done fs1]. simpl in Hr.
    destruct (IH (fs1, if done then u32 (acc.2 + 1) else acc.2) Hks) as [Hlive Hsub]. simpl in Hlive, Hsub. split.
    - rewrite Hlive. destruct (Hr (locate path)) as [|[<- _]]; [done|]. by rewrite live_not_temporary in Hk.
    - intros key bytes Hb%Hsub. destruct (Hr key) as [Heq|[_ Hn]]; congruence. }
  specialize (Hall (List.filter (is_temporary (locate path)) (map fst (map_to_list (fs_files fs)))) (fs, 0)).
  destruct (foldl _ _ _) as [fs2 removed]. intros [= <- <-]. apply Hall.
  apply Forall_forall. intros key Hin%list_elem_of_In%filter_In. apply Hin.
Qed.

(** ** The promises of the storage interface *)

Lemma load_fault_free path limits fs bytes state :
  fs_files fs !! locate path = Some bytes -> load path limits None fs = Ok state -> deserialize_image bytes limits = Ok state.
Proof. unfold load. intros ->. rewrite bool_decide_eq_false_2 by done. by case_match. Qed.

Lemma load_file path limits fs state :
  load path limits None fs = Ok state ->
  exists bytes, fs_files fs !! locate path = Some bytes /\ deserialize_image bytes limits = Ok state.
Proof. unfold load. destruct (fs_files fs !! locate path) as [bytes|]; [|done]. rewrite bool_decide_eq_false_2 by done. case_match; [done|]. eauto. Qed.

Lemma load_same_file path limits fs fs' state :
  (forall bytes, fs_files fs' !! locate path = Some bytes -> fs_files fs !! locate path = Some bytes) ->
  load path limits None fs' = Ok state -> load path limits None fs = Ok state.
Proof.
  intros Hsub. unfold load. destruct (fs_files fs' !! locate path) as [bytes|]; [|done]. by rewrite (Hsub bytes).
Qed.

Lemma serialize_image_error state limits e : serialize_image state limits = Err e -> status_ok e = false.
Proof. unfold serialize_image. repeat case_match; intros; by simplify_eq. Qed.

(** C9: the commit protocol keeps the promises the coordinator relies on,
    whichever of its I/O calls fail: after a save every load gives the clipped
    state or what could be loaded before, a successful save makes it the only
    one, a failed save leaves the live image as it was, and discarding
    temporary images keeps the live one. *)
Theorem file_storage_laws : @StorageLaws file_storage.
Proof.
  split; simpl; unfold file_save, save.
  - intros state limits e Hs. by apply serialize_image_error in Hs.
  - intros path state limits fs fs' status Hk Hs path' limits' state' Hl.
    destruct (fits_image false state) eqn:Hf; [|injection Hs as <- _; by right].
    destruct (serialize_image state limits) as [image|e] eqn:Him; [|injection Hs as <- _; by right].
    apply save_bytes_files in Hs as [Hfrom _]. destruct (load_file _ _ _ _ Hl) as (bytes & Hb & Hd).
    destruct (Hfrom _ _ Hb) as [Hold|[n ->]].
    + right. unfold load in *. rewrite Hb in Hl. by rewrite Hold.
    + left. by eapply cut_image_loads.
  - intros path state limits fs fs' status Hk Hs Hok.
    destruct (fits_image false state) eqn:Hf; [|injection Hs as _ <-; discriminate Hok].
    destruct (serialize_image state limits) as [image|e] eqn:Him.
    2: { injection Hs as _ <-. apply serialize_image_error in Him. congruence. }
    apply save_bytes_files in Hs as [_ Hlive]. specialize (Hlive Hok). rewrite Hlive. split; [done|].
    intros limits' state' Hl. eapply image_never_confused; [exact Him|done..|]. by eapply load_fault_free.
  - intros path state limits fs fs' status Hs Hbad.
    assert (Hlive : fs_files fs' !! locate path = fs_files fs !! locate path).
    { destruct (fits_image false state); [|by injection Hs as <- _].
      destruct (serialize_image state limits) as [image|e]; [by eapply save_bytes_refused|by injection Hs as <- _]. }
    unfold load. by rewrite Hlive.
  - intros path fs fs' result Hd path' limits' state' Hl. apply discard_files in Hd as [_ Hsub].
    eapply load_same_file; [|exact Hl]. apply Hsub.
  - intros path fs fs' result Hd. apply discard_files in Hd as [-> _]. done.
Qed.
