(* ===== verification/Authority.v ===== *)
(** * Authority: envelopes, workers and evidence (coordinator_authority.cpp)

    [check_envelope] is the fence every publication, completion and failure
    passes; [register_worker], [revoke_worker], [heartbeat] and [claim_trials]
    issue and withdraw the authority it checks; [publish_observation],
    [publish_artifact], [commit_trial], [fail_trial], [cancel_trial] and
    [cancel_experiment] act on it.  Each is translated branch by branch. *)
From S2P Require Import Prelude OMap Error Domain Identity Float64 Model Hash Sorting Canonical State Messages Spec Coordinator.
#[local] Open Scope check_scope.

Definition authority_error (code : ErrorCode) (reason : string) : Status :=
  make_error code ErrorStage.AUTHORITY reason.
Definition observation_error (reason : string) : Status :=
  make_error ErrorCode.INVALID_OBSERVATION ErrorStage.OBSERVATION reason.
Definition protocol_error (reason : string) : Status :=
  make_error ErrorCode.PROTOCOL_ERROR ErrorStage.TRANSPORT reason.
Definition reject (code : ErrorCode) (detail : string) : AuthorityVerdict :=
  reject_verdict code ErrorStage.AUTHORITY detail.
Definition shutting_down : Status :=
  make_error ErrorCode.SHUTTING_DOWN ErrorStage.SHUTDOWN "coordinator is shutting down".

(** ** Content comparison *)

Definition same_metric_value (lhs rhs : MetricValue) : bool :=
  bool_decide (mv_kind lhs = mv_kind rhs) && deqb (mv_real lhs) (mv_real rhs)
  && (mv_integer lhs =? mv_integer rhs) && Bool.eqb (mv_boolean lhs) (mv_boolean rhs)
  && String.eqb (mv_category lhs) (mv_category rhs).

Definition same_observation (lhs rhs : Observation) : bool :=
  (obs_id lhs =? obs_id rhs) && (obs_experiment lhs =? obs_experiment rhs)
  && (obs_generation lhs =? obs_generation rhs) && (obs_branch lhs =? obs_branch rhs)
  && (obs_branch_generation lhs =? obs_branch_generation rhs) && (obs_trial lhs =? obs_trial rhs)
  && (obs_attempt lhs =? obs_attempt rhs) && (obs_metric lhs =? obs_metric rhs)
  && (obs_producer lhs =? obs_producer rhs) && bool_decide (obs_validity lhs = obs_validity rhs)
  && same_metric_value (obs_value lhs) (obs_value rhs) && String.eqb (obs_detail lhs) (obs_detail rhs).

Definition same_artifact (lhs rhs : ArtifactRecord) : bool :=
  (artifact_id lhs =? artifact_id rhs) && (artifact_experiment lhs =? artifact_experiment rhs)
  && (artifact_generation lhs =? artifact_generation rhs) && (artifact_branch lhs =? artifact_branch rhs)
  && (artifact_trial lhs =? artifact_trial rhs) && (artifact_attempt lhs =? artifact_attempt rhs)
  && String.eqb (artifact_category lhs) (artifact_category rhs)
  && String.eqb (artifact_locator lhs) (artifact_locator rhs)
  && bool_decide (artifact_content_digest lhs = artifact_content_digest rhs)
  && Bool.eqb (artifact_digest_present lhs) (artifact_digest_present rhs)
  && Bool.eqb (artifact_size_present lhs) (artifact_size_present rhs)
  && (artifact_size_bytes lhs =? artifact_size_bytes rhs)
  && String.eqb (artifact_provenance lhs) (artifact_provenance rhs).

Definition describe_epoch (expected actual : Z) : string :=
  ("stale coordinator epoch: envelope=" +:+ id_to_string actual +:+ " current=" +:+ id_to_string expected)%string.

(** [envelope_from]. *)
Definition envelope_from (o : Observation) (epoch worker boot : Z) (record : ExperimentRecord) : AuthorityEnvelope := {|
  env_epoch := epoch;
  env_experiment := obs_experiment o;
  env_generation := obs_generation o;
  env_hypothesis := def_hypothesis (rec_definition record);
  env_hypothesis_revision := def_hypothesis_revision (rec_definition record);
  env_policy := policy_id (def_policy (rec_definition record));
  env_policy_generation := policy_generation (def_policy (rec_definition record));
  env_branch := obs_branch o;
  env_branch_generation := obs_branch_generation o;
  env_trial := obs_trial o;
  env_attempt := obs_attempt o;
  env_worker := worker;
  env_boot := boot;
  env_producer := obs_producer o |}.

(** [EnvelopeCheck]: the pointers the check has resolved so far. *)
Record EnvelopeCheck := mkEnvelopeCheck {
  check_verdict : AuthorityVerdict;
  check_record : option ExperimentRecord;
  check_trial : option TrialRecord;
  check_attempt : option AttemptRecord;
  check_branch : option BranchDefinition
}.

Section Authority.
Context `{Storage}.

(** ** The envelope check *)

(** The checks on the attempt, once record, branch and trial are resolved. *)
Definition check_attempt_authority (e : AuthorityEnvelope) (trial : TrialRecord) (attempt : AttemptRecord) : AuthorityVerdict :=
  refuse (negb (attempt_worker attempt =? env_worker e) || negb (attempt_boot attempt =? env_boot e))
    (reject ErrorCode.STALE_WORKER "attempt was issued to a different worker incarnation");
  refuse (negb (attempt_epoch attempt =? env_epoch e))
    (reject ErrorCode.STALE_EPOCH "attempt was issued under a different coordinator epoch");
  refuse (is_attempt_terminal (attempt_state attempt))
    (reject ErrorCode.STALE_ATTEMPT
       ("attempt is already terminal: " +:+ attempt_state_to_string (attempt_state attempt))%string);
  accept_verdict.

(** The checks on the trial; [None] when they pass. *)
Definition check_trial_authority (e : AuthorityEnvelope) (trial : TrialRecord) : option AuthorityVerdict :=
  refuse (negb (trial_branch trial =? env_branch e))
    (Some (reject ErrorCode.STALE_BRANCH "trial does not belong to the presented branch"));
  refuse (negb (trial_generation trial =? env_generation e))
    (Some (reject ErrorCode.STALE_GENERATION "trial was created under a different experiment generation"));
  refuse (negb (trial_branch_generation trial =? env_branch_generation e))
    (Some (reject ErrorCode.STALE_BRANCH "trial was created under a different branch generation"));
  refuse (negb (trial_hypothesis_revision trial =? env_hypothesis_revision e))
    (Some (reject ErrorCode.STALE_HYPOTHESIS "trial was created under a different hypothesis revision"));
  refuse (negb (trial_policy trial =? env_policy e) || negb (trial_policy_generation trial =? env_policy_generation e))
    (Some (reject ErrorCode.STALE_GENERATION "trial was created under a different comparison policy"));
  refuse (bool_decide (trial_state trial = TrialState.CANCELLED))
    (Some (reject ErrorCode.CANCELLED "trial was cancelled: late evidence is never current authority"));
  refuse (is_terminal (trial_state trial))
    (Some (reject ErrorCode.STALE_ATTEMPT
       ("trial is already terminal: " +:+ trial_state_to_string (trial_state trial))%string));
  refuse (negb (trial_authoritative_attempt trial =? env_attempt e))
    (Some (reject ErrorCode.STALE_ATTEMPT "attempt is not the authoritative attempt of this trial"));
  None.

(** The checks on the experiment's own state and definition. *)
Definition check_experiment_authority (e : AuthorityEnvelope) (record : ExperimentRecord) : option AuthorityVerdict :=
  let definition := rec_definition record in
  refuse (bool_decide (rec_state record = ExperimentState.CANCELLED))
    (Some (reject ErrorCode.CANCELLED "experiment was cancelled: late evidence is never current authority"));
  refuse (bool_decide (rec_state record = ExperimentState.SUPERSEDED))
    (Some (reject ErrorCode.STALE_GENERATION "experiment has been superseded"));
  refuse (negb (is_experiment_mutable (rec_state record)))
    (Some (reject ErrorCode.INVALID_TRANSITION "experiment no longer accepts authoritative evidence"));
  refuse (negb (env_generation e =? def_generation definition))
    (Some (reject ErrorCode.STALE_GENERATION
       ("stale experiment generation: envelope=" +:+ id_to_string (env_generation e) +:+ " current="
        +:+ id_to_string (def_generation definition))%string));
  refuse (negb (env_hypothesis e =? def_hypothesis definition)
          || negb (env_hypothesis_revision e =? def_hypothesis_revision definition))
    (Some (reject ErrorCode.STALE_HYPOTHESIS "stale hypothesis revision"));
  refuse (negb (env_policy e =? policy_id (def_policy definition))
          || negb (env_policy_generation e =? policy_generation (def_policy definition)))
    (Some (reject ErrorCode.STALE_GENERATION "stale comparison policy identity or generation"));
  None.

(** The checks on the branch the envelope names. *)
Definition check_branch_authority (e : AuthorityEnvelope) (branch : BranchDefinition) : option AuthorityVerdict :=
  refuse (negb (branch_generation branch =? env_branch_generation e))
    (Some (reject ErrorCode.STALE_BRANCH
       ("stale branch generation: envelope=" +:+ id_to_string (env_branch_generation e) +:+ " current="
        +:+ id_to_string (branch_generation branch))%string));
  refuse (negb (is_branch_eligible (branch_state branch)))
    (Some (reject ErrorCode.STALE_BRANCH
       ("branch is not eligible for evidence: " +:+ branch_state_to_string (branch_state branch))%string));
  None.

(** The checks on the presenting process: the epoch and the live worker. *)
Definition check_process_authority (e : AuthorityEnvelope) (impl : Impl) : option AuthorityVerdict :=
  refuse (negb (impl_admitting_work impl))
    (Some (reject ErrorCode.SHUTTING_DOWN "coordinator is no longer admitting authority"));
  refuse (negb (env_epoch e =? impl_epoch impl))
    (Some (reject ErrorCode.STALE_EPOCH (describe_epoch (impl_epoch impl) (env_epoch e))));
  match find_live_worker (env_worker e) (env_boot e) impl with
  | None => Some (reject ErrorCode.STALE_WORKER "worker boot identity is not registered under the current epoch")
  | Some live =>
      refuse (live_revoked live)
        (Some (reject ErrorCode.STALE_WORKER "worker incarnation authority has been revoked"));
      refuse (negb (live_producer live =? env_producer e))
        (Some (reject ErrorCode.UNAUTHORIZED "producer identity does not match the registered incarnation"));
      None
  end.

(** [check_envelope]. *)
Definition check_envelope (e : AuthorityEnvelope) (impl : Impl) : EnvelopeCheck :=
  let structural := validate_envelope_structure e in
  if negb (verdict_accepted structural) then mkEnvelopeCheck structural None None None None else
  match check_process_authority e impl with
  | Some verdict => mkEnvelopeCheck verdict None None None None
  | None =>
  match find_experiment (env_experiment e) impl with
  | None => mkEnvelopeCheck (reject ErrorCode.NOT_FOUND "experiment does not exist") None None None None
  | Some record =>
  match check_experiment_authority e record with
  | Some verdict => mkEnvelopeCheck verdict (Some record) None None None
  | None =>
  match find_branch record (env_branch e) with
  | None => mkEnvelopeCheck (reject ErrorCode.STALE_BRANCH
              "branch does not exist in the current experiment generation") (Some record) None None None
  | Some branch =>
  match check_branch_authority e branch with
  | Some verdict => mkEnvelopeCheck verdict (Some record) None None (Some branch)
  | None =>
  match om_find (env_trial e) (rec_trials record) with
  | None => mkEnvelopeCheck (reject ErrorCode.STALE_ATTEMPT
              "trial does not exist in the current experiment generation") (Some record) None None (Some branch)
  | Some trial =>
  match check_trial_authority e trial with
  | Some verdict => mkEnvelopeCheck verdict (Some record) (Some trial) None (Some branch)
  | None =>
  match om_find (env_attempt e) (rec_attempts record) with
  | None => mkEnvelopeCheck (reject ErrorCode.STALE_ATTEMPT "attempt identity is not recorded")
              (Some record) (Some trial) None (Some branch)
  | Some attempt => mkEnvelopeCheck (check_attempt_authority e trial attempt)
                      (Some record) (Some trial) (Some attempt) (Some branch)
  end end end end end end end end.

(** ** Worker lifecycle *)

Definition retryable (definition : ExperimentDefinition) (trial : TrialRecord) : bool :=
  negb (bool_decide (def_retry_policy definition = RetryPolicy.NO_RETRY))
  && (trial_attempt_count trial <? def_max_attempts_per_trial definition).

(** The trial of a lost producer: ready for a fresh attempt while the retry
    budget lasts, failed otherwise. *)
Definition release_trial (retry : bool) (kind : FailureKind) (detail : string) (sequence : Z)
    (trial : TrialRecord) : TrialRecord :=
  let trial :=
    if retry then trial
      <| trial_state := TrialState.READY |>
      <| trial_authoritative_attempt := 0 |>
      <| trial_next_attempt_number := u32 (trial_attempt_count trial + 1) |>
    else trial <| trial_state := TrialState.FAILED |> in
  trial
    <| trial_failure_kind := kind |>
    <| trial_failure_detail := detail |>
    <| trial_updated_sequence := sequence |>.

(** The loop body over the attempts of an experiment when the incarnation
    [(worker, boot)] loses its authority; the threaded state is the trial map
    and whether anything was touched. *)
Definition withdraw_attempt (definition : ExperimentDefinition) (worker boot : Z) (kind : FailureKind)
    (attempt_detail trial_detail : string) (sequence : Z)
    (acc : omap Z TrialRecord * bool) (attempt : AttemptRecord) : (omap Z TrialRecord * bool) * AttemptRecord :=
  let '(trials, touched) := acc in
  if negb (attempt_worker attempt =? worker) || negb (attempt_boot attempt =? boot)
     || is_attempt_terminal (attempt_state attempt) then (acc, attempt)
  else
    let trials :=
      match om_find (attempt_trial attempt) trials with
      | None => trials
      | Some trial =>
          if is_terminal (trial_state trial) || negb (trial_authoritative_attempt trial =? attempt_id attempt)
          then trials
          else om_set (attempt_trial attempt)
                 (release_trial (retryable definition trial) kind trial_detail sequence trial) trials
      end in
    ((trials, true), abandon_attempt kind attempt_detail sequence attempt).

Definition withdraw_in_record (worker boot : Z) (kind : FailureKind) (attempt_detail trial_detail line : string)
    (sequence : Z) (record : ExperimentRecord) : ExperimentRecord :=
  let '((trials, touched), attempts) :=
    om_map_acc (withdraw_attempt (rec_definition record) worker boot kind attempt_detail trial_detail sequence)
      (rec_trials record, false) (rec_attempts record) in
  let record := record <| rec_trials := trials |> <| rec_attempts := attempts |> in
  if touched then log line record else record.

Definition revoke_incarnation (worker boot : Z) (kind : FailureKind) (sequence : Z) (w : WorkerIncarnation) : WorkerIncarnation :=
  if (inc_worker w =? worker) && (inc_boot w =? boot) && negb (inc_revoked w) then
    w <| inc_revoked := true |> <| inc_revocation_kind := kind |> <| inc_revoked_sequence := sequence |>
  else w.

(** The loop body over the live workers when a fresh boot of [worker]
    registers: every other incarnation of that worker loses its authority. *)
Definition replace_incarnation (worker boot sequence : Z) (state : CoordinatorState) (live : LiveWorker) :
    CoordinatorState * LiveWorker :=
  if negb (live_worker live =? worker) || (live_boot live =? boot) || live_revoked live then (state, live)
  else
    (state
       <| st_workers ::= map (revoke_incarnation (live_worker live) (live_boot live) FailureKind.PRODUCER_LOSS sequence) |>
       <| st_experiments ::= om_map (withdraw_in_record (live_worker live) (live_boot live) FailureKind.PRODUCER_LOSS
            "worker process incarnation replaced by a fresh boot identity"
            "producer lost; assignment transitioned conservatively"
            ("worker-incarnation-replaced worker=" +:+ id_to_string (live_worker live))%string sequence) |>,
     live <| live_revoked := true |> <| live_revocation_kind := FailureKind.PRODUCER_LOSS |>).

(** The loop over the recorded incarnations of the presented boot. *)
Fixpoint incarnation_refusal (worker boot epoch : Z) (workers : list WorkerIncarnation) : Status :=
  match workers with
  | [] => success
  | w :: rest =>
      if negb (inc_worker w =? worker) || negb (inc_boot w =? boot) then incarnation_refusal worker boot epoch rest
      else if inc_revoked w then
        authority_error ErrorCode.STALE_WORKER "worker incarnation was previously revoked"
      else if negb (inc_epoch w =? epoch) then
        authority_error ErrorCode.STALE_EPOCH "worker boot identity belongs to a previous coordinator epoch"
      else incarnation_refusal worker boot epoch rest
  end.

Definition register_refused (status : Status) : RegisterWorkerReply :=
  default_RegisterWorkerReply <| regr_status := status |>.
Definition register_accepted (epoch boot producer : Z) : RegisterWorkerReply :=
  mkRegisterWorkerReply epoch boot producer true success.

(** [Coordinator::register_worker]. *)
Definition register_worker (request : RegisterWorkerRequest) (impl : Impl) : Call RegisterWorkerReply :=
  let worker := reg_worker request in
  let boot := reg_boot request in
  if negb (impl_admitting_work impl) then (impl, register_refused shutting_down)
  else if negb (id_valid worker) || negb (id_valid boot) then
    (impl, register_refused (authority_error ErrorCode.INVALID_ARGUMENT "worker and boot identities must be non-null"))
  else if id_valid (reg_claimed_epoch request) && negb (reg_claimed_epoch request =? impl_epoch impl) then
    (impl, register_refused (authority_error ErrorCode.STALE_EPOCH
                               (describe_epoch (impl_epoch impl) (reg_claimed_epoch request))))
  else if (reg_max_concurrent_assignments request =? 0)
          || (max_concurrent_assignments_per_worker (impl_limits impl) <? reg_max_concurrent_assignments request) then
    (impl, register_refused (limits_error "worker concurrency request is out of range"))
  else
    match find_live_worker worker boot impl with
    | Some existing =>
        if live_revoked existing then
          (impl, register_refused (authority_error ErrorCode.STALE_WORKER "worker incarnation was revoked"))
        else (impl, register_accepted (impl_epoch impl) boot (live_producer existing))
    | None =>
        let '(sequence, impl) := next_sequence impl in
        let '(state, live_workers) :=
          om_map_acc (replace_incarnation worker boot sequence) (impl_state impl) (impl_live_workers impl) in
        let impl := impl <| impl_state := state |> <| impl_live_workers := live_workers |> in
        let refusal := incarnation_refusal worker boot (impl_epoch impl) (st_workers (impl_state impl)) in
        if negb (status_ok refusal) then (impl, register_refused refusal)
        else if max_registered_workers (impl_limits impl) <=? size_of (st_workers (impl_state impl)) then
          (impl, register_refused (limits_error "too many registered worker incarnations"))
        else
          let '(registered, impl) := next_sequence impl in
          let producer := increment (st_next_worker_registration_sequence (impl_state impl)) in
          let live := default_LiveWorker
            <| live_worker := worker |>
            <| live_boot := boot |>
            <| live_endpoint := reg_endpoint request |>
            <| live_fingerprint := reg_fingerprint request |>
            <| live_max_concurrent_assignments := reg_max_concurrent_assignments request |>
            <| live_registered_sequence := registered |>
            <| live_producer := producer |> in
          let incarnation := default_WorkerIncarnation
            <| inc_worker := worker |>
            <| inc_boot := boot |>
            <| inc_epoch := impl_epoch impl |>
            <| inc_producer := producer |>
            <| inc_endpoint := reg_endpoint request |>
            <| inc_fingerprint := reg_fingerprint request |>
            <| inc_registered_sequence := registered |> in
          let impl := impl
            <| impl_live_workers ::= om_emplace (worker, boot) live |>
            <| impl_state ::= fun s => s
                 <| st_next_worker_registration_sequence := producer |>
                 <| st_workers ::= fun l => l ++ [incarnation] |> |> in
          let '(impl, persisted) := persist_locked impl in
          if negb (status_ok persisted) then (impl, register_refused persisted)
          else (notify_event ("worker-registered:" +:+ id_to_string worker)%string impl,
                register_accepted (impl_epoch impl) boot producer)
    end.

(** [Coordinator::revoke_worker]. *)
Definition revoke_worker (worker boot : Z) (kind : FailureKind) (reason : string) (impl : Impl) : Call Status :=
  match find_live_worker worker boot impl with
  | None => (impl, authority_error ErrorCode.STALE_WORKER "worker incarnation is not registered")
  | Some live =>
      let impl := impl <| impl_live_workers ::= om_set (worker, boot)
        (live <| live_revoked := true |> <| live_revocation_kind := kind |>) |> in
      let '(sequence, impl) := next_sequence impl in
      let impl := impl <| impl_state ::= fun s => s
        <| st_experiments ::= om_map (withdraw_in_record worker boot kind reason reason
             ("worker-revoked worker=" +:+ id_to_string worker +:+ " reason=" +:+ reason)%string sequence) |>
        <| st_workers ::= map (revoke_incarnation worker boot kind sequence) |> |> in
      let '(impl, persisted) := persist_locked impl in
      if negb (status_ok persisted) then (impl, persisted)
      else (notify_event ("worker-revoked:" +:+ id_to_string worker)%string impl, success)
  end.

Definition not_live : Status :=
  authority_error ErrorCode.STALE_WORKER "worker incarnation is not live under the current epoch".

(** [Coordinator::heartbeat]. *)
Definition heartbeat (request : HeartbeatRequest) (impl : Impl) : Call Status :=
  if negb (impl_admitting_work impl) then (impl, shutting_down)
  else if negb (beat_epoch request =? impl_epoch impl) then
    (impl, authority_error ErrorCode.STALE_EPOCH (describe_epoch (impl_epoch impl) (beat_epoch request)))
  else
    match find_live_worker (beat_worker request) (beat_boot request) impl with
    | None => (impl, not_live)
    | Some live =>
        if live_revoked live then (impl, not_live)
        else (impl <| impl_live_workers ::= om_set (beat_worker request, beat_boot request)
                (live <| live_active_assignments := beat_active_assignments request |>) |>, success)
    end.

(** ** Claims *)

(** Unfinished attempts of the incarnation, over every experiment. *)
Definition active_attempts (worker boot : Z) (state : CoordinatorState) : Z :=
  u32 (size_of (List.filter (fun entry : Z * AttemptRecord =>
    (attempt_worker entry.2 =? worker) && (attempt_boot entry.2 =? boot)
    && negb (is_attempt_terminal (attempt_state entry.2)))
    (flat_map (fun entry => rec_attempts (snd entry)) (st_experiments state)))).

(** The conditions of the inner loop: the branch of a trial that may be
    issued now. *)
Definition claimable (limits : Limits) (record : ExperimentRecord) (trial : TrialRecord) : option BranchDefinition :=
  let definition := rec_definition record in
  if negb (bool_decide (trial_state trial = TrialState.READY))
     || negb (trial_generation trial =? def_generation definition)
     || negb (trial_hypothesis_revision trial =? def_hypothesis_revision definition) then None
  else if def_max_attempts_per_trial definition <=? trial_attempt_count trial then None
  else if bool_decide (def_retry_policy definition = RetryPolicy.NO_RETRY) && (0 <? trial_attempt_count trial) then None
  else
    match find_branch record (trial_branch trial) with
    | None => None
    | Some branch =>
        if negb (is_branch_eligible (branch_state branch))
           || negb (branch_generation branch =? trial_branch_generation trial) then None
        else if size_of (rec_trials record) * max_attempts_per_trial limits + 16 <=? size_of (rec_attempts record)
        then None
        else Some branch
    end.

Fixpoint reserve_metrics (watermark : Z) (metrics : list MetricDefinition) : Z * list AssignedMetric :=
  match metrics with
  | [] => (watermark, [])
  | metric :: rest =>
      let id := increment watermark in
      let '(watermark, reserved) := reserve_metrics id rest in
      (watermark, mkAssignedMetric (metric_id metric) id (metric_name metric) (metric_kind metric)
                    (metric_direction metric) (metric_required metric) :: reserved)
  end.

Fixpoint reserve_artifacts (watermark : Z) (count : nat) : Z * list Z :=
  match count with
  | O => (watermark, [])
  | S count =>
      let id := increment watermark in
      let '(watermark, ids) := reserve_artifacts id count in
      (watermark, id :: ids)
  end.

(** The subtraction is in 64 bits, so [std::max] with 0 leaves it as it is. *)
Definition artifact_budget (limits : Limits) (record : ExperimentRecord) : Z :=
  Z.min (max_artifacts_per_attempt limits)
    (u32 (u64 (max_artifacts_per_experiment limits - size_of (rec_artifacts record)))).

Definition issued_attempt (id sequence epoch : Z) (live : LiveWorker) (request : ClaimTrialRequest)
    (record : ExperimentRecord) (trial : TrialRecord) : AttemptRecord :=
  default_AttemptRecord
    <| attempt_id := id |>
    <| attempt_number := if id_valid (trial_next_attempt_number trial) then trial_next_attempt_number trial
                         else u32 (trial_attempt_count trial + 1) |>
    <| attempt_trial := trial_id trial |>
    <| attempt_experiment := def_id (rec_definition record) |>
    <| attempt_generation := def_generation (rec_definition record) |>
    <| attempt_branch := trial_branch trial |>
    <| attempt_branch_generation := trial_branch_generation trial |>
    <| attempt_worker := claim_worker request |>
    <| attempt_boot := claim_boot request |>
    <| attempt_epoch := epoch |>
    <| attempt_producer := live_producer live |>
    <| attempt_state := AttemptState.ISSUED |>
    <| attempt_issued_sequence := sequence |>
    <| attempt_updated_sequence := sequence |>.

Definition assigned_trial (attempt : AttemptRecord) (sequence : Z) (trial : TrialRecord) : TrialRecord :=
  trial
    <| trial_attempt_count := u32 (trial_attempt_count trial + 1) |>
    <| trial_next_attempt_number := u64 (attempt_number attempt + 1) |>
    <| trial_authoritative_attempt := attempt_id attempt |>
    <| trial_state := TrialState.ASSIGNED |>
    <| trial_updated_sequence := sequence |>.

(** The envelope that travels with an assignment. *)
Definition issued_envelope (epoch attempt : Z) (live : LiveWorker) (request : ClaimTrialRequest)
    (record : ExperimentRecord) (trial : TrialRecord) : AuthorityEnvelope := {|
  env_epoch := epoch;
  env_experiment := def_id (rec_definition record);
  env_generation := def_generation (rec_definition record);
  env_hypothesis := def_hypothesis (rec_definition record);
  env_hypothesis_revision := def_hypothesis_revision (rec_definition record);
  env_policy := policy_id (def_policy (rec_definition record));
  env_policy_generation := policy_generation (def_policy (rec_definition record));
  env_branch := trial_branch trial;
  env_branch_generation := trial_branch_generation trial;
  env_trial := trial_id trial;
  env_attempt := attempt;
  env_worker := claim_worker request;
  env_boot := claim_boot request;
  env_producer := live_producer live |}.

(** The variables of the claim loops. *)
Record ClaimLoop := mkClaimLoop {
  loop_impl : Impl;
  loop_live : LiveWorker;
  loop_budget : Z;
  loop_assignments : list TrialAssignment
}.

(** One iteration of the inner loop that issues an assignment: the trial under
    [key] of [record]. *)
Definition issue (request : ClaimTrialRequest) (key : Z) (branch : BranchDefinition) (trial : TrialRecord)
    (record : ExperimentRecord) (loop : ClaimLoop) : ExperimentRecord * ClaimLoop :=
  let live := loop_live loop in
  let '(sequence, impl) := next_sequence (loop_impl loop) in
  let '(id, impl) := alloc_attempt_id impl in
  let attempt := issued_attempt id sequence (impl_epoch impl) live request record trial in
  let '(observations, metrics) :=
    reserve_metrics (st_id_watermark_observation (impl_state impl)) (def_metrics (rec_definition record)) in
  let '(artifacts, artifact_ids) :=
    reserve_artifacts (st_id_watermark_artifact (impl_state impl))
      (Z.to_nat (artifact_budget (impl_limits impl) record)) in
  let impl := impl <| impl_state ::= fun s => s
    <| st_id_watermark_observation := observations |> <| st_id_watermark_artifact := artifacts |> |> in
  let assignment := mkTrialAssignment
    (issued_envelope (impl_epoch impl) id live request record trial)
    (attempt_number attempt) (trial_payload trial) (branch_parameters branch) metrics artifact_ids
    (u32 (size_of metrics)) in
  (record
     <| rec_trials ::= om_set key (assigned_trial attempt sequence trial) |>
     <| rec_attempts ::= om_emplace id attempt |>,
   mkClaimLoop impl
     (live <| live_active_assignments := u32 (live_active_assignments live + 1) |>
           <| live_total_assignments := u32 (live_total_assignments live + 1) |>)
     (loop_budget loop - 1) (loop_assignments loop ++ [assignment])).

(** The inner loop's body. *)
Definition claim_trial (request : ClaimTrialRequest) (acc : ExperimentRecord * ClaimLoop) (key : Z) :
    ExperimentRecord * ClaimLoop :=
  let '(record, loop) := acc in
  if loop_budget loop =? 0 then acc
  else
    match om_find key (rec_trials record) with
    | None => acc
    | Some trial =>
        match claimable (impl_limits (loop_impl loop)) record trial with
        | None => acc
        | Some branch => issue request key branch trial record loop
        end
    end.

(** The outer loop's body. *)
Definition claim_experiment (request : ClaimTrialRequest) (loop : ClaimLoop) (id : Z) : ClaimLoop :=
  if loop_budget loop =? 0 then loop
  else
    match find_experiment id (loop_impl loop) with
    | None => loop
    | Some record =>
        if negb (is_experiment_mutable (rec_state record)) then loop
        else
          let '(record, loop) := foldl (claim_trial request) (record, loop) (om_keys (rec_trials record)) in
          mkClaimLoop (put_experiment id record (loop_impl loop)) (loop_live loop) (loop_budget loop)
            (loop_assignments loop)
    end.

Definition claim_refused (status : Status) : ClaimTrialReply := mkClaimTrialReply status [].

(** [Coordinator::claim_trials]. *)
Definition claim_trials (request : ClaimTrialRequest) (impl : Impl) : Call ClaimTrialReply :=
  let worker := claim_worker request in
  let boot := claim_boot request in
  if negb (impl_admitting_work impl) then (impl, claim_refused shutting_down)
  else if negb (claim_epoch request =? impl_epoch impl) then
    (impl, claim_refused (authority_error ErrorCode.STALE_EPOCH
                            (describe_epoch (impl_epoch impl) (claim_epoch request))))
  else
    match find_live_worker worker boot impl with
    | None => (impl, claim_refused not_live)
    | Some live =>
        if live_revoked live then (impl, claim_refused not_live)
        else if (claim_max_claims request =? 0) || (max_batch_items (impl_limits impl) <? claim_max_claims request) then
          (impl, claim_refused (limits_error "claim batch size is out of range"))
        else
          let active := active_attempts worker boot (impl_state impl) in
          let live := live <| live_active_assignments := active |> in
          let available :=
            if active <? live_max_concurrent_assignments live then live_max_concurrent_assignments live - active else 0 in
          let budget := Z.min (claim_max_claims request) available in
          let loop := foldl (claim_experiment request) (mkClaimLoop impl live budget [])
                        (om_keys (st_experiments (impl_state impl))) in
          let impl := (loop_impl loop) <| impl_live_workers ::= om_set (worker, boot) (loop_live loop) |> in
          let assignments := loop_assignments loop in
          if list_empty assignments then (impl, mkClaimTrialReply success assignments)
          else
            let '(impl, persisted) := persist_locked impl in
            (impl, mkClaimTrialReply (if status_ok persisted then success else persisted) assignments)
    end.

(** ** Evidence publication *)

(** [index[experiment][id]], the inner map being empty when absent. *)
Definition index_find (experiment id : Z) (index : omap Z (omap Z nat)) : option nat :=
  om_find id (default [] (om_find experiment index)).
Definition index_set (experiment id : Z) (position : nat) (index : omap Z (omap Z nat)) : omap Z (omap Z nat) :=
  om_set experiment (om_set id position (default [] (om_find experiment index))) index.
Definition index_erase (experiment id : Z) (index : omap Z (omap Z nat)) : omap Z (omap Z nat) :=
  om_set experiment (om_erase id (default [] (om_find experiment index))) index.

Definition max_rejected_evidence : Z := 65536.

Definition record_rejection (kind : string) (identifier : Z) (verdict : AuthorityVerdict) (record : ExperimentRecord) :
    ExperimentRecord :=
  if size_of (rec_rejected_evidence record) <? max_rejected_evidence then
    record <| rec_rejected_evidence ::= fun l =>
      l ++ [mkRejectedEvidence kind identifier (verdict_code verdict) (verdict_detail verdict)] |>
  else record.

(** The rejection path of [publish_observation]: the refusal is recorded and,
    under RETAIN_HISTORICAL, the observation is kept marked INVALID. *)
Definition reject_observation (o : Observation) (verdict : AuthorityVerdict) (record : ExperimentRecord) (impl : Impl) : Impl :=
  let experiment := obs_experiment o in
  let record := record_rejection "observation" (obs_id o) verdict record in
  if bool_decide (def_late_evidence_policy (rec_definition record) = LateEvidencePolicy.RETAIN_HISTORICAL)
     && (size_of (rec_observations record) <? max_observations_per_experiment (impl_limits impl)) then
    let '(sequence, impl) := next_sequence impl in
    let historical := o
      <| obs_validity := ObservationValidity.INVALID |>
      <| obs_detail := ("rejected as non-authoritative: " +:+ verdict_detail verdict)%string |>
      <| obs_sequence := sequence |> in
    let impl := put_experiment experiment (record <| rec_observations ::= fun l => l ++ [historical] |>) impl in
    impl <| impl_observation_index ::=
      index_set (def_id (rec_definition record)) (obs_id o) (length (rec_observations record)) |>
  else put_experiment experiment record impl.

(** The validity checks on a VALID observation against its metric. *)
Definition below (bound : option double) (v : double) : bool :=
  match bound with Some b => dltb v b | None => false end.
Definition above (bound : option double) (v : double) : bool :=
  match bound with Some b => dltb b v | None => false end.

Definition check_bounds (metric : MetricDefinition) (v : double) : Status :=
  refuse (below (metric_lower_bound metric) v)
    (observation_error "observation is below the configured validity bound");
  refuse (above (metric_upper_bound metric) v)
    (observation_error "observation is above the configured validity bound");
  success.

Definition check_value (metric : MetricDefinition) (value : MetricValue) : Status :=
  refuse (negb (bool_decide (mv_kind value = metric_kind metric)))
    (observation_error "observation value kind does not match the metric definition");
  if negb (is_finite_value value) then
    refuse (negb (metric_accepts_non_finite metric))
      (observation_error "non-finite observation rejected: the metric does not accept NaN or infinity");
    success
  else
    match mv_kind value with
    | MetricKind.REAL => check_bounds metric (mv_real value)
    | MetricKind.INTEGER => check_bounds metric (double_of_Z (mv_integer value))
    | MetricKind.CATEGORICAL =>
        refuse (negb (list_empty (metric_categories metric))
                && negb (bool_decide (mv_category value ∈ metric_categories metric)))
          (observation_error "categorical observation is not one of the declared categories");
        success
    | MetricKind.BOOLEAN => success
    end.

(** A valid observation of the same metric by the same attempt exists. *)
Definition already_observed (record : ExperimentRecord) (o : Observation) : bool :=
  existsb (fun other => (obs_trial other =? obs_trial o) && (obs_metric other =? obs_metric o)
    && (obs_attempt other =? obs_attempt o)
    && bool_decide (obs_validity other = ObservationValidity.VALID)) (rec_observations record).

Definition check_observation (record : ExperimentRecord) (metric : MetricDefinition) (o : Observation) : Status :=
  if bool_decide (obs_validity o = ObservationValidity.VALID) then
    check (check_value metric (obs_value o));
    refuse (already_observed record o)
      (make_error ErrorCode.ALREADY_EXISTS ErrorStage.OBSERVATION
         "a valid observation for this metric already exists on this attempt");
    success
  else success.

(** Storing an accepted observation: it is appended and indexed, the trial
    moves to OBSERVING and the attempt to RUNNING. *)
Definition store_observation (o : Observation) (record : ExperimentRecord) (trial : TrialRecord)
    (attempt : AttemptRecord) (impl : Impl) : ExperimentRecord * Impl :=
  let '(sequence, impl) := next_sequence impl in
  let stored := o <| obs_sequence := sequence |> in
  let record' := record <| rec_observations ::= fun l => l ++ [stored] |> in
  let impl := impl <| impl_observation_index ::=
    index_set (def_id (rec_definition record)) (obs_id o) (length (rec_observations record)) |> in
  let '(record', impl) :=
    if (bool_decide (trial_state trial = TrialState.ASSIGNED) || bool_decide (trial_state trial = TrialState.RUNNING))
       && is_valid_trial_transition (trial_state trial) TrialState.OBSERVING then
      let '(sequence, impl) := next_sequence impl in
      (record' <| rec_trials ::= om_set (obs_trial o) (trial
         <| trial_state := TrialState.OBSERVING |> <| trial_updated_sequence := sequence |>) |>, impl)
    else (record', impl) in
  if bool_decide (attempt_state attempt = AttemptState.ISSUED) then
    let '(sequence, impl) := next_sequence impl in
    (record' <| rec_attempts ::= om_set (obs_attempt o) (attempt
       <| attempt_state := AttemptState.RUNNING |> <| attempt_updated_sequence := sequence |>) |>, impl)
  else (record', impl).

(** [observations.pop_back()]. *)
Definition pop_observation (record : ExperimentRecord) : ExperimentRecord :=
  record <| rec_observations ::= fun l => removelast l |>.

(** The accepted path of [publish_observation]. *)
Definition accept_observation (o : Observation) (record : ExperimentRecord) (trial : TrialRecord)
    (attempt : AttemptRecord) (impl : Impl) : Call Status :=
  let limits := impl_limits impl in
  let experiment := def_id (rec_definition record) in
  match find_metric record (obs_metric o) with
  | None => (impl, observation_error "observation references a metric that is not defined by this experiment")
  | Some metric =>
      match index_find experiment (obs_id o) (impl_observation_index impl) with
      | Some position =>
          if same_observation (nth position (rec_observations record) default_Observation) o then (impl, success)
          else (impl, make_error ErrorCode.ALREADY_EXISTS ErrorStage.IDENTITY
                        "observation identity already exists with different content")
      | None =>
          if max_observations_per_experiment limits <=? size_of (rec_observations record) then
            (impl, limits_error "experiment holds too many observations")
          else if max_observations_per_trial limits * Z.max 1 (size_of (rec_trials record))
                  <=? size_of (rec_observations record) then
            (impl, limits_error "observation budget for this experiment is exhausted")
          else
            let refusal := check_observation record metric o in
            if negb (status_ok refusal) then (impl, refusal)
            else
              let '(record, impl) := store_observation o record trial attempt impl in
              let '(impl, persisted) := persist_locked (put_experiment (obs_experiment o) record impl) in
              if negb (status_ok persisted) then
                ((put_experiment (obs_experiment o) (pop_observation record) impl)
                   <| impl_observation_index ::= index_erase experiment (obs_id o) |>, persisted)
              else (impl, success)
      end
  end.

(** [Coordinator::publish_observation]. *)
Definition publish_observation (request : PublishObservationRequest) (impl : Impl) : Call Status :=
  let o := pubo_observation request in
  match find_experiment (obs_experiment o) impl with
  | None => (impl, authority_error ErrorCode.NOT_FOUND "experiment does not exist")
  | Some probe =>
      let e := envelope_from o (pubo_epoch request) (pubo_worker request) (pubo_boot request) probe in
      let result := check_envelope e impl in
      let verdict := check_verdict result in
      match verdict_accepted verdict, check_record result, check_trial result, check_attempt result with
      | true, Some record, Some trial, Some attempt => accept_observation o record trial attempt impl
      | _, _, _, _ =>
          let '(impl, persisted) := persist_locked (reject_observation o verdict probe impl) in
          if negb (status_ok persisted) then (impl, persisted)
          else (impl, authority_error (verdict_code verdict) (verdict_detail verdict))
      end
  end.

(** The accepted path of [publish_artifact]. *)
Definition accept_artifact (a : ArtifactRecord) (record : ExperimentRecord) (trial : TrialRecord) (impl : Impl) : Call Status :=
  let limits := impl_limits impl in
  let experiment := def_id (rec_definition record) in
  if max_artifacts_per_experiment limits <=? size_of (rec_artifacts record) then
    (impl, limits_error "experiment holds too many artifact references")
  else if max_artifacts_per_attempt limits <=? size_of (trial_artifacts trial) then
    (impl, limits_error "attempt holds too many artifact references")
  else if str_empty (artifact_locator a) || (max_locator_length limits <? str_size (artifact_locator a)) then
    (impl, make_error ErrorCode.INVALID_ARGUMENT ErrorStage.OBSERVATION "artifact locator is empty or too long")
  else if max_provenance_length limits <? str_size (artifact_provenance a) then
    (impl, make_error ErrorCode.INVALID_ARGUMENT ErrorStage.OBSERVATION "artifact provenance text is too long")
  else
    match index_find experiment (artifact_id a) (impl_artifact_index impl) with
    | Some position =>
        if same_artifact (nth position (rec_artifacts record) default_ArtifactRecord) a then (impl, success)
        else (impl, make_error ErrorCode.ALREADY_EXISTS ErrorStage.IDENTITY
                      "artifact identity already exists with different content")
    | None =>
        let '(sequence, impl) := next_sequence impl in
        let stored := a <| artifact_sequence := sequence |> <| artifact_current := true |> in
        let impl := impl <| impl_artifact_index ::=
          index_set experiment (artifact_id a) (length (rec_artifacts record)) |> in
        let '(updated, impl) := next_sequence impl in
        let trial' := trial
          <| trial_artifacts ::= fun l => l ++ [artifact_id a] |> <| trial_updated_sequence := updated |> in
        let record' := record
          <| rec_artifacts ::= fun l => l ++ [stored] |>
          <| rec_trials ::= om_set (artifact_trial a) trial' |> in
        let '(impl, persisted) := persist_locked (put_experiment (artifact_experiment a) record' impl) in
        if negb (status_ok persisted) then
          let undone := record'
            <| rec_artifacts ::= fun l => removelast l |>
            <| rec_trials ::= om_set (artifact_trial a) (trial' <| trial_artifacts ::= fun l => removelast l |>) |> in
          ((put_experiment (artifact_experiment a) undone impl)
             <| impl_artifact_index ::= index_erase experiment (artifact_id a) |>, persisted)
        else (impl, success)
    end.

(** The envelope of an artifact: branch generation and producer are taken from
    the coordinator's own records. *)
Definition artifact_envelope (request : PublishArtifactRequest) (record : ExperimentRecord)
    (branch : BranchDefinition) (attempt : AttemptRecord) : AuthorityEnvelope :=
  let a := puba_artifact request in
  let shim := default_Observation
    <| obs_experiment := artifact_experiment a |>
    <| obs_generation := artifact_generation a |>
    <| obs_branch := artifact_branch a |>
    <| obs_branch_generation := 0 |>
    <| obs_trial := artifact_trial a |>
    <| obs_attempt := artifact_attempt a |>
    <| obs_producer := 0 |> in
  (envelope_from shim (puba_epoch request) (puba_worker request) (puba_boot request) record)
    <| env_branch_generation := branch_generation branch |>
    <| env_producer := attempt_producer attempt |>.

(** [Coordinator::publish_artifact]. *)
Definition publish_artifact (request : PublishArtifactRequest) (impl : Impl) : Call Status :=
  let a := puba_artifact request in
  match find_experiment (artifact_experiment a) impl with
  | None => (impl, authority_error ErrorCode.NOT_FOUND "experiment does not exist")
  | Some probe =>
      match find_branch probe (artifact_branch a) with
      | None => (impl, authority_error ErrorCode.STALE_BRANCH "artifact references an unknown branch")
      | Some branch =>
          match om_find (artifact_attempt a) (rec_attempts probe) with
          | None => (impl, authority_error ErrorCode.STALE_ATTEMPT "artifact references an unknown attempt")
          | Some attempt =>
              let result := check_envelope (artifact_envelope request probe branch attempt) impl in
              let verdict := check_verdict result in
              match verdict_accepted verdict, check_record result, check_trial result with
              | true, Some record, Some trial => accept_artifact a record trial impl
              | _, _, _ =>
                  let record := record_rejection "artifact" (artifact_id a) verdict probe in
                  let '(impl, persisted) := persist_locked (put_experiment (artifact_experiment a) record impl) in
                  if negb (status_ok persisted) then (impl, persisted)
                  else (impl, authority_error (verdict_code verdict) (verdict_detail verdict))
              end
          end
      end
  end.

(** ** Completion and failure *)

(** The loop over [request.artifacts]: the coordinator, the record and trial
    being changed, and the identities registered so far. *)
Record CommitLoop := mkCommitLoop {
  cl_impl : Impl;
  cl_record : ExperimentRecord;
  cl_trial : TrialRecord;
  cl_registered : list Z
}.

Fixpoint register_artifacts (attempt : Z) (submitted : list ArtifactRecord) (loop : CommitLoop) : CommitLoop * Status :=
  match submitted with
  | [] => (loop, success)
  | a :: rest =>
      let limits := impl_limits (cl_impl loop) in
      let record := cl_record loop in
      let trial := cl_trial loop in
      let experiment := def_id (rec_definition record) in
      if max_artifacts_per_experiment limits <=? size_of (rec_artifacts record) then
        (loop, limits_error "experiment holds too many artifact references")
      else if max_artifacts_per_attempt limits <=? size_of (trial_artifacts trial) then
        (loop, limits_error "attempt holds too many artifact references")
      else if str_empty (artifact_locator a) || (max_locator_length limits <? str_size (artifact_locator a)) then
        (loop, make_error ErrorCode.INVALID_ARGUMENT ErrorStage.OBSERVATION "artifact locator is empty or too long")
      else
        let '(sequence, impl) := next_sequence (cl_impl loop) in
        let stored := a
          <| artifact_experiment := experiment |>
          <| artifact_generation := def_generation (rec_definition record) |>
          <| artifact_branch := trial_branch trial |>
          <| artifact_trial := trial_id trial |>
          <| artifact_attempt := attempt |>
          <| artifact_sequence := sequence |>
          <| artifact_current := true |> in
        match index_find experiment (artifact_id a) (impl_artifact_index impl) with
        | Some _ =>
            (mkCommitLoop impl record trial (cl_registered loop),
             make_error ErrorCode.ALREADY_EXISTS ErrorStage.IDENTITY
               "artifact identity already exists in this experiment")
        | None =>
            register_artifacts attempt rest
              (mkCommitLoop
                 (impl <| impl_artifact_index ::=
                    index_set experiment (artifact_id a) (length (rec_artifacts record)) |>)
                 (record <| rec_artifacts ::= fun l => l ++ [stored] |>)
                 (trial <| trial_artifacts ::= fun l => l ++ [artifact_id a] |>)
                 (cl_registered loop ++ [artifact_id a]))
        end
  end.

(** Observations the attempt has left on the trial. *)
Definition attempt_observations (record : ExperimentRecord) (trial attempt : Z) : Z :=
  u32 (size_of (List.filter (fun o => (obs_trial o =? trial) && (obs_attempt o =? attempt)) (rec_observations record))).

(** [vector::pop_back], [n] times. *)
Definition pop_n {A} (n : nat) (l : list A) : list A := take (length l - n) l.

(** Writing the loop's record and trial back, under the envelope's keys. *)
Definition write_back (e : AuthorityEnvelope) (record : ExperimentRecord) (trial : TrialRecord) (impl : Impl) : Impl :=
  put_experiment (env_experiment e) (record <| rec_trials ::= om_set (env_trial e) trial |>) impl.

(** The completion itself, once the evidence and artifacts are in place. *)
Definition complete_trial (sequence : Z) (trial : TrialRecord) : TrialRecord :=
  trial
    <| trial_state := TrialState.COMPLETED |>
    <| trial_committed_attempts := 1 |>
    <| trial_failure_kind := FailureKind.NONE |>
    <| trial_failure_detail := "" |>
    <| trial_updated_sequence := sequence |>.
Definition complete_attempt (sequence : Z) (attempt : AttemptRecord) : AttemptRecord :=
  attempt
    <| attempt_state := AttemptState.COMPLETED |>
    <| attempt_committed := true |>
    <| attempt_updated_sequence := sequence |>.

Definition envelope_mismatch (epoch worker boot : Z) (e : AuthorityEnvelope) : bool :=
  negb (epoch =? env_epoch e) || negb (worker =? env_worker e) || negb (boot =? env_boot e).

(** The accepted path of [commit_trial]. *)
Definition accept_commit (request : CommitTrialRequest) (record : ExperimentRecord) (trial : TrialRecord)
    (attempt : AttemptRecord) (impl : Impl) : Call Status :=
  let e := commit_envelope request in
  if bool_decide (trial_state trial = TrialState.COMPLETED) && attempt_committed attempt then (impl, success)
  else if attempt_observations record (trial_id trial) (attempt_id attempt) =? 0 then
    (impl, make_error ErrorCode.INSUFFICIENT_EVIDENCE ErrorStage.OBSERVATION
             "trial completion requires at least one observation")
  else
    let '(sequence, impl) := next_sequence impl in
    let '(loop, status) :=
      register_artifacts (attempt_id attempt) (commit_artifacts request) (mkCommitLoop impl record trial []) in
    let record := cl_record loop in
    let trial := cl_trial loop in
    let impl := cl_impl loop in
    if negb (status_ok status) then (write_back e record trial impl, status)
    else if negb (is_valid_attempt_transition (attempt_state attempt) AttemptState.COMPLETED) then
      let n := length (cl_registered loop) in
      let experiment := def_id (rec_definition record) in
      let impl := impl <| impl_artifact_index ::= fun index =>
        foldl (fun index id => index_erase experiment id index) index (cl_registered loop) |> in
      (write_back e (record <| rec_artifacts ::= pop_n n |>) (trial <| trial_artifacts ::= pop_n n |>) impl,
       invalid_transition_status "attempt" (attempt_state_to_string (attempt_state attempt)) "COMPLETED")
    else
      let record := record <| rec_attempts ::= om_set (env_attempt e) (complete_attempt sequence attempt) |> in
      let record := log ("trial-committed trial=" +:+ id_to_string (trial_id trial) +:+ " attempt="
                         +:+ id_to_string (attempt_id attempt))%string record in
      let '(impl, persisted) := persist_locked (write_back e record (complete_trial sequence trial) impl) in
      if negb (status_ok persisted) then (impl, persisted) else (impl, success).

(** [Coordinator::commit_trial]. *)
Definition commit_trial (request : CommitTrialRequest) (impl : Impl) : Call Status :=
  let e := commit_envelope request in
  if envelope_mismatch (commit_epoch request) (commit_worker request) (commit_boot request) e then
    (impl, protocol_error "commit envelope does not match the presenting transport identity")
  else
    let result := check_envelope e impl in
    let verdict := check_verdict result in
    match verdict_accepted verdict, check_record result, check_trial result, check_attempt result with
    | true, Some record, Some trial, Some attempt => accept_commit request record trial attempt impl
    | _, _, _, _ => (impl, authority_error (verdict_code verdict) (verdict_detail verdict))
    end.

(** The failed attempt and its trial. *)
Definition fail_attempt (request : FailTrialRequest) (sequence : Z) (attempt : AttemptRecord) : AttemptRecord :=
  attempt
    <| attempt_state := AttemptState.FAILED |>
    <| attempt_failure_kind := fail_kind request |>
    <| attempt_failure_detail := fail_detail request |>
    <| attempt_updated_sequence := sequence |>.

(** The INVALIDATE_BRANCH policy. *)
Definition invalidate_branch (detail : string) (branch_key : Z) (record : ExperimentRecord) : ExperimentRecord :=
  if bool_decide (def_partial_failure_policy (rec_definition record) = PartialFailurePolicy.INVALIDATE_BRANCH) then
    match find_branch record branch_key with
    | Some branch =>
        if is_valid_branch_transition (branch_state branch) BranchState.INVALID then
          log ("branch-invalidated branch=" +:+ id_to_string branch_key +:+ " reason=" +:+ detail)%string
            (record <| rec_definition ::= fun d => d <| def_branches ::=
               update_branch branch_key (fun b => b <| branch_state := BranchState.INVALID |>) |> |>)
        else record
    | None => record
    end
  else record.

(** The record after an accepted failure report. *)
Definition fail_record (request : FailTrialRequest) (sequence : Z) (trial : TrialRecord) (attempt : AttemptRecord)
    (record : ExperimentRecord) : ExperimentRecord :=
  let e := fail_envelope request in
  let retry := fail_retryable request && retryable (rec_definition record) trial in
  let trial := release_trial retry (fail_kind request) (fail_detail request) sequence trial in
  let record := record
    <| rec_attempts ::= om_set (env_attempt e) (fail_attempt request sequence attempt) |>
    <| rec_trials ::= om_set (env_trial e) trial |> in
  let record := invalidate_branch (fail_detail request) (trial_branch trial) record in
  log ("trial-failed trial=" +:+ id_to_string (trial_id trial) +:+ " kind="
       +:+ failure_kind_to_string (fail_kind request))%string record.

(** [Coordinator::fail_trial]. *)
Definition fail_trial (request : FailTrialRequest) (impl : Impl) : Call Status :=
  let e := fail_envelope request in
  if envelope_mismatch (fail_epoch request) (fail_worker request) (fail_boot request) e then
    (impl, protocol_error "failure envelope does not match the presenting transport identity")
  else
    let result := check_envelope e impl in
    let verdict := check_verdict result in
    match verdict_accepted verdict, check_record result, check_trial result, check_attempt result with
    | true, Some record, Some trial, Some attempt =>
        if bool_decide (fail_kind request = FailureKind.NONE) then
          (impl, make_error ErrorCode.INVALID_ARGUMENT ErrorStage.LIFECYCLE "a failure must name a non-NONE failure kind")
        else
          let '(sequence, impl) := next_sequence impl in
          let '(impl, persisted) :=
            persist_locked (put_experiment (env_experiment e) (fail_record request sequence trial attempt record) impl) in
          if negb (status_ok persisted) then (impl, persisted) else (impl, success)
    | _, _, _, _ => (impl, authority_error (verdict_code verdict) (verdict_detail verdict))
    end.

(** ** Cancellation *)

Definition cancel_trial_record (reason : string) (sequence : Z) (trial : TrialRecord) : TrialRecord :=
  trial
    <| trial_state := TrialState.CANCELLED |>
    <| trial_failure_kind := FailureKind.CANCELLATION |>
    <| trial_failure_detail := reason |>
    <| trial_updated_sequence := sequence |>.
Definition cancel_attempt_record (reason : string) (sequence : Z) (attempt : AttemptRecord) : AttemptRecord :=
  attempt
    <| attempt_state := AttemptState.CANCELLED |>
    <| attempt_failure_kind := FailureKind.CANCELLATION |>
    <| attempt_failure_detail := reason |>
    <| attempt_updated_sequence := sequence |>.

(** The experiment, in key order, that holds the trial. *)
Fixpoint find_owner (trial : Z) (experiments : omap Z ExperimentRecord) : option (Z * ExperimentRecord * TrialRecord) :=
  match experiments with
  | [] => None
  | (id, record) :: rest =>
      match om_find trial (rec_trials record) with
      | Some t => Some (id, record, t)
      | None => find_owner trial rest
      end
  end.

(** [Coordinator::cancel_trial]. *)
Definition cancel_trial (trial_key : Z) (reason : string) (impl : Impl) : Call Status :=
  match find_owner trial_key (st_experiments (impl_state impl)) with
  | None => (impl, make_error ErrorCode.NOT_FOUND ErrorStage.LIFECYCLE "trial does not exist")
  | Some (owner, record, trial) =>
      if is_terminal (trial_state trial) then
        if bool_decide (trial_state trial = TrialState.CANCELLED) then (impl, success)
        else (impl, invalid_transition_status "trial" (trial_state_to_string (trial_state trial)) "CANCELLED")
      else
        let '(sequence, impl) := next_sequence impl in
        let record := record
          <| rec_trials ::= om_set trial_key (cancel_trial_record reason sequence trial) |>
          <| rec_attempts ::= om_map (fun attempt =>
               if negb (attempt_trial attempt =? trial_key) || is_attempt_terminal (attempt_state attempt) then attempt
               else cancel_attempt_record reason sequence attempt) |>
          <| rec_revision_sequence := sequence |> in
        let record := log ("trial-cancelled trial=" +:+ id_to_string trial_key +:+ " reason=" +:+ reason)%string record in
        let '(impl, persisted) := persist_locked (put_experiment owner record impl) in
        if negb (status_ok persisted) then (impl, persisted)
        else (notify_event ("trial-cancelled:" +:+ id_to_string trial_key)%string impl, success)
  end.

(** [Coordinator::cancel_experiment]. *)
Definition cancel_record (reason : string) (sequence : Z) (record : ExperimentRecord) : ExperimentRecord :=
  let record := record
    <| rec_state := ExperimentState.CANCELLED |>
    <| rec_trials ::= om_map (fun trial =>
         if is_terminal (trial_state trial) then trial else cancel_trial_record reason sequence trial) |>
    <| rec_attempts ::= om_map (fun attempt =>
         if is_attempt_terminal (attempt_state attempt) then attempt
         else cancel_attempt_record reason sequence attempt) |>
    <| rec_revision_sequence := sequence |> in
  log ("experiment-cancelled reason=" +:+ reason)%string record.

Definition cancel_experiment (experiment : Z) (reason : string) (impl : Impl) : Call Status :=
  match find_experiment experiment impl with
  | None => (impl, make_error ErrorCode.NOT_FOUND ErrorStage.LIFECYCLE "experiment does not exist")
  | Some record =>
      if bool_decide (rec_state record = ExperimentState.CANCELLED) then (impl, success)
      else if negb (is_valid_experiment_transition (rec_state record) ExperimentState.CANCELLED) then
        (impl, invalid_transition_status "experiment" (experiment_state_to_string (rec_state record)) "CANCELLED")
      else
        let '(sequence, impl) := next_sequence impl in
        let '(impl, persisted) := persist_locked (put_experiment experiment (cancel_record reason sequence record) impl) in
        if negb (status_ok persisted) then (impl, persisted)
        else (notify_event ("experiment-cancelled:" +:+ id_to_string experiment)%string impl, success)
  end.

End Authority.
