(* ===== verification/Evidence.v ===== *)
(** * Authoritative evidence (coordinator.cpp)

    [authoritative_trials] selects the completed trials a decision may rest
    on; [compute_evidence] aggregates, per branch and metric, the observations
    their authoritative attempts have left. *)
From S2P Require Import Prelude OMap Error Domain Identity Float64 Model Hash Sorting Canonical State Messages Spec Coordinator.

(** The conditions of [authoritative_trials]. *)
Definition authoritative_trial (record : ExperimentRecord) (branch : BranchDefinition) (branch_key : Z)
    (trial : TrialRecord) : bool :=
  let definition := rec_definition record in
  (trial_branch trial =? branch_key)
  && bool_decide (trial_state trial = TrialState.COMPLETED)
  && (trial_committed_attempts trial =? 1)
  && (trial_generation trial =? def_generation definition)
  && (trial_branch_generation trial =? branch_generation branch)
  && (trial_hypothesis_revision trial =? def_hypothesis_revision definition)
  && (trial_policy trial =? policy_id (def_policy definition))
  && (trial_policy_generation trial =? policy_generation (def_policy definition)).

Definition authoritative_trials (record : ExperimentRecord) (branch_key : Z) : list TrialRecord :=
  match find_branch record branch_key with
  | None => []
  | Some branch =>
      stable_sort (id_less trial_id)
        (List.filter (authoritative_trial record branch branch_key) (map snd (rec_trials record)))
  end.

(** ** The observation index *)

Record ObservationSummary := mkObservationSummary {
  sum_valid : option Observation;
  sum_invalid : Z;
  sum_missing : Z;
  sum_unsupported : Z
}.
#[export] Instance etaObservationSummary : Eta ObservationSummary := fun r =>
  mkObservationSummary (sum_valid r) (sum_invalid r) (sum_missing r) (sum_unsupported r).
Definition empty_summary : ObservationSummary := mkObservationSummary None 0 0 0.

Definition summarize (o : Observation) (summary : ObservationSummary) : ObservationSummary :=
  match obs_validity o with
  | ObservationValidity.VALID =>
      match sum_valid summary with
      | None => summary <| sum_valid := Some o |>
      | Some _ => summary
      end
  | ObservationValidity.INVALID => summary <| sum_invalid ::= Z.succ |>
  | ObservationValidity.MISSING => summary <| sum_missing ::= Z.succ |>
  | ObservationValidity.UNSUPPORTED => summary <| sum_unsupported ::= Z.succ |>
  end.

(** The observation comes from its trial's authoritative attempt. *)
Definition is_authoritative (record : ExperimentRecord) (o : Observation) : bool :=
  match om_find (obs_trial o) (rec_trials record) with
  | None => false
  | Some trial => obs_attempt o =? trial_authoritative_attempt trial
  end.

Definition index_observation (record : ExperimentRecord) (index : omap (Z * Z) ObservationSummary) (o : Observation) :
    omap (Z * Z) ObservationSummary :=
  if is_authoritative record o then
    let key := (obs_trial o, obs_metric o) in
    om_set key (summarize o (default empty_summary (om_find key index))) index
  else index.

Definition observation_summaries (record : ExperimentRecord) : omap (Z * Z) ObservationSummary :=
  foldl (index_observation record) [] (rec_observations record).

(** ** Aggregation *)

(** [categories[name] += 1], in name order. *)
Fixpoint category_add (name : string) (categories : list (string * Z)) : list (string * Z) :=
  match categories with
  | [] => [(name, 1)]
  | (name', n) :: rest =>
      if String.eqb name name' then (name', n + 1) :: rest
      else if String.ltb name name' then (name, 1) :: (name', n) :: rest
      else (name', n) :: category_add name rest
  end.

(** The category held most often; the least name among equals. *)
Definition best_category (categories : list (string * Z)) : string * Z :=
  foldl (fun best entry =>
    if (best.2 <? entry.2) || ((entry.2 =? best.2) && String.ltb entry.1 best.1) then entry else best)
    (""%string, 0) categories.

(** The loop over the authoritative trials for one metric. *)
Definition collect (index : omap (Z * Z) ObservationSummary) (metric : Z)
    (acc : MetricAggregate * list (string * Z)) (trial : TrialRecord) : MetricAggregate * list (string * Z) :=
  let '(aggregate, categories) := acc in
  let aggregate := aggregate <| agg_trial_order ::= fun l => l ++ [id_to_string (trial_id trial)] |> in
  match om_find (trial_id trial, metric) index with
  | None => (aggregate <| agg_missing_count ::= Z.succ |>, categories)
  | Some summary =>
      let aggregate := aggregate
        <| agg_invalid_count ::= Z.add (sum_invalid summary) |>
        <| agg_missing_count ::= Z.add (sum_missing summary) |>
        <| agg_unsupported_count ::= Z.add (sum_unsupported summary) |> in
      match sum_valid summary with
      | None => (aggregate <| agg_missing_count ::= Z.succ |>, categories)
      | Some o =>
          let aggregate := aggregate <| agg_valid_count ::= Z.succ |> in
          let push v := (aggregate <| agg_raw_values ::= fun l => l ++ [v] |>, categories) in
          match mv_kind (obs_value o) with
          | MetricKind.REAL => push (mv_real (obs_value o))
          | MetricKind.INTEGER => push (double_of_Z (mv_integer (obs_value o)))
          | MetricKind.BOOLEAN => push (if mv_boolean (obs_value o) then double_one else double_zero)
          | MetricKind.CATEGORICAL => (aggregate, category_add (mv_category (obs_value o)) categories)
          end
      end
  end.

Definition double_two : double := double_of_Z 2.
Definition sum_values (values : list double) : double := foldl dadd double_zero values.
Definition min_element (first : double) (rest : list double) : double :=
  foldl (fun best v => if dltb v best then v else best) first rest.
Definition max_element (first : double) (rest : list double) : double :=
  foldl (fun best v => if dltb best v then v else best) first rest.
Definition median (values : list double) : double :=
  let sorted := stable_sort dltb values in
  let middle := (length sorted / 2)%nat in
  if Nat.even (length sorted)
  then ddiv (dadd (nth (middle - 1) sorted double_zero) (nth middle sorted double_zero)) double_two
  else nth middle sorted double_zero.

(** The aggregate of a non-empty list of values. *)
Definition aggregate_value (rule : AggregationRule) (first : double) (rest : list double) : double :=
  let values := first :: rest in
  match rule with
  | AggregationRule.MEAN => ddiv (sum_values values) (double_of_Z (size_of values))
  | AggregationRule.MEDIAN => median values
  | AggregationRule.MIN => min_element first rest
  | AggregationRule.MAX => max_element first rest
  | AggregationRule.SUM => sum_values values
  | AggregationRule.NONE | AggregationRule.MAJORITY => first
  end.

Definition finish_aggregate (metric : MetricDefinition) (acc : MetricAggregate * list (string * Z)) : MetricAggregate :=
  let '(aggregate, categories) := acc in
  if bool_decide (metric_kind metric = MetricKind.CATEGORICAL)
     || bool_decide (metric_aggregation metric = AggregationRule.MAJORITY) then
    let '(best, count) := best_category categories in
    if 0 <? count then aggregate <| agg_present := true |> <| agg_category := best |> else aggregate
  else
    match agg_raw_values aggregate with
    | [] => aggregate
    | first :: rest => aggregate
        <| agg_present := true |>
        <| agg_value := aggregate_value (metric_aggregation metric) first rest |>
    end.

Definition aggregate_metric (index : omap (Z * Z) ObservationSummary) (trials : list TrialRecord)
    (metric : MetricDefinition) : MetricAggregate :=
  finish_aggregate metric
    (foldl (collect index (metric_id metric))
       (default_MetricAggregate <| agg_metric := metric_id metric |> <| agg_rule := metric_aggregation metric |>, [])
       trials).

(** The per-branch tally of trial states. *)
Definition tally (branch : Z) (summary : BranchEvidence) (trial : TrialRecord) : BranchEvidence :=
  if negb (trial_branch trial =? branch) then summary
  else
    match trial_state trial with
    | TrialState.COMPLETED => summary
    | TrialState.FAILED => summary <| ev_failed_trials ::= Z.succ |>
    | TrialState.CANCELLED => summary <| ev_cancelled_trials ::= Z.succ |>
    | TrialState.INVALID => summary <| ev_invalid_trials ::= Z.succ |>
    | TrialState.SUPERSEDED => summary <| ev_superseded_trials ::= Z.succ |>
    | _ => summary <| ev_open_trials ::= Z.succ |>
    end.

Definition branch_evidence (record : ExperimentRecord) (branch : BranchDefinition) : BranchEvidence :=
  let trials := authoritative_trials record (branch_id branch) in
  let summary := default_BranchEvidence
    <| ev_branch := branch_id branch |>
    <| ev_generation := branch_generation branch |>
    <| ev_role := branch_role branch |>
    <| ev_state := branch_state branch |>
    <| ev_planned_trials := branch_planned_trials branch |> in
  (foldl (tally (branch_id branch)) summary (map snd (rec_trials record)))
    <| ev_completed_trials := u32 (size_of trials) |>
    <| ev_aggregates := map (aggregate_metric (observation_summaries record) trials)
         (stable_sort (id_less metric_id) (def_metrics (rec_definition record))) |>.

(** [compute_evidence]. *)
Definition compute_evidence (record : ExperimentRecord) : list BranchEvidence :=
  map (branch_evidence record) (stable_sort (id_less branch_id) (def_branches (rec_definition record))).
