(* ===== verification/Decision.v ===== *)
(** * Decisions, finalization and rollback (coordinator_decision.cpp)

    [apply_constraints] is the list of hard evidence constraints with the first
    violated one fixing the outcome; [build_decision] adds the comparison
    factors and derives the outcome; [evaluate], [finalize_experiment] and
    [rollback] are the operations on top.  The decimal renderings of doubles
    ([std::to_chars] in the digests, [std::to_string] in the texts) are
    parameters: nothing but texts and digests depends on them. *)
From S2P Require Import Prelude OMap Error Domain Identity Float64 Model Hash Sorting Canonical State Messages Spec Coordinator Evidence.

Class Formatting := {
  to_chars : double -> string;
  std_to_string : double -> string
}.

(** [metric_name]. *)
Definition metric_name_of (record : ExperimentRecord) (id : Z) : string :=
  match find_metric record id with
  | Some metric => metric_name metric
  | None => ("metric#" +:+ id_to_string id)%string
  end.

(** [improvement]: positive always means better. *)
Definition improvement (direction : MetricDirection) (baseline candidate : double) : double :=
  match direction with
  | MetricDirection.MINIMIZE => dsub baseline candidate
  | MetricDirection.MAXIMIZE | MetricDirection.TARGET | MetricDirection.INFORMATIONAL => dsub candidate baseline
  end.

(** [branch_has_metric]: the first aggregate of the metric. *)
Definition branch_has_metric (evidence : BranchEvidence) (metric : Z) : option MetricAggregate :=
  List.find (fun aggregate => agg_metric aggregate =? metric) (ev_aggregates evidence).

(** The last entry of a vector that satisfies a test, as the loops without a
    [break] select it. *)
Definition last_such {A} (f : A -> bool) (l : list A) : option A :=
  foldl (fun acc x => if f x then Some x else acc) None l.

Definition evidence_of (branch : Z) (evidence : list BranchEvidence) : option BranchEvidence :=
  last_such (fun entry => ev_branch entry =? branch) evidence.

(** ** Hard constraints *)

(** The output parameters of [apply_constraints]. *)
Record Constraints := mkConstraints {
  con_results : list ConstraintResult;
  con_outcome : DecisionOutcome;
  con_reason_kind : FailureKind;
  con_reason : string
}.
#[export] Instance etaConstraints : Eta Constraints := fun r =>
  mkConstraints (con_results r) (con_outcome r) (con_reason_kind r) (con_reason r).

(** The lambda [add]. *)
Definition add_result (name : string) (passed : bool) (detail : string) (c : Constraints) : Constraints :=
  c <| con_results ::= fun l => l ++ [mkConstraintResult name passed detail] |>.
(** The lambda [fail]: only the first failure counts. *)
Definition fail_with (outcome : DecisionOutcome) (kind : FailureKind) (reason : string) (c : Constraints) : Constraints :=
  if bool_decide (con_outcome c = DecisionOutcome.ACCEPT)
  then c <| con_outcome := outcome |> <| con_reason_kind := kind |> <| con_reason := reason |>
  else c.
Definition insufficient (reason : string) (c : Constraints) : Constraints :=
  fail_with DecisionOutcome.INSUFFICIENT_EVIDENCE FailureKind.INSUFFICIENT_EVIDENCE reason c.
Definition fail_if (b : bool) (f : Constraints -> Constraints) (c : Constraints) : Constraints :=
  if b then f c else c.

Definition initial_constraints : Constraints :=
  mkConstraints [] DecisionOutcome.ACCEPT FailureKind.NONE
    "all hard evidence constraints passed and every decisive comparison factor was satisfied".

(** Lines 86-108: the experiment must be open. *)
Definition constrain_state (record : ExperimentRecord) (c : Constraints) : Constraints :=
  let c := add_result "experiment_open" (bool_decide (rec_state record = ExperimentState.OPEN))
             ("experiment state is " +:+ experiment_state_to_string (rec_state record))%string c in
  match rec_state record with
  | ExperimentState.OPEN => c
  | ExperimentState.CANCELLED =>
      fail_with DecisionOutcome.CANCELLED FailureKind.CANCELLATION "the experiment was cancelled" c
  | ExperimentState.SUPERSEDED =>
      fail_with DecisionOutcome.SUPERSEDED FailureKind.EXPERIMENT_INVALIDATION "the experiment was superseded" c
  | ExperimentState.RECOVERING =>
      fail_with DecisionOutcome.INSUFFICIENT_EVIDENCE FailureKind.PRODUCER_LOSS
        "the experiment is recovering and has not reconciled its live authority" c
  | ExperimentState.FINALIZED =>
      fail_with DecisionOutcome.INVALID FailureKind.POLICY_REJECTION
        "the experiment already holds an authoritative decision" c
  end.

(** Lines 121-134: the candidate branch. *)
Definition constrain_candidate (candidate : BranchDefinition) (evidence : option BranchEvidence) (c : Constraints) : Constraints :=
  let present := match evidence with Some _ => true | None => false end in
  let current := match evidence with
                 | Some entry => ev_generation entry =? branch_generation candidate
                 | None => false
                 end in
  let c := add_result "candidate_branch_eligible" (present && is_branch_eligible (branch_state candidate) && current)
             ("candidate branch state is " +:+ branch_state_to_string (branch_state candidate))%string c in
  if negb present || negb (is_branch_eligible (branch_state candidate)) then
    match branch_state candidate with
    | BranchState.INVALID =>
        fail_with DecisionOutcome.INVALID FailureKind.POLICY_REJECTION "the candidate branch is invalid" c
    | BranchState.SUPERSEDED =>
        fail_with DecisionOutcome.SUPERSEDED FailureKind.EXPERIMENT_INVALIDATION
          "the candidate branch was superseded" c
    | _ => insufficient "the candidate branch is not eligible for a decision" c
    end
  else c.

(** Lines 136-148: the baseline branch. *)
Definition constrain_baseline (policy : ComparisonPolicy) (baseline : option BranchDefinition)
    (evidence : option BranchEvidence) (c : Constraints) : Constraints :=
  let has_evidence := match evidence with Some _ => true | None => false end in
  match baseline with
  | None =>
      let c := add_result "baseline_present" (negb (policy_require_baseline policy)) "no baseline branch is designated" c in
      fail_if (policy_require_baseline policy)
        (insufficient "the policy requires a baseline branch and none is designated") c
  | Some branch =>
      let c := add_result "baseline_present" true "baseline designated" c in
      let eligible := has_evidence && is_branch_eligible (branch_state branch) in
      let c := add_result "baseline_branch_eligible" eligible
                 ("baseline branch state is " +:+ branch_state_to_string (branch_state branch))%string c in
      fail_if (negb eligible) (insufficient "the baseline branch is not eligible for a decision") c
  end.

(** Lines 150-169: enough completed trials. *)
Definition constrain_trials (name reason : string) (policy : ComparisonPolicy) (evidence : option BranchEvidence)
    (c : Constraints) : Constraints :=
  match evidence with
  | None => c
  | Some entry =>
      let enough := policy_min_completed_trials_per_branch policy <=? ev_completed_trials entry in
      let c := add_result name enough
                 ("completed=" +:+ id_to_string (ev_completed_trials entry) +:+ " required="
                  +:+ id_to_string (policy_min_completed_trials_per_branch policy))%string c in
      fail_if (negb enough) (insufficient reason) c
  end.

(** A present aggregate of the metric. *)
Definition present_aggregate (metric : Z) (evidence : option BranchEvidence) : option MetricAggregate :=
  match evidence with
  | None => None
  | Some entry =>
      match branch_has_metric entry metric with
      | Some aggregate => if agg_present aggregate then Some aggregate else None
      | None => None
      end
  end.

(** Lines 175-189 and 191-205: a required metric on one of the branches. *)
Definition constrain_required (side : string) (missing_reason few_reason missing_detail : string)
    (policy : ComparisonPolicy) (metric : MetricDefinition) (evidence : option BranchEvidence) (c : Constraints) : Constraints :=
  match present_aggregate (metric_id metric) evidence with
  | None =>
      insufficient missing_reason
        (add_result (side +:+ "_required_metric:" +:+ metric_name metric)%string false missing_detail c)
  | Some aggregate =>
      let c := add_result (side +:+ "_required_metric:" +:+ metric_name metric)%string true "present" c in
      if agg_valid_count aggregate <? policy_min_valid_observations_per_required_metric policy then
        insufficient few_reason
          (add_result (side +:+ "_valid_observations:" +:+ metric_name metric)%string false
             ("valid=" +:+ id_to_string (agg_valid_count aggregate) +:+ " required="
              +:+ id_to_string (policy_min_valid_observations_per_required_metric policy))%string c)
      else c
  end.

Definition invalid_observations (metric : Z) (evidence : option BranchEvidence) : Z :=
  match evidence with
  | None => 0
  | Some entry =>
      match branch_has_metric entry metric with
      | Some aggregate => agg_invalid_count aggregate
      | None => 0
      end
  end.

(** The body of the loop over the metrics, lines 171-224. *)
Definition constrain_metric (policy : ComparisonPolicy) (candidate baseline : option BranchEvidence)
    (c : Constraints) (metric : MetricDefinition) : Constraints :=
  if negb (metric_required metric) then c
  else
    let c := constrain_required "candidate"
      "a required metric has no authoritative aggregate on the candidate branch"
      "a required metric holds fewer valid observations than the policy requires"
      "required metric has no authoritative aggregate on the candidate branch" policy metric candidate c in
    let c :=
      match baseline with
      | None => c
      | Some _ => constrain_required "baseline"
          "a required metric has no authoritative aggregate on the baseline branch"
          "a required metric holds fewer valid observations than the policy requires on the baseline branch"
          "required metric has no authoritative aggregate on the baseline branch" policy metric baseline c
      end in
    if policy_reject_on_any_invalid_observation policy then
      let invalid := u32 (invalid_observations (metric_id metric) candidate
                          + invalid_observations (metric_id metric) baseline) in
      let c := add_result ("no_invalid_observations:" +:+ metric_name metric)%string (invalid =? 0)
                 ("invalid=" +:+ id_to_string invalid)%string c in
      fail_if (negb (invalid =? 0))
        (fail_with DecisionOutcome.INVALID FailureKind.INVALID_OBSERVATION
           "the policy rejects any decision supported by unresolved invalid observations") c
    else c.

(** Lines 226-260: one environment fingerprint among the completed trials. *)
Definition compared_trial (candidate : Z) (baseline : option BranchDefinition) (trial : TrialRecord) : bool :=
  bool_decide (trial_state trial = TrialState.COMPLETED)
  && ((trial_branch trial =? candidate)
      || match baseline with Some b => trial_branch trial =? branch_id b | None => false end).

Definition constrain_environment (record : ExperimentRecord) (candidate : Z) (baseline : option BranchDefinition)
    (c : Constraints) : Constraints :=
  if negb (policy_require_environment_match (def_policy (rec_definition record))) then c
  else
    let prints := map trial_environment_fingerprint
      (List.filter (compared_trial candidate baseline) (map snd (rec_trials record))) in
    let missing := u32 (size_of (List.filter str_empty prints)) in
    let fingerprints := remove_dups (List.filter (fun p => negb (str_empty p)) prints) in
    let matched := size_of fingerprints <=? 1 in
    let c := add_result "environment_match" matched
      (if matched
       then match fingerprints with [] => "no environment fingerprint declared" | p :: _ => p end
       else "compared branches were produced under different environment fingerprints")%string c in
    let c := fail_if (negb matched)
      (fail_with DecisionOutcome.INVALID FailureKind.POLICY_REJECTION
         "the compared branches were produced under different environment fingerprints") c in
    if negb (missing =? 0) && negb matched then
      c <| con_reason ::= fun reason => (reason +:+ "; " +:+ id_to_string missing
             +:+ " compared trials declared no environment fingerprint")%string |>
    else c.

(** [apply_constraints]. *)
Definition apply_constraints (record : ExperimentRecord) (candidate : BranchDefinition)
    (baseline : option BranchDefinition) (evidence : list BranchEvidence) : Constraints :=
  let policy := def_policy (rec_definition record) in
  let candidate_evidence := evidence_of (branch_id candidate) evidence in
  let baseline_evidence := match baseline with Some b => evidence_of (branch_id b) evidence | None => None end in
  let c := constrain_state record initial_constraints in
  let c := constrain_candidate candidate candidate_evidence c in
  let c := constrain_baseline policy baseline baseline_evidence c in
  let c := constrain_trials "candidate_completed_trials"
    "the candidate branch holds fewer authoritative completed trials than the policy requires"
    policy candidate_evidence c in
  let c := constrain_trials "baseline_completed_trials"
    "the baseline branch holds fewer authoritative completed trials than the policy requires"
    policy baseline_evidence c in
  let c := foldl (constrain_metric policy candidate_evidence baseline_evidence) c
             (def_metrics (rec_definition record)) in
  constrain_environment record (branch_id candidate) baseline c.

(** ** Comparison factors *)

(** The loop variables of [build_decision]. *)
Record FactorLoop := mkFactorLoop {
  fl_factors : list ComparisonFactor;
  fl_any_decisive : bool;
  fl_any_decisive_failed : bool;
  fl_any_nonzero_delta : bool;
  fl_first_failed_metric : string
}.
#[export] Instance etaFactorLoop : Eta FactorLoop := fun r =>
  mkFactorLoop (fl_factors r) (fl_any_decisive r) (fl_any_decisive_failed r) (fl_any_nonzero_delta r)
    (fl_first_failed_metric r).

Definition push_factor (factor : ComparisonFactor) (loop : FactorLoop) : FactorLoop :=
  loop <| fl_factors ::= fun l => l ++ [factor] |>.
Definition note_failure (name : string) (loop : FactorLoop) : FactorLoop :=
  loop
    <| fl_any_decisive_failed := true |>
    <| fl_first_failed_metric ::= fun first => if str_empty first then name else first |>.

(** The pairs on which the candidate improves, for MAJORITY_WINS. *)
Definition majority_fraction (direction : MetricDirection) (candidate baseline : list double) : double :=
  let pairs := combine candidate baseline in
  let wins := List.filter (fun p => dltb double_zero (improvement direction p.2 p.1)) pairs in
  ddiv (double_of_Z (size_of wins)) (double_of_Z (size_of pairs)).

(** The [switch] on the comparison operator: [satisfied] and the delta it
    reports, for present aggregates. *)
Definition rule_verdict (rule : ComparisonRule) (direction : MetricDirection)
    (candidate baseline : MetricAggregate) : bool * double :=
  let c := agg_value candidate in
  let b := agg_value baseline in
  let delta := dsub c b in
  match rule_op rule with
  | ComparisonOp.GREATER_THAN => (dltb (dadd b (rule_threshold rule)) c, delta)
  | ComparisonOp.LESS_THAN => (dltb c (dsub b (rule_threshold rule)), delta)
  | ComparisonOp.MIN_IMPROVEMENT => (dleb (rule_threshold rule) (improvement direction b c), delta)
  | ComparisonOp.MAX_REGRESSION_TOLERANCE => (dleb (dneg (improvement direction b c)) (rule_threshold rule), delta)
  | ComparisonOp.TARGET_RANGE => (dleb (rule_target_low rule) c && dleb c (rule_target_high rule), delta)
  | ComparisonOp.MAJORITY_WINS =>
      if list_empty (combine (agg_raw_values candidate) (agg_raw_values baseline)) then (false, delta)
      else
        let fraction := majority_fraction direction (agg_raw_values candidate) (agg_raw_values baseline) in
        (dleb (rule_threshold rule) fraction, fraction)
  | ComparisonOp.REPORT_ONLY => (true, delta)
  end.

Section Decisions.
Context `{Storage} `{Formatting}.

(** The body of the loop over the sorted rules, lines 342-437. *)
Definition evaluate_rule (record : ExperimentRecord) (candidate baseline : option BranchEvidence)
    (loop : FactorLoop) (rule : ComparisonRule) : FactorLoop :=
  if bool_decide (rule_op rule = ComparisonOp.REPORT_ONLY) then loop
  else
    let loop := loop <| fl_any_decisive := true |> in
    let metric := last_such (fun m => metric_id m =? rule_metric rule) (def_metrics (rec_definition record)) in
    let name := metric_name_of record (rule_metric rule) in
    let factor := default_ComparisonFactor
      <| factor_metric := rule_metric rule |>
      <| factor_op := rule_op rule |>
      <| factor_priority := rule_priority rule |>
      <| factor_threshold := rule_threshold rule |>
      <| factor_decisive := true |> in
    match present_aggregate (rule_metric rule) candidate, present_aggregate (rule_metric rule) baseline with
    | Some candidate_aggregate, Some baseline_aggregate =>
        let c := agg_value candidate_aggregate in
        let b := agg_value baseline_aggregate in
        let loop := if negb (deqb (dsub c b) double_zero) then loop <| fl_any_nonzero_delta := true |> else loop in
        let direction := match metric with Some m => metric_direction m | None => MetricDirection.MINIMIZE end in
        let '(satisfied, delta) := rule_verdict rule direction candidate_aggregate baseline_aggregate in
        let factor := factor
          <| factor_has_values := true |>
          <| factor_baseline_value := b |>
          <| factor_candidate_value := c |>
          <| factor_delta := delta |>
          <| factor_satisfied := satisfied |>
          <| factor_detail := ("metric " +:+ name +:+ " baseline=" +:+ std_to_string b +:+ " candidate="
               +:+ std_to_string c +:+ " threshold=" +:+ std_to_string (rule_threshold rule))%string |> in
        push_factor factor (if satisfied then loop else note_failure name loop)
    | _, _ =>
        push_factor
          (factor <| factor_detail := ("comparison factor " +:+ name
             +:+ " could not be evaluated: authoritative aggregate missing")%string |>)
          (note_failure name loop)
    end.

(** The weighted score, lines 439-478: the sum over the weighted metrics and
    whether any of them was present on both branches. *)
Definition score_metric (candidate baseline : option BranchEvidence) (acc : double * bool) (metric : MetricDefinition) :
    double * bool :=
  if negb (metric_required metric) || (metric_weight metric =? 0)
     || bool_decide (metric_direction metric = MetricDirection.INFORMATIONAL) then acc
  else
    match present_aggregate (metric_id metric) candidate, present_aggregate (metric_id metric) baseline with
    | Some c, Some b =>
        let reference := if dltb double_1e_12 (dabs (agg_value b)) then dabs (agg_value b) else double_one in
        (dadd acc.1 (dmul (double_of_Z (metric_weight metric))
           (ddiv (improvement (metric_direction metric) (agg_value b) (agg_value c)) reference)), true)
    | _, _ => acc
    end.

Definition apply_weighted_score (record : ExperimentRecord) (candidate baseline : option BranchEvidence)
    (loop : FactorLoop) : FactorLoop :=
  let policy := def_policy (rec_definition record) in
  if negb (policy_use_weighted_score policy) then loop
  else
    let '(score, evaluated) :=
      foldl (score_metric candidate baseline) (double_zero, false) (def_metrics (rec_definition record)) in
    if negb evaluated then loop
    else
      let satisfied := dleb (policy_accept_score_threshold policy) score in
      let factor := default_ComparisonFactor
        <| factor_metric := 0 |>
        <| factor_op := ComparisonOp.REPORT_ONLY |>
        <| factor_satisfied := satisfied |>
        <| factor_decisive := true |>
        <| factor_delta := score |>
        <| factor_has_values := true |>
        <| factor_detail := ("explicit weighted score=" +:+ std_to_string score +:+ " threshold="
             +:+ std_to_string (policy_accept_score_threshold policy))%string |> in
      push_factor factor (if satisfied then loop else note_failure "weighted-score" loop).

(** ** Building a decision *)

Definition first_baseline (branches : list BranchDefinition) : option BranchDefinition :=
  List.find (fun b => bool_decide (branch_role b = BranchRole.BASELINE)) branches.

(** The outcome once the constraints hold, lines 480-497. *)
Definition conclude (loop : FactorLoop) (decision : Decision) : Decision :=
  if negb (bool_decide (dec_outcome decision = DecisionOutcome.ACCEPT)) then decision
  else if negb (fl_any_decisive loop) then
    decision
      <| dec_outcome := DecisionOutcome.INCONCLUSIVE |>
      <| dec_reason_kind := FailureKind.INSUFFICIENT_EVIDENCE |>
      <| dec_reason := "the policy declares no decisive comparison factor; the result is reported but not decided" |>
  else if fl_any_decisive_failed loop then
    decision
      <| dec_outcome := DecisionOutcome.REJECT |>
      <| dec_reason_kind := FailureKind.POLICY_REJECTION |>
      <| dec_reason := ("comparison factor failed for metric " +:+ fl_first_failed_metric loop)%string |>
  else if negb (fl_any_nonzero_delta loop) then
    decision
      <| dec_outcome := DecisionOutcome.INCONCLUSIVE |>
      <| dec_reason_kind := FailureKind.INSUFFICIENT_EVIDENCE |>
      <| dec_reason := "every decisive comparison factor is exactly equal; a tie is not an acceptance" |>
      <| dec_tied := true |>
      <| dec_tie_break_rule := "exact-equality-on-all-decisive-metrics" |>
  else decision.

(** A decision refused before any comparison. *)
Definition refuse_candidate (constraint reason : string) (decision : Decision) : Decision :=
  decision
    <| dec_outcome := DecisionOutcome.INVALID |>
    <| dec_reason_kind := FailureKind.POLICY_REJECTION |>
    <| dec_reason := reason |>
    <| dec_constraints ::= fun l => l ++ [mkConstraintResult constraint false reason] |>.

Definition rule_order (lhs rhs : ComparisonRule) : bool :=
  if negb (rule_priority lhs =? rule_priority rhs) then rule_priority lhs <? rule_priority rhs
  else rule_metric lhs <? rule_metric rhs.

Definition run_factors (record : ExperimentRecord) (candidate baseline : option BranchEvidence) : FactorLoop :=
  apply_weighted_score record candidate baseline
    (foldl (evaluate_rule record candidate baseline) (mkFactorLoop [] false false false "")
       (stable_sort rule_order (policy_rules (def_policy (rec_definition record))))).

(** [build_decision]. *)
Definition build_decision (record : ExperimentRecord) (candidate_key id sequence : Z) : Decision :=
  let definition := rec_definition record in
  let branches := def_branches definition in
  let evidence := compute_evidence record in
  let decision := default_Decision
    <| dec_id := id |>
    <| dec_experiment := def_id definition |>
    <| dec_generation := def_generation definition |>
    <| dec_hypothesis := def_hypothesis definition |>
    <| dec_hypothesis_revision := def_hypothesis_revision definition |>
    <| dec_policy := policy_id (def_policy definition) |>
    <| dec_policy_generation := policy_generation (def_policy definition) |>
    <| dec_candidate := candidate_key |>
    <| dec_sequence := sequence |>
    <| dec_rejected_evidence := rec_rejected_evidence record |>
    <| dec_compared_branches := stable_sort Z.ltb (map branch_id branches) |>
    <| dec_evidence := evidence |>
    <| dec_canonical_state_digest := evidence_digest to_chars evidence definition |> in
  match last_such (fun b => branch_id b =? candidate_key) branches with
  | None =>
      refuse_candidate "candidate_exists" "the candidate branch does not exist in this experiment generation" decision
  | Some candidate =>
      let baseline := first_baseline branches in
      let decision :=
        match baseline with
        | Some b => decision <| dec_baseline := branch_id b |> <| dec_baseline_present := true |>
        | None => decision
        end in
      if match baseline with Some b => branch_id b =? branch_id candidate | None => false end then
        refuse_candidate "candidate_is_not_baseline" "the candidate branch is the designated baseline" decision
      else
        let constraints := apply_constraints record candidate baseline evidence in
        let loop := run_factors record (evidence_of (branch_id candidate) evidence)
          (match baseline with Some b => evidence_of (branch_id b) evidence | None => None end) in
        conclude loop (decision
          <| dec_constraints := con_results constraints |>
          <| dec_outcome := con_outcome constraints |>
          <| dec_reason_kind := con_reason_kind constraints |>
          <| dec_reason := con_reason constraints |>
          <| dec_factors := fl_factors loop |>)
  end.

(** [Coordinator::evaluate]. *)
Definition evaluate (experiment candidate : Z) (impl : Impl) : Result Decision :=
  match find_experiment experiment impl with
  | None => Err (make_error ErrorCode.NOT_FOUND ErrorStage.DECISION "experiment does not exist")
  | Some record => Ok (build_decision record candidate 0 (current_sequence impl))
  end.

(** The state an outcome leaves the experiment in. *)
Definition state_after (outcome : DecisionOutcome) (state : ExperimentState) : ExperimentState :=
  match outcome with
  | DecisionOutcome.ACCEPT | DecisionOutcome.REJECT | DecisionOutcome.INVALID => ExperimentState.FINALIZED
  | DecisionOutcome.CANCELLED => ExperimentState.CANCELLED
  | DecisionOutcome.SUPERSEDED => ExperimentState.SUPERSEDED
  | DecisionOutcome.INCONCLUSIVE | DecisionOutcome.INSUFFICIENT_EVIDENCE => state
  end.
Definition is_final (outcome : DecisionOutcome) : bool :=
  match outcome with
  | DecisionOutcome.ACCEPT | DecisionOutcome.REJECT | DecisionOutcome.INVALID => true
  | _ => false
  end.

Definition snapshot_authority (branches : list BranchDefinition) : list BranchAuthoritySnapshot :=
  map (fun b => mkBranchAuthoritySnapshot (branch_id b) (branch_generation b) (branch_state b)) branches.

(** [Coordinator::finalize_experiment]. *)
Definition finalize_experiment (experiment candidate : Z) (reason : string) (impl : Impl) : Call (Result Decision) :=
  match find_experiment experiment impl with
  | None => (impl, Err (make_error ErrorCode.NOT_FOUND ErrorStage.DECISION "experiment does not exist"))
  | Some record =>
      if bool_decide (rec_state record = ExperimentState.FINALIZED) then
        (impl, Err (lifecycle_error ErrorCode.INVALID_TRANSITION
                      "the experiment already holds an authoritative decision"))
      else if max_decisions_per_experiment (impl_limits impl) <=? size_of (rec_decisions record) then
        (impl, Err (make_error ErrorCode.RESOURCE_EXHAUSTED ErrorStage.LIMITS "too many decisions"))
      else
        let '(sequence, impl) := next_sequence impl in
        let '(id, impl) := alloc_decision_id impl in
        let built := build_decision record candidate id sequence in
        let built := if str_empty reason then built
                     else built <| dec_reason ::= fun r => (r +:+ "; caller reason: " +:+ reason)%string |> in
        let record := record
          <| rec_decisions ::= fun l => l ++ [built] |>
          <| rec_state ::= state_after (dec_outcome built) |> in
        let '(record, impl) :=
          if is_final (dec_outcome built) then
            let '(point_key, impl) := alloc_rollback_id impl in
            let point := default_RollbackPoint
              <| point_id := point_key |>
              <| point_experiment := experiment |>
              <| point_generation := def_generation (rec_definition record) |>
              <| point_decision := dec_id built |>
              <| point_decision_present := true |>
              <| point_state_digest := definition_digest to_chars (rec_definition record) |>
              <| point_sequence := sequence |>
              <| point_authority := snapshot_authority (def_branches (rec_definition record)) |> in
            (record <| rec_rollback_points ::= fun l => l ++ [point] |>, impl)
          else (record, impl) in
        let record := record <| rec_revision_sequence := sequence |> in
        let record := log ("experiment-finalized outcome=" +:+ decision_outcome_to_string (dec_outcome built)
                           +:+ " decision=" +:+ id_to_string (dec_id built))%string record in
        let '(impl, persisted) := persist_locked (put_experiment experiment record impl) in
        if negb (status_ok persisted) then (impl, Err persisted)
        else (notify_decision built impl, Ok built)
  end.

(** ** Rollback *)

(** Restoring the snapshots onto the branches; the second component are the
    restored identities. *)
Definition restore_branches (authority : list BranchAuthoritySnapshot) (branches : list BranchDefinition) :
    list BranchDefinition * list Z :=
  foldl (fun acc snapshot =>
    match find_branch_definition acc.1 (snap_branch snapshot) with
    | None => acc
    | Some _ => (update_branch (snap_branch snapshot) (fun b => b
                   <| branch_state := snap_state snapshot |>
                   <| branch_generation := snap_generation snapshot |>) acc.1,
                 snap_branch snapshot :: acc.2)
    end) (branches, []) authority.

(** A branch created after the target. *)
Definition demote_branch (restored : list Z) (b : BranchDefinition) : BranchDefinition :=
  if bool_decide (branch_id b ∈ restored) then b
  else
    match branch_state b with
    | BranchState.ACTIVE => b <| branch_state := BranchState.RETIRED |>
    | BranchState.SUPERSEDED => b
    | _ => b <| branch_state := BranchState.SUPERSEDED |>
    end.

(** The record after the rollback to [chosen], with the point it records. *)
Definition rollback_record (chosen : RollbackPoint) (experiment point_key sequence : Z) (reason : string)
    (record : ExperimentRecord) : ExperimentRecord :=
  let previous := def_generation (rec_definition record) in
  let record := abandon_stale_live_work sequence record in
  let '(branches, restored) := restore_branches (point_authority chosen) (def_branches (rec_definition record)) in
  let record := record <| rec_definition ::= fun d => d
    <| def_generation := point_generation chosen |>
    <| def_branches := map (demote_branch restored) branches |> |> in
  let recorded := default_RollbackPoint
    <| point_id := point_key |>
    <| point_experiment := experiment |>
    <| point_generation := point_generation chosen |>
    <| point_restored_from := previous |>
    <| point_state_digest := definition_digest to_chars (rec_definition record) |>
    <| point_authority := point_authority chosen |>
    <| point_sequence := sequence |> in
  let record := record
    <| rec_rollback_points ::= fun l => l ++ [recorded] |>
    <| rec_state ::= fun state =>
         match state with
         | ExperimentState.FINALIZED | ExperimentState.SUPERSEDED => ExperimentState.OPEN
         | _ => state
         end |>
    <| rec_revision_sequence := sequence |> in
  log ("rollback restored-generation=" +:+ id_to_string (point_generation chosen) +:+ " from-generation="
       +:+ id_to_string previous +:+ " reason=" +:+ reason)%string record.

(** [Coordinator::rollback]. *)
Definition rollback (experiment target : Z) (reason : string) (impl : Impl) : Call Status :=
  match find_experiment experiment impl with
  | None => (impl, make_error ErrorCode.NOT_FOUND ErrorStage.LIFECYCLE "experiment does not exist")
  | Some record =>
      if bool_decide (rec_state record = ExperimentState.CANCELLED) then
        (impl, lifecycle_error ErrorCode.INVALID_TRANSITION "a cancelled experiment cannot be rolled back")
      else if negb (id_valid target) then
        (impl, make_error ErrorCode.INVALID_ARGUMENT ErrorStage.LIFECYCLE "rollback target generation must be non-null")
      else
        match last_such (fun point => point_generation point =? target) (rec_rollback_points record) with
        | None => (impl, make_error ErrorCode.NOT_FOUND ErrorStage.LIFECYCLE
                           "no authoritative rollback point exists for the requested generation")
        | Some chosen =>
            if (point_generation chosen =? def_generation (rec_definition record))
               && bool_decide (rec_state record = ExperimentState.OPEN) then
              (impl, lifecycle_error ErrorCode.INVALID_TRANSITION
                       "the experiment is already at the requested authoritative generation")
            else
              let '(sequence, impl) := next_sequence impl in
              let '(point_key, impl) := alloc_rollback_id impl in
              let record := rollback_record chosen experiment point_key sequence reason record in
              let impl := put_experiment experiment record impl in
              let validated := validate_experiment_record record (impl_limits impl) experiment in
              if negb (status_ok validated) then (impl, validated)
              else
                let '(impl, persisted) := persist_locked impl in
                if negb (status_ok persisted) then (impl, persisted)
                else (notify_event ("rollback:" +:+ id_to_string experiment)%string impl, success)
        end
  end.

End Decisions.
