(* ===== verification/Scenario.v ===== *)
(** * A concrete run

    A storage kept in memory, and a small experiment driven through the
    coordinator's operations: one metric, a baseline and a candidate branch,
    one worker.  The states of the run are the concrete inputs at which the
    theorems of the development are applied. *)
From S2P Require Import Prelude OMap Error Domain Identity Float64 Model Hash Sorting Canonical State Wire Codec StateCodec Messages Spec Coordinator Authority Evidence Decision.

(** The stored image, and whether the disk refuses writes. *)
Record MemoryWorld := mkMemoryWorld { mem_image : option CoordinatorState; mem_full : bool }.

Definition memory_save (path : string) (state : CoordinatorState) (limits : Limits) (w : MemoryWorld) : MemoryWorld * Status :=
  if mem_full w
  then (w, make_error ErrorCode.PERSISTENCE_FAILURE ErrorStage.PERSISTENCE
             "cannot open the temporary state image for writing")
  else (mkMemoryWorld (Some (clip_state state)) false, success).

Definition memory_load (path : string) (limits : Limits) (w : MemoryWorld) : Result CoordinatorState :=
  match mem_image w with
  | None => Err (make_error ErrorCode.NOT_FOUND ErrorStage.PERSISTENCE "no persisted state image exists")
  | Some state => let s := validate_state state limits in if status_ok s then Ok state else Err s
  end.

#[export] Instance memory_storage : Storage := {
  World := MemoryWorld;
  serialize := fun _ _ => Ok [];
  save_image := memory_save;
  image_exists := fun _ w => match mem_image w with Some _ => true | None => false end;
  load_image := memory_load;
  discard_temporary_images := fun _ w => (w, Ok 0)
}.

#[export] Instance memory_storage_laws : StorageLaws.
Proof.
  split; simpl; unfold memory_save, memory_load.
  - done.
  - intros path state limits world world' status _ Hs path' limits' state' Hl.
    destruct (mem_full world); injection Hs as <- _; [by right|left].
    simpl in Hl. by destruct (status_ok _); simplify_eq.
  - intros path state limits world world' status _ Hs Hok.
    destruct (mem_full world); injection Hs as <- <-; [discriminate Hok|]. split; [done|].
    intros limits' state' Hl. simpl in Hl. clear Hok. by destruct (status_ok _); simplify_eq.
  - intros path state limits world world' status Hs Hbad.
    destruct (mem_full world); injection Hs as <- <-; [by split|discriminate Hbad].
  - by intros path world world' result [= <- _].
  - by intros path world world' result [= <- _].
Qed.

#[export] Instance plain_formatting : Formatting := {
  to_chars := fun _ => "x"%string;
  std_to_string := fun _ => "x"%string
}.

Module Run.

Definition empty_world : MemoryWorld := mkMemoryWorld None false.
Definition config : Config := mkConfig default_Limits "state.bin" true 0 true.

(** The coordinator a successful creation yields. *)
Definition created (r : World * Result Impl) : Impl :=
  match r.2 with
  | Ok impl => impl
  | Err _ => mkImpl config default_Limits default_CoordinatorState 0 false false [] [] [] [] r.1
  end.

Definition latency : MetricSpec := default_MetricSpec <| mspec_name := "latency" |> <| mspec_unit := "ms" |>.
Definition base_branch : BranchSpec :=
  default_BranchSpec <| bspec_name := "base" |> <| bspec_role := BranchRole.BASELINE |> <| bspec_planned_trials := 2 |>.
Definition fast_branch : BranchSpec :=
  default_BranchSpec <| bspec_name := "fast" |> <| bspec_planned_trials := 2 |>.
Definition spec : ExperimentSpec := default_ExperimentSpec
  <| spec_name := "demo" |>
  <| spec_hypothesis_statement := "the fast branch is faster" |>
  <| spec_branches := [base_branch; fast_branch] |>
  <| spec_metrics := [latency] |>
  <| spec_rules := [default_ComparisonRuleSpec <| rspec_metric := "latency" |>] |>.

Definition s0 : Impl := Eval vm_compute in created (create config empty_world).
Definition s1 : Impl := Eval vm_compute in (create_experiment spec s0).1.
(** Trials 1 (baseline branch 1) and 2 (candidate branch 2). *)
Definition s2 : Impl := Eval vm_compute in (create_trial 1 2 "payload" (create_trial 1 1 "payload" s1).1).1.

Definition registration : RegisterWorkerRequest := default_RegisterWorkerRequest
  <| reg_worker := 7 |> <| reg_boot := 70 |> <| reg_max_concurrent_assignments := 4 |>.
Definition s3 : Impl := Eval vm_compute in (register_worker registration s2).1.

Definition claim : ClaimTrialRequest := mkClaimTrialRequest 1 7 70 4.
Definition claimed := Eval vm_compute in claim_trials claim s3.
Definition s4 : Impl := Eval vm_compute in claimed.1.
Definition envelope (n : nat) : AuthorityEnvelope :=
  match nth_error (claimr_assignments claimed.2) n with
  | Some a => asg_envelope a
  | None => default_AuthorityEnvelope
  end.

(** A real-valued observation under envelope [e]. *)
Definition observation (id : Z) (e : AuthorityEnvelope) (value : double) : Observation := default_Observation
  <| obs_id := id |>
  <| obs_experiment := env_experiment e |>
  <| obs_generation := env_generation e |>
  <| obs_branch := env_branch e |>
  <| obs_branch_generation := env_branch_generation e |>
  <| obs_trial := env_trial e |>
  <| obs_attempt := env_attempt e |>
  <| obs_metric := 1 |>
  <| obs_producer := env_producer e |>
  <| obs_value := default_MetricValue <| mv_real := value |> |>.
Definition publish (id : Z) (e : AuthorityEnvelope) (value : double) : PublishObservationRequest :=
  mkPublishObservationRequest (env_epoch e) (env_worker e) (env_boot e) (observation id e value).
Definition commit (e : AuthorityEnvelope) : CommitTrialRequest :=
  mkCommitTrialRequest (env_epoch e) (env_worker e) (env_boot e) e [] "".

(** Latency 20 on the baseline, 10 on the candidate; both trials complete. *)
Definition s5 : Impl := Eval vm_compute in
  (publish_observation (publish 2 (envelope 1) (double_of_Z 10))
     (publish_observation (publish 1 (envelope 0) (double_of_Z 20)) s4).1).1.
Definition s6 : Impl := Eval vm_compute in
  (commit_trial (commit (envelope 1)) (commit_trial (commit (envelope 0)) s5).1).1.
Definition s7 : Impl := Eval vm_compute in (finalize_experiment 1 2 "" s6).1.

Definition record_at (impl : Impl) : ExperimentRecord :=
  default default_ExperimentRecord (find_experiment 1 impl).

Example run_accepts : dec_outcome <$> last (rec_decisions (record_at s7)) = Some DecisionOutcome.ACCEPT.
Proof. vm_compute. reflexivity. Qed.
Example run_valid : coordinator_validate_state s7 = success.
Proof. vm_compute. reflexivity. Qed.

End Run.
