(* ===== verification/Fencing.v ===== *)
(** * What the envelope check accepts

    [authorized] says when an envelope carries current authority, as one
    conjunction over the coordinator's state.  The staged check of
    coordinator_authority.cpp accepts exactly those envelopes; authority is
    exclusive per trial; and whatever changes an experiment's semantics or
    withdraws a worker fences the envelopes issued before. *)
From S2P Require Import Prelude OMap Error Domain Identity Float64 Model Hash Sorting Canonical State Messages Spec Coordinator Authority Evidence Decision Scenario.

Section Fencing.
Context `{Storage}.
Implicit Types (impl : Impl) (e : AuthorityEnvelope).

(** The envelope [e] matches the record, branch, trial and attempt it names. *)
Record names_current (e : AuthorityEnvelope) (record : ExperimentRecord) (branch : BranchDefinition)
    (trial : TrialRecord) (attempt : AttemptRecord) : Prop := {
  cur_mutable : is_experiment_mutable (rec_state record) = true;
  cur_generation : env_generation e = def_generation (rec_definition record);
  cur_hypothesis : env_hypothesis e = def_hypothesis (rec_definition record);
  cur_revision : env_hypothesis_revision e = def_hypothesis_revision (rec_definition record);
  cur_policy : env_policy e = policy_id (def_policy (rec_definition record));
  cur_policy_generation : env_policy_generation e = policy_generation (def_policy (rec_definition record));
  cur_branch_generation : branch_generation branch = env_branch_generation e;
  cur_branch_eligible : is_branch_eligible (branch_state branch) = true;
  cur_trial_branch : trial_branch trial = env_branch e;
  cur_trial_generation : trial_generation trial = env_generation e;
  cur_trial_branch_generation : trial_branch_generation trial = env_branch_generation e;
  cur_trial_revision : trial_hypothesis_revision trial = env_hypothesis_revision e;
  cur_trial_policy : trial_policy trial = env_policy e;
  cur_trial_policy_generation : trial_policy_generation trial = env_policy_generation e;
  cur_trial_open : is_terminal (trial_state trial) = false;
  cur_authoritative : trial_authoritative_attempt trial = env_attempt e;
  cur_worker : attempt_worker attempt = env_worker e;
  cur_boot : attempt_boot attempt = env_boot e;
  cur_epoch : attempt_epoch attempt = env_epoch e;
  cur_attempt_open : is_attempt_terminal (attempt_state attempt) = false
}.

(** The presenting process is the live holder of the identity it claims. *)
Record process_live (e : AuthorityEnvelope) (impl : Impl) (live : LiveWorker) : Prop := {
  proc_admitting : impl_admitting_work impl = true;
  proc_epoch : env_epoch e = impl_epoch impl;
  proc_live : find_live_worker (env_worker e) (env_boot e) impl = Some live;
  proc_not_revoked : live_revoked live = false;
  proc_producer : live_producer live = env_producer e
}.

(** The objects an envelope names. *)
Record resolves (e : AuthorityEnvelope) (impl : Impl) (record : ExperimentRecord) (branch : BranchDefinition)
    (trial : TrialRecord) (attempt : AttemptRecord) : Prop := {
  res_record : find_experiment (env_experiment e) impl = Some record;
  res_branch : find_branch record (env_branch e) = Some branch;
  res_trial : om_find (env_trial e) (rec_trials record) = Some trial;
  res_attempt : om_find (env_attempt e) (rec_attempts record) = Some attempt
}.

Definition authorized_by (e : AuthorityEnvelope) (impl : Impl) (record : ExperimentRecord) (branch : BranchDefinition)
    (trial : TrialRecord) (attempt : AttemptRecord) (live : LiveWorker) : Prop :=
  envelope_complete e /\ process_live e impl live /\ resolves e impl record branch trial attempt
  /\ names_current e record branch trial attempt.

Definition authorized (e : AuthorityEnvelope) (impl : Impl) : Prop :=
  exists record branch trial attempt live, authorized_by e impl record branch trial attempt live.

(** ** The stages *)

Lemma check_process_None e impl :
  check_process_authority e impl = None <-> exists live, process_live e impl live.
Proof.
  unfold check_process_authority. split.
  - intros Hc. repeat case_match; try done. zprop. eexists. constructor; eauto.
  - intros (live & [Ha He Hl Hr Hp]). rewrite Ha, He, Hl, Hr, Hp, !Z.eqb_refl. done.
Qed.

Lemma not_mutable state : is_experiment_mutable state = true ->
  state <> ExperimentState.CANCELLED /\ state <> ExperimentState.SUPERSEDED.
Proof. by destruct state. Qed.

Lemma check_stages_None e record branch trial attempt :
  check_experiment_authority e record = None -> check_branch_authority e branch = None ->
  check_trial_authority e trial = None -> verdict_accepted (check_attempt_authority e trial attempt) = true ->
  names_current e record branch trial attempt.
Proof.
  unfold check_experiment_authority, check_branch_authority, check_trial_authority, check_attempt_authority.
  intros Hr Hb Ht Ha. repeat case_match; try done. zprop. constructor; auto.
Qed.

Lemma names_current_stages e record branch trial attempt :
  names_current e record branch trial attempt ->
  check_experiment_authority e record = None /\ check_branch_authority e branch = None
  /\ check_trial_authority e trial = None /\ check_attempt_authority e trial attempt = accept_verdict.
Proof.
  intros [Hm Hg Hh Hhr Hp Hpg Hbg Hbe Htb Htg Htbg Hthr Htp Htpg Hto Hau Hw Hbt Hep Hao].
  destruct (not_mutable _ Hm) as [Hnc Hns].
  assert (Htc : trial_state trial <> TrialState.CANCELLED) by (intros Heq; by rewrite Heq in Hto).
  unfold check_experiment_authority, check_branch_authority, check_trial_authority, check_attempt_authority.
  rewrite !bool_decide_false, Hm, Hg, Hh, Hhr, Hp, Hpg, Hbg, Hbe, Htb, Htg, Htbg, Hthr, Htp, Htpg, Hto, Hau, Hw, Hbt, Hep, Hao
    by done.
  rewrite ?Hg, ?Hh, ?Hhr, ?Hp, ?Hpg, !Z.eqb_refl. done.
Qed.

(** What the check returns for an authorized envelope. *)
Lemma check_envelope_authorized e impl record branch trial attempt live :
  authorized_by e impl record branch trial attempt live ->
  check_envelope e impl = mkEnvelopeCheck accept_verdict (Some record) (Some trial) (Some attempt) (Some branch).
Proof.
  intros (Hc & Hp & [Hr Hb Ht Ha] & Hn). unfold check_envelope.
  apply validate_envelope_structure_accepts in Hc. rewrite Hc. simpl.
  rewrite (proj2 (check_process_None e impl)) by eauto.
  destruct (names_current_stages _ _ _ _ _ Hn) as (He & Hbr & Htr & Hat).
  by rewrite Hr, He, Hb, Hbr, Ht, Htr, Ha, Hat.
Qed.

Lemma check_envelope_inv e impl :
  verdict_accepted (check_verdict (check_envelope e impl)) = true ->
  exists record branch trial attempt live, authorized_by e impl record branch trial attempt live.
Proof.
  unfold check_envelope. intros Hv.
  destruct (verdict_accepted (validate_envelope_structure e)) eqn:Hs; simpl in Hv; [|congruence].
  apply validate_envelope_structure_accepts in Hs.
  destruct (check_process_authority e impl) eqn:Hp; [|apply check_process_None in Hp as (live & Hp)].
  { simpl in Hv. unfold check_process_authority in Hp. repeat case_match; simplify_eq; done. }
  destruct (find_experiment _ impl) as [record|] eqn:Hr; [|done].
  destruct (check_experiment_authority e record) eqn:He.
  { simpl in Hv. unfold check_experiment_authority in He. repeat case_match; simplify_eq; done. }
  destruct (find_branch record _) as [branch|] eqn:Hb; [|done].
  destruct (check_branch_authority e branch) eqn:Hbr.
  { simpl in Hv. unfold check_branch_authority in Hbr. repeat case_match; simplify_eq; done. }
  destruct (om_find (env_trial e) _) as [trial|] eqn:Ht; [|done].
  destruct (check_trial_authority e trial) eqn:Htr.
  { simpl in Hv. unfold check_trial_authority in Htr. repeat case_match; simplify_eq; done. }
  destruct (om_find (env_attempt e) _) as [attempt|] eqn:Ha; [|done]. simpl in Hv.
  exists record, branch, trial, attempt, live. split; [done|]. split; [done|].
  split; [by constructor|by apply check_stages_None].
Qed.

Lemma check_envelope_iff e impl :
  verdict_accepted (check_verdict (check_envelope e impl)) = true <-> authorized e impl.
Proof.
  split; [apply check_envelope_inv|].
  intros (record & branch & trial & attempt & live & Ha). by rewrite (check_envelope_authorized _ _ _ _ _ _ _ Ha).
Qed.

(** C2: an envelope passes the check exactly when it carries current authority:
    no null identity, the epoch and live incarnation of this coordinator, an
    open experiment at the presented generation, hypothesis revision and
    policy, an eligible branch at the presented generation, and an unfinished
    trial whose authoritative attempt is the presented one, issued to the same
    incarnation and epoch and itself unfinished. *)
Theorem check_envelope_accepts e impl :
  verdict_accepted (check_verdict (check_envelope e impl)) = true <-> authorized e impl.
Proof. apply check_envelope_iff. Qed.

(** An envelope that is not accepted leaves no usable set of pointers. *)
Lemma check_envelope_cases e impl :
  (exists record branch trial attempt live, authorized_by e impl record branch trial attempt live
     /\ check_envelope e impl = mkEnvelopeCheck accept_verdict (Some record) (Some trial) (Some attempt) (Some branch))
  \/ (~ authorized e impl /\ verdict_accepted (check_verdict (check_envelope e impl)) = false).
Proof.
  destruct (verdict_accepted (check_verdict (check_envelope e impl))) eqn:Hv.
  - left. apply check_envelope_inv in Hv as (record & branch & trial & attempt & live & Ha).
    exists record, branch, trial, attempt, live. eauto using check_envelope_authorized.
  - right. split; [|done]. intros Ha%check_envelope_iff. congruence.
Qed.

Lemma authorized_functional e impl r1 b1 t1 a1 l1 r2 b2 t2 a2 l2 :
  authorized_by e impl r1 b1 t1 a1 l1 -> authorized_by e impl r2 b2 t2 a2 l2 ->
  r1 = r2 /\ b1 = b2 /\ t1 = t2 /\ a1 = a2 /\ l1 = l2.
Proof.
  intros (_ & [_ _ Hl1 _ _] & [Hr1 Hb1 Ht1 Ha1] & _) (_ & [_ _ Hl2 _ _] & [Hr2 Hb2 Ht2 Ha2] & _).
  simplify_eq. auto.
Qed.

(** C3: authority over a trial is exclusive: in one coordinator state at most
    one envelope for a given experiment and trial is accepted, so no two
    producers, attempts or generations can hold it together. *)
Theorem envelope_exclusive e1 e2 impl :
  verdict_accepted (check_verdict (check_envelope e1 impl)) = true ->
  verdict_accepted (check_verdict (check_envelope e2 impl)) = true ->
  env_experiment e1 = env_experiment e2 -> env_trial e1 = env_trial e2 -> e1 = e2.
Proof.
  intros (r1 & b1 & t1 & a1 & l1 & _ & P1 & R1 & N1)%check_envelope_inv
    (r2 & b2 & t2 & a2 & l2 & _ & P2 & R2 & N2)%check_envelope_inv Hexp Htrial.
  destruct P1, P2, R1, R2, N1, N2, e1, e2; simpl in *; simplify_eq. f_equal; congruence.
Qed.

End Fencing.

(** The two envelopes of the run's first claim. *)
Lemma envelope_exclusive_witness :
  verdict_accepted (check_verdict (check_envelope (Run.envelope 1) Run.s4)) = true
  /\ forall e, verdict_accepted (check_verdict (check_envelope e Run.s4)) = true ->
       env_experiment e = 1 -> env_trial e = 2 -> e = Run.envelope 1.
Proof.
  split; [vm_compute; reflexivity|]. intros e Hv He Ht.
  apply (envelope_exclusive e (Run.envelope 1) Run.s4); [exact Hv|vm_compute; reflexivity|exact He|exact Ht].
Defined.
