(* ===== verification/History.v ===== *)
(** * History is never rewritten

    [evolves] relates a coordinator state to any later one of the same
    process: finished trials and attempts are exactly as they were, every
    trial, attempt and branch keeps its identity, observations, artifacts,
    decisions, rollback points, superseded hypotheses and rejections are only
    appended to, and a revoked worker stays revoked.  This file proves it for
    the record transformers and for every operation of the coordinator. *)
From S2P Require Import Prelude OMap Error Domain Identity Float64 Model Hash Sorting Canonical State Messages Spec Coordinator Authority Evidence Decision Scenario Fencing.

(** ** Evolution of maps *)

(** Every entry is still there, related by [R]. *)
Definition map_evolves {K A} `{KeyOrder K} (R : A -> A -> Prop) (m m' : omap K A) : Prop :=
  forall k v, om_find k m = Some v -> exists v', om_find k m' = Some v' /\ R v v'.

Section MapEvolves.
Context {K A : Type} `{KeyOrder K} (R : A -> A -> Prop) `{!PreOrder R}.

#[global] Instance map_evolves_preorder : PreOrder (map_evolves (K := K) R).
Proof.
  split.
  - intros m k v Hf. exists v. by split; [|reflexivity].
  - intros m1 m2 m3 H12 H23 k v Hf. destruct (H12 k v Hf) as (v2 & Hf2 & HR2).
    destruct (H23 k v2 Hf2) as (v3 & Hf3 & HR3). exists v3. split; [done|by transitivity v2].
Qed.

Lemma map_evolves_set k v v' (m : omap K A) :
  om_find k m = Some v -> R v v' -> map_evolves R m (om_set k v' m).
Proof.
  intros Hf HR k0 v0 Hf0. rewrite om_find_set. case_decide; subst; [|by exists v0; split; [|reflexivity]].
  exists v'. by simplify_eq.
Qed.

Lemma map_evolves_set_twice k v v' v'' (m : omap K A) :
  om_find k m = Some v -> R v v'' -> map_evolves R m (om_set k v'' (om_set k v' m)).
Proof.
  intros Hf HR k0 v0 Hf0. rewrite !om_find_set. case_decide; subst; [|by exists v0; split; [|reflexivity]].
  exists v''. by simplify_eq.
Qed.

Lemma map_evolves_insert k v' (m : omap K A) : om_find k m = None -> map_evolves R m (om_set k v' m).
Proof.
  intros Hf k0 v0 Hf0. rewrite om_find_set. case_decide; subst; [congruence|]. exists v0. by split; [|reflexivity].
Qed.

Lemma map_evolves_emplace k v' (m : omap K A) : map_evolves R m (om_emplace k v' m).
Proof. intros k0 v0 Hf0. rewrite om_find_emplace, Hf0. exists v0. by split; [|reflexivity]. Qed.

Lemma map_evolves_emplace_erase k v' (m : omap K A) :
  om_find k m = None -> map_evolves R m (om_erase k (om_emplace k v' m)).
Proof.
  intros Hf k0 v0 Hf0. rewrite om_find_erase, om_find_emplace, Hf0.
  case_decide; subst; [congruence|]. exists v0. by split; [|reflexivity].
Qed.

Lemma map_evolves_map f (m : omap K A) : (forall v, R v (f v)) -> map_evolves R m (om_map f m).
Proof. intros HR k v Hf. rewrite om_find_map, Hf. simpl. eauto. Qed.

Lemma map_evolves_map_acc {S} (f : S -> A -> S * A) s (m : omap K A) :
  (forall s v, R v (f s v).2) -> map_evolves R m (om_map_acc f s m).2.
Proof.
  intros HR k v Hf. pose proof (om_find_map_acc f s m k) as Hm. rewrite Hf in Hm.
  destruct Hm as (s' & Hm). eauto.
Qed.
End MapEvolves.

(** ** Trials, attempts, branches *)

(** What a trial is bound to when it is created. *)
Definition trial_identity (t : TrialRecord) :=
  (trial_id t, trial_experiment t, trial_generation t, trial_branch t, trial_branch_generation t,
   trial_hypothesis t, trial_hypothesis_revision t, trial_policy t, trial_policy_generation t,
   (trial_seed t, trial_input_set t, trial_environment t, trial_environment_fingerprint t, trial_payload t)).

(** What an attempt is bound to when it is issued. *)
Definition attempt_identity (a : AttemptRecord) :=
  (attempt_id a, attempt_number a, attempt_trial a, attempt_experiment a, attempt_generation a,
   attempt_branch a, attempt_branch_generation a, attempt_worker a, attempt_boot a, attempt_epoch a, attempt_producer a).

(** What a branch is bound to when it is created. *)
Definition branch_identity (b : BranchDefinition) :=
  (branch_id b, branch_name b, branch_role b, branch_parent b, branch_parameters b, branch_input_set b,
   branch_environment b, branch_environment_fingerprint b, branch_seed b, branch_planned_trials b).

Definition trial_evolves (t t' : TrialRecord) : Prop :=
  trial_identity t' = trial_identity t /\ (is_terminal (trial_state t) = true -> t' = t).

Definition attempt_evolves (a a' : AttemptRecord) : Prop :=
  attempt_identity a' = attempt_identity a /\ (is_attempt_terminal (attempt_state a) = true -> a' = a).

#[export] Instance trial_evolves_preorder : PreOrder trial_evolves.
Proof.
  split; [by intros t; split|]. intros t1 t2 t3 [Hi12 Ht12] [Hi23 Ht23]. split; [congruence|].
  intros Ht. rewrite <- (Ht12 Ht). apply Ht23. by rewrite (Ht12 Ht).
Qed.

#[export] Instance attempt_evolves_preorder : PreOrder attempt_evolves.
Proof.
  split; [by intros a; split|]. intros a1 a2 a3 [Hi12 Ht12] [Hi23 Ht23]. split; [congruence|].
  intros Ht. rewrite <- (Ht12 Ht). apply Ht23. by rewrite (Ht12 Ht).
Qed.

(** ** Records *)

Record record_evolves (r r' : ExperimentRecord) : Prop := {
  re_id : def_id (rec_definition r') = def_id (rec_definition r);
  re_hypothesis : def_hypothesis (rec_definition r') = def_hypothesis (rec_definition r);
  re_metrics : def_metrics (rec_definition r') = def_metrics (rec_definition r);
  re_policy : def_policy (rec_definition r') = def_policy (rec_definition r);
  re_branches : map branch_identity (def_branches (rec_definition r))
    `prefix_of` map branch_identity (def_branches (rec_definition r'));
  re_trials : map_evolves trial_evolves (rec_trials r) (rec_trials r');
  re_attempts : map_evolves attempt_evolves (rec_attempts r) (rec_attempts r');
  re_observations : rec_observations r `prefix_of` rec_observations r';
  re_artifacts : rec_artifacts r `prefix_of` rec_artifacts r';
  re_decisions : rec_decisions r `prefix_of` rec_decisions r';
  re_points : rec_rollback_points r `prefix_of` rec_rollback_points r';
  re_history : rec_hypothesis_history r `prefix_of` rec_hypothesis_history r';
  re_rejected : rec_rejected_evidence r `prefix_of` rec_rejected_evidence r'
}.

#[export] Instance record_evolves_preorder : PreOrder record_evolves.
Proof.
  split.
  - intros r. constructor; reflexivity.
  - intros r1 r2 r3 [] []. constructor; try congruence; by etransitivity.
Qed.

(** ** Workers *)

Definition incarnation_evolves (w w' : WorkerIncarnation) : Prop :=
  inc_worker w' = inc_worker w /\ inc_boot w' = inc_boot w /\ inc_epoch w' = inc_epoch w
  /\ inc_producer w' = inc_producer w /\ (inc_revoked w = true -> w' = w).

#[export] Instance incarnation_evolves_preorder : PreOrder incarnation_evolves.
Proof.
  split; [by intros w|]. intros w1 w2 w3 (?&?&?&?&Hr12) (?&?&?&?&Hr23). unfold incarnation_evolves.
  split_and!; try congruence. intros Hr. rewrite <- (Hr12 Hr). apply Hr23. by rewrite (Hr12 Hr).
Qed.

(** Incarnations are appended and otherwise only revoked. *)
Definition workers_evolve (l l' : list WorkerIncarnation) : Prop :=
  exists kept added, l' = kept ++ added /\ Forall2 incarnation_evolves l kept.

#[export] Instance workers_evolve_preorder : PreOrder workers_evolve.
Proof.
  split.
  - intros l. exists l, []. rewrite app_nil_r. split; [done|reflexivity].
  - intros l1 l2 l3 (k2 & a2 & -> & H2) (k3 & a3 & -> & H3).
    apply Forall2_app_inv_l in H3 as (k & a & Hk & Ha & ->). exists k, (a ++ a3).
    split; [by rewrite app_assoc|]. by transitivity k2.
Qed.

Definition live_evolves (w w' : LiveWorker) : Prop :=
  live_worker w' = live_worker w /\ live_boot w' = live_boot w /\ live_producer w' = live_producer w
  /\ (live_revoked w = true -> live_revoked w' = true).

#[export] Instance live_evolves_preorder : PreOrder live_evolves.
Proof. split; [by intros w|]. intros w1 w2 w3 (?&?&?&?) (?&?&?&?). unfold live_evolves. split_and!; try congruence; auto. Qed.

(** A live worker is kept under its own identity. *)
Definition live_keyed (m : omap (Z * Z) LiveWorker) : Prop :=
  forall k w, om_find k m = Some w -> k = (live_worker w, live_boot w).

Lemma live_keyed_set k w w' m :
  om_find k m = Some w -> live_evolves w w' -> live_keyed m -> live_keyed (om_set k w' m).
Proof.
  intros Hf (Hw & Hb & _) Hm k0 w0. rewrite om_find_set. case_decide; [|apply Hm]. intros [= <-].
  subst. rewrite Hw, Hb. by apply Hm.
Qed.

Lemma live_keyed_emplace w m : live_keyed m -> live_keyed (om_emplace (live_worker w, live_boot w) w m).
Proof.
  intros Hm k0 w0. rewrite om_find_emplace. destruct (om_find k0 m) eqn:E; [|case_decide]; intros; simplify_eq; auto.
Qed.

Lemma live_keyed_map_acc {S} (f : S -> LiveWorker -> S * LiveWorker) s m :
  (forall s w, live_evolves w (f s w).2) -> live_keyed m -> live_keyed (om_map_acc f s m).2.
Proof.
  intros Hf Hm k w Hw. pose proof (om_find_map_acc f s m k) as Hacc.
  destruct (om_find k m) as [w0|] eqn:E; [|congruence]. destruct Hacc as (s' & Hacc).
  rewrite Hacc in Hw. injection Hw as <-. destruct (Hf s' w0) as (-> & -> & _). by apply Hm.
Qed.

(** ** Record transformers *)

Lemma trial_evolves_open t t' :
  is_terminal (trial_state t) = false -> trial_identity t' = trial_identity t -> trial_evolves t t'.
Proof. intros Ho Hi. split; [done|congruence]. Qed.

Lemma attempt_evolves_open a a' :
  is_attempt_terminal (attempt_state a) = false -> attempt_identity a' = attempt_identity a -> attempt_evolves a a'.
Proof. intros Ho Hi. split; [done|congruence]. Qed.

Create HintDb evolve.
#[export] Hint Resolve trial_evolves_open attempt_evolves_open : evolve.
#[export] Hint Resolve map_evolves_set map_evolves_emplace map_evolves_map map_evolves_map_acc : evolve.
#[export] Hint Extern 2 (trial_evolves _ _) => reflexivity : evolve.
#[export] Hint Extern 2 (attempt_evolves _ _) => reflexivity : evolve.
#[export] Hint Extern 2 (map_evolves _ _ _) => reflexivity : evolve.
#[export] Hint Extern 2 (prefix _ _) => reflexivity : evolve.
#[export] Hint Resolve prefix_app_r : evolve.
#[export] Hint Extern 4 (@eq _ _ _) => reflexivity : evolve.

(** Closes [record_evolves] for a record built by field updates. *)
Ltac evolve_record := constructor; simpl; eauto 4 with evolve.

Lemma log_evolves line r : record_evolves r (log line r).
Proof. evolve_record. Qed.

Lemma prefix_snoc {A} (l : list A) x : l `prefix_of` l ++ [x].
Proof. by exists [x]. Qed.
#[export] Hint Resolve prefix_snoc log_evolves : evolve.

Lemma supersede_evolves (b : bool) detail sequence t :
  trial_evolves t (if b || is_terminal (trial_state t) then t else supersede_trial detail sequence t).
Proof. destruct b; simpl; [reflexivity|]. destruct (is_terminal _) eqn:E; auto with evolve. Qed.

Lemma abandon_evolves (b : bool) kind detail sequence a :
  attempt_evolves a (if b || is_attempt_terminal (attempt_state a) then a else abandon_attempt kind detail sequence a).
Proof. destruct b; simpl; [reflexivity|]. destruct (is_attempt_terminal _) eqn:E; auto with evolve. Qed.

Lemma abandon_stale_live_work_evolves sequence r : record_evolves r (abandon_stale_live_work sequence r).
Proof.
  evolve_record; apply map_evolves_map; intros x; [apply (supersede_evolves false)|apply (abandon_evolves false)].
Qed.

Lemma update_branch_identity id f branches :
  (forall b, branch_identity (f b) = branch_identity b) ->
  map branch_identity (update_branch id f branches) = map branch_identity branches.
Proof.
  intros Hf. induction branches as [|b branches IH]; simpl; [done|].
  destruct (branch_id b =? id); simpl; congruence.
Qed.

Lemma revise_record_evolves spec sequence r : record_evolves r (revise_record spec sequence r).
Proof.
  etransitivity; [|apply log_evolves].
  etransitivity; [|apply abandon_stale_live_work_evolves]. evolve_record.
Qed.

Lemma retire_record_evolves branch reason sequence r : record_evolves r (retire_record branch reason sequence r).
Proof.
  etransitivity; [|apply log_evolves]. evolve_record.
  - by rewrite update_branch_identity.
  - apply map_evolves_map. intros t. apply supersede_evolves.
  - apply map_evolves_map. intros a. apply abandon_evolves.
Qed.

Lemma push_branch_evolves b r : record_evolves r (push_branch b r).
Proof. evolve_record. rewrite map_app. apply prefix_app_r. reflexivity. Qed.

(** Undoing the push of a branch gives back the branches. *)
Lemma pop_branch_evolves b r r' : 
  def_branches (rec_definition r') = def_branches (rec_definition r) ++ [b] ->
  record_evolves (push_branch b r) r' -> record_evolves r (pop_branch r').
Proof.
  intros Hb []. constructor; simpl in *; auto. by rewrite Hb, removelast_last.
Qed.

Lemma cancel_record_evolves reason sequence r : record_evolves r (cancel_record reason sequence r).
Proof.
  etransitivity; [|apply log_evolves]. evolve_record; apply map_evolves_map.
  - intros t. destruct (is_terminal _) eqn:E; auto with evolve.
  - intros a. destruct (is_attempt_terminal _) eqn:E; auto with evolve.
Qed.

Lemma record_rejection_evolves kind identifier verdict r :
  record_evolves r (record_rejection kind identifier verdict r).
Proof. unfold record_rejection. case_match; [evolve_record|reflexivity]. Qed.

Lemma release_trial_evolves retry kind detail sequence t :
  is_terminal (trial_state t) = false -> trial_evolves t (release_trial retry kind detail sequence t).
Proof. intros Ho. apply trial_evolves_open; [done|]. unfold release_trial. by destruct retry. Qed.

Lemma withdraw_attempt_evolves definition worker boot kind ad td sequence acc a :
  attempt_evolves a (withdraw_attempt definition worker boot kind ad td sequence acc a).2
  /\ map_evolves trial_evolves acc.1 (withdraw_attempt definition worker boot kind ad td sequence acc a).1.1.
Proof.
  destruct acc as [trials touched]. unfold withdraw_attempt. case_match eqn:Hskip; [by split; reflexivity|]. zprop.
  split; [by apply attempt_evolves_open|]. simpl.
  repeat case_match; try reflexivity. zprop.
  eapply map_evolves_set; eauto using release_trial_evolves with typeclass_instances.
Qed.

Lemma withdraw_in_record_evolves worker boot kind ad td line sequence r :
  record_evolves r (withdraw_in_record worker boot kind ad td line sequence r).
Proof.
  unfold withdraw_in_record.
  set (f := withdraw_attempt _ _ _ _ _ _ _).
  pose proof (map_evolves_map_acc attempt_evolves f (rec_trials r, false) (rec_attempts r)) as Ha.
  pose proof (om_map_acc_inv f (fun acc => map_evolves trial_evolves (rec_trials r) acc.1)
    (rec_trials r, false) (rec_attempts r)) as Ht.
  destruct (om_map_acc f _ _) as [[trials touched] attempts]. simpl in *.
  assert (Hr : record_evolves r (r <| rec_trials := trials |> <| rec_attempts := attempts |>)).
  { evolve_record.
    - apply Ht; [reflexivity|]. intros acc a Hacc. etransitivity; [exact Hacc|]. apply withdraw_attempt_evolves.
    - apply Ha. intros acc a. apply withdraw_attempt_evolves. }
  destruct touched; [|done]. etransitivity; [exact Hr|apply log_evolves].
Qed.

Lemma invalidate_branch_evolves detail branch r : record_evolves r (invalidate_branch detail branch r).
Proof.
  unfold invalidate_branch. repeat case_match; try reflexivity.
  etransitivity; [|apply log_evolves]. evolve_record. by rewrite update_branch_identity.
Qed.

Lemma fail_record_evolves request sequence t a r :
  om_find (env_trial (fail_envelope request)) (rec_trials r) = Some t ->
  om_find (env_attempt (fail_envelope request)) (rec_attempts r) = Some a ->
  is_terminal (trial_state t) = false -> is_attempt_terminal (attempt_state a) = false ->
  record_evolves r (fail_record request sequence t a r).
Proof.
  intros Ht Ha Hto Hao. unfold fail_record.
  etransitivity; [|apply log_evolves]. etransitivity; [|apply invalidate_branch_evolves]. evolve_record.
  - eapply map_evolves_set; eauto using release_trial_evolves with typeclass_instances.
  - eapply map_evolves_set; eauto with typeclass_instances evolve.
Qed.

Lemma restore_branches_identity authority branches :
  map branch_identity (restore_branches authority branches).1 = map branch_identity branches.
Proof.
  unfold restore_branches. generalize (@nil Z) as restored. revert branches.
  induction authority as [|snapshot authority IH]; intros branches restored; simpl; [done|].
  destruct (find_branch_definition branches _); rewrite IH; simpl; [|done].
  by apply update_branch_identity.
Qed.

Lemma demote_branches_identity restored branches :
  map branch_identity (map (demote_branch restored) branches) = map branch_identity branches.
Proof.
  rewrite map_map. apply map_ext. intros b. unfold demote_branch. by repeat case_match.
Qed.

Lemma rollback_record_evolves `{Formatting} chosen experiment point sequence reason r :
  record_evolves r (rollback_record chosen experiment point sequence reason r).
Proof.
  unfold rollback_record.
  pose proof (restore_branches_identity (point_authority chosen)
    (def_branches (rec_definition (abandon_stale_live_work sequence r)))) as Hb.
  destruct (restore_branches _ _) as [branches restored]. simpl in Hb.
  etransitivity; [|apply log_evolves].
  etransitivity; [apply abandon_stale_live_work_evolves|]. evolve_record.
  by rewrite demote_branches_identity, Hb.
Qed.

(** *** Recovery *)

Lemma stage_record_evolves sequence r : record_evolves r (stage_record sequence r).2.
Proof.
  unfold stage_record.
  set (r0 := if bool_decide _ then _ else r).
  assert (Hr0 : record_evolves r r0) by (unfold r0; case_bool_decide; [evolve_record|reflexivity]).
  pose proof (map_evolves_map_acc attempt_evolves stage_attempt (sequence, false) (rec_attempts r0)) as Ha.
  destruct (om_map_acc stage_attempt _ _) as [[s1 touched] attempts]. simpl in Ha.
  pose proof (map_evolves_map_acc trial_evolves stage_trial (s1, touched, rec_lifecycle_log r0) (rec_trials r0)) as Ht.
  destruct (om_map_acc stage_trial _ _) as [[[s2 touched2] lines] trials]. simpl in *.
  etransitivity; [exact Hr0|]. evolve_record.
  - apply Ht. intros [[s b] l] t. unfold stage_trial. case_match eqn:E; auto with evolve.
  - apply Ha. intros s a. unfold stage_attempt. case_match eqn:E; auto with evolve.
Qed.

Lemma resolve_in_record_evolves acc key : record_evolves acc.2 (resolve_in_record acc key).2.
Proof.
  destruct acc as [sequence r]. unfold resolve_in_record.
  destruct (om_find key _) as [t|] eqn:Hf; [|reflexivity]. case_bool_decide as Hs; [|reflexivity].
  pose proof (map_evolves_map_acc attempt_evolves (abandon_recovered_attempt (trial_id t)) sequence (rec_attempts r)) as Ha.
  simpl. destruct (om_map_acc _ _ _) as [s attempts]. simpl in *.
  etransitivity; [apply (log_evolves ("recovery:trial " +:+ id_to_string (trial_id t)
    +:+ (if recoverable r t then " resolved to READY" else " resolved to FAILED")))|].
  evolve_record.
  - eapply map_evolves_set; [typeclasses eauto|exact Hf|].
    apply trial_evolves_open; [by rewrite Hs|]. unfold resolve_trial. by case_match.
  - apply Ha. intros s' a. unfold abandon_recovered_attempt. case_match eqn:E; auto with evolve.
    zprop. auto with evolve.
Qed.

Lemma resolve_record_evolves sequence r : record_evolves r (resolve_record sequence r).2.
Proof.
  unfold resolve_record. change r with (sequence, r).2 at 1. generalize (sequence, r) as acc.
  generalize (om_keys (rec_trials r)) as keys. intros keys. induction keys as [|k keys IH]; intros acc; simpl; [reflexivity|].
  etransitivity; [apply resolve_in_record_evolves|apply IH].
Qed.

(** ** The coordinator *)

Section Evolves.
Context `{Storage}.

Record evolves (impl impl' : Impl) : Prop := {
  evo_limits : impl_limits impl' = impl_limits impl;
  evo_epoch : impl_epoch impl' = impl_epoch impl;
  evo_last_epoch : st_last_epoch (impl_state impl') = st_last_epoch (impl_state impl);
  evo_experiments : map_evolves record_evolves (st_experiments (impl_state impl)) (st_experiments (impl_state impl'));
  evo_workers : workers_evolve (st_workers (impl_state impl)) (st_workers (impl_state impl'));
  evo_live : map_evolves live_evolves (impl_live_workers impl) (impl_live_workers impl');
  evo_keyed : live_keyed (impl_live_workers impl) -> live_keyed (impl_live_workers impl')
}.

#[global] Instance evolves_preorder : PreOrder evolves.
Proof.
  split.
  - intros impl. constructor; try done; reflexivity.
  - intros i1 i2 i3 [] []. constructor; first [by etransitivity | auto].
Qed.

(** A write of the image, a notification or a drawn identity leaves the
    tables of the coordinator as they are. *)
Record same_tables (impl impl' : Impl) : Prop := {
  st_same_limits : impl_limits impl' = impl_limits impl;
  st_same_epoch : impl_epoch impl' = impl_epoch impl;
  st_same_last_epoch : st_last_epoch (impl_state impl') = st_last_epoch (impl_state impl);
  st_same_experiments : st_experiments (impl_state impl') = st_experiments (impl_state impl);
  st_same_workers : st_workers (impl_state impl') = st_workers (impl_state impl);
  st_same_live : impl_live_workers impl' = impl_live_workers impl
}.

#[global] Instance same_tables_preorder : PreOrder same_tables.
Proof. split; [by constructor|]. intros i1 i2 i3 [] []. constructor; congruence. Qed.

Lemma same_tables_evolves impl impl' : same_tables impl impl' -> evolves impl impl'.
Proof. intros [Hl He Hle Hx Hw Hlv]. constructor; rewrite ?Hx, ?Hw, ?Hlv; try done; reflexivity. Qed.

(** The world after a persist: untouched, or with this state saved. *)
Definition image_of (impl : Impl) (world : World) : Prop :=
  world = impl_world impl
  \/ exists path status, save_image path (impl_state impl) (impl_limits impl) (impl_world impl) = (world, status).

Lemma persist_state impl impl' status :
  persist_locked impl = (impl', status) ->
  exists degraded world, impl' = impl <| impl_persistence_degraded := degraded |> <| impl_world := world |>
    /\ image_of impl world.
Proof.
  unfold persist_locked, persist_locked_if. intros Hp.
  repeat case_match; injection Hp as <- <-; first
    [ exists (impl_persistence_degraded impl), (impl_world impl); split; [by destruct impl|by left]
    | do 2 eexists; split; [reflexivity|right; by do 2 eexists]
    | exists true, (impl_world impl); split; [by destruct impl|by left] ].
Qed.

Lemma notify_event_state event impl :
  exists notified, notify_event event impl = impl <| impl_notified := notified |>.
Proof. unfold notify_event. case_match; [by eexists|]. exists (impl_notified impl). by destruct impl. Qed.

Lemma notify_decision_state decision impl :
  exists notified, notify_decision decision impl = impl <| impl_notified := notified |>.
Proof. unfold notify_decision. case_match; [by eexists|]. exists (impl_notified impl). by destruct impl. Qed.

Lemma persisted_same impl d w : same_tables impl (impl <| impl_persistence_degraded := d |> <| impl_world := w |>).
Proof. by constructor. Qed.
Lemma notified_same impl n : same_tables impl (impl <| impl_notified := n |>).
Proof. by constructor. Qed.

Lemma observation_index_same impl f : same_tables impl (impl <| impl_observation_index ::= f |>).
Proof. by constructor. Qed.
Lemma artifact_index_same impl f : same_tables impl (impl <| impl_artifact_index ::= f |>).
Proof. by constructor. Qed.

(** Drawing a sequence number or an identity. *)
Lemma next_sequence_same impl v impl' : next_sequence impl = (v, impl') -> same_tables impl impl'.
Proof. intros [= _ <-]. by constructor. Qed.
Lemma alloc_branch_id_same impl v impl' : alloc_branch_id impl = (v, impl') -> same_tables impl impl'.
Proof. intros [= _ <-]. by constructor. Qed.
Lemma alloc_trial_id_same impl v impl' : alloc_trial_id impl = (v, impl') -> same_tables impl impl'.
Proof. intros [= _ <-]. by constructor. Qed.
Lemma alloc_attempt_id_same impl v impl' : alloc_attempt_id impl = (v, impl') -> same_tables impl impl'.
Proof. intros [= _ <-]. by constructor. Qed.
Lemma alloc_decision_id_same impl v impl' : alloc_decision_id impl = (v, impl') -> same_tables impl impl'.
Proof. intros [= _ <-]. by constructor. Qed.
Lemma alloc_rollback_id_same impl v impl' : alloc_rollback_id impl = (v, impl') -> same_tables impl impl'.
Proof. intros [= _ <-]. by constructor. Qed.

End Evolves.

(** Splits the goal about an operation's result into its branches: persisted
    and notified states become field updates, allocations are named. *)
Ltac op_branches :=
  repeat match goal with
  | |- context [persist_locked ?x] =>
      let Hp := fresh "Hpersist" in
      destruct (persist_locked x) as [? ?] eqn:Hp; apply persist_state in Hp as (? & ? & -> & Hp)
  | |- context [notify_event ?e ?x] =>
      let Hn := fresh "Hnotify" in
      destruct (notify_event_state e x) as [? Hn]; rewrite Hn; clear Hn
  | |- context [notify_decision ?e ?x] =>
      let Hn := fresh "Hnotify" in
      destruct (notify_decision_state e x) as [? Hn]; rewrite Hn; clear Hn
  | |- context [match next_sequence ?x with _ => _ end] =>
      let Ha := fresh "Halloc" in destruct (next_sequence x) as [? ?] eqn:Ha
  | |- context [match alloc_branch_id ?x with _ => _ end] =>
      let Ha := fresh "Halloc" in destruct (alloc_branch_id x) as [? ?] eqn:Ha
  | |- context [match alloc_trial_id ?x with _ => _ end] =>
      let Ha := fresh "Halloc" in destruct (alloc_trial_id x) as [? ?] eqn:Ha
  | |- context [match alloc_decision_id ?x with _ => _ end] =>
      let Ha := fresh "Halloc" in destruct (alloc_decision_id x) as [? ?] eqn:Ha
  | |- context [match alloc_rollback_id ?x with _ => _ end] =>
      let Ha := fresh "Halloc" in destruct (alloc_rollback_id x) as [? ?] eqn:Ha
  | |- context [match ?x with _ => _ end] =>
      lazymatch x with
      | context [match _ with _ => _ end] => fail
      | _ => destruct x eqn:?
      end
  end; simpl.

(** Reads the outcome of an envelope check. *)
Ltac envelope_result :=
  cbn [check_verdict check_record check_trial check_attempt verdict_accepted accept_verdict fst snd].

(** Follows a chain of unchanged tables back to the initial state. *)
Ltac tables :=
  repeat first
    [ reflexivity | eassumption | etransitivity; [|eassumption]
    | etransitivity; [|apply persisted_same] | etransitivity; [|apply notified_same]
    | etransitivity; [|apply observation_index_same] | etransitivity; [|apply artifact_index_same]
    | etransitivity; [|eapply next_sequence_same; eassumption]
    | etransitivity; [|eapply alloc_branch_id_same; eassumption]
    | etransitivity; [|eapply alloc_trial_id_same; eassumption]
    | etransitivity; [|eapply alloc_decision_id_same; eassumption]
    | etransitivity; [|eapply alloc_rollback_id_same; eassumption] ].

Section Operations.
Context `{Storage} `{Formatting}.
Implicit Types (impl : Impl).

Lemma evolves_persisted impl impl' d w :
  evolves impl impl' -> evolves impl (impl' <| impl_persistence_degraded := d |> <| impl_world := w |>).
Proof. intros He. etransitivity; [exact He|]. apply same_tables_evolves, persisted_same. Qed.
Lemma evolves_notified impl impl' n : evolves impl impl' -> evolves impl (impl' <| impl_notified := n |>).
Proof. intros He. etransitivity; [exact He|]. apply same_tables_evolves, notified_same. Qed.

Lemma evolves_observation_index impl impl' f :
  evolves impl impl' -> evolves impl (impl' <| impl_observation_index ::= f |>).
Proof. intros He. etransitivity; [exact He|]. apply same_tables_evolves, observation_index_same. Qed.
Lemma evolves_artifact_index impl impl' f :
  evolves impl impl' -> evolves impl (impl' <| impl_artifact_index ::= f |>).
Proof. intros He. etransitivity; [exact He|]. apply same_tables_evolves, artifact_index_same. Qed.

(** The tables after a write through [find_experiment]'s pointer. *)
Lemma put_evolves impl impl' id r r' :
  same_tables impl impl' -> find_experiment id impl = Some r -> record_evolves r r' ->
  evolves impl (put_experiment id r' impl').
Proof.
  intros [Hl He Hle Hx Hw Hlv] Hf Hr. constructor; simpl; rewrite ?Hx, ?Hw, ?Hlv; try done; try reflexivity.
  eapply map_evolves_set; eauto with typeclass_instances.
Qed.

(** A second write over the first one, when a persist has failed. *)
Lemma put_again_evolves impl impl' id r r' r'' d w :
  same_tables impl impl' -> find_experiment id impl = Some r -> record_evolves r r'' ->
  evolves impl (put_experiment id r''
    ((put_experiment id r' impl') <| impl_persistence_degraded := d |> <| impl_world := w |>)).
Proof.
  intros [Hl He Hle Hx Hw Hlv] Hf Hr. constructor; simpl; rewrite ?Hx, ?Hw, ?Hlv; try done; try reflexivity.
  intros k v Hk. rewrite !om_find_set. case_decide; subst; [|by exists v; split; [|reflexivity]].
  exists r''. unfold find_experiment in Hf. by simplify_eq.
Qed.

(** Reduces [evolves] of a finished operation to the record it has written. *)
Ltac written :=
  repeat first [ apply evolves_notified | apply evolves_persisted
               | apply evolves_observation_index | apply evolves_artifact_index ];
  first [ reflexivity
        | eapply put_evolves; [solve [tables]|eassumption|]
        | eapply put_again_evolves; [solve [tables]|eassumption|]
        | apply same_tables_evolves; solve [tables] ].

Lemma revise_hypothesis_evolves experiment spec impl : evolves impl (revise_hypothesis experiment spec impl).1.
Proof. unfold revise_hypothesis. op_branches; written; apply revise_record_evolves. Qed.

Lemma retire_branch_evolves experiment branch reason impl : evolves impl (retire_branch experiment branch reason impl).1.
Proof. unfold retire_branch. op_branches; written; apply retire_record_evolves. Qed.

Lemma cancel_experiment_evolves experiment reason impl : evolves impl (cancel_experiment experiment reason impl).1.
Proof. unfold cancel_experiment. op_branches; written; apply cancel_record_evolves. Qed.

Lemma rollback_evolves experiment target reason impl : evolves impl (rollback experiment target reason impl).1.
Proof. unfold rollback. op_branches; written; apply rollback_record_evolves. Qed.

Lemma fork_branch_evolves experiment parent spec impl : evolves impl (fork_branch experiment parent spec impl).1.
Proof.
  unfold fork_branch. op_branches; written.
  all: first [eapply pop_branch_evolves; [reflexivity|] | etransitivity; [apply push_branch_evolves|]].
  all: etransitivity; [|apply log_evolves]; evolve_record.
Qed.

(** The identity the next trial draws is not in use. *)
Definition next_trial_fresh (impl : Impl) : Prop :=
  forall id r, find_experiment id impl = Some r ->
    om_find (increment (st_id_watermark_trial (impl_state impl))) (rec_trials r) = None.

Lemma create_trial_evolves experiment branch payload impl :
  next_trial_fresh impl -> evolves impl (create_trial experiment branch payload impl).1.
Proof.
  intros Hfresh. unfold create_trial. op_branches; written.
  all: unfold next_sequence, alloc_trial_id in *; simplify_eq/=.
  all: constructor; simpl; try reflexivity; simpl.
  all: first [ apply (map_evolves_emplace trial_evolves)
             | apply (map_evolves_emplace_erase trial_evolves), (Hfresh experiment); assumption ].
Qed.

Lemma finalize_experiment_evolves experiment candidate reason impl :
  evolves impl (finalize_experiment experiment candidate reason impl).1.
Proof.
  unfold finalize_experiment. op_branches; written; evolve_record.
Qed.

Lemma find_owner_spec trial experiments id r t :
  find_owner trial experiments = Some (id, r, t) -> om_find trial (rec_trials r) = Some t /\ (id, r) ∈ experiments.
Proof.
  induction experiments as [|[id0 r0] experiments IH]; simpl; [done|].
  destruct (om_find trial (rec_trials r0)) eqn:Hf.
  - intros [= <- <- <-]. split; [done|left].
  - intros Ho. destruct (IH Ho). split; [done|by right].
Qed.

Lemma cancel_trial_evolves trial reason impl :
  om_sorted (st_experiments (impl_state impl)) -> evolves impl (cancel_trial trial reason impl).1.
Proof.
  intros Hsorted. unfold cancel_trial. op_branches; try reflexivity.
  all: apply find_owner_spec in Heqo as [Ht Hin]; apply om_sorted_elem in Hin; [|done].
  all: written; etransitivity; [|apply log_evolves]; evolve_record.
  all: first [ eapply map_evolves_set; eauto with typeclass_instances evolve | apply map_evolves_map ].
  all: intros a; case_match eqn:Hskip; zprop; auto with evolve.
Qed.

Lemma heartbeat_evolves request impl : evolves impl (heartbeat request impl).1.
Proof.
  unfold heartbeat. op_branches; try reflexivity. constructor; simpl; try reflexivity.
  - eapply map_evolves_set; [typeclasses eauto|eassumption|]. by repeat split.
  - eapply live_keyed_set; [eassumption|]. by repeat split.
Qed.

Lemma fail_trial_evolves request impl : evolves impl (fail_trial request impl).1.
Proof.
  unfold fail_trial. destruct (envelope_mismatch _ _ _ _); [reflexivity|].
  destruct (check_envelope_cases (fail_envelope request) impl)
    as [(r & b & t & a & l & (_ & _ & [Hr _ Ht Ha] & Hn) & ->)|[_ ->]]; envelope_result; [|reflexivity].
  op_branches; written; apply fail_record_evolves; auto; by destruct Hn.
Qed.

(** ** Evidence *)

Lemma store_observation_spec o r t a impl r' impl' :
  om_find (obs_trial o) (rec_trials r) = Some t -> om_find (obs_attempt o) (rec_attempts r) = Some a ->
  is_terminal (trial_state t) = false -> is_attempt_terminal (attempt_state a) = false ->
  store_observation o r t a impl = (r', impl') ->
  same_tables impl impl' /\ record_evolves r r'
  /\ exists stored, rec_observations r' = rec_observations r ++ [stored].
Proof.
  intros Ht Ha Hto Hao. unfold store_observation. intros Hs.
  repeat case_match; simplify_eq; unfold next_sequence in *; simplify_eq/=; (split; [by constructor|]);
    (split; [|by eexists]); evolve_record; eapply map_evolves_set; eauto with typeclass_instances evolve.
Qed.

Lemma pop_observation_evolves r r' stored :
  record_evolves r r' -> rec_observations r' = rec_observations r ++ [stored] -> record_evolves r (pop_observation r').
Proof. intros [] Ho. constructor; simpl; auto. by rewrite Ho, removelast_last. Qed.

Lemma reject_observation_evolves o verdict r impl :
  find_experiment (obs_experiment o) impl = Some r -> evolves impl (reject_observation o verdict r impl).
Proof.
  intros Hr. unfold reject_observation. op_branches; written.
  - etransitivity; [apply record_rejection_evolves|]. evolve_record.
  - apply record_rejection_evolves.
Qed.

Lemma accept_observation_evolves o r t a impl :
  find_experiment (obs_experiment o) impl = Some r ->
  om_find (obs_trial o) (rec_trials r) = Some t -> om_find (obs_attempt o) (rec_attempts r) = Some a ->
  is_terminal (trial_state t) = false -> is_attempt_terminal (attempt_state a) = false ->
  evolves impl (accept_observation o r t a impl).1.
Proof.
  intros Hr Ht Ha Hto Hao. unfold accept_observation.
  destruct (store_observation o r t a impl) as [r' impl'] eqn:Hs.
  apply store_observation_spec in Hs as (Htab & Hev & stored & Hobs); auto.
  op_branches; written; eauto using pop_observation_evolves.
Qed.

Lemma publish_observation_evolves request impl : evolves impl (publish_observation request impl).1.
Proof.
  unfold publish_observation. destruct (find_experiment _ impl) as [probe|] eqn:Hprobe; [|reflexivity].
  set (e := envelope_from _ _ _ _ probe).
  destruct (check_envelope_cases e impl)
    as [(r & b & t & a & l & (_ & _ & [Hr _ Ht Ha] & Hn) & ->)|[_ ->]]; envelope_result.
  - apply accept_observation_evolves; auto; by destruct Hn.
  - op_branches; repeat first [apply evolves_persisted | by apply reject_observation_evolves].
Qed.

Lemma accept_artifact_evolves a r t impl :
  find_experiment (artifact_experiment a) impl = Some r -> om_find (artifact_trial a) (rec_trials r) = Some t ->
  is_terminal (trial_state t) = false -> evolves impl (accept_artifact a r t impl).1.
Proof.
  intros Hr Ht Hto. unfold accept_artifact. op_branches; written; evolve_record.
  all: first [ by rewrite removelast_last
             | eapply map_evolves_set_twice; eauto with typeclass_instances evolve
             | eapply map_evolves_set; eauto with typeclass_instances evolve ].
Qed.

Lemma publish_artifact_evolves request impl : evolves impl (publish_artifact request impl).1.
Proof.
  unfold publish_artifact. destruct (find_experiment _ impl) as [probe|] eqn:Hprobe; [|reflexivity].
  destruct (find_branch probe _) as [br|]; [|reflexivity]. destruct (om_find _ _) as [at'|]; [|reflexivity].
  set (e := artifact_envelope _ _ _ _).
  destruct (check_envelope_cases e impl)
    as [(r & b & t & a & l & (_ & _ & [Hr _ Ht Ha] & Hn) & ->)|[_ ->]]; envelope_result.
  - apply accept_artifact_evolves; auto; by destruct Hn.
  - op_branches; written; apply record_rejection_evolves.
Qed.

(** *** Completion *)

(** What the artifact loop of [commit_trial] has changed so far: only the
    index, the record's artifacts and the trial's list have grown, by as many
    entries as identities were registered. *)
Record loop_grows (impl : Impl) (r : ExperimentRecord) (t : TrialRecord) (loop : CommitLoop) : Prop := {
  lg_tables : same_tables impl (cl_impl loop);
  lg_record : exists added, cl_record loop = r <| rec_artifacts := rec_artifacts r ++ added |>
    /\ length added = length (cl_registered loop);
  lg_trial : cl_trial loop = t <| trial_artifacts := trial_artifacts t ++ cl_registered loop |>
}.

Lemma register_artifacts_grows attempt submitted impl r t loop :
  loop_grows impl r t loop -> loop_grows impl r t (register_artifacts attempt submitted loop).1.
Proof.
  revert loop. induction submitted as [|a submitted IH]; intros loop Hg; cbn [register_artifacts fst]; [done|].
  destruct (next_sequence (cl_impl loop)) as [sequence impl1] eqn:Hseq. apply next_sequence_same in Hseq.
  destruct Hg as [Htab (added & Hrec & Hlen) Htr].
  repeat case_match; try (by constructor; eauto); simpl.
  - constructor; simpl; eauto. by transitivity (cl_impl loop).
  - apply IH. constructor; simpl.
    + etransitivity; [exact Htab|]. etransitivity; [exact Hseq|]. apply artifact_index_same.
    + eexists (added ++ [_]). rewrite Hrec, !length_app, app_assoc. simpl. split; [reflexivity|lia].
    + by rewrite Htr, app_assoc.
Qed.

Lemma pop_n_app {A} (l added : list A) n : length added = n -> pop_n n (l ++ added) = l.
Proof. intros <-. unfold pop_n. rewrite length_app. replace (_ + _ - _)%nat with (length l) by lia. by rewrite take_app_length. Qed.

Lemma accept_commit_evolves request r t a impl :
  let e := commit_envelope request in
  find_experiment (env_experiment e) impl = Some r ->
  om_find (env_trial e) (rec_trials r) = Some t -> om_find (env_attempt e) (rec_attempts r) = Some a ->
  is_terminal (trial_state t) = false -> is_attempt_terminal (attempt_state a) = false ->
  evolves impl (accept_commit request r t a impl).1.
Proof.
  intros e Hr Ht Ha Hto Hao. unfold accept_commit, write_back.
  destruct (next_sequence impl) as [sequence impl1] eqn:Hseq. apply next_sequence_same in Hseq.
  destruct (register_artifacts _ _ _) as [loop status] eqn:Hloop.
  pose proof (register_artifacts_grows (attempt_id a) (commit_artifacts request) impl1 r t (mkCommitLoop impl1 r t [])) as Hg.
  rewrite Hloop in Hg. destruct Hg as [Htab (added & Hrec & Hlen) Htr].
  { constructor; simpl; [reflexivity|exists []|]; by destruct r, t; unfold upd; simpl; rewrite ?app_nil_r. }
  simpl in *. rewrite Hrec, Htr.
  op_branches; written; evolve_record.
  all: try (eapply map_evolves_set; eauto with typeclass_instances evolve; fail).
  rewrite pop_n_app by done. reflexivity.
Qed.

Lemma commit_trial_evolves request impl : evolves impl (commit_trial request impl).1.
Proof.
  unfold commit_trial. destruct (envelope_mismatch _ _ _ _); [reflexivity|].
  destruct (check_envelope_cases (commit_envelope request) impl)
    as [(r & b & t & a & l & (_ & _ & [Hr _ Ht Ha] & Hn) & ->)|[_ ->]]; envelope_result; [|reflexivity].
  apply accept_commit_evolves; auto; by destruct Hn.
Qed.

(** ** Workers *)

Lemma workers_evolve_map f l : (forall w, incarnation_evolves w (f w)) -> workers_evolve l (map f l).
Proof.
  intros Hf. exists (map f l), []. rewrite app_nil_r. split; [done|].
  induction l; simpl; constructor; auto.
Qed.

Lemma revoke_incarnation_evolves worker boot kind sequence w :
  incarnation_evolves w (revoke_incarnation worker boot kind sequence w).
Proof. unfold revoke_incarnation. case_match eqn:E; [|reflexivity]. zprop. repeat split; simpl. congruence. Qed.

Lemma revoke_worker_evolves worker boot kind reason impl : evolves impl (revoke_worker worker boot kind reason impl).1.
Proof.
  unfold revoke_worker. destruct (find_live_worker worker boot impl) as [live|] eqn:Hl; [|reflexivity].
  unfold next_sequence. op_branches; repeat first [apply evolves_notified | apply evolves_persisted].
  all: constructor; simpl; try reflexivity.
  all: first [ apply (map_evolves_map record_evolves); intros; apply withdraw_in_record_evolves
             | apply workers_evolve_map; intros; apply revoke_incarnation_evolves
             | eapply map_evolves_set; [typeclasses eauto|exact Hl|by repeat split]
             | eapply live_keyed_set; [exact Hl|by repeat split] ].
Qed.

Definition state_evolves (s s' : CoordinatorState) : Prop :=
  st_last_epoch s' = st_last_epoch s
  /\ map_evolves record_evolves (st_experiments s) (st_experiments s')
  /\ workers_evolve (st_workers s) (st_workers s').

#[local] Instance state_evolves_preorder : PreOrder state_evolves.
Proof.
  split; [by intros s; split_and!; try reflexivity|].
  intros s1 s2 s3 (? & ? & ?) (? & ? & ?). unfold state_evolves. split_and!; try congruence; by etransitivity.
Qed.

Lemma replace_incarnation_evolves worker boot sequence s live :
  state_evolves s (replace_incarnation worker boot sequence s live).1
  /\ live_evolves live (replace_incarnation worker boot sequence s live).2.
Proof.
  unfold replace_incarnation. case_match; simpl; split; try reflexivity; [|by repeat split].
  split_and!; simpl; [done| |].
  - apply (map_evolves_map record_evolves). intros r. apply withdraw_in_record_evolves.
  - apply workers_evolve_map. intros w. apply revoke_incarnation_evolves.
Qed.

Lemma register_worker_evolves request impl : evolves impl (register_worker request impl).1.
Proof.
  unfold register_worker.
  destruct (next_sequence impl) as [sequence impl1] eqn:Hseq. apply next_sequence_same in Hseq.
  pose proof (om_map_acc_inv (replace_incarnation (reg_worker request) (reg_boot request) sequence)
    (state_evolves (impl_state impl1)) (impl_state impl1) (impl_live_workers impl1)) as Hstate.
  pose proof (map_evolves_map_acc live_evolves (replace_incarnation (reg_worker request) (reg_boot request) sequence)
    (impl_state impl1) (impl_live_workers impl1)) as Hlive.
  pose proof (live_keyed_map_acc (replace_incarnation (reg_worker request) (reg_boot request) sequence)
    (impl_state impl1) (impl_live_workers impl1)) as Hkeyed.
  destruct (om_map_acc _ _ _) as [state live] eqn:Hacc. simpl in Hstate, Hlive, Hkeyed.
  assert (He : evolves impl (impl1 <| impl_state := state |> <| impl_live_workers := live |>)).
  { etransitivity; [apply same_tables_evolves; exact Hseq|].
    destruct Hstate as (Hle & Hx & Hw); [reflexivity| |].
    { intros s l Hs. etransitivity; [exact Hs|]. apply replace_incarnation_evolves. }
    constructor; simpl; auto.
    - apply Hlive. intros s l. apply replace_incarnation_evolves.
    - apply Hkeyed. intros s l. apply replace_incarnation_evolves. }
  unfold next_sequence. op_branches; try reflexivity; try exact He;
    repeat first [apply evolves_notified | apply evolves_persisted]; (etransitivity; [exact He|]).
  all: constructor; simpl; try reflexivity; try by apply (map_evolves_emplace live_evolves).
  all: first [ eexists _, [_]; split; reflexivity
             | match goal with |- context [om_emplace _ ?w _] => apply (live_keyed_emplace w) end ].
Qed.

(** *** Claims *)

(** What one pass of the claim loops does to its variables. *)
Record loop_evolves (loop loop' : ClaimLoop) : Prop := {
  le_evolves : evolves (loop_impl loop) (loop_impl loop');
  le_live_workers : impl_live_workers (loop_impl loop') = impl_live_workers (loop_impl loop);
  le_live : live_evolves (loop_live loop) (loop_live loop')
}.

#[local] Instance loop_evolves_preorder : PreOrder loop_evolves.
Proof.
  split; [by intros l; constructor; try reflexivity|].
  intros l1 l2 l3 [] []. constructor; try congruence; by etransitivity.
Qed.

Lemma issue_evolves request key branch t r loop :
  om_find key (rec_trials r) = Some t -> is_terminal (trial_state t) = false ->
  record_evolves r (issue request key branch t r loop).1
  /\ same_tables (loop_impl loop) (loop_impl (issue request key branch t r loop).2)
  /\ live_evolves (loop_live loop) (loop_live (issue request key branch t r loop).2).
Proof.
  intros Hf Ho. unfold issue, next_sequence, alloc_attempt_id.
  destruct (reserve_metrics _ _) as [observations metrics]. destruct (reserve_artifacts _ _) as [artifacts ids].
  simpl. split; [|split; [by constructor|by repeat split]].
  evolve_record; [eapply map_evolves_set; eauto with typeclass_instances evolve|].
  apply (map_evolves_emplace attempt_evolves).
Qed.

Lemma claimable_ready limits r t branch : claimable limits r t = Some branch -> trial_state t = TrialState.READY.
Proof. unfold claimable. repeat case_match; try done. zprop. done. Qed.

Lemma claim_trial_evolves request acc key :
  record_evolves acc.1 (claim_trial request acc key).1
  /\ same_tables (loop_impl acc.2) (loop_impl (claim_trial request acc key).2)
  /\ live_evolves (loop_live acc.2) (loop_live (claim_trial request acc key).2).
Proof.
  destruct acc as [r loop]. unfold claim_trial. repeat case_match; try (split_and!; reflexivity).
  apply issue_evolves; [done|]. erewrite claimable_ready by eassumption. done.
Qed.

Lemma claim_loop_evolves request keys acc :
  record_evolves acc.1 (foldl (claim_trial request) acc keys).1
  /\ same_tables (loop_impl acc.2) (loop_impl (foldl (claim_trial request) acc keys).2)
  /\ live_evolves (loop_live acc.2) (loop_live (foldl (claim_trial request) acc keys).2).
Proof.
  revert acc. induction keys as [|k keys IH]; intros acc; simpl; [split_and!; reflexivity|].
  destruct (IH (claim_trial request acc k)) as (Hr & Ht & Hl), (claim_trial_evolves request acc k) as (Hr' & Ht' & Hl').
  split_and!; by etransitivity.
Qed.

Lemma claim_experiment_evolves request loop id : loop_evolves loop (claim_experiment request loop id).
Proof.
  unfold claim_experiment. destruct (loop_budget loop =? 0); [reflexivity|].
  destruct (find_experiment id (loop_impl loop)) as [r|] eqn:Hf; [|reflexivity].
  destruct (negb _); [reflexivity|].
  destruct (claim_loop_evolves request (om_keys (rec_trials r)) (r, loop)) as (Hr & Ht & Hl).
  destruct (foldl _ _ _) as [r' loop']. simpl in *.
  constructor; simpl; [by eapply put_evolves|by destruct Ht|done].
Qed.

Lemma claim_experiments_evolves request keys loop :
  loop_evolves loop (foldl (claim_experiment request) loop keys).
Proof.
  revert loop. induction keys as [|k keys IH]; intros loop; simpl; [reflexivity|].
  etransitivity; [apply claim_experiment_evolves|apply IH].
Qed.

Lemma claim_trials_evolves request impl : evolves impl (claim_trials request impl).1.
Proof.
  unfold claim_trials. destruct (negb _); [reflexivity|]. destruct (negb _); [reflexivity|].
  destruct (find_live_worker _ _ impl) as [live|] eqn:Hl; [|reflexivity].
  destruct (live_revoked live) eqn:Hrev; [reflexivity|]. destruct (_ || _); [reflexivity|].
  set (loop0 := mkClaimLoop _ _ _ _).
  destruct (claim_experiments_evolves request (om_keys (st_experiments (impl_state impl))) loop0) as [He Hw Hlive].
  set (loop := foldl _ _ _) in *.
  assert (Hfinal : evolves impl ((loop_impl loop)
    <| impl_live_workers ::= om_set (claim_worker request, claim_boot request) (loop_live loop) |>)).
  { assert (Hlive' : live_evolves live (loop_live loop)) by (etransitivity; [|exact Hlive]; by repeat split).
    destruct He as [? ? ? ? ? _ _]. constructor; simpl; auto; rewrite Hw.
    - by eapply map_evolves_set; [typeclasses eauto|exact Hl|].
    - by eapply live_keyed_set. }
  op_branches; repeat apply evolves_persisted; exact Hfinal.
Qed.

(** ** New experiments *)

(** Emplacing a record under a fresh key, and taking it back. *)
Lemma emplace_evolves impl impl' id r :
  same_tables impl impl' ->
  evolves impl (impl' <| impl_state ::= fun s => s <| st_experiments ::= om_emplace id r |> |>).
Proof.
  intros [Hl He Hle Hx Hw Hlv]. constructor; simpl; rewrite ?Hx, ?Hw, ?Hlv; try done; try reflexivity.
  apply (map_evolves_emplace record_evolves).
Qed.

Lemma emplace_erase_evolves impl impl' id r d w :
  same_tables impl impl' -> om_mem id (st_experiments (impl_state impl')) = false ->
  let placed := impl' <| impl_state ::= fun s => s <| st_experiments ::= om_emplace id r |> |> in
  evolves impl (placed <| impl_state ::= fun s => s <| st_experiments ::= om_erase id |> |>)
  /\ evolves impl ((placed <| impl_persistence_degraded := d |> <| impl_world := w |>)
       <| impl_state ::= fun s => s <| st_experiments ::= om_erase id |> |>).
Proof.
  intros [Hl He Hle Hx Hw Hlv] Hm. unfold om_mem in Hm. rewrite Hx in Hm.
  split; constructor; simpl; rewrite ?Hx, ?Hw, ?Hlv; try done; try reflexivity;
    apply (map_evolves_emplace_erase record_evolves); by case_match.
Qed.

Lemma create_experiment_evolves spec impl : evolves impl (create_experiment spec impl).1.
Proof.
  unfold create_experiment. destruct (negb _); [reflexivity|]. destruct (negb _); [reflexivity|].
  destruct (_ <=? _); [reflexivity|].
  destruct (alloc_experiment_id impl) as [experiment impl1] eqn:E1.
  assert (S1 : same_tables impl impl1) by (injection E1 as _ <-; by constructor).
  destruct (om_mem experiment _) eqn:Hfresh; [by apply same_tables_evolves|].
  destruct (next_sequence impl1) as [sequence impl2] eqn:E2. apply next_sequence_same in E2.
  destruct (alloc_hypothesis_id impl2) as [hypothesis impl3] eqn:E3.
  assert (S3 : same_tables impl2 impl3) by (injection E3 as _ <-; by constructor).
  destruct (build_metrics _ _) as [mw metrics]. cbn zeta. set (impl4 := upd impl_state _ impl3).
  assert (S4 : same_tables impl3 impl4) by by constructor.
  assert (S14 : same_tables impl1 impl4) by tables.
  destruct (match spec_expected_metric spec with Some _ => _ | None => _ end) as [expected|];
    [|apply same_tables_evolves; by transitivity impl1].
  set (impl5 := upd impl_state _ impl4). assert (S5 : same_tables impl4 impl5) by by constructor.
  destruct (build_branches _ _ _ _) as [bw [branches|e]];
    set (impl6 := upd impl_state _ impl5); (assert (S6 : same_tables impl5 impl6) by by constructor);
    [|apply same_tables_evolves; by tables].
  assert (S16 : same_tables impl1 impl6) by tables.
  assert (S06 : same_tables impl impl6) by (by transitivity impl1).
  assert (Hfresh6 : om_mem experiment (st_experiments (impl_state impl6)) = false)
    by (by rewrite (st_same_experiments _ _ S16)).
  set (record := new_record _ _ _ _ _ _ _ _). set (placed := upd impl_state _ impl6).
  destruct (negb _); [by apply (emplace_erase_evolves impl impl6 experiment record true (impl_world impl6))|].
  destruct (persist_locked placed) as [impl8 persisted] eqn:Hp. apply persist_state in Hp as (d & w & -> & _).
  destruct (negb _); [by apply (emplace_erase_evolves impl impl6 experiment record)|].
  destruct (notify_event_state ("experiment-created:" +:+ id_to_string experiment)
    (placed <| impl_persistence_degraded := d |> <| impl_world := w |>)) as [n ->].
  apply evolves_notified, evolves_persisted. by apply emplace_evolves.
Qed.

End Operations.
