(* ===== verification/Ledger.v ===== *)
(** * The ledger of trials and attempts

    The invariant that ties the attempts of an experiment to its trials:
    identities match keys and stay below the watermarks, an unfinished attempt
    is the authoritative attempt of an unfinished trial, and a trial is
    complete exactly when one attempt has been committed for it.  The lemmas
    show that the ways the operations change the two tables preserve it. *)
From S2P Require Import Prelude OMap Error Domain Identity Float64 Model Hash Sorting Canonical State Messages Spec Coordinator Authority Evidence Decision.

(** ** Pointwise relations between maps *)

Definition map_rel {K A} `{KeyOrder K} (R : K -> A -> A -> Prop) (m m' : omap K A) : Prop :=
  forall k, option_Forall2 (R k) (om_find k m) (om_find k m').

Section MapRel.
Context {K A : Type} `{KeyOrder K} (R : K -> A -> A -> Prop).

Lemma map_rel_refl m : (forall k v, om_find k m = Some v -> R k v v) -> map_rel R m m.
Proof. intros HR k. destruct (om_find k m) eqn:E; constructor; auto. Qed.

Lemma map_rel_map f (m : omap K A) :
  (forall k v, om_find k m = Some v -> R k v (f v)) -> map_rel R m (om_map f m).
Proof. intros HR k. rewrite om_find_map. destruct (om_find k m) eqn:E; constructor; auto. Qed.

Lemma map_rel_set k v v' (m : omap K A) :
  om_find k m = Some v -> R k v v' -> (forall k' v0, k' <> k -> om_find k' m = Some v0 -> R k' v0 v0) ->
  map_rel R m (om_set k v' m).
Proof.
  intros Hf HR Hothers k'. rewrite om_find_set. case_decide as Hk; subst.
  - rewrite Hf. by constructor.
  - destruct (om_find k' m) eqn:E; constructor; auto.
Qed.

Lemma map_rel_map_acc {S} (f : S -> A -> S * A) s (m : omap K A) :
  (forall s k v, om_find k m = Some v -> R k v (f s v).2) -> map_rel R m (om_map_acc f s m).2.
Proof.
  intros HR k. pose proof (om_find_map_acc f s m k) as Hm.
  destruct (om_find k m) as [v|] eqn:E; [destruct Hm as (s' & ->)|rewrite Hm]; constructor; auto.
Qed.

Lemma map_rel_Some m m' k v : map_rel R m m' -> om_find k m = Some v -> exists v', om_find k m' = Some v' /\ R k v v'.
Proof. intros Hm Hf. specialize (Hm k). rewrite Hf in Hm. inversion Hm. eauto. Qed.

Lemma map_rel_Some_r m m' k v' : map_rel R m m' -> om_find k m' = Some v' -> exists v, om_find k m = Some v /\ R k v v'.
Proof. intros Hm Hf. specialize (Hm k). rewrite Hf in Hm. inversion Hm. eauto. Qed.
End MapRel.

(** ** The invariant *)

Definition open_trial (t : TrialRecord) : Prop := is_terminal (trial_state t) = false.
Definition open_attempt (a : AttemptRecord) : Prop := is_attempt_terminal (attempt_state a) = false.
Definition completed (t : TrialRecord) : Prop := trial_state t = TrialState.COMPLETED.

Record ledger_inv (wt wa : Z) (trials : omap Z TrialRecord) (attempts : omap Z AttemptRecord) : Prop := {
  li_trial_key : forall k t, om_find k trials = Some t -> trial_id t = k /\ 0 < k <= wt;
  li_attempt_key : forall k a, om_find k attempts = Some a -> attempt_id a = k /\ 0 < k <= wa;
  (** every attempt belongs to a recorded trial, on the trial's branch *)
  li_link : forall k a, om_find k attempts = Some a ->
    exists t, om_find (attempt_trial a) trials = Some t /\ attempt_branch a = trial_branch t;
  (** an unfinished attempt is the authoritative one of an unfinished trial *)
  li_open : forall k a t, om_find k attempts = Some a -> om_find (attempt_trial a) trials = Some t ->
    open_attempt a -> open_trial t /\ trial_authoritative_attempt t = k;
  (** a committed attempt is the authoritative one of a completed trial *)
  li_committed : forall k a t, om_find k attempts = Some a -> om_find (attempt_trial a) trials = Some t ->
    attempt_committed a = true ->
    attempt_state a = AttemptState.COMPLETED /\ completed t /\ trial_authoritative_attempt t = k;
  (** a completed trial has a committed attempt, any other trial has none *)
  li_completed : forall k t, om_find k trials = Some t -> completed t ->
    trial_committed_attempts t = 1
    /\ exists a, om_find (trial_authoritative_attempt t) attempts = Some a
       /\ attempt_trial a = k /\ attempt_committed a = true;
  li_uncommitted : forall k t, om_find k trials = Some t -> ~ completed t -> trial_committed_attempts t = 0;
  (** a trial ready for a claim has no attempt holding authority *)
  li_ready : forall k t, om_find k trials = Some t -> trial_state t = TrialState.READY ->
    trial_authoritative_attempt t = 0;
  (** the authoritative attempt of a trial was issued for that trial *)
  li_holder : forall k t, om_find k trials = Some t -> trial_authoritative_attempt t <> 0 ->
    exists a, om_find (trial_authoritative_attempt t) attempts = Some a /\ attempt_trial a = k
}.

Lemma ledger_inv_mono wt wa wt' wa' trials attempts :
  wt <= wt' -> wa <= wa' -> ledger_inv wt wa trials attempts -> ledger_inv wt' wa' trials attempts.
Proof.
  intros Ht Ha []. constructor; auto.
  - intros k t Hf. destruct (li_trial_key0 k t Hf). split; [done|lia].
  - intros k a Hf. destruct (li_attempt_key0 k a Hf). split; [done|lia].
Qed.

(** Changing fields the ledger does not look at, of every trial and attempt. *)
Lemma ledger_relabel wt wa trials attempts (f : TrialRecord -> TrialRecord) (g : AttemptRecord -> AttemptRecord) :
  (forall t, trial_id (f t) = trial_id t /\ trial_branch (f t) = trial_branch t /\ trial_state (f t) = trial_state t
     /\ trial_authoritative_attempt (f t) = trial_authoritative_attempt t
     /\ trial_committed_attempts (f t) = trial_committed_attempts t) ->
  (forall a, attempt_id (g a) = attempt_id a /\ attempt_trial (g a) = attempt_trial a /\ attempt_branch (g a) = attempt_branch a
     /\ attempt_state (g a) = attempt_state a /\ attempt_committed (g a) = attempt_committed a) ->
  ledger_inv wt wa trials attempts -> ledger_inv wt wa (om_map f trials) (om_map g attempts).
Proof.
  intros Hf Hg Hi.
  assert (HT : forall k t', om_find k (om_map f trials) = Some t' -> exists t, om_find k trials = Some t /\ t' = f t).
  { intros k t'. rewrite om_find_map. destruct (om_find k trials); simpl; intros; simplify_eq. eauto. }
  assert (HA : forall k a', om_find k (om_map g attempts) = Some a' -> exists a, om_find k attempts = Some a /\ a' = g a).
  { intros k a'. rewrite om_find_map. destruct (om_find k attempts); simpl; intros; simplify_eq. eauto. }
  constructor; unfold open_trial, open_attempt, completed in *.
  - intros k t' (t & Ht & ->)%HT. destruct (Hf t) as (-> & _). by apply (li_trial_key _ _ _ _ Hi).
  - intros k a' (a & Ha & ->)%HA. destruct (Hg a) as (-> & _). by apply (li_attempt_key _ _ _ _ Hi).
  - intros k a' (a & Ha & ->)%HA. destruct (Hg a) as (_ & -> & -> & _).
    destruct (li_link _ _ _ _ Hi k a Ha) as (t & Ht & ->). exists (f t). rewrite om_find_map, Ht.
    by destruct (Hf t) as (_ & -> & _).
  - intros k a' t' (a & Ha & ->)%HA. destruct (Hg a) as (_ & -> & _ & -> & _). intros (t & Ht & ->)%HT.
    destruct (Hf t) as (_ & _ & -> & -> & _). by apply (li_open _ _ _ _ Hi k a t).
  - intros k a' t' (a & Ha & ->)%HA. destruct (Hg a) as (_ & -> & _ & -> & ->). intros (t & Ht & ->)%HT.
    destruct (Hf t) as (_ & _ & -> & -> & _). by apply (li_committed _ _ _ _ Hi k a t).
  - intros k t' (t & Ht & ->)%HT. destruct (Hf t) as (_ & _ & -> & -> & ->). intros Hc.
    destruct (li_completed _ _ _ _ Hi k t Ht Hc) as (Hn & a & Ha & Hat & Hac). split; [done|].
    exists (g a). rewrite om_find_map, Ha. by destruct (Hg a) as (_ & -> & _ & _ & ->).
  - intros k t' (t & Ht & ->)%HT. destruct (Hf t) as (_ & _ & -> & _ & ->). by apply (li_uncommitted _ _ _ _ Hi k t).
  - intros k t' (t & Ht & ->)%HT. destruct (Hf t) as (_ & _ & -> & -> & _). by apply (li_ready _ _ _ _ Hi k t).
  - intros k t' (t & Ht & ->)%HT. destruct (Hf t) as (_ & _ & _ & -> & _). intros Hn.
    destruct (li_holder _ _ _ _ Hi k t Ht Hn) as (a & Ha & Hat). exists (g a). rewrite om_find_map, Ha.
    by destruct (Hg a) as (_ & -> & _).
Qed.

Lemma ledger_inv_empty wt wa : ledger_inv wt wa [] [].
Proof. constructor; done. Qed.

(** Two committed attempts of one trial are the same attempt. *)
Lemma ledger_single_commit wt wa trials attempts k1 k2 a1 a2 :
  ledger_inv wt wa trials attempts ->
  om_find k1 attempts = Some a1 -> om_find k2 attempts = Some a2 ->
  attempt_trial a1 = attempt_trial a2 -> attempt_committed a1 = true -> attempt_committed a2 = true -> k1 = k2.
Proof.
  intros Hi H1 H2 Heq C1 C2. destruct (li_link _ _ _ _ Hi k1 a1 H1) as (t & Ht & _).
  destruct (li_committed _ _ _ _ Hi k1 a1 t H1 Ht C1) as (_ & _ & <-). rewrite Heq in Ht.
  by destruct (li_committed _ _ _ _ Hi k2 a2 t H2 Ht C2) as (_ & _ & <-).
Qed.

(** ** Quiet changes

    A change that commits nothing and issues nothing: trials and attempts keep
    their identities, finished ones stay as they are. *)
Definition quiet_trial (_ : Z) (t t' : TrialRecord) : Prop :=
  t' = t \/ (open_trial t /\ trial_id t' = trial_id t /\ trial_branch t' = trial_branch t
             /\ trial_committed_attempts t' = trial_committed_attempts t /\ ~ completed t'
             /\ (trial_state t' = TrialState.READY -> trial_authoritative_attempt t' = 0)
             /\ (trial_authoritative_attempt t' = trial_authoritative_attempt t \/ trial_authoritative_attempt t' = 0)).

Definition quiet_attempt (_ : Z) (a a' : AttemptRecord) : Prop :=
  a' = a \/ (open_attempt a /\ attempt_id a' = attempt_id a /\ attempt_trial a' = attempt_trial a
             /\ attempt_branch a' = attempt_branch a /\ attempt_committed a' = attempt_committed a).

(** Attempts that stay open keep their open trial. *)
Definition keeps_open (trials trials' : omap Z TrialRecord) (attempts attempts' : omap Z AttemptRecord) : Prop :=
  forall k a a' t t', om_find k attempts = Some a -> om_find k attempts' = Some a' ->
    om_find (attempt_trial a) trials = Some t -> om_find (attempt_trial a) trials' = Some t' ->
    open_attempt a' -> open_trial t -> trial_authoritative_attempt t = k ->
    open_trial t' /\ trial_authoritative_attempt t' = k.

Lemma quiet_trial_facts k t t' : quiet_trial k t t' ->
  trial_id t' = trial_id t /\ trial_branch t' = trial_branch t
  /\ trial_committed_attempts t' = trial_committed_attempts t /\ (completed t' -> t' = t) /\ (completed t -> t' = t)
  /\ (~ completed t' -> ~ completed t).
Proof.
  intros [->|(Ho & Hi & Hb & Hc & Hn & _)]; [tauto|]. unfold open_trial, completed in *.
  split_and!; try done; intros Heq; rewrite ?Heq in Ho; try done. intros Heq2. by rewrite Heq2 in Ho.
Qed.

Lemma quiet_attempt_facts k a a' : quiet_attempt k a a' ->
  attempt_id a' = attempt_id a /\ attempt_trial a' = attempt_trial a /\ attempt_branch a' = attempt_branch a
  /\ attempt_committed a' = attempt_committed a /\ (open_attempt a' -> open_attempt a).
Proof. intros [->|(Ho & Hi & Ht & Hb & Hc)]; auto. Qed.

Lemma ledger_quiet wt wa trials attempts trials' attempts' :
  ledger_inv wt wa trials attempts -> map_rel quiet_trial trials trials' ->
  map_rel quiet_attempt attempts attempts' -> keeps_open trials trials' attempts attempts' ->
  ledger_inv wt wa trials' attempts'.
Proof.
  intros Hi HT HA Hkeep. constructor.
  - intros k t' (t & Ht & Hq)%(map_rel_Some_r _ _ _ _ _ HT). apply quiet_trial_facts in Hq as (-> & _).
    by apply (li_trial_key _ _ _ _ Hi).
  - intros k a' (a & Ha & Hq)%(map_rel_Some_r _ _ _ _ _ HA). apply quiet_attempt_facts in Hq as (-> & _).
    by apply (li_attempt_key _ _ _ _ Hi).
  - intros k a' (a & Ha & Hq)%(map_rel_Some_r _ _ _ _ _ HA). apply quiet_attempt_facts in Hq as (_ & -> & -> & _).
    destruct (li_link _ _ _ _ Hi k a Ha) as (t & Ht & ->).
    destruct (map_rel_Some _ _ _ _ _ HT Ht) as (t' & Ht' & Hq). exists t'.
    apply quiet_trial_facts in Hq as (_ & -> & _). done.
  - intros k a' t' Ha' Ht' Ho'. destruct (map_rel_Some_r _ _ _ _ _ HA Ha') as (a & Ha & Hqa).
    pose proof (quiet_attempt_facts _ _ _ Hqa) as (_ & Htr & _ & _ & Ho). rewrite Htr in Ht'.
    destruct (map_rel_Some_r _ _ _ _ _ HT Ht') as (t & Ht & Hqt).
    destruct (li_open _ _ _ _ Hi k a t Ha Ht (Ho Ho')). by eapply Hkeep.
  - intros k a' t' Ha' Ht' Hc. destruct (map_rel_Some_r _ _ _ _ _ HA Ha') as (a & Ha & Hqa).
    pose proof (quiet_attempt_facts _ _ _ Hqa) as (_ & Htr & _ & Hcc & _). rewrite Htr in Ht'. rewrite Hcc in Hc.
    destruct (map_rel_Some_r _ _ _ _ _ HT Ht') as (t & Ht & Hqt).
    destruct (li_committed _ _ _ _ Hi k a t Ha Ht Hc) as (Hs & Hct & Hau).
    pose proof (quiet_trial_facts _ _ _ Hqt) as (_ & _ & _ & _ & Hsame & _). rewrite (Hsame Hct).
    destruct Hqa as [->|(Ho & _)]; [done|]. unfold open_attempt in Ho. by rewrite Hs in Ho.
  - intros k t' Ht' Hc'. destruct (map_rel_Some_r _ _ _ _ _ HT Ht') as (t & Ht & Hqt).
    pose proof (quiet_trial_facts _ _ _ Hqt) as (_ & _ & _ & Hsame & _).
    specialize (Hsame Hc'). subst t'.
    destruct (li_completed _ _ _ _ Hi k t Ht Hc') as (Hn & a & Ha & Hat & Hac). split; [done|].
    destruct (map_rel_Some _ _ _ _ _ HA Ha) as (a' & Ha' & Hqa). exists a'.
    pose proof (quiet_attempt_facts _ _ _ Hqa) as (_ & -> & _ & -> & _). done.
  - intros k t' Ht' Hc'. destruct (map_rel_Some_r _ _ _ _ _ HT Ht') as (t & Ht & Hqt).
    pose proof (quiet_trial_facts _ _ _ Hqt) as (_ & _ & -> & _ & _ & Hnc).
    by apply (li_uncommitted _ _ _ _ Hi k t Ht), Hnc.
  - intros k t' Ht' Hr. destruct (map_rel_Some_r _ _ _ _ _ HT Ht') as (t & Ht & [->|(_ & _ & _ & _ & _ & Hrd & _)]); [|auto].
    by eapply li_ready.
  - intros k t' Ht' Hnz. destruct (map_rel_Some_r _ _ _ _ _ HT Ht') as (t & Ht & Hqt).
    assert (Hsame : trial_authoritative_attempt t' = trial_authoritative_attempt t).
    { destruct Hqt as [->|(_ & _ & _ & _ & _ & _ & [Heq|Hz])]; [done|done|congruence]. }
    rewrite Hsame in *. destruct (li_holder _ _ _ _ Hi k t Ht Hnz) as (a & Ha & Hat).
    destruct (map_rel_Some _ _ _ _ _ HA Ha) as (a' & Ha' & Hqa). exists a'.
    by apply quiet_attempt_facts in Hqa as (_ & -> & _).
Qed.

(** ** The quiet changes of the code *)

Lemma quiet_trial_open k t t' :
  open_trial t -> trial_id t' = trial_id t -> trial_branch t' = trial_branch t ->
  trial_committed_attempts t' = trial_committed_attempts t -> ~ completed t' ->
  (trial_state t' = TrialState.READY -> trial_authoritative_attempt t' = 0) ->
  (trial_authoritative_attempt t' = trial_authoritative_attempt t \/ trial_authoritative_attempt t' = 0) ->
  quiet_trial k t t'.
Proof. intros. right. auto 10. Qed.

Lemma quiet_trial_refl k t : quiet_trial k t t.
Proof. by left. Qed.
Lemma quiet_attempt_refl k a : quiet_attempt k a a.
Proof. by left. Qed.

Lemma quiet_attempt_open k a a' :
  open_attempt a -> attempt_id a' = attempt_id a -> attempt_trial a' = attempt_trial a ->
  attempt_branch a' = attempt_branch a -> attempt_committed a' = attempt_committed a -> quiet_attempt k a a'.
Proof. intros. right. auto 10. Qed.

Create HintDb ledger.
#[export] Hint Resolve quiet_trial_refl quiet_attempt_refl : ledger.
#[export] Hint Extern 1 (quiet_trial _ _ _) => apply quiet_trial_open; [assumption|reflexivity|reflexivity|reflexivity|done|done|auto] : ledger.
#[export] Hint Extern 1 (quiet_attempt _ _ _) => apply quiet_attempt_open; [assumption|reflexivity|reflexivity|reflexivity|reflexivity] : ledger.

(** Finishing every open attempt and trial that a pair of tests selects. *)
Lemma ledger_close_all wt wa trials attempts (ct : TrialRecord -> bool) (ca : AttemptRecord -> bool)
    (ft : TrialRecord -> TrialRecord) (fa : AttemptRecord -> AttemptRecord) :
  ledger_inv wt wa trials attempts ->
  (forall t, ct t = true -> open_trial t) -> (forall a, ca a = true -> open_attempt a) ->
  (forall k t, open_trial t -> quiet_trial k t (ft t)) -> (forall k a, open_attempt a -> quiet_attempt k a (fa a)) ->
  (forall a, open_attempt a -> ~ open_attempt (fa a)) ->
  (forall k a t, om_find k attempts = Some a -> om_find (attempt_trial a) trials = Some t ->
     open_attempt a -> ct t = true -> ca a = true) ->
  ledger_inv wt wa (om_map (fun t => if ct t then ft t else t) trials)
    (om_map (fun a => if ca a then fa a else a) attempts).
Proof.
  intros Hi Hct Hca Hft Hfa Hclosed Hcover. eapply ledger_quiet; [exact Hi|..].
  - apply map_rel_map. intros k t _. destruct (ct t) eqn:E; auto with ledger.
  - apply map_rel_map. intros k a _. destruct (ca a) eqn:E; auto with ledger.
  - intros k a a' t t' Ha Ha' Ht Ht' Ho' Ho Hau. rewrite om_find_map, Ha in Ha'. rewrite om_find_map, Ht in Ht'.
    simplify_eq/=. destruct (ca a) eqn:Eca; [by destruct (Hclosed a); auto|].
    destruct (ct t) eqn:Ect; [|done]. by rewrite (Hcover _ _ _ Ha Ht Ho' Ect) in Eca.
Qed.

(** Every open attempt of a trial that is being closed is closed too. *)
Definition not_open_attempt (a : AttemptRecord) : bool := is_attempt_terminal (attempt_state a).

Lemma if_negb_orb {A} (b c : bool) (x y : A) : (if negb b || c then x else y) = (if b && negb c then y else x).
Proof. by destruct b, c. Qed.
Lemma if_negb {A} (b : bool) (x y : A) : (if b then x else y) = (if negb b then y else x).
Proof. by destruct b. Qed.

Lemma om_map_ext {K A B} (f g : A -> B) (m : omap K A) : (forall v, f v = g v) -> om_map f m = om_map g m.
Proof. intros Hfg. unfold om_map. apply map_ext. intros [k v]. simpl. by rewrite Hfg. Qed.

(** [abandon_stale_live_work], [cancel_record]: everything open is closed. *)
Lemma ledger_close_everything wt wa trials attempts ft fa :
  ledger_inv wt wa trials attempts ->
  (forall k t, open_trial t -> quiet_trial k t (ft t)) -> (forall k a, open_attempt a -> quiet_attempt k a (fa a)) ->
  (forall a, open_attempt a -> ~ open_attempt (fa a)) ->
  ledger_inv wt wa (om_map (fun t => if is_terminal (trial_state t) then t else ft t) trials)
    (om_map (fun a => if is_attempt_terminal (attempt_state a) then a else fa a) attempts).
Proof.
  intros Hi Hft Hfa Hclosed.
  rewrite (om_map_ext _ (fun t => if negb (is_terminal (trial_state t)) then ft t else t)) by (intros; apply if_negb).
  rewrite (om_map_ext _ (fun a => if negb (is_attempt_terminal (attempt_state a)) then fa a else a)) by (intros; apply if_negb).
  apply ledger_close_all; auto; unfold open_trial, open_attempt.
  - intros t. by destruct (is_terminal _).
  - intros a. by destruct (is_attempt_terminal _).
  - intros k a t _ _ -> _. done.
Qed.

Lemma ledger_abandon wt wa sequence r :
  ledger_inv wt wa (rec_trials r) (rec_attempts r) ->
  ledger_inv wt wa (rec_trials (abandon_stale_live_work sequence r)) (rec_attempts (abandon_stale_live_work sequence r)).
Proof. intros Hi. apply ledger_close_everything; auto with ledger. by intros a _. Qed.

Lemma ledger_cancel wt wa reason sequence r :
  ledger_inv wt wa (rec_trials r) (rec_attempts r) ->
  ledger_inv wt wa (rec_trials (cancel_record reason sequence r)) (rec_attempts (cancel_record reason sequence r)).
Proof. intros Hi. apply ledger_close_everything; auto with ledger. by intros a _. Qed.

(** [retire_branch]: the trials and attempts of one branch. *)
Lemma ledger_retire wt wa branch reason sequence r :
  ledger_inv wt wa (rec_trials r) (rec_attempts r) ->
  ledger_inv wt wa (rec_trials (retire_record branch reason sequence r)) (rec_attempts (retire_record branch reason sequence r)).
Proof.
  intros Hi. unfold retire_record. simpl.
  rewrite (om_map_ext _ _ (rec_trials r) (fun t => if_negb_orb (trial_branch t =? branch) _ _ _)).
  rewrite (om_map_ext _ _ (rec_attempts r) (fun a => if_negb_orb (attempt_branch a =? branch) _ _ _)).
  apply ledger_close_all; auto with ledger.
  - intros t Hc. by zprop.
  - intros a Hc. by zprop.
  - by intros a _.
  - intros k a t Ha Ht Ho Hc. zprop. destruct (li_link _ _ _ _ Hi k a Ha) as (t' & Ht' & Hb).
    simplify_eq. rewrite Hb. unfold open_attempt in Ho. rewrite Ho, Z.eqb_refl. done.
Qed.

(** [cancel_trial]: one trial and the attempts made for it. *)
Lemma ledger_cancel_trial wt wa k t reason sequence r :
  ledger_inv wt wa (rec_trials r) (rec_attempts r) -> om_find k (rec_trials r) = Some t -> open_trial t ->
  ledger_inv wt wa (om_set k (cancel_trial_record reason sequence t) (rec_trials r))
    (om_map (fun a => if negb (attempt_trial a =? k) || is_attempt_terminal (attempt_state a) then a
                      else cancel_attempt_record reason sequence a) (rec_attempts r)).
Proof.
  intros Hi Ht Ho. eapply ledger_quiet; [exact Hi|..].
  - eapply map_rel_set; eauto with ledger.
  - apply map_rel_map. intros k' a _. case_match eqn:E; [auto with ledger|]. zprop. auto with ledger.
  - intros k' a a' t0 t' Ha Ha' Ht0 Ht' Ho' Hot Hau. rewrite om_find_map, Ha in Ha'. simplify_eq/=.
    rewrite om_find_set in Ht'. destruct (Z.eqb_spec (attempt_trial a) k) as [Heq|Hne]; simpl in *.
    + destruct (is_attempt_terminal (attempt_state a)) eqn:E; unfold open_attempt in Ho'; simpl in *; congruence.
    + rewrite decide_False in Ht' by done. by simplify_eq.
Qed.

(** A trial and its authoritative attempt move together. *)
Lemma ledger_move wt wa k ka t t' a a' trials attempts :
  ledger_inv wt wa trials attempts -> om_find k trials = Some t -> om_find ka attempts = Some a ->
  open_trial t -> trial_authoritative_attempt t = ka -> open_attempt a ->
  quiet_trial k t t' -> quiet_attempt ka a a' ->
  (open_attempt a' -> attempt_trial a = k -> open_trial t' /\ trial_authoritative_attempt t' = ka) ->
  ledger_inv wt wa (om_set k t' trials) (om_set ka a' attempts).
Proof.
  intros Hi Ht Ha Hot Hau Hoa Hqt Hqa Hkeep. eapply ledger_quiet; [exact Hi|..].
  - eapply map_rel_set; eauto with ledger.
  - eapply map_rel_set; eauto with ledger.
  - intros k0 a0 a0' t0 t0' Ha0 Ha0' Ht0 Ht0' Ho0' Hot0 Hau0. rewrite om_find_set in Ha0'. rewrite om_find_set in Ht0'.
    destruct (decide (attempt_trial a0 = k)) as [Hk|Hk].
    + rewrite Hk in Ht0. assert (t0 = t /\ t0' = t' /\ k0 = ka) as (-> & -> & ->) by (split_and!; congruence).
      rewrite decide_True in Ha0' by done. apply Hkeep; congruence.
    + assert (t0' = t0) as -> by congruence. done.
Qed.

(** Open trials move on without losing their authoritative attempt. *)
Definition advance_trial (k : Z) (t t' : TrialRecord) : Prop :=
  t' = t \/ (open_trial t /\ open_trial t' /\ trial_id t' = trial_id t /\ trial_branch t' = trial_branch t
             /\ trial_committed_attempts t' = trial_committed_attempts t
             /\ trial_authoritative_attempt t' = trial_authoritative_attempt t
             /\ (trial_state t' = TrialState.READY -> trial_state t = TrialState.READY)).

Lemma advance_trial_quiet wt wa trials attempts k t t' :
  ledger_inv wt wa trials attempts -> om_find k trials = Some t -> advance_trial k t t' -> quiet_trial k t t'.
Proof.
  intros Hi Ht [->|(Ho & Ho' & Hid & Hb & Hc & Hau & Hr)]; [by left|]. right. split_and!; auto.
  - intros Hd. unfold completed in Hd. unfold open_trial in Ho'. by rewrite Hd in Ho'.
  - intros Hr'. rewrite Hau. apply (li_ready _ _ _ _ Hi k t Ht), Hr, Hr'.
Qed.

Lemma ledger_advance wt wa trials attempts trials' attempts' :
  ledger_inv wt wa trials attempts -> map_rel advance_trial trials trials' -> map_rel quiet_attempt attempts attempts' ->
  ledger_inv wt wa trials' attempts'.
Proof.
  intros Hi HT HA. eapply ledger_quiet; [exact Hi| |exact HA|].
  - intros k. destruct (om_find k trials) as [t|] eqn:Ht.
    + destruct (map_rel_Some _ _ _ _ _ HT Ht) as (t' & -> & Hadv). constructor. by eapply advance_trial_quiet.
    + specialize (HT k). rewrite Ht in HT. inversion HT. constructor.
  - intros k a a' t t' Ha Ha' Ht Ht' Ho' Ho Hau.
    destruct (map_rel_Some _ _ _ _ _ HT Ht) as (t1 & Ht1 & Hadv). assert (t1 = t') as -> by congruence.
    destruct Hadv as [->|(_ & Ho1 & _ & _ & _ & -> & _)]; done.
Qed.

(** The ledger only depends on what the tables hold. *)
Lemma ledger_ext wt wa trials attempts trials' :
  ledger_inv wt wa trials attempts -> (forall k, om_find k trials' = om_find k trials) ->
  ledger_inv wt wa trials' attempts.
Proof. intros [] Heq. constructor; intros *; rewrite ?Heq; eauto. Qed.

(** *** Losing a worker *)

Section Withdraw.
Context (definition : ExperimentDefinition) (worker boot : Z) (kind : FailureKind) (ad td : string) (sequence : Z).

Definition held (a : AttemptRecord) : Prop :=
  attempt_worker a = worker /\ attempt_boot a = boot /\ open_attempt a.

(** A trial of the map after part of the pass: unchanged, or released because
    its authoritative attempt was held. *)
Definition withdrawn (ids : Z -> Prop) (_ : Z) (t t' : TrialRecord) : Prop :=
  t' = t \/ (open_trial t /\ ids (trial_authoritative_attempt t)
             /\ exists retry, t' = release_trial retry kind td sequence t).

Lemma release_trial_closed ids retry t :
  (forall i, ids i -> i <> 0) -> open_trial t ->
  is_terminal (trial_state (release_trial retry kind td sequence t)) = true
  \/ ~ ids (trial_authoritative_attempt (release_trial retry kind td sequence t)).
Proof. intros Hids Ho. destruct retry; simpl; [right|by left]. intros Hi. by apply (Hids 0). Qed.

(** One iteration. *)
Lemma withdraw_attempt_step ids trials0 trials touched a :
  (forall i, ids i -> i <> 0) -> (held a -> ids (attempt_id a)) ->
  map_rel (withdrawn ids) trials0 trials ->
  map_rel (withdrawn ids) trials0 (withdraw_attempt definition worker boot kind ad td sequence (trials, touched) a).1.1.
Proof.
  intros Hids Ha Hrel. unfold withdraw_attempt. case_match eqn:Hskip; [done|]. zprop. simpl.
  destruct (om_find (attempt_trial a) trials) as [t|] eqn:Ht; [|done].
  case_match eqn:Hcond; [done|]. zprop. intros k. rewrite om_find_set. case_decide as Hk; [|apply Hrel].
  subst k. destruct (map_rel_Some_r _ _ _ _ _ Hrel Ht) as (t0 & Ht0 & Hw). rewrite Ht0. constructor.
  match goal with Heq : trial_authoritative_attempt t = _ |- _ =>
    assert (Hid : ids (trial_authoritative_attempt t)) by (rewrite Heq; by apply Ha) end.
  destruct Hw as [->|(Ho & Hi0 & retry & ->)].
  - right. split_and!; eauto.
  - exfalso. destruct (release_trial_closed ids retry t0 Hids Ho) as [Hc|Hc]; [congruence|done].
Qed.

Lemma withdraw_loop ids trials0 trials touched (attempts : omap Z AttemptRecord) :
  (forall i, ids i -> i <> 0) -> (forall k a, (k, a) ∈ attempts -> held a -> ids (attempt_id a)) ->
  map_rel (withdrawn ids) trials0 trials ->
  map_rel (withdrawn ids) trials0
    (om_map_acc (withdraw_attempt definition worker boot kind ad td sequence) (trials, touched) attempts).1.1.
Proof.
  intros Hids. revert trials touched. induction attempts as [|[k a] attempts IH]; intros trials touched Hall Hrel; [done|].
  cbn [om_map_acc].
  pose proof (withdraw_attempt_step ids trials0 trials touched a Hids (Hall k a (list_elem_of_here _ _)) Hrel) as Hstep.
  destruct (withdraw_attempt _ _ _ _ _ _ _ _ a) as [[trials1 touched1] a1]. simpl in Hstep.
  specialize (IH trials1 touched1 (fun k' a' Hin => Hall k' a' (list_elem_of_further _ _ _ Hin)) Hstep).
  by destruct (om_map_acc _ _ attempts).
Qed.

Lemma withdraw_attempt_result acc a :
  (withdraw_attempt definition worker boot kind ad td sequence acc a).2 = a /\ ~ held a
  \/ (withdraw_attempt definition worker boot kind ad td sequence acc a).2 = abandon_attempt kind ad sequence a /\ held a.
Proof.
  destruct acc as [trials touched]. unfold withdraw_attempt, held, open_attempt. case_match eqn:Hskip; simpl.
  - left. split; [done|]. intros (<- & <- & Ho). rewrite !Z.eqb_refl, Ho in Hskip. done.
  - right. by zprop.
Qed.

(** Losing the incarnation [(worker, boot)] keeps the ledger: its open attempts
    are abandoned and exactly their trials are released. *)
Lemma ledger_withdraw wt wa trials attempts :
  om_sorted attempts -> ledger_inv wt wa trials attempts ->
  let result := om_map_acc (withdraw_attempt definition worker boot kind ad td sequence) (trials, false) attempts in
  ledger_inv wt wa result.1.1 result.2.
Proof.
  intros Hsorted Hi result.
  set (ids := fun i => exists a, om_find i attempts = Some a /\ held a).
  assert (Hids : forall i, ids i -> i <> 0).
  { intros i (a & Ha & _). destruct (li_attempt_key _ _ _ _ Hi i a Ha). lia. }
  assert (HT : map_rel (withdrawn ids) trials result.1.1).
  { apply withdraw_loop; [done| |apply map_rel_refl; by left].
    intros k a Hin Hh. apply om_sorted_elem in Hin; [|done].
    destruct (li_attempt_key _ _ _ _ Hi k a Hin) as [-> _]. by exists a. }
  assert (HA : map_rel (fun _ a a' => a' = a /\ ~ held a \/ a' = abandon_attempt kind ad sequence a /\ held a)
                 attempts result.2).
  { apply map_rel_map_acc. intros acc k a _. apply withdraw_attempt_result. }
  eapply ledger_quiet; [exact Hi|..].
  - intros k. destruct (HT k) as [t t' [->|(Ho & _ & retry & ->)]|]; constructor; [by left|].
    apply quiet_trial_open; auto; destruct retry; auto; done.
  - intros k. destruct (HA k) as [a a' [[-> _]|[-> (_ & _ & Ho)]]|]; constructor; auto with ledger.
  - intros k a a' t t' Ha Ha' Ht Ht' Ho' Hot Hau.
    destruct (map_rel_Some _ _ _ _ _ HA Ha) as (a1 & Ha1 & Hcase). assert (a1 = a') as -> by congruence.
    destruct (map_rel_Some _ _ _ _ _ HT Ht) as (t1 & Ht1 & Hwcase). assert (t1 = t') as -> by congruence.
    destruct Hcase as [[-> Hnh]|[-> _]]; [|done].
    destruct Hwcase as [->|(_ & (a2 & Ha2 & Hh) & _)]; [done|]. rewrite Hau in Ha2. congruence.
Qed.
End Withdraw.

(** *** Completion *)

(** Committing the authoritative attempt of an open trial. *)
Lemma ledger_commit wt wa k ka t t' a a' trials attempts :
  ledger_inv wt wa trials attempts -> om_find k trials = Some t -> om_find ka attempts = Some a ->
  open_trial t -> trial_authoritative_attempt t = ka -> open_attempt a -> attempt_trial a = k ->
  trial_id t' = trial_id t -> trial_branch t' = trial_branch t -> completed t' ->
  trial_committed_attempts t' = 1 -> trial_authoritative_attempt t' = ka ->
  attempt_id a' = attempt_id a -> attempt_trial a' = attempt_trial a -> attempt_branch a' = attempt_branch a ->
  attempt_state a' = AttemptState.COMPLETED -> attempt_committed a' = true ->
  ledger_inv wt wa (om_set k t' trials) (om_set ka a' attempts).
Proof.
  intros Hi Ht Ha Hot Hau Hoa Hk Hti Htb Htc Htn Hta Hai Hat Hab Has Hac.
  assert (Hother : forall k0 a0, om_find k0 attempts = Some a0 -> k0 <> ka -> attempt_trial a0 = k ->
    ~ open_attempt a0 /\ attempt_committed a0 <> true).
  { intros k0 a0 Ha0 Hne Hk0. rewrite <- Hk0 in Ht. split.
    - intros Ho0. destruct (li_open _ _ _ _ Hi k0 a0 t Ha0 Ht Ho0). congruence.
    - intros Hc0. destruct (li_committed _ _ _ _ Hi k0 a0 t Ha0 Ht Hc0) as (_ & Hct & _).
      unfold completed in Hct. unfold open_trial in Hot. by rewrite Hct in Hot. }
  constructor; intros *; rewrite ?om_find_set; unfold completed in *.
  - case_decide; intros; simplify_eq; [rewrite Hti|]; by eapply li_trial_key.
  - case_decide; intros; simplify_eq; [rewrite Hai|]; by eapply li_attempt_key.
  - intros Ha0.
    assert (Hold : exists a0', om_find k0 attempts = Some a0' /\ attempt_trial a0 = attempt_trial a0' /\ attempt_branch a0 = attempt_branch a0').
    { case_decide; simplify_eq; eauto. }
    destruct Hold as (a0' & Ha0' & -> & ->). destruct (li_link _ _ _ _ Hi k0 a0' Ha0') as (t0 & Ht0 & ->).
    destruct (decide (attempt_trial a0' = k)); [|eauto]. exists t'. split; [done|]. congruence.
  - destruct (decide (k0 = ka)) as [->|Hne].
    + intros [= <-] _ Ho. unfold open_attempt in Ho. by rewrite Has in Ho.
    + intros Ha0 Ht0 Ho. case_decide as Hk0; [by destruct (Hother k0 a0 Ha0 Hne Hk0)|]. by eapply li_open.
  - destruct (decide (k0 = ka)) as [->|Hne].
    + intros [= <-]. rewrite Hat, Hk, decide_True by done. intros [= <-] _. done.
    + intros Ha0 Ht0 Hc. case_decide as Hk0; [by destruct (Hother k0 a0 Ha0 Hne Hk0)|]. by eapply li_committed.
  - case_decide as Hk0; subst.
    + intros [= <-] _. split; [done|]. exists a'. rewrite Hta, decide_True by done. done.
    + intros Ht0 Hc0. destruct (li_completed _ _ _ _ Hi k0 t0 Ht0 Hc0) as (Hn & a0 & Ha0 & Hat0 & Hac0).
      split; [done|]. case_decide as Hka; [|eauto]. exfalso. rewrite Hka in Ha0. congruence.
  - case_decide; intros; simplify_eq. by eapply li_uncommitted.
  - case_decide; intros; simplify_eq; [congruence|]. by eapply li_ready.
  - case_decide as Hk0; [intros [= <-] _; exists a'; rewrite Hta, decide_True by done; split; congruence|]. intros Ht0 Hnz.
    destruct (li_holder _ _ _ _ Hi k0 t0 Ht0 Hnz) as (a0 & Ha0 & Hat0).
    case_decide as Hka; [|eauto]. exists a'. split; [done|]. rewrite Hka in Ha0. congruence.
Qed.

(** *** Issuing and creating *)

Lemma ledger_new_trial wt wa k t trials attempts :
  ledger_inv wt wa trials attempts -> wt < k -> om_find k trials = None -> 0 < k ->
  trial_id t = k -> trial_state t = TrialState.READY -> trial_authoritative_attempt t = 0 ->
  trial_committed_attempts t = 0 -> ledger_inv k wa (om_set k t trials) attempts.
Proof.
  intros Hi Hlt Hf Hpos Hid Hst Hau Hcm.
  assert (Hlink : forall a, attempt_trial a = k -> forall ka, om_find ka attempts <> Some a).
  { intros a Hk ka Ha. destruct (li_link _ _ _ _ Hi ka a Ha) as (t0 & Ht0 & _). congruence. }
  constructor; intros *; rewrite ?om_find_set; unfold completed.
  - case_decide; intros; simplify_eq; [lia|]. destruct (li_trial_key _ _ _ _ Hi _ _ H0). lia.
  - apply (li_attempt_key _ _ _ _ Hi).
  - intros Ha. destruct (li_link _ _ _ _ Hi _ _ Ha) as (t0 & Ht0 & Hb). exists t0.
    rewrite decide_False; [done|]. intros Hk. by eapply Hlink.
  - intros Ha. rewrite decide_False by (intros Hk; by eapply Hlink). by apply (li_open _ _ _ _ Hi).
  - intros Ha. rewrite decide_False by (intros Hk; by eapply Hlink). by apply (li_committed _ _ _ _ Hi).
  - case_decide; intros; simplify_eq; [congruence|]. by eapply li_completed.
  - case_decide; intros; simplify_eq; [done|]. by eapply li_uncommitted.
  - case_decide; intros; simplify_eq; [done|]. by eapply li_ready.
  - case_decide; intros; simplify_eq. by eapply li_holder.
Qed.

Lemma ledger_issue wt wa k ka t t' a trials attempts :
  ledger_inv wt wa trials attempts -> om_find k trials = Some t -> trial_state t = TrialState.READY ->
  wa < ka -> 0 < ka ->
  trial_id t' = trial_id t -> trial_branch t' = trial_branch t -> trial_state t' = TrialState.ASSIGNED ->
  trial_committed_attempts t' = trial_committed_attempts t -> trial_authoritative_attempt t' = ka ->
  attempt_id a = ka -> attempt_trial a = trial_id t -> attempt_branch a = trial_branch t ->
  attempt_state a = AttemptState.ISSUED -> attempt_committed a = false ->
  ledger_inv wt ka (om_set k t' trials) (om_set ka a attempts).
Proof.
  intros Hi Ht Hr Hlt Hpos Hti Htb Hts Htc Hta Hai Hat Hab Has Hac.
  destruct (li_trial_key _ _ _ _ Hi k t Ht) as [Hk Hkb]. rewrite Hk in *.
  assert (Hfresh : om_find ka attempts = None).
  { destruct (om_find ka attempts) as [a0|] eqn:E; [|done]. destruct (li_attempt_key _ _ _ _ Hi ka a0 E). lia. }
  assert (Hother : forall k0 a0, om_find k0 attempts = Some a0 -> attempt_trial a0 = k ->
    ~ open_attempt a0 /\ attempt_committed a0 <> true).
  { intros k0 a0 Ha0 Hk0. rewrite <- Hk0 in Ht. pose proof (li_ready _ _ _ _ Hi _ t Ht Hr) as Hz.
    destruct (li_attempt_key _ _ _ _ Hi k0 a0 Ha0) as [_ Hb]. split.
    - intros Ho. destruct (li_open _ _ _ _ Hi k0 a0 t Ha0 Ht Ho). lia.
    - intros Hc. destruct (li_committed _ _ _ _ Hi k0 a0 t Ha0 Ht Hc) as (_ & _ & ?). lia. }
  constructor; intros *; rewrite ?om_find_set; unfold completed.
  - case_decide; intros; simplify_eq; [done|]. by eapply li_trial_key.
  - case_decide; intros; simplify_eq; [lia|]. destruct (li_attempt_key _ _ _ _ Hi _ _ H0). lia.
  - case_decide as E; subst.
    + intros [= <-]. rewrite decide_True by done. exists t'. split; [done|congruence].
    + intros Ha0. destruct (li_link _ _ _ _ Hi _ _ Ha0) as (t0 & Ht0 & Hb).
      case_decide; [|eauto]. exists t'. split; [done|]. congruence.
  - case_decide as E; subst.
    + intros [= <-]. rewrite decide_True by done. intros [= <-] _. unfold open_trial. by rewrite Hts.
    + intros Ha0 Ht0 Ho. case_decide as Hk0; [by destruct (Hother _ _ Ha0 Hk0)|]. by eapply li_open.
  - case_decide as E; subst; [intros; simplify_eq; congruence|].
    intros Ha0 Ht0 Hc. case_decide as Hk0; [by destruct (Hother _ _ Ha0 Hk0)|]. by eapply li_committed.
  - case_decide as E; subst; [intros; simplify_eq; congruence|]. intros Ht0 Hc0.
    destruct (li_completed _ _ _ _ Hi _ _ Ht0 Hc0) as (Hn & a0 & Ha0 & Hat0 & Hac0). split; [done|].
    exists a0. rewrite decide_False; [done|]. congruence.
  - case_decide as E; subst; [|by apply (li_uncommitted _ _ _ _ Hi)]. intros [= <-] _. rewrite Htc.
    apply (li_uncommitted _ _ _ _ Hi _ t Ht). unfold completed. congruence.
  - case_decide as E; subst; [intros; simplify_eq; congruence|]. by apply (li_ready _ _ _ _ Hi).
  - case_decide as E; subst.
    + intros [= <-] _. exists a. by rewrite decide_True by done.
    + intros Ht0 Hnz. destruct (li_holder _ _ _ _ Hi _ _ Ht0 Hnz) as (a0 & Ha0 & Hat0).
      exists a0. rewrite decide_False; [done|]. congruence.
Qed.
