(* ===== verification/Invariants.v ===== *)
(** * The coordinator's invariant

    Every experiment record is kept under its own identity with sorted tables
    and a ledger whose identities stay below the coordinator's watermarks.
    Every operation preserves it, and so does recovery. *)
From S2P Require Import Prelude OMap Error Domain Identity Float64 Model Hash Sorting Canonical State Wire Codec StateCodec Messages Spec Coordinator Authority Evidence Decision Scenario Fencing History Ledger.

Record record_inv (wt wa id : Z) (r : ExperimentRecord) : Prop := {
  ri_id : def_id (rec_definition r) = id;
  ri_trials_sorted : om_sorted (rec_trials r);
  ri_attempts_sorted : om_sorted (rec_attempts r);
  ri_ledger : ledger_inv wt wa (rec_trials r) (rec_attempts r)
}.

Lemma record_inv_mono wt wa wt' wa' id r :
  wt <= wt' -> wa <= wa' -> record_inv wt wa id r -> record_inv wt' wa' id r.
Proof. intros Ht Ha []. constructor; auto. by eapply ledger_inv_mono. Qed.

(** A change of the record outside its tables. *)
Lemma record_inv_same wt wa id r r' :
  record_inv wt wa id r -> def_id (rec_definition r') = def_id (rec_definition r) ->
  rec_trials r' = rec_trials r -> rec_attempts r' = rec_attempts r -> record_inv wt wa id r'.
Proof. intros [] Hd Ht Ha. constructor; rewrite ?Hd, ?Ht, ?Ha; auto. Qed.

(** ** Record transformers *)

Section Transformers.
Context (wt wa id : Z).

Lemma revise_record_inv spec sequence r : record_inv wt wa id r -> record_inv wt wa id (revise_record spec sequence r).
Proof.
  intros []. constructor; simpl; auto with omap.
  apply (ledger_abandon wt wa sequence r); auto.
Qed.

Lemma retire_record_inv branch reason sequence r :
  record_inv wt wa id r -> record_inv wt wa id (retire_record branch reason sequence r).
Proof. intros []. constructor; simpl; auto with omap. by apply (ledger_retire wt wa branch reason sequence r). Qed.

Lemma cancel_record_inv reason sequence r : record_inv wt wa id r -> record_inv wt wa id (cancel_record reason sequence r).
Proof. intros []. constructor; simpl; auto with omap. by apply (ledger_cancel wt wa reason sequence r). Qed.

Lemma rollback_record_inv `{Formatting} chosen experiment point sequence reason r :
  record_inv wt wa id r -> record_inv wt wa id (rollback_record chosen experiment point sequence reason r).
Proof.
  intros []. unfold rollback_record. destruct (restore_branches _ _) as [branches restored].
  constructor; simpl; auto with omap. by apply (ledger_abandon wt wa sequence r).
Qed.

Lemma withdraw_in_record_inv worker boot kind ad td line sequence r :
  record_inv wt wa id r -> record_inv wt wa id (withdraw_in_record worker boot kind ad td line sequence r).
Proof.
  intros [Hid Hts Has Hl]. unfold withdraw_in_record.
  pose proof (ledger_withdraw (rec_definition r) worker boot kind ad td sequence wt wa _ _ Has Hl) as Hl'.
  pose proof (om_map_acc_sorted (withdraw_attempt (rec_definition r) worker boot kind ad td sequence)
    (rec_trials r, false) (rec_attempts r) Has) as Has'.
  pose proof (om_map_acc_inv (withdraw_attempt (rec_definition r) worker boot kind ad td sequence)
    (fun acc => om_sorted acc.1) (rec_trials r, false) (rec_attempts r) Hts) as Hts'.
  destruct (om_map_acc _ _ _) as [[trials touched] attempts]. simpl in *.
  assert (Hts'' : om_sorted trials).
  { apply Hts'. intros [ts b] a Hs. unfold withdraw_attempt. repeat case_match; simpl; auto with omap. }
  destruct touched; by constructor.
Qed.

Lemma fail_record_inv request sequence t a r :
  record_inv wt wa id r ->
  om_find (env_trial (fail_envelope request)) (rec_trials r) = Some t ->
  om_find (env_attempt (fail_envelope request)) (rec_attempts r) = Some a ->
  open_trial t -> trial_authoritative_attempt t = env_attempt (fail_envelope request) -> open_attempt a ->
  record_inv wt wa id (fail_record request sequence t a r).
Proof.
  intros [Hid Hts Has Hl] Ht Ha Hot Hau Hoa. unfold fail_record.
  set (retry := fail_retryable request && _).
  set (r1 := (_ <| rec_trials ::= _ |>)).
  assert (Hr1 : record_inv wt wa id r1).
  { constructor; simpl; auto with omap. eapply ledger_move; eauto with ledger; [|done].
    apply quiet_trial_open; auto; unfold release_trial; destruct retry; auto; done. }
  eapply record_inv_same; [exact Hr1|..]; simpl;
    unfold invalidate_branch; repeat case_match; done.
Qed.

(** Recovery. *)
Lemma stage_record_inv sequence r : record_inv wt wa id r -> record_inv wt wa id (stage_record sequence r).2.
Proof.
  intros [Hid Hts Has Hl]. unfold stage_record. set (r0 := if bool_decide _ then _ else r).
  assert (Hr0 : record_inv wt wa id r0) by (unfold r0; case_bool_decide; by constructor).
  clearbody r0. destruct Hr0 as [Hid0 Hts0 Has0 Hl0].
  destruct (om_map_acc stage_attempt _ _) as [[s1 touched] attempts] eqn:EA.
  destruct (om_map_acc stage_trial _ _) as [[[s2 touched2] lines] trials] eqn:ET. simpl.
  apply (f_equal snd) in EA, ET. simpl in EA, ET. subst attempts trials.
  constructor; simpl; auto with omap.
  assert (HT : map_rel (fun _ t t' => t' = t /\ is_terminal (trial_state t) = true
      \/ open_trial t /\ exists s, t' = t <| trial_state := TrialState.REVALIDATION_REQUIRED |> <| trial_updated_sequence := s |>)
    (rec_trials r0) (om_map_acc stage_trial (s1, touched, rec_lifecycle_log r0) (rec_trials r0)).2).
  { apply map_rel_map_acc. intros [[s b] l] k t _. unfold stage_trial. case_match eqn:E; [by left|right].
    split; [done|by eexists]. }
  eapply ledger_quiet; [exact Hl0|..].
  - intros k. destruct (HT k) as [t t' [[-> _]|(Ho & s & ->)]|]; constructor; auto with ledger.
  - apply map_rel_map_acc. intros s k a _. unfold stage_attempt. case_match eqn:E; auto with ledger.
  - intros k a a' t t' _ _ Ht Ht' _ Ho Hau.
    destruct (map_rel_Some _ _ _ _ _ HT Ht) as (t1 & Ht1 & Hcase). assert (t1 = t') as -> by congruence.
    destruct Hcase as [[-> _]|(_ & s & ->)]; done.
Qed.

Lemma resolve_in_record_inv acc key : record_inv wt wa id acc.2 -> record_inv wt wa id (resolve_in_record acc key).2.
Proof.
  destruct acc as [sequence r]. simpl. intros [Hid Hts Has Hl]. unfold resolve_in_record.
  destruct (om_find key _) as [t|] eqn:Hf; [|done]. case_bool_decide as Hs; [|done]. simpl.
  destruct (om_map_acc _ _ _) as [s attempts] eqn:EA. apply (f_equal snd) in EA. simpl in EA. subst attempts. simpl.
  constructor; simpl; auto with omap.
  destruct (li_trial_key _ _ _ _ Hl key t Hf) as [Hkey _]. rewrite Hkey.
  assert (Ho : open_trial t) by (unfold open_trial; by rewrite Hs).
  assert (HA : map_rel (fun _ a a' => a' = a /\ ~ (attempt_trial a = key /\ open_attempt a)
      \/ open_attempt a /\ ~ open_attempt a' /\ quiet_attempt 0 a a') (rec_attempts r)
    (om_map_acc (abandon_recovered_attempt key) sequence (rec_attempts r)).2).
  { apply map_rel_map_acc. intros s' k a _. unfold abandon_recovered_attempt. case_match eqn:E.
    - left. split; [done|]. intros [<- Hoa]. unfold open_attempt in Hoa. by rewrite Z.eqb_refl, Hoa in E.
    - right. zprop. split_and!; auto with ledger. done. }
  eapply ledger_quiet; [exact Hl|..].
  - eapply map_rel_set; [exact Hf| |auto with ledger].
    apply quiet_trial_open; auto; unfold resolve_trial; case_match; auto; done.
  - intros k. destruct (HA k) as [a a' [[-> _]|(_ & _ & Hq)]|]; constructor; [auto with ledger|exact Hq].
  - intros k a a' t0 t0' Ha Ha' Ht0 Ht0' Ho' Hot Hau.
    destruct (map_rel_Some _ _ _ _ _ HA Ha) as (a1 & Ha1 & Hcase). assert (a1 = a') as -> by congruence.
    destruct Hcase as [[-> Hne]|(_ & Hn & _)]; [|done].
    rewrite om_find_set, decide_False in Ht0' by tauto. by simplify_eq.
Qed.

Lemma resolve_record_inv sequence r : record_inv wt wa id r -> record_inv wt wa id (resolve_record sequence r).2.
Proof.
  unfold resolve_record. change r with (sequence, r).2 at 1. generalize (sequence, r) as acc.
  generalize (om_keys (rec_trials r)) as keys. intros keys.
  induction keys as [|k keys IH]; intros acc Hi; simpl; [done|]. by apply IH, resolve_in_record_inv.
Qed.

End Transformers.

(** ** Operations *)

(** The state of a coordinator and what it may load after a restart. *)
Record state_inv (s : CoordinatorState) : Prop := {
  inv_sorted : om_sorted (st_experiments s);
  inv_records : forall id r, om_find id (st_experiments s) = Some r ->
    record_inv (st_id_watermark_trial s) (st_id_watermark_attempt s) id r;
  inv_marks : 0 <= st_id_watermark_trial s /\ 0 <= st_id_watermark_attempt s
}.

(** A state whose experiments are as before and whose watermarks have not
    gone back. *)
Lemma state_inv_grow s s' :
  state_inv s -> st_experiments s' = st_experiments s ->
  st_id_watermark_trial s <= st_id_watermark_trial s' -> st_id_watermark_attempt s <= st_id_watermark_attempt s' ->
  state_inv s'.
Proof.
  intros [Hs Hr Hm] Hx Ht Ha. constructor; rewrite ?Hx; [done| |lia].
  intros id r Hf. eapply record_inv_mono; eauto.
Qed.

(** One record replaced. *)
Lemma state_inv_put s s' id r :
  state_inv s -> st_experiments s' = om_set id r (st_experiments s) ->
  st_id_watermark_trial s <= st_id_watermark_trial s' -> st_id_watermark_attempt s <= st_id_watermark_attempt s' ->
  record_inv (st_id_watermark_trial s') (st_id_watermark_attempt s') id r -> state_inv s'.
Proof.
  intros [Hs Hr Hm] Hx Ht Ha Hri. constructor; rewrite ?Hx; [auto with omap| |lia].
  intros id' r'. rewrite om_find_set. case_decide; intros Hf; simplify_eq; [done|]. eapply record_inv_mono; eauto.
Qed.

(** Every record transformed. *)
Lemma state_inv_map s s' f :
  state_inv s -> st_experiments s' = om_map f (st_experiments s) ->
  st_id_watermark_trial s' = st_id_watermark_trial s -> st_id_watermark_attempt s' = st_id_watermark_attempt s ->
  (forall id r, record_inv (st_id_watermark_trial s) (st_id_watermark_attempt s) id r ->
     record_inv (st_id_watermark_trial s) (st_id_watermark_attempt s) id (f r)) -> state_inv s'.
Proof.
  intros [Hs Hr Hm] Hx Ht Ha Hf. constructor; rewrite ?Hx, ?Ht, ?Ha; [auto with omap| |done].
  intros id r'. rewrite om_find_map. destruct (om_find id _) eqn:E; simpl; intros; simplify_eq. auto.
Qed.

(** A sound state has keyed tables, and what storing it leaves is sound. *)
Lemma state_inv_keyed s : state_inv s -> state_keyed s.
Proof.
  intros [Hs Hr _]. split; [done|]. apply Forall_forall. intros [id r] Hin. simpl.
  destruct (Hr id r (om_sorted_elem _ _ _ Hs Hin)) as [_ Hts Has Hl].
  split; (split; [done|]); apply Forall_forall; intros [k x] Hx; simpl.
  - by apply (li_trial_key _ _ _ _ Hl k x), om_sorted_elem.
  - by apply (li_attempt_key _ _ _ _ Hl k x), om_sorted_elem.
Qed.

Lemma clip_record_inv wt wa id r : record_inv wt wa id r -> record_inv wt wa id (clip_record r).
Proof.
  intros [Hid Hts Has Hl]. constructor; simpl; auto with omap. by apply ledger_relabel.
Qed.

Lemma clip_state_inv s : state_inv s -> state_inv (clip_state s).
Proof. intros Hs. eapply state_inv_map; [exact Hs|done..|]. intros id r. apply clip_record_inv. Qed.

Section Inv.
Context `{StorageLaws} `{Formatting}.
Implicit Types (impl : Impl).

Definition trial_mark (impl : Impl) : Z := st_id_watermark_trial (impl_state impl).
Definition attempt_mark (impl : Impl) : Z := st_id_watermark_attempt (impl_state impl).

(** Every state that can be loaded satisfies the invariant. *)
Definition world_inv (world : World) : Prop :=
  forall path limits s, load_image path limits world = Ok s -> state_inv s.

Record inv (impl : Impl) : Prop := {
  inv_state : state_inv (impl_state impl);
  inv_world : world_inv (impl_world impl)
}.

Lemma inv_record impl id r :
  inv impl -> find_experiment id impl = Some r -> record_inv (trial_mark impl) (attempt_mark impl) id r.
Proof. intros [Hs _]. by apply inv_records. Qed.

(** The experiments, the two watermarks and the world are as before. *)
Record same_core (impl impl' : Impl) : Prop := {
  sc_experiments : st_experiments (impl_state impl') = st_experiments (impl_state impl);
  sc_trial_mark : trial_mark impl' = trial_mark impl;
  sc_attempt_mark : attempt_mark impl' = attempt_mark impl;
  sc_world : impl_world impl' = impl_world impl
}.

#[global] Instance same_core_preorder : PreOrder same_core.
Proof. split; [by constructor|]. intros i1 i2 i3 [] []. constructor; congruence. Qed.

Lemma inv_same_core impl impl' : same_core impl impl' -> inv impl -> inv impl'.
Proof.
  intros [Hx Ht Ha Hw] [Hs Hwi]. unfold trial_mark, attempt_mark in *.
  constructor; [|by rewrite Hw]. eapply state_inv_grow; eauto; lia.
Qed.

(** A persisted state that satisfies the invariant may be loaded later. *)
Lemma image_inv impl w : image_of impl w -> inv impl -> world_inv w.
Proof.
  intros [->|(path & status & Hsave)] [Hs Hwi]; [done|]. intros path' limits' s Hl.
  destruct (save_image_atomic _ _ _ _ _ _ (state_inv_keyed _ Hs) Hsave _ _ _ Hl) as [->|Hold];
    [by apply clip_state_inv|by eapply Hwi].
Qed.

Lemma persisted_inv impl d w :
  image_of impl w -> inv impl -> inv (impl <| impl_persistence_degraded := d |> <| impl_world := w |>).
Proof. intros Hw Hi. constructor; simpl; [by destruct Hi|by eapply image_inv]. Qed.

Lemma notified_core impl n : same_core impl (impl <| impl_notified := n |>).
Proof. by constructor. Qed.
Lemma observation_index_core impl f : same_core impl (impl <| impl_observation_index ::= f |>).
Proof. by constructor. Qed.
Lemma artifact_index_core impl f : same_core impl (impl <| impl_artifact_index ::= f |>).
Proof. by constructor. Qed.
Lemma live_workers_core impl f : same_core impl (impl <| impl_live_workers ::= f |>).
Proof. by constructor. Qed.
Lemma next_sequence_core impl v impl' : next_sequence impl = (v, impl') -> same_core impl impl'.
Proof. intros [= _ <-]. by constructor. Qed.
Lemma alloc_branch_id_core impl v impl' : alloc_branch_id impl = (v, impl') -> same_core impl impl'.
Proof. intros [= _ <-]. by constructor. Qed.
Lemma alloc_decision_id_core impl v impl' : alloc_decision_id impl = (v, impl') -> same_core impl impl'.
Proof. intros [= _ <-]. by constructor. Qed.
Lemma alloc_rollback_id_core impl v impl' : alloc_rollback_id impl = (v, impl') -> same_core impl impl'.
Proof. intros [= _ <-]. by constructor. Qed.

Ltac core :=
  repeat first
    [ reflexivity | eassumption
    | etransitivity; [|apply notified_core]
    | etransitivity; [|apply observation_index_core] | etransitivity; [|apply artifact_index_core]
    | etransitivity; [|apply live_workers_core]
    | etransitivity; [|eapply next_sequence_core; eassumption]
    | etransitivity; [|eapply alloc_branch_id_core; eassumption]
    | etransitivity; [|eapply alloc_decision_id_core; eassumption]
    | etransitivity; [|eapply alloc_rollback_id_core; eassumption] ].

Lemma put_inv impl impl' id r :
  same_core impl impl' -> inv impl -> record_inv (trial_mark impl) (attempt_mark impl) id r ->
  inv (put_experiment id r impl').
Proof.
  intros [Hx Ht Ha Hw] [Hs Hwi] Hri. unfold trial_mark, attempt_mark in *.
  constructor; [|by simpl; rewrite Hw]. eapply state_inv_put; [exact Hs|simpl; by rewrite Hx|simpl; lia..|].
  simpl. by rewrite Ht, Ha.
Qed.

Lemma put_again_inv impl impl' id r r' d w :
  same_core impl impl' -> inv impl -> image_of (put_experiment id r' impl') w ->
  record_inv (trial_mark impl) (attempt_mark impl) id r' ->
  record_inv (trial_mark impl) (attempt_mark impl) id r ->
  inv (put_experiment id r ((put_experiment id r' impl') <| impl_persistence_degraded := d |> <| impl_world := w |>)).
Proof.
  intros Hc Hi Hw Hr' Hr.
  assert (Hi' : inv (put_experiment id r' impl')) by by eapply put_inv.
  eapply put_inv; [reflexivity|by apply persisted_inv|]. destruct Hc as [_ Ht Ha _].
  unfold trial_mark, attempt_mark in *. simpl. by rewrite Ht, Ha.
Qed.

(** Reduces the invariant of a finished operation to the record it wrote;
    [Hi] is the invariant before. *)
Ltac kept Hi :=
  repeat match goal with
  | |- inv (upd impl_world _ (upd impl_persistence_degraded _ _)) => apply persisted_inv; [assumption|]
  | |- inv (upd impl_notified _ _) => eapply inv_same_core; [apply notified_core|]
  | |- inv (upd impl_observation_index _ _) => eapply inv_same_core; [apply observation_index_core|]
  | |- inv (upd impl_artifact_index _ _) => eapply inv_same_core; [apply artifact_index_core|]
  | |- inv (upd impl_live_workers _ _) => eapply inv_same_core; [apply live_workers_core|]
  end;
  lazymatch goal with
  | |- inv (put_experiment _ _ (upd impl_world _ _)) => eapply put_again_inv; [|exact Hi|assumption|..]; [solve [core]|..]
  | |- inv (put_experiment _ _ _) => eapply put_inv; [|exact Hi|]; [solve [core]|]
  | |- inv _ => eapply inv_same_core; [|exact Hi]; solve [core]
  | _ => idtac
  end.

Lemma revise_hypothesis_inv experiment spec impl : inv impl -> inv (revise_hypothesis experiment spec impl).1.
Proof. intros Hi. unfold revise_hypothesis. op_branches; kept Hi; apply revise_record_inv; by apply (inv_record _ _ _ Hi). Qed.

Lemma retire_branch_inv experiment branch reason impl : inv impl -> inv (retire_branch experiment branch reason impl).1.
Proof. intros Hi. unfold retire_branch. op_branches; kept Hi; apply retire_record_inv; by apply (inv_record _ _ _ Hi). Qed.

Lemma cancel_experiment_inv experiment reason impl : inv impl -> inv (cancel_experiment experiment reason impl).1.
Proof. intros Hi. unfold cancel_experiment. op_branches; kept Hi; apply cancel_record_inv; by apply (inv_record _ _ _ Hi). Qed.

Lemma rollback_inv experiment target reason impl : inv impl -> inv (rollback experiment target reason impl).1.
Proof. intros Hi. unfold rollback. op_branches; kept Hi; apply rollback_record_inv; by apply (inv_record _ _ _ Hi). Qed.

Lemma fork_branch_inv experiment parent spec impl : inv impl -> inv (fork_branch experiment parent spec impl).1.
Proof.
  intros Hi. unfold fork_branch. op_branches; kept Hi.
  all: eapply record_inv_same; [by apply (inv_record _ _ _ Hi)|done..].
Qed.

Lemma finalize_experiment_inv experiment candidate reason impl :
  inv impl -> inv (finalize_experiment experiment candidate reason impl).1.
Proof.
  intros Hi. unfold finalize_experiment. op_branches; kept Hi.
  all: eapply record_inv_same; [by apply (inv_record _ _ _ Hi)|done..].
Qed.

Lemma heartbeat_inv request impl : inv impl -> inv (heartbeat request impl).1.
Proof. intros Hi. unfold heartbeat. op_branches; kept Hi. Qed.

Lemma cancel_trial_inv trial reason impl : inv impl -> inv (cancel_trial trial reason impl).1.
Proof.
  intros Hi. unfold cancel_trial. op_branches; kept Hi.
  all: apply find_owner_spec in Heqo as [Ht Hin]; apply om_sorted_elem in Hin; [|by apply inv_sorted, inv_state].
  all: destruct (inv_record _ _ _ Hi Hin) as [Hid Hts Has Hl]; constructor; simpl; auto with omap.
  all: by apply ledger_cancel_trial.
Qed.

(** *** Evidence *)

Lemma fail_trial_inv request impl : inv impl -> inv (fail_trial request impl).1.
Proof.
  intros Hi. unfold fail_trial. destruct (envelope_mismatch _ _ _ _); [done|].
  destruct (check_envelope_cases (fail_envelope request) impl)
    as [(r & b & t & a & l & (_ & _ & [Hr _ Ht Ha] & Hn) & ->)|[_ ->]]; envelope_result; [|done].
  destruct Hn. op_branches; kept Hi; apply fail_record_inv; auto; by apply (inv_record _ _ _ Hi).
Qed.

Lemma store_observation_inv wt wa id o r t a impl r' impl' :
  record_inv wt wa id r ->
  om_find (obs_trial o) (rec_trials r) = Some t -> om_find (obs_attempt o) (rec_attempts r) = Some a ->
  open_trial t -> open_attempt a -> store_observation o r t a impl = (r', impl') ->
  same_core impl impl' /\ record_inv wt wa id r'.
Proof.
  intros [Hid Hts Has Hl] Ht Ha Hto Hao. unfold store_observation, next_sequence. intros Hs.
  repeat case_match; simplify_eq/=; (split; [by constructor|]); constructor; simpl; auto with omap.
  all: eapply ledger_advance; [exact Hl| |].
  all: first [ eapply map_rel_set; [eassumption| |intros; first [by left|solve [auto with ledger]]]
             | apply map_rel_refl; intros; first [by left|solve [auto with ledger]] ].
  all: first [solve [auto with ledger] | right; by split_and!].
Qed.

Lemma accept_observation_inv o r t a impl :
  inv impl -> find_experiment (obs_experiment o) impl = Some r ->
  om_find (obs_trial o) (rec_trials r) = Some t -> om_find (obs_attempt o) (rec_attempts r) = Some a ->
  open_trial t -> open_attempt a -> inv (accept_observation o r t a impl).1.
Proof.
  intros Hi Hr Ht Ha Hto Hao. unfold accept_observation.
  destruct (store_observation o r t a impl) as [r' impl'] eqn:Hs.
  eapply store_observation_inv in Hs as (Hcore & Hri); [|by apply (inv_record _ _ _ Hi)|done..].
  op_branches; kept Hi; auto. eapply record_inv_same; [exact Hri|done..].
Qed.

Lemma record_rejection_inv wt wa id kind identifier verdict r :
  record_inv wt wa id r -> record_inv wt wa id (record_rejection kind identifier verdict r).
Proof. intros Hr. unfold record_rejection. case_match; [|done]. by eapply record_inv_same. Qed.

Lemma reject_observation_inv o verdict r impl :
  inv impl -> find_experiment (obs_experiment o) impl = Some r -> inv (reject_observation o verdict r impl).
Proof.
  intros Hi Hr. unfold reject_observation. op_branches; kept Hi.
  - eapply record_inv_same; [apply record_rejection_inv; by apply (inv_record _ _ _ Hi)|done..].
  - apply record_rejection_inv. by apply (inv_record _ _ _ Hi).
Qed.

Lemma publish_observation_inv request impl : inv impl -> inv (publish_observation request impl).1.
Proof.
  intros Hi. unfold publish_observation. destruct (find_experiment _ impl) as [probe|] eqn:Hprobe; [|done].
  set (e := envelope_from _ _ _ _ probe).
  destruct (check_envelope_cases e impl)
    as [(r & b & t & a & l & (_ & _ & [Hr _ Ht Ha] & Hn) & ->)|[_ ->]]; envelope_result.
  - apply accept_observation_inv; auto; by destruct Hn.
  - pose proof (reject_observation_inv (pubo_observation request) (check_verdict (check_envelope e impl)) probe impl Hi Hprobe) as Hrej.
    op_branches; by apply persisted_inv.
Qed.

(** The trial with more artifacts. *)
Lemma artifact_trial_inv wt wa id r r' k t t' :
  record_inv wt wa id r -> om_find k (rec_trials r) = Some t -> advance_trial k t t' ->
  def_id (rec_definition r') = def_id (rec_definition r) ->
  rec_trials r' = om_set k t' (rec_trials r) -> rec_attempts r' = rec_attempts r -> record_inv wt wa id r'.
Proof.
  intros [Hid Hts Has Hl] Ht Hadv Hd Htr Hat. constructor; rewrite ?Hd, ?Htr, ?Hat; auto with omap.
  eapply ledger_advance; [exact Hl| |apply map_rel_refl; auto with ledger].
  eapply map_rel_set; [exact Ht|done|by left].
Qed.

Lemma om_set_twice_ledger wt wa k t t' trials attempts :
  ledger_inv wt wa (om_set k t' trials) attempts -> ledger_inv wt wa (om_set k t' (om_set k t trials)) attempts.
Proof. intros Hl. eapply ledger_ext; [exact Hl|]. intros k'. rewrite !om_find_set. by case_decide. Qed.

Lemma accept_artifact_inv a r t impl :
  inv impl -> find_experiment (artifact_experiment a) impl = Some r -> om_find (artifact_trial a) (rec_trials r) = Some t ->
  open_trial t -> inv (accept_artifact a r t impl).1.
Proof.
  intros Hi Hr Ht Hto. unfold accept_artifact. pose proof (inv_record _ _ _ Hi Hr) as Hri.
  assert (Hadv : forall t', trial_id t' = trial_id t -> trial_branch t' = trial_branch t ->
    trial_state t' = trial_state t -> trial_committed_attempts t' = trial_committed_attempts t ->
    trial_authoritative_attempt t' = trial_authoritative_attempt t -> advance_trial (artifact_trial a) t t').
  { intros t' Hid Hb Hst Hc Hau. right. unfold open_trial in *. rewrite Hst. by split_and!. }
  op_branches; kept Hi.
  all: try (eapply artifact_trial_inv; [exact Hri|exact Ht| |done|reflexivity|done]; by apply Hadv).
  destruct Hri as [Hid Hts Has Hl]. constructor; simpl; auto with omap. apply om_set_twice_ledger.
  eapply ledger_advance; [exact Hl| |apply map_rel_refl; auto with ledger].
  eapply map_rel_set; [exact Ht|by apply Hadv|by left].
Qed.

Lemma publish_artifact_inv request impl : inv impl -> inv (publish_artifact request impl).1.
Proof.
  intros Hi. unfold publish_artifact. destruct (find_experiment _ impl) as [probe|] eqn:Hprobe; [|done].
  destruct (find_branch probe _) as [br|]; [|done]. destruct (om_find _ _) as [at'|]; [|done].
  set (e := artifact_envelope _ _ _ _).
  destruct (check_envelope_cases e impl)
    as [(r & b & t & a & l & (_ & _ & [Hr _ Ht Ha] & Hn) & ->)|[_ ->]]; envelope_result.
  - apply accept_artifact_inv; auto; by destruct Hn.
  - op_branches; kept Hi; apply record_rejection_inv; by apply (inv_record _ _ _ Hi).
Qed.

(** *** Completion *)

Lemma register_artifacts_core attempt submitted loop :
  same_core (cl_impl loop) (cl_impl (register_artifacts attempt submitted loop).1).
Proof.
  revert loop. induction submitted as [|a submitted IH]; intros loop; cbn [register_artifacts fst]; [reflexivity|].
  destruct (next_sequence (cl_impl loop)) as [sequence impl1] eqn:Hseq. apply next_sequence_core in Hseq.
  repeat case_match; simpl; try reflexivity; [exact Hseq|].
  etransitivity; [|apply IH]. simpl. etransitivity; [exact Hseq|apply artifact_index_core].
Qed.

Lemma accept_commit_inv request r t a impl :
  let e := commit_envelope request in
  inv impl -> find_experiment (env_experiment e) impl = Some r ->
  om_find (env_trial e) (rec_trials r) = Some t -> om_find (env_attempt e) (rec_attempts r) = Some a ->
  open_trial t -> open_attempt a -> trial_authoritative_attempt t = env_attempt e ->
  inv (accept_commit request r t a impl).1.
Proof.
  intros e Hi Hr Ht Ha Hto Hao Hau. unfold accept_commit, write_back. pose proof (inv_record _ _ _ Hi Hr) as Hri.
  destruct (next_sequence impl) as [sequence impl1] eqn:Hseq.
  pose proof (next_sequence_core _ _ _ Hseq) as Hcore1. apply next_sequence_same in Hseq.
  destruct (register_artifacts _ _ _) as [loop status] eqn:Hloop.
  pose proof (register_artifacts_grows (attempt_id a) (commit_artifacts request) impl1 r t (mkCommitLoop impl1 r t [])) as Hg.
  pose proof (register_artifacts_core (attempt_id a) (commit_artifacts request) (mkCommitLoop impl1 r t [])) as Hcore.
  rewrite Hloop in Hg, Hcore. destruct Hg as [_ (added & Hrec & _) Htr].
  { constructor; simpl; [reflexivity|exists []|]; by destruct r, t; unfold upd; simpl; rewrite ?app_nil_r. }
  simpl in *. rewrite Hrec, Htr. assert (Hcore2 : same_core impl (cl_impl loop)) by by transitivity impl1.
  assert (Hadv : forall l, advance_trial (env_trial e) t (t <| trial_artifacts := l |>)) by (intros; right; by split_and!).
  assert (Hholder : attempt_trial a = env_trial e).
  { destruct Hri as [_ _ _ Hl]. destruct (li_attempt_key _ _ _ _ Hl _ _ Ha) as [_ Hpos].
    destruct (li_holder _ _ _ _ Hl _ _ Ht) as (a' & Ha' & <-); [lia|]. subst e. congruence. }
  op_branches; kept Hi.
  all: try (eapply artifact_trial_inv; [exact Hri|exact Ht|apply Hadv|done|reflexivity|done]; fail).
  all: destruct Hri as [Hid Hts Has Hl]; constructor; simpl; auto with omap.
  all: by eapply (ledger_commit _ _ _ _ _ _ _ _ _ _ Hl Ht Ha).
Qed.

Lemma commit_trial_inv request impl : inv impl -> inv (commit_trial request impl).1.
Proof.
  intros Hi. unfold commit_trial. destruct (envelope_mismatch _ _ _ _); [done|].
  destruct (check_envelope_cases (commit_envelope request) impl)
    as [(r & b & t & a & l & (_ & _ & [Hr _ Ht Ha] & Hn) & ->)|[_ ->]]; envelope_result; [|done].
  destruct Hn. by apply accept_commit_inv.
Qed.

(** *** Workers *)

Lemma revoke_worker_inv worker boot kind reason impl : inv impl -> inv (revoke_worker worker boot kind reason impl).1.
Proof.
  intros Hi. unfold revoke_worker. destruct (find_live_worker worker boot impl) as [live|] eqn:Hl; [|done].
  unfold next_sequence.
  match goal with |- context [persist_locked ?x] => assert (Hmid : inv x) end.
  { constructor; simpl; [|by apply inv_world].
    eapply state_inv_map; [by apply inv_state|reflexivity..|]. intros id r. apply withdraw_in_record_inv. }
  op_branches; repeat first [apply persisted_inv; [assumption|] | eapply inv_same_core; [apply notified_core|]]; exact Hmid.
Qed.

Lemma replace_incarnation_inv worker boot sequence s live :
  state_inv s -> state_inv (replace_incarnation worker boot sequence s live).1.
Proof.
  intros Hs. unfold replace_incarnation. case_match; simpl; [done|].
  eapply state_inv_map; [exact Hs|reflexivity..|]. intros id r. apply withdraw_in_record_inv.
Qed.

Lemma register_worker_inv request impl : inv impl -> inv (register_worker request impl).1.
Proof.
  intros Hi. unfold register_worker.
  destruct (next_sequence impl) as [sequence impl1] eqn:Hseq. apply next_sequence_core in Hseq.
  pose proof (inv_same_core _ _ Hseq Hi) as [Hs1 Hw1].
  pose proof (om_map_acc_inv (replace_incarnation (reg_worker request) (reg_boot request) sequence)
    state_inv (impl_state impl1) (impl_live_workers impl1) Hs1) as Hstate.
  destruct (om_map_acc _ _ _) as [state live] eqn:Hacc. simpl in Hstate.
  assert (Hmid : inv (impl1 <| impl_state := state |> <| impl_live_workers := live |>)).
  { constructor; [apply Hstate; intros; by apply replace_incarnation_inv|done]. }
  unfold next_sequence. op_branches; try exact Hi; try exact Hmid.
  all: repeat first [apply persisted_inv; [assumption|] | eapply inv_same_core; [apply notified_core|]].
  all: eapply inv_same_core; [|exact Hmid]; by constructor.
Qed.

(** *** New trials and experiments *)

Lemma inv_next_trial_fresh impl : inv impl -> trial_mark impl < u64_max -> next_trial_fresh impl.
Proof.
  intros Hi Hlt id r Hr. destruct (inv_record _ _ _ Hi Hr) as [_ _ _ Hl]. unfold trial_mark in *.
  pose proof (inv_marks _ (inv_state _ Hi)). unfold increment. rewrite u64_succ_small by lia.
  destruct (om_find _ (rec_trials r)) eqn:Hf; [|done]. destruct (li_trial_key _ _ _ _ Hl _ _ Hf). lia.
Qed.

(** The record with one more trial, and with that trial taken back. *)
Lemma new_trial_inv wt wa id r r' k t :
  record_inv wt wa id r -> k = wt + 1 -> 0 <= wt -> om_find k (rec_trials r) = None ->
  trial_id t = k -> trial_state t = TrialState.READY -> trial_authoritative_attempt t = 0 ->
  trial_committed_attempts t = 0 -> def_id (rec_definition r') = def_id (rec_definition r) ->
  rec_trials r' = om_emplace k t (rec_trials r) -> rec_attempts r' = rec_attempts r -> record_inv k wa id r'.
Proof.
  intros [Hid Hts Has Hl] -> Hpos Hf Htid Hst Hau Hc Hd Htr Hat. constructor; rewrite ?Hd, ?Htr, ?Hat; auto with omap.
  unfold om_emplace. rewrite Hf. eapply ledger_new_trial; eauto; lia.
Qed.

Lemma undone_trial_inv wt wa id r r' k t :
  record_inv wt wa id r -> k = wt + 1 -> om_find k (rec_trials r) = None ->
  def_id (rec_definition r') = def_id (rec_definition r) ->
  rec_trials r' = om_erase k (om_emplace k t (rec_trials r)) -> rec_attempts r' = rec_attempts r -> record_inv k wa id r'.
Proof.
  intros Hri -> Hf Hd Htr Hat. apply (record_inv_mono wt wa); [lia..|]. destruct Hri as [Hid Hts Has Hl].
  constructor; rewrite ?Hd, ?Htr, ?Hat; auto with omap.
  eapply ledger_ext; [exact Hl|]. intros k'. rewrite om_find_erase, om_find_emplace.
  case_decide; subst; [by rewrite Hf|]. by destruct (om_find k' _).
Qed.

Lemma create_trial_inv experiment branch payload impl :
  inv impl -> trial_mark impl < u64_max -> inv (create_trial experiment branch payload impl).1.
Proof.
  intros Hi Hlt. pose proof (inv_next_trial_fresh _ Hi Hlt) as Hfresh.
  destruct (inv_marks _ (inv_state _ Hi)) as [Hpos _].
  assert (Hinc : increment (trial_mark impl) = trial_mark impl + 1) by (apply u64_succ_small; unfold trial_mark in *; lia).
  unfold create_trial. destruct (find_experiment experiment impl) as [r|] eqn:Hr; [|done].
  pose proof (inv_record _ _ _ Hi Hr) as Hri. pose proof (Hfresh _ _ Hr) as Hf.
  unfold next_sequence, alloc_trial_id. fold (trial_mark impl) in *.
  assert (Hput : forall impl' r', st_experiments (impl_state impl') = st_experiments (impl_state impl) ->
    trial_mark impl' = increment (trial_mark impl) -> attempt_mark impl' = attempt_mark impl ->
    impl_world impl' = impl_world impl -> record_inv (increment (trial_mark impl)) (attempt_mark impl) experiment r' ->
    inv (put_experiment experiment r' impl')).
  { intros impl' r' Hx Ht Ha Hw Hr'. constructor; [|simpl; rewrite Hw; by apply inv_world].
    unfold trial_mark, attempt_mark in *.
    eapply state_inv_put; [by apply inv_state|simpl; by rewrite Hx|simpl; lia..|]. simpl. by rewrite Ht, Ha. }
  assert (Hnew : forall t r', rec_trials r' = om_emplace (increment (trial_mark impl)) t (rec_trials r) ->
    rec_attempts r' = rec_attempts r -> def_id (rec_definition r') = def_id (rec_definition r) ->
    trial_id t = increment (trial_mark impl) -> trial_state t = TrialState.READY ->
    trial_authoritative_attempt t = 0 -> trial_committed_attempts t = 0 ->
    record_inv (increment (trial_mark impl)) (attempt_mark impl) experiment r').
  { intros. eapply new_trial_inv; eauto. }
  assert (Hundo : forall t r', def_id (rec_definition r') = def_id (rec_definition r) ->
    rec_trials r' = om_erase (increment (trial_mark impl)) (om_emplace (increment (trial_mark impl)) t (rec_trials r)) ->
    rec_attempts r' = rec_attempts r ->
    record_inv (increment (trial_mark impl)) (attempt_mark impl) experiment r').
  { intros. eapply undone_trial_inv; eauto. }
  op_branches; try exact Hi.
  all: repeat first [apply persisted_inv; [assumption|] | eapply inv_same_core; [apply notified_core|]].
  - apply Hput; try done. by eapply Hundo.
  - eapply put_inv; [reflexivity| |].
    + apply persisted_inv; [assumption|]. apply Hput; try done. eapply Hnew; reflexivity.
    + by eapply Hundo.
  - apply Hput; try done. eapply Hnew; reflexivity.
Qed.

(** *** Claims *)

(** The claim loops draw attempt identities below [bound], one for each unit
    of budget; everything but those identities and sequence numbers stays. *)
Record claim_step (bound : Z) (loop loop' : ClaimLoop) : Prop := {
  cs_experiments : st_experiments (impl_state (loop_impl loop')) = st_experiments (impl_state (loop_impl loop));
  cs_trial_mark : trial_mark (loop_impl loop') = trial_mark (loop_impl loop);
  cs_attempt_mark : attempt_mark (loop_impl loop) <= attempt_mark (loop_impl loop');
  cs_budget : 0 <= loop_budget loop /\ attempt_mark (loop_impl loop) + loop_budget loop <= bound ->
    0 <= loop_budget loop' /\ attempt_mark (loop_impl loop') + loop_budget loop' <= bound;
  cs_world : impl_world (loop_impl loop') = impl_world (loop_impl loop)
}.

#[local] Instance claim_step_preorder bound : PreOrder (claim_step bound).
Proof.
  split; [by intros l; constructor|].
  intros l1 l2 l3 [] []. constructor; [congruence|congruence|lia|auto|congruence].
Qed.

Lemma issue_inv bound id request key branch t r loop :
  record_inv (trial_mark (loop_impl loop)) (attempt_mark (loop_impl loop)) id r ->
  om_find key (rec_trials r) = Some t -> trial_state t = TrialState.READY ->
  0 <= attempt_mark (loop_impl loop) -> 0 <= loop_budget loop -> loop_budget loop <> 0 ->
  attempt_mark (loop_impl loop) + loop_budget loop <= bound -> bound <= u64_max ->
  let result := issue request key branch t r loop in
  claim_step bound loop result.2
  /\ record_inv (trial_mark (loop_impl result.2)) (attempt_mark (loop_impl result.2)) id result.1.
Proof.
  intros [Hid Hts Has Hl] Ht Hst Hpos Hb Hnz Hbound Hmax. unfold issue, next_sequence, alloc_attempt_id.
  destruct (reserve_metrics _ _) as [observations metrics]. destruct (reserve_artifacts _ _) as [artifacts ids].
  remember (attempt_mark (loop_impl loop)) as mark eqn:Hmark. unfold attempt_mark in Hmark.
  assert (Hinc : increment mark = mark + 1) by (apply u64_succ_small; lia).
  cbn -[increment]. rewrite <- Hmark, Hinc.
  split; [constructor|constructor]; unfold trial_mark, attempt_mark; cbn -[increment];
    rewrite <- ?Hmark, ?Hinc; auto with omap; try lia.
  unfold om_emplace. destruct (om_find (mark + 1) (rec_attempts r)) eqn:Hf.
  { destruct (li_attempt_key _ _ _ _ Hl _ _ Hf). lia. }
  eapply ledger_issue; [exact Hl|exact Ht|done|lia|lia|done..].
Qed.

Lemma claim_trial_inv bound id request acc key :
  record_inv (trial_mark (loop_impl acc.2)) (attempt_mark (loop_impl acc.2)) id acc.1 ->
  0 <= attempt_mark (loop_impl acc.2) -> 0 <= loop_budget acc.2 ->
  attempt_mark (loop_impl acc.2) + loop_budget acc.2 <= bound -> bound <= u64_max ->
  claim_step bound acc.2 (claim_trial request acc key).2
  /\ record_inv (trial_mark (loop_impl (claim_trial request acc key).2))
       (attempt_mark (loop_impl (claim_trial request acc key).2)) id (claim_trial request acc key).1.
Proof.
  destruct acc as [r loop]. simpl. intros Hr Hpos Hb Hbound Hmax. unfold claim_trial.
  repeat case_match; try (split; [reflexivity|done]).
  zprop. apply issue_inv; auto. by eapply claimable_ready.
Qed.

Lemma claim_loop_inv bound id request keys acc :
  record_inv (trial_mark (loop_impl acc.2)) (attempt_mark (loop_impl acc.2)) id acc.1 ->
  0 <= attempt_mark (loop_impl acc.2) -> 0 <= loop_budget acc.2 ->
  attempt_mark (loop_impl acc.2) + loop_budget acc.2 <= bound -> bound <= u64_max ->
  let result := foldl (claim_trial request) acc keys in
  claim_step bound acc.2 result.2
  /\ record_inv (trial_mark (loop_impl result.2)) (attempt_mark (loop_impl result.2)) id result.1.
Proof.
  revert acc. induction keys as [|k keys IH]; intros acc Hr Hpos Hb Hbound Hmax; simpl; [by split|].
  destruct (claim_trial_inv bound id request acc k) as [Hstep Hr']; auto.
  pose proof (cs_budget _ _ _ Hstep (conj Hb Hbound)). pose proof (cs_attempt_mark _ _ _ Hstep).
  destruct (IH (claim_trial request acc k)) as [Hstep2 Hr2]; [done|lia..|].
  split; [by etransitivity|done].
Qed.

Record claiming (bound : Z) (loop : ClaimLoop) : Prop := {
  clm_inv : inv (loop_impl loop);
  clm_budget : 0 <= loop_budget loop;
  clm_bound : attempt_mark (loop_impl loop) + loop_budget loop <= bound
}.

Lemma claim_experiment_inv bound request loop id :
  bound <= u64_max -> claiming bound loop -> claiming bound (claim_experiment request loop id).
Proof.
  intros Hmax [Hi Hb Hbound]. unfold claim_experiment. destruct (loop_budget loop =? 0); [done|].
  destruct (find_experiment id (loop_impl loop)) as [r|] eqn:Hf; [|done]. destruct (negb _); [done|].
  destruct (inv_marks _ (inv_state _ Hi)) as [_ Hpos].
  destruct (claim_loop_inv bound id request (om_keys (rec_trials r)) (r, loop)) as [[Hx Ht Ha Hbud Hw] Hr]; auto.
  { by apply (inv_record _ _ _ Hi). }
  destruct (foldl _ _ _) as [r' loop']. simpl in *.
  destruct (Hbud (conj Hb Hbound)). constructor; simpl; auto.
  constructor; simpl; [|rewrite Hw; by apply inv_world]. unfold trial_mark, attempt_mark in *.
  eapply state_inv_put; [by apply inv_state|simpl; by rewrite Hx|simpl; lia..|done].
Qed.

Lemma claim_experiments_inv bound request keys loop :
  bound <= u64_max -> claiming bound loop -> claiming bound (foldl (claim_experiment request) loop keys).
Proof.
  intros Hmax. revert loop. induction keys as [|k keys IH]; intros loop Hc; simpl; [done|].
  apply IH. by apply claim_experiment_inv.
Qed.

Lemma claim_trials_inv request impl :
  inv impl -> 0 <= claim_max_claims request -> attempt_mark impl + max_batch_items (impl_limits impl) <= u64_max ->
  inv (claim_trials request impl).1.
Proof.
  intros Hi Hclaims Hroom. unfold claim_trials. destruct (negb _); [done|]. destruct (negb _); [done|].
  destruct (find_live_worker _ _ impl) as [live|] eqn:Hl; [|done].
  destruct (live_revoked live); [done|]. destruct (_ || _) eqn:Hrange; [done|]. zprop.
  set (loop0 := mkClaimLoop _ _ _ _).
  assert (H0c : claiming u64_max loop0).
  { constructor; simpl; [done|case_match; zprop; lia..]. }
  eapply claim_experiments_inv in H0c; [|reflexivity].
  set (loop := foldl _ _ _) in *. destruct H0c as [Hfinal _ _].
  op_branches; repeat (apply persisted_inv; [assumption|]).
  all: eapply inv_same_core; [apply live_workers_core|exact Hfinal].
Qed.

(** *** New experiments *)

Lemma fresh_record_inv wt wa id r :
  def_id (rec_definition r) = id -> rec_trials r = [] -> rec_attempts r = [] -> record_inv wt wa id r.
Proof. intros Hid Ht Ha. constructor; rewrite ?Ht, ?Ha; done || apply ledger_inv_empty. Qed.

Lemma emplace_inv impl id r :
  inv impl -> om_mem id (st_experiments (impl_state impl)) = false ->
  record_inv (trial_mark impl) (attempt_mark impl) id r ->
  inv (impl <| impl_state ::= fun s => s <| st_experiments ::= om_emplace id r |> |>).
Proof.
  intros Hi Hm Hr. constructor; simpl; [|by apply inv_world].
  eapply (state_inv_put (impl_state impl)); [by apply inv_state| |reflexivity|reflexivity|exact Hr].
  unfold om_mem in Hm. simpl. unfold om_emplace. by destruct (om_find id _).
Qed.

Lemma erase_inv impl id : inv impl -> inv (impl <| impl_state ::= fun s => s <| st_experiments ::= om_erase id |> |>).
Proof.
  intros [[Hs Hr Hm] Hw]. constructor; [|done]. constructor; simpl; [auto with omap| |done].
  intros id' r'. rewrite om_find_erase. case_decide; [done|apply Hr].
Qed.

Lemma create_experiment_inv spec impl : inv impl -> inv (create_experiment spec impl).1.
Proof.
  intros Hi. unfold create_experiment. destruct (negb _); [done|]. destruct (negb _); [done|].
  destruct (_ <=? _); [done|].
  destruct (alloc_experiment_id impl) as [experiment impl1] eqn:E1.
  assert (S1 : same_core impl impl1) by (injection E1 as _ <-; by constructor).
  destruct (om_mem experiment _) eqn:Hfresh; [by eapply inv_same_core|].
  destruct (next_sequence impl1) as [sequence impl2] eqn:E2. apply next_sequence_core in E2.
  destruct (alloc_hypothesis_id impl2) as [hypothesis impl3] eqn:E3.
  assert (S3 : same_core impl2 impl3) by (injection E3 as _ <-; by constructor).
  destruct (build_metrics _ _) as [mw metrics]. cbn zeta. set (impl4 := upd impl_state _ impl3).
  assert (S4 : same_core impl3 impl4) by by constructor.
  assert (S14 : same_core impl1 impl4) by (transitivity impl3; [by transitivity impl2|done]).
  destruct (match spec_expected_metric spec with Some _ => _ | None => _ end) as [expected|];
    [|eapply inv_same_core; [|exact Hi]; by transitivity impl1].
  set (impl5 := upd impl_state _ impl4). assert (S5 : same_core impl4 impl5) by by constructor.
  destruct (build_branches _ _ _ _) as [bw [branches|e]];
    set (impl6 := upd impl_state _ impl5); (assert (S6 : same_core impl5 impl6) by by constructor);
    (assert (S16 : same_core impl1 impl6) by (transitivity impl4; [done|by transitivity impl5]));
    (assert (Hi6 : inv impl6) by (eapply inv_same_core; [|exact Hi]; by transitivity impl1)); [|done].
  assert (Hfresh6 : om_mem experiment (st_experiments (impl_state impl6)) = false)
    by (by rewrite (sc_experiments _ _ S16)).
  set (record := new_record _ _ _ _ _ _ _ _). set (placed := upd impl_state _ impl6).
  assert (Hplaced : inv placed) by (apply emplace_inv; [done|done|by apply fresh_record_inv]).
  destruct (negb _); [by apply erase_inv|].
  destruct (persist_locked placed) as [impl8 persisted] eqn:Hp. apply persist_state in Hp as (d & w & -> & Hw).
  destruct (negb _); [by apply erase_inv, persisted_inv|].
  destruct (notify_event_state ("experiment-created:" +:+ id_to_string experiment)
    (placed <| impl_persistence_degraded := d |> <| impl_world := w |>)) as [n ->].
  eapply inv_same_core; [apply notified_core|]. by apply persisted_inv.
Qed.

End Inv.
