(* ===== verification/Recovery.v ===== *)
(** * Recovery

    What [reconcile_recovered_state] makes of a loaded state and what [create]
    yields: the invariant is kept, nothing that was finished or recorded
    changes, no attempt of an earlier process stays open, and no authority of
    an earlier process is live. *)
From S2P Require Import Prelude OMap Error Domain Identity Float64 Model Hash Sorting Canonical State Messages Spec Coordinator Authority Evidence Decision Scenario Fencing History Ledger Invariants.

Section Recovery.
Context `{StorageLaws}.
Implicit Types (impl : Impl).

(** ** Phase one *)

(** The facts every step of recovery preserves, from the loaded [impl]. *)
Record recovering (impl impl' : Impl) : Prop := {
  rcv_inv : inv impl';
  rcv_evolves : evolves impl impl';
  rcv_live : impl_live_workers impl' = impl_live_workers impl;
  rcv_config : impl_config impl' = impl_config impl
}.

Lemma recovering_trans impl1 impl2 impl3 : recovering impl1 impl2 -> recovering impl2 impl3 -> recovering impl1 impl3.
Proof. intros [] []. constructor; try congruence. by etransitivity. Qed.

Lemma recovering_persisted impl d w :
  image_of impl w -> inv impl -> recovering impl (impl <| impl_persistence_degraded := d |> <| impl_world := w |>).
Proof. intros Hw Hi. constructor; [by apply persisted_inv|apply same_tables_evolves, persisted_same|done..]. Qed.

(** One iteration, before its write. *)
Definition stage_one (id sequence : Z) (r : ExperimentRecord) (impl : Impl) : Impl :=
  (put_experiment id r impl) <| impl_state ::= fun s => s <| st_last_sequence := sequence |> |>.

Lemma stage_one_keeps id impl r :
  inv impl -> find_experiment id impl = Some r ->
  let staged := stage_record (st_last_sequence (impl_state impl)) r in
  recovering impl (stage_one id staged.1.1.1 staged.2 impl).
Proof.
  intros Hi Hr staged. constructor; try done.
  - eapply inv_same_core; [|eapply put_inv; [reflexivity|exact Hi|]]; [by constructor|].
    apply stage_record_inv. by apply (inv_record _ _ _ Hi).
  - transitivity (put_experiment id staged.2 impl); [|apply same_tables_evolves; by constructor].
    eapply put_evolves; [reflexivity|exact Hr|apply stage_record_evolves].
Qed.

Lemma stage_recovered_keeps keys changed impl :
  inv impl -> recovering impl (stage_recovered keys changed impl).1.
Proof.
  revert changed impl. induction keys as [|id keys IH]; intros changed impl Hi; cbn [stage_recovered];
    [by constructor; [|reflexivity|..]|].
  destruct (find_experiment id impl) as [r|] eqn:Hr; [|by apply IH].
  pose proof (stage_one_keeps id impl r Hi Hr) as H1.
  destruct (stage_record _ r) as [[[sequence touched] reopened] r']. unfold stage_one in H1. simpl in H1.
  destruct touched; [|eapply recovering_trans; [exact H1|apply IH, H1]].
  destruct (persist_locked _) as [impl2 staged] eqn:Hp. apply persist_state in Hp as (d & w & -> & Hw).
  assert (H2 := recovering_trans _ _ _ H1 (recovering_persisted _ d w Hw (rcv_inv _ _ H1))).
  destruct (status_ok staged); [|exact H2]. eapply recovering_trans; [exact H2|apply IH, H2].
Qed.

Lemma stage_recovered_error keys changed impl impl' e :
  stage_recovered keys changed impl = (impl', Err e) -> status_ok e = false.
Proof.
  revert changed impl. induction keys as [|id keys IH]; intros changed impl; cbn [stage_recovered]; [done|].
  repeat case_match; eauto. by intros [= _ <-].
Qed.

(** After phase one a trial is finished or awaits revalidation. *)
Definition staged (r : ExperimentRecord) : Prop :=
  forall k t, om_find k (rec_trials r) = Some t ->
    is_terminal (trial_state t) = true \/ trial_state t = TrialState.REVALIDATION_REQUIRED.
(** After phase two it is finished or ready for a fresh attempt. *)
Definition settled (r : ExperimentRecord) : Prop :=
  forall k t, om_find k (rec_trials r) = Some t ->
    is_terminal (trial_state t) = true \/ trial_state t = TrialState.READY.

Lemma stage_trials_untouched acc (trials : omap Z TrialRecord) acc' trials' :
  om_map_acc stage_trial acc trials = (acc', trials') -> acc'.1.2 = false ->
  acc.1.2 = false /\ forall k t, om_find k trials' = Some t -> is_terminal (trial_state t) = true.
Proof.
  revert acc trials'. induction trials as [|[k0 t0] trials IH]; intros acc trials' Heq Hf; cbn [om_map_acc] in Heq.
  - injection Heq as <- <-. done.
  - destruct (stage_trial acc t0) as [acc1 t1] eqn:H1. destruct (om_map_acc _ acc1 trials) as [acc2 trials2] eqn:H2.
    injection Heq as <- <-. destruct (IH _ _ H2 Hf) as [Ht Hall].
    destruct acc as [[s b] l]. unfold stage_trial in H1. case_match eqn:Hterm; simplify_eq/=.
    split; [done|]. intros k t. case_decide; intros; simplify_eq; eauto.
Qed.

Lemma stage_record_staged sequence r :
  let result := stage_record sequence r in
  staged result.2 /\ (result.1.1.2 = false -> settled result.2).
Proof.
  unfold stage_record. set (r0 := if bool_decide _ then _ else r).
  destruct (om_map_acc stage_attempt _ _) as [[s1 touched] attempts].
  pose proof (om_find_map_acc stage_trial (s1, touched, rec_lifecycle_log r0) (rec_trials r0)) as Hf.
  destruct (om_map_acc stage_trial _ _) as [[[s2 touched2] lines] trials] eqn:ET. simpl. split.
  - intros k t Ht. simpl in Ht. specialize (Hf k). destruct (om_find k (rec_trials r0)) as [t0|]; [|simpl in Hf; congruence].
    destruct Hf as ([[s b] l] & Hf). simpl in Hf. rewrite Hf in Ht. injection Ht as <-.
    unfold stage_trial. case_match; auto.
  - intros ->. apply stage_trials_untouched in ET as [_ Hall]; [|done]. intros k t Ht. left. eauto.
Qed.

(** What phase one leaves: the visited records are staged, and when it reports
    no change they hold nothing unfinished. *)
Lemma stage_recovered_staged keys changed impl impl' changed' :
  stage_recovered keys changed impl = (impl', Ok changed') ->
  (forall id, id ∉ keys -> find_experiment id impl' = find_experiment id impl)
  /\ (forall id r, id ∈ keys -> find_experiment id impl' = Some r -> staged r)
  /\ (changed' = false -> changed = false
      /\ forall id r, id ∈ keys -> find_experiment id impl' = Some r -> settled r).
Proof.
  revert changed impl. induction keys as [|id keys IH]; intros changed impl Heq; cbn [stage_recovered] in Heq.
  { injection Heq as <- <-. split_and!; [done|set_solver|]. intros ->. split; [done|set_solver]. }
  destruct (find_experiment id impl) as [r|] eqn:Hr.
  2: { destruct (IH _ _ Heq) as (Hout & Hst & Hse). split_and!.
    - intros id' Hn. apply Hout. set_solver.
    - intros id' r' [->|Hin]%elem_of_cons Hf; [|eauto]. destruct (decide (id ∈ keys)); [eauto|].
      rewrite Hout in Hf by done. congruence.
    - intros Hc. destruct (Hse Hc) as [-> Hset]. split; [done|].
      intros id' r' [->|Hin]%elem_of_cons Hf; [|eauto]. destruct (decide (id ∈ keys)); [eauto|].
      rewrite Hout in Hf by done. congruence. }
  destruct (stage_record_staged (st_last_sequence (impl_state impl)) r) as [Hstr Hser].
  destruct (stage_record _ r) as [[[sequence touched] reopened] r'] eqn:Hrec. simpl in Hstr, Hser.
  assert (Hrest : exists impl2, stage_recovered keys (changed || reopened || touched) impl2 = (impl', Ok changed')
    /\ st_experiments (impl_state impl2) = om_set id r' (st_experiments (impl_state impl))).
  { destruct touched; [|by eexists; split; [exact Heq|]].
    destruct (persist_locked _) as [impl2 persisted] eqn:Hp. apply persist_state in Hp as (d & w & -> & _).
    destruct (status_ok persisted); [|done]. by eexists; split; [exact Heq|]. }
  destruct Hrest as (impl2 & Heq2 & Hx). destruct (IH _ _ Heq2) as (Hout & Hst & Hse).
  assert (Hfind : forall id', find_experiment id' impl2 = if decide (id' = id) then Some r' else find_experiment id' impl).
  { intros id'. unfold find_experiment. by rewrite Hx, om_find_set. }
  split_and!.
  - intros id' Hn. rewrite Hout by set_solver. rewrite Hfind, decide_False; [done|set_solver].
  - intros id' r1 [->|Hin]%elem_of_cons Hf; [|eauto]. destruct (decide (id ∈ keys)); [eauto|].
    rewrite Hout, Hfind, decide_True in Hf by done. by simplify_eq.
  - intros Hc. destruct (Hse Hc) as [Hor Hset]. zprop. split; [done|].
    intros id' r1 [->|Hin]%elem_of_cons Hf; [|eauto]. destruct (decide (id ∈ keys)); [eauto|].
    rewrite Hout, Hfind, decide_True in Hf by done. simplify_eq. auto.
Qed.

(** ** Phase two *)

Lemma resolve_in_record_find acc key k :
  k <> key -> om_find k (rec_trials (resolve_in_record acc key).2) = om_find k (rec_trials acc.2).
Proof.
  intros Hne. destruct acc as [sequence r]. unfold resolve_in_record.
  destruct (om_find key _); [|done]. case_bool_decide; [|done].
  destruct (om_map_acc _ _ _). simpl. by rewrite om_find_set, decide_False.
Qed.

Lemma resolve_in_record_settles acc key t :
  om_find key (rec_trials (resolve_in_record acc key).2) = Some t ->
  trial_state t <> TrialState.REVALIDATION_REQUIRED /\ (om_find key (rec_trials acc.2) = Some t
    \/ is_terminal (trial_state t) = true \/ trial_state t = TrialState.READY).
Proof.
  destruct acc as [sequence r]. unfold resolve_in_record.
  destruct (om_find key (rec_trials r)) as [t0|] eqn:Hf; simpl; [|congruence].
  case_bool_decide as Hs; [|simpl; rewrite Hf; intros [= ->]; auto].
  destruct (om_map_acc _ _ _) as [s attempts]. simpl. rewrite om_find_set, decide_True by done.
  intros [= <-]. simpl. unfold resolve_trial. case_match; simpl; auto.
Qed.

Lemma resolve_record_settled sequence r : staged r -> settled (resolve_record sequence r).2.
Proof.
  intros Hst. unfold resolve_record.
  cut (forall keys acc,
    (forall k t, om_find k (rec_trials acc.2) = Some t -> is_terminal (trial_state t) = true \/ trial_state t = TrialState.READY
       \/ k ∈ keys /\ trial_state t = TrialState.REVALIDATION_REQUIRED) ->
    settled (foldl resolve_in_record acc keys).2).
  { intros Hgen. apply Hgen. simpl. intros k t Ht. destruct (Hst k t Ht); [by left|right; right].
    split; [by eapply om_find_key|done]. }
  intros keys. induction keys as [|key keys IH]; intros acc Hacc; simpl.
  - intros k t Ht. destruct (Hacc k t Ht) as [|[|[Hin _]]]; [auto..|set_solver].
  - apply IH. intros k t Ht. destruct (decide (k = key)) as [->|Hne].
    + destruct (resolve_in_record_settles _ _ _ Ht) as [Hn [Hold|[|]]]; auto.
      destruct (Hacc key t Hold) as [|[|[_ ?]]]; naive_solver.
    + rewrite resolve_in_record_find in Ht by done. destruct (Hacc k t Ht) as [|[|[Hin ?]]]; auto.
      right; right. split; [set_solver|done].
Qed.

Lemma resolve_recovered_keeps impl : inv impl -> recovering impl (resolve_recovered impl).
Proof.
  intros Hi. unfold resolve_recovered.
  pose proof (om_find_map_acc resolve_record (st_last_sequence (impl_state impl)) (st_experiments (impl_state impl))) as Hf.
  pose proof (om_map_acc_sorted resolve_record (st_last_sequence (impl_state impl)) _ (inv_sorted _ (inv_state _ Hi))) as Hs.
  destruct (om_map_acc _ _ _) as [sequence experiments]. simpl in *. constructor; try done.
  - constructor; [|exact (inv_world _ Hi)]. constructor; simpl; [done| |exact (inv_marks _ (inv_state _ Hi))].
    intros id r' Hr'. specialize (Hf id). destruct (om_find id (st_experiments (impl_state impl))) as [r|] eqn:Hr; [|congruence].
    destruct Hf as (s & Hf). rewrite Hf in Hr'. simplify_eq. apply resolve_record_inv. by apply (inv_records _ (inv_state _ Hi)).
  - constructor; simpl; try done; try reflexivity. intros id r Hr. specialize (Hf id). rewrite Hr in Hf.
    destruct Hf as (s & Hf). exists (resolve_record s r).2. split; [done|apply resolve_record_evolves].
Qed.

Lemma resolve_recovered_settled impl :
  (forall id r, find_experiment id impl = Some r -> staged r) ->
  forall id r, find_experiment id (resolve_recovered impl) = Some r -> settled r.
Proof.
  intros Hst id r'. unfold resolve_recovered, find_experiment.
  pose proof (om_find_map_acc resolve_record (st_last_sequence (impl_state impl)) (st_experiments (impl_state impl)) id) as Hf.
  destruct (om_map_acc _ _ _) as [sequence experiments]. simpl in *. intros Hr'.
  destruct (om_find id (st_experiments (impl_state impl))) as [r|] eqn:Hr; [|congruence].
  destruct Hf as (s & Hf). rewrite Hf in Hr'. simplify_eq. apply resolve_record_settled. by apply (Hst id).
Qed.

Lemma reconcile_keeps impl : inv impl -> recovering impl (reconcile_recovered_state impl).1.
Proof.
  intros Hi. unfold reconcile_recovered_state.
  pose proof (stage_recovered_keeps (om_keys (st_experiments (impl_state impl))) false impl Hi) as H1.
  destruct (stage_recovered _ _ _) as [impl1 [[|]|e]]; simpl in *; try exact H1.
  pose proof (recovering_trans _ _ _ H1 (resolve_recovered_keeps impl1 (rcv_inv _ _ H1))) as H2.
  destruct (persist_locked _) as [impl2 persisted] eqn:Hp. apply persist_state in Hp as (d & w & -> & Hw).
  eapply recovering_trans; [exact H2|]. apply recovering_persisted; [done|apply H2].
Qed.

(** A successful reconciliation leaves no trial waiting for anyone. *)
Lemma reconcile_settled impl impl' :
  inv impl -> (reconcile_recovered_state impl).1 = impl' -> status_ok (reconcile_recovered_state impl).2 = true ->
  forall id r, find_experiment id impl' = Some r -> settled r.
Proof.
  intros Hi. unfold reconcile_recovered_state.
  destruct (stage_recovered _ _ _) as [impl1 [changed|e]] eqn:Hst.
  2: { simpl. intros _ Hok. apply stage_recovered_error in Hst. congruence. }
  pose proof (stage_recovered_keeps (om_keys (st_experiments (impl_state impl))) false impl Hi) as H1.
  rewrite Hst in H1. simpl in H1.
  apply stage_recovered_staged in Hst as (Hout & Hst & Hse).
  assert (Hkeys : forall id r, find_experiment id impl1 = Some r -> id ∈ om_keys (st_experiments (impl_state impl))).
  { intros id r Hr. destruct (decide (id ∈ om_keys (st_experiments (impl_state impl)))) as [|Hn]; [done|].
    rewrite Hout in Hr by done. by eapply om_find_key. }
  destruct changed.
  - destruct (persist_locked _) as [impl2 persisted] eqn:Hp. apply persist_state in Hp as (d & w & -> & Hw).
    intros <- _ id r Hr. apply (resolve_recovered_settled impl1) with id; [|exact Hr].
    intros id0 r0 Hr0. by eapply Hst; eauto.
  - intros <- _ id r Hr. eapply Hse; eauto.
Qed.

(** ** Starting a coordinator *)

(** The state a start finds: the stored image, or a fresh state. *)
Definition fresh_state : CoordinatorState := default_CoordinatorState <| st_format_version := kPersistenceFormatVersion |>.

Inductive starts_from (world : World) : CoordinatorState -> Prop :=
| starts_fresh : starts_from world fresh_state
| starts_loaded path limits s : load_image path limits world = Ok s -> starts_from world s.

(** The epoch a start mints over the stored one. *)
Definition minted_epoch (seed last : Z) : Z :=
  let next := u64 (last + 1) in
  let next := if negb (seed =? 0) && (next <? seed) then seed else next in
  if next =? 0 then 1 else next.

(** The coordinator before it reconciles the state [s]. *)
Definition starting (config : Config) (s : CoordinatorState) (world : World) : Impl :=
  let epoch := minted_epoch (config_epoch_seed config) (st_last_epoch s) in
  rebuild_indexes (mkImpl config (config_limits config) (s <| st_last_epoch := epoch |>) epoch
    true false [] [] [] [] world).

Lemma fresh_state_inv : state_inv fresh_state.
Proof. by constructor. Qed.

Lemma starts_from_inv world s : world_inv world -> starts_from world s -> state_inv s.
Proof. intros Hw [|path limits s' Hl]; [apply fresh_state_inv|by eapply Hw]. Qed.

Lemma starting_inv config s world : state_inv s -> world_inv world -> inv (starting config s world).
Proof. intros Hs Hw. constructor; [|done]. simpl. eapply state_inv_grow; [exact Hs|done|reflexivity..]. Qed.

(** Every way [create] can end, from the world [world0] with the temporary
    images discarded: refused before reconciling, or with its result. *)
Definition create_ends (config : Config) (world world' : World) (result : Result Impl) (world0 : World) : Prop :=
  (forall path limits s, load_image path limits world0 = Ok s -> load_image path limits world = Ok s)
  /\ ((world' = world0 /\ exists e, result = Err e)
      \/ exists s, starts_from world s
          /\ world' = impl_world (reconcile_recovered_state (starting config s world0)).1
          /\ (result = Ok (reconcile_recovered_state (starting config s world0)).1
               /\ status_ok (reconcile_recovered_state (starting config s world0)).2 = true
              \/ exists e, result = Err e)).

Lemma create_ends_started config world world0 s (reconciled : Call Status) world' result :
  (forall path limits s, load_image path limits world0 = Ok s -> load_image path limits world = Ok s) ->
  starts_from world s -> reconciled = reconcile_recovered_state (starting config s world0) ->
  (let '(impl, recovered) := reconciled in
   if status_ok recovered then (impl_world impl, Ok impl) else (impl_world impl, Err recovered)) = (world', result) ->
  create_ends config world world' result world0.
Proof.
  intros Hpre Hs Hr Heq. split; [done|right]. exists s. rewrite <- Hr. clear Hr.
  destruct reconciled as [impl recovered]. simpl in *.
  destruct (status_ok recovered); injection Heq as <- <-; split_and!; auto. right. by eexists.
Qed.

Lemma create_cases config world world' result :
  create config world = (world', result) -> exists world0, create_ends config world world' result world0.
Proof.
  unfold create. destruct (negb (is_coherent _)).
  { intros [= <- <-]. exists world. split; [done|left]. split; [done|by eexists]. }
  destruct (str_empty _).
  { intros Heq. exists world. eapply create_ends_started; [done|apply starts_fresh|reflexivity|exact Heq]. }
  destruct (discard_temporary_images _ world) as [world0 [n|e]] eqn:Hd; pose proof (discard_preserves _ _ _ _ Hd) as Hpre.
  2: { intros [= <- <-]. exists world0. split; [done|left]. split; [done|by eexists]. }
  destruct (image_exists _ _).
  2: { intros Heq. exists world0. eapply create_ends_started; [done|apply starts_fresh|reflexivity|exact Heq]. }
  destruct (load_image _ _ world0) as [s|e] eqn:Hl.
  2: { intros [= <- <-]. exists world0. split; [done|left]. split; [done|by eexists]. }
  intros Heq. exists world0.
  eapply create_ends_started; [done|eapply starts_loaded, Hpre, Hl|reflexivity|exact Heq].
Qed.

(** A start keeps what can be loaded sound. *)
Lemma create_world_inv config world world' result :
  world_inv world -> create config world = (world', result) -> world_inv world'.
Proof.
  intros Hw (world0 & Hpre & [[-> _]|(s & Hs & -> & _)])%create_cases.
  - intros path limits s Hl. by eapply Hw, Hpre.
  - apply inv_world, (rcv_inv _ _ (reconcile_keeps _ (starting_inv config s world0 (starts_from_inv _ _ Hw Hs)
      (fun path limits s Hl => Hw path limits s (Hpre path limits s Hl))))).
Qed.

(** A successful start, from the state it has found. *)
Lemma create_started config world world' impl :
  world_inv world -> create config world = (world', Ok impl) ->
  exists s world0, starts_from world s /\ recovering (starting config s world0) impl /\ world' = impl_world impl
    /\ forall id r, find_experiment id impl = Some r -> settled r.
Proof.
  intros Hw (world0 & Hpre & [[_ [e ?]]|(s & Hs & -> & [[[= ->] Hok]|[e ?]])])%create_cases; [done| |done].
  assert (Hi : inv (starting config s world0)).
  { apply starting_inv; [by eapply starts_from_inv|]. intros path limits s' Hl. by eapply Hw, Hpre. }
  exists s, world0. split_and!; [done|by apply reconcile_keeps|done|]. by eapply reconcile_settled.
Qed.

End Recovery.
