(* ===== verification/System.v ===== *)
(** * The coordinator as a transition system

    A coordinator runs operations, crashes at any point between them and is
    started again from whatever its storage holds.  The state lock makes each
    operation one step, so every history of the program is a path of this
    system.  The file proves what holds in every reachable state and along
    every path. *)
From S2P Require Import Prelude OMap Error Domain Identity Float64 Model Hash Sorting Canonical State Messages Spec Coordinator Authority Evidence Decision Scenario Fencing History Ledger Invariants Recovery.

(** ** Operations *)

(** The calls a client, a worker or the server can make, with their arguments. *)
Inductive Op :=
| OpCreateExperiment (spec : ExperimentSpec)
| OpReviseHypothesis (experiment : Z) (spec : HypothesisRevisionSpec)
| OpForkBranch (experiment parent : Z) (spec : BranchSpec)
| OpRetireBranch (experiment branch : Z) (reason : string)
| OpCreateTrial (experiment branch : Z) (payload : string)
| OpRegisterWorker (request : RegisterWorkerRequest)
| OpRevokeWorker (worker boot : Z) (kind : FailureKind) (reason : string)
| OpHeartbeat (request : HeartbeatRequest)
| OpClaimTrials (request : ClaimTrialRequest)
| OpPublishObservation (request : PublishObservationRequest)
| OpPublishArtifact (request : PublishArtifactRequest)
| OpCommitTrial (request : CommitTrialRequest)
| OpFailTrial (request : FailTrialRequest)
| OpCancelTrial (trial : Z) (reason : string)
| OpCancelExperiment (experiment : Z) (reason : string)
| OpFinalize (experiment candidate : Z) (reason : string)
| OpRollback (experiment target : Z) (reason : string)
| OpSave
| OpSetAdmission (admitting : bool).

Section System.
Context `{StorageLaws} `{Formatting}.
Implicit Types (impl : Impl) (op : Op) (e : AuthorityEnvelope).

(** [admitting_work], which the server sets when it starts and clears when it
    stops or a shutdown is requested. *)
Definition set_admission (admitting : bool) (impl : Impl) : Impl :=
  impl <| impl_admitting_work := admitting |>.

(** The state after a call. *)
Definition exec (op : Op) (impl : Impl) : Impl :=
  match op with
  | OpCreateExperiment spec => (create_experiment spec impl).1
  | OpReviseHypothesis experiment spec => (revise_hypothesis experiment spec impl).1
  | OpForkBranch experiment parent spec => (fork_branch experiment parent spec impl).1
  | OpRetireBranch experiment branch reason => (retire_branch experiment branch reason impl).1
  | OpCreateTrial experiment branch payload => (create_trial experiment branch payload impl).1
  | OpRegisterWorker request => (register_worker request impl).1
  | OpRevokeWorker worker boot kind reason => (revoke_worker worker boot kind reason impl).1
  | OpHeartbeat request => (heartbeat request impl).1
  | OpClaimTrials request => (claim_trials request impl).1
  | OpPublishObservation request => (publish_observation request impl).1
  | OpPublishArtifact request => (publish_artifact request impl).1
  | OpCommitTrial request => (commit_trial request impl).1
  | OpFailTrial request => (fail_trial request impl).1
  | OpCancelTrial trial reason => (cancel_trial trial reason impl).1
  | OpCancelExperiment experiment reason => (cancel_experiment experiment reason impl).1
  | OpFinalize experiment candidate reason => (finalize_experiment experiment candidate reason impl).1
  | OpRollback experiment target reason => (rollback experiment target reason impl).1
  | OpSave => (coordinator_save impl).1
  | OpSetAdmission admitting => set_admission admitting impl
  end.

(** The 64-bit identity counters have not run out, and a claim asks for an
    unsigned number of trials. *)
Definition room (op : Op) (impl : Impl) : Prop :=
  match op with
  | OpCreateTrial _ _ _ => trial_mark impl < u64_max
  | OpClaimTrials request =>
      0 <= claim_max_claims request /\ attempt_mark impl + max_batch_items (impl_limits impl) <= u64_max
  | _ => True
  end.

Lemma exec_inv op impl : inv impl -> room op impl -> inv (exec op impl).
Proof.
  intros Hi Hroom. destruct op; simpl in *.
  - by apply create_experiment_inv.
  - by apply revise_hypothesis_inv.
  - by apply fork_branch_inv.
  - by apply retire_branch_inv.
  - by apply create_trial_inv.
  - by apply register_worker_inv.
  - by apply revoke_worker_inv.
  - by apply heartbeat_inv.
  - destruct Hroom. by apply claim_trials_inv.
  - by apply publish_observation_inv.
  - by apply publish_artifact_inv.
  - by apply commit_trial_inv.
  - by apply fail_trial_inv.
  - by apply cancel_trial_inv.
  - by apply cancel_experiment_inv.
  - by apply finalize_experiment_inv.
  - by apply rollback_inv.
  - unfold coordinator_save. destruct (persist_locked impl) as [impl' s] eqn:Hp.
    apply persist_state in Hp as (d & w & -> & Hw). by apply persisted_inv.
  - eapply inv_same_core; [|exact Hi]. by constructor.
Qed.

Lemma exec_evolves op impl : inv impl -> room op impl -> evolves impl (exec op impl).
Proof.
  intros Hi Hroom. destruct op; simpl in *.
  - apply create_experiment_evolves.
  - apply revise_hypothesis_evolves.
  - apply fork_branch_evolves.
  - apply retire_branch_evolves.
  - by apply create_trial_evolves, inv_next_trial_fresh.
  - apply register_worker_evolves.
  - apply revoke_worker_evolves.
  - apply heartbeat_evolves.
  - apply claim_trials_evolves.
  - apply publish_observation_evolves.
  - apply publish_artifact_evolves.
  - apply commit_trial_evolves.
  - apply fail_trial_evolves.
  - by apply cancel_trial_evolves, inv_sorted, inv_state.
  - apply cancel_experiment_evolves.
  - apply finalize_experiment_evolves.
  - apply rollback_evolves.
  - unfold coordinator_save. destruct (persist_locked impl) as [impl' s] eqn:Hp.
    apply persist_state in Hp as (d & w & -> & Hw). apply same_tables_evolves, persisted_same.
  - by apply same_tables_evolves; constructor.
Qed.

(** ** Histories *)

(** A run of operations by one process. *)
Inductive runs : Impl -> Impl -> Prop :=
| runs_here impl : runs impl impl
| runs_op impl op impl' : room op impl -> runs (exec op impl) impl' -> runs impl impl'.

(** The fabric: a coordinator process, or only what its machine has stored. *)
Inductive Fabric :=
| Up (impl : Impl)
| Down (world : World).

Inductive step : Fabric -> Fabric -> Prop :=
| step_op op impl : room op impl -> step (Up impl) (Up (exec op impl))
| step_crash impl : step (Up impl) (Down (impl_world impl))
| step_start config world world' impl : create config world = (world', Ok impl) -> step (Down world) (Up impl)
| step_start_refused config world world' error : create config world = (world', Err error) -> step (Down world) (Down world').

(** Histories begin on a machine that has stored no state image. *)
Inductive reachable : Fabric -> Prop :=
| reachable_empty world : (forall path limits s, load_image path limits world <> Ok s) -> reachable (Down world)
| reachable_step f f' : reachable f -> step f f' -> reachable f'.

Definition fabric_inv (f : Fabric) : Prop :=
  match f with
  | Up impl => inv impl
  | Down world => world_inv world
  end.

Lemma reachable_inv f : reachable f -> fabric_inv f.
Proof.
  induction 1 as [world Hempty|f f' _ IH Hstep]; simpl.
  - intros path limits s Hl. by destruct (Hempty path limits s).
  - destruct Hstep as [op impl Hroom|impl|config world world' impl Hc|config world world' error Hc]; simpl in *.
    + by apply exec_inv.
    + by apply inv_world.
    + destruct (create_started _ _ _ _ IH Hc) as (s & world0 & _ & Hr & _). apply Hr.
    + by eapply create_world_inv.
Qed.

(** The live workers of a process are kept under their own identities. *)
Lemma reachable_keyed f : reachable f -> forall impl, f = Up impl -> live_keyed (impl_live_workers impl).
Proof.
  induction 1 as [world _|f f' Hf IH Hstep]; intros impl Heq; [done|].
  pose proof (reachable_inv _ Hf) as Hi.
  destruct Hstep as [op impl0 Hroom|impl0|config world world' impl0 Hc|config world world' error Hc]; simplify_eq/=.
  - apply (evo_keyed _ _ (exec_evolves op impl0 Hi Hroom)). by apply IH.
  - destruct (create_started _ _ _ _ Hi Hc) as (s & world0 & _ & Hr & _). by rewrite (rcv_live _ _ Hr).
Qed.

Lemma reachable_runs impl impl' : reachable (Up impl) -> runs impl impl' -> reachable (Up impl').
Proof. intros Hr Hrun. induction Hrun; [done|]. apply IHHrun. eapply reachable_step; [exact Hr|by constructor]. Qed.

Lemma runs_evolves impl impl' : reachable (Up impl) -> runs impl impl' -> evolves impl impl'.
Proof.
  intros Hr Hrun. induction Hrun as [|impl op impl' Hroom _ IH]; [reflexivity|].
  transitivity (exec op impl); [apply exec_evolves; [by apply (reachable_inv (Up impl))|done]|].
  apply IH. eapply reachable_step; [exact Hr|by constructor].
Qed.

End System.

(** ** The concrete run is a history *)

Module Reach.

Lemma empty_world : reachable (Down Run.empty_world).
Proof. by apply reachable_empty. Qed.

Lemma start : create Run.config Run.empty_world = (impl_world Run.s0, Ok Run.s0).
Proof. by_evaluation. Qed.

Lemma s0 : reachable (Up Run.s0).
Proof. eapply reachable_step; [exact empty_world|]. eapply step_start, start. Qed.

Lemma s1_exec : Run.s1 = exec (OpCreateExperiment Run.spec) Run.s0.
Proof. by_evaluation. Qed.
Lemma s1 : reachable (Up Run.s1).
Proof. rewrite s1_exec. eapply reachable_step; [exact s0|by constructor]. Qed.

Definition create_first : Op := OpCreateTrial 1 1 "payload".
Definition create_second : Op := OpCreateTrial 1 2 "payload".
Lemma s2_exec : Run.s2 = exec create_second (exec create_first Run.s1).
Proof. by_evaluation. Qed.
Lemma s2_runs : runs Run.s1 Run.s2.
Proof.
  rewrite s2_exec. apply (runs_op _ create_first); [vm_compute; reflexivity|].
  apply (runs_op _ create_second); [vm_compute; reflexivity|]. apply runs_here.
Qed.
Lemma s2 : reachable (Up Run.s2).
Proof. exact (reachable_runs _ _ s1 s2_runs). Qed.

Lemma s3_exec : Run.s3 = exec (OpRegisterWorker Run.registration) Run.s2.
Proof. by_evaluation. Qed.
Lemma s3 : reachable (Up Run.s3).
Proof. rewrite s3_exec. eapply reachable_step; [exact s2|by constructor]. Qed.

Lemma s4_exec : Run.s4 = exec (OpClaimTrials Run.claim) Run.s3.
Proof. by_evaluation. Qed.
Lemma claim_room : room (OpClaimTrials Run.claim) Run.s3.
Proof. vm_compute. split; discriminate. Qed.
Lemma s4 : reachable (Up Run.s4).
Proof. rewrite s4_exec. eapply reachable_step; [exact s3|constructor; exact claim_room]. Qed.

Definition observe : Op := OpPublishObservation (Run.publish 1 (Run.envelope 0) (double_of_Z 20)).
Definition observe_fast : Op := OpPublishObservation (Run.publish 2 (Run.envelope 1) (double_of_Z 10)).
Lemma s5_exec : Run.s5 = exec observe_fast (exec observe Run.s4).
Proof. by_evaluation. Qed.
Lemma s5_runs : runs Run.s4 Run.s5.
Proof. rewrite s5_exec. apply (runs_op _ observe); [done|]. apply (runs_op _ observe_fast); [done|]. apply runs_here. Qed.
Lemma s5 : reachable (Up Run.s5).
Proof. exact (reachable_runs _ _ s4 s5_runs). Qed.

Definition commit : Op := OpCommitTrial (Run.commit (Run.envelope 0)).
Definition commit_fast : Op := OpCommitTrial (Run.commit (Run.envelope 1)).
Lemma s6_exec : Run.s6 = exec commit_fast (exec commit Run.s5).
Proof. by_evaluation. Qed.
Lemma s6_runs : runs Run.s5 Run.s6.
Proof. rewrite s6_exec. apply (runs_op _ commit); [done|]. apply (runs_op _ commit_fast); [done|]. apply runs_here. Qed.
Lemma s6 : reachable (Up Run.s6).
Proof. exact (reachable_runs _ _ s5 s6_runs). Qed.

(** The machine after a crash in the middle of the run: both trials are
    claimed, one observation each is stored, nothing is committed. *)
Lemma crashed : reachable (Down (impl_world Run.s5)).
Proof. eapply reachable_step; [exact s5|constructor]. Qed.
Definition restarted : Impl := Eval vm_compute in Run.created (create Run.config (impl_world Run.s5)).
Lemma restart : create Run.config (impl_world Run.s5) = (impl_world restarted, Ok restarted).
Proof. by_evaluation. Qed.

End Reach.
