(* ===== verification/Refusals.v ===== *)
(** * What a refusal leaves behind

    A call that presents another epoch than the coordinator's is refused.  It
    may be remembered as rejected evidence, and an observation may be kept as
    historical, but no experiment, trial, attempt, decision or worker changes.
    The lemmas are those the replay of old frames rests on. *)
From S2P Require Import Prelude OMap Error Domain Identity Float64 Model Hash Sorting Canonical State Wire Codec StateCodec Messages MessageCodec Spec Coordinator Authority Evidence Decision Scenario Fencing History Ledger Invariants System.

(** ** Refused envelopes *)

Definition named_error (s : Status) : Prop := status_ok s = false /\ fits_status true s = true.

Definition refusing (v : AuthorityVerdict) : Prop :=
  verdict_accepted v = true \/ named_error (authority_error (verdict_code v) (verdict_detail v)).

Ltac rejects := right; split; reflexivity.

Section Refusals.
Context `{StorageLaws} `{Formatting}.
Implicit Types (impl : Impl).

(** A refused envelope is refused with an error code of the enumeration. *)
Lemma check_envelope_refusing e impl : refusing (check_verdict (check_envelope e impl)).
Proof.
  unfold check_envelope, validate_envelope_structure. destruct (List.find _ _) as [[field what]|]; [rejects|]. cbn [verdict_accepted accept_verdict negb].
  destruct (check_process_authority e impl) as [v|] eqn:Hv; [revert Hv; unfold check_process_authority; repeat case_match; intros [= <-]; rejects|].
  destruct (find_experiment _ impl) as [r|]; [|rejects].
  destruct (check_experiment_authority e r) as [v|] eqn:He; [revert He; unfold check_experiment_authority; repeat case_match; intros [= <-]; rejects|].
  destruct (find_branch r _) as [b|]; [|rejects].
  destruct (check_branch_authority e b) as [v|] eqn:Hbr; [revert Hbr; unfold check_branch_authority; repeat case_match; intros [= <-]; rejects|].
  destruct (om_find _ (rec_trials r)) as [t|]; [|rejects].
  destruct (check_trial_authority e t) as [v|] eqn:Ht; [revert Ht; unfold check_trial_authority; repeat case_match; intros [= <-]; rejects|].
  destruct (om_find _ (rec_attempts r)) as [a|]; [|rejects].
  cbn [check_verdict]. unfold check_attempt_authority. repeat case_match; first [by left|rejects].
Qed.

(** An envelope of another epoch is refused. *)
Lemma stale_envelope e impl :
  env_epoch e <> impl_epoch impl ->
  verdict_accepted (check_verdict (check_envelope e impl)) = false
  /\ named_error (authority_error (verdict_code (check_verdict (check_envelope e impl))) (verdict_detail (check_verdict (check_envelope e impl)))).
Proof.
  intros Hne. assert (Hno : verdict_accepted (check_verdict (check_envelope e impl)) = false).
  { destruct (verdict_accepted _) eqn:Ha; [|done]. apply check_envelope_iff in Ha as (r & b & t & a & l & _ & [] & _). congruence. }
  split; [done|]. by destruct (check_envelope_refusing e impl) as [?|?]; [congruence|].
Qed.

(** ** What is left *)

(** Evidence that may decide is as it was: at most invalid observations came
    in, and nothing but notes on the refusals besides. *)
Record same_evidence (r r' : ExperimentRecord) : Prop := {
  se_definition : rec_definition r' = rec_definition r;
  se_hypothesis : rec_hypothesis r' = rec_hypothesis r;
  se_state : rec_state r' = rec_state r;
  se_trials : rec_trials r' = rec_trials r;
  se_attempts : rec_attempts r' = rec_attempts r;
  se_observations : exists late, rec_observations r' = rec_observations r ++ late
    /\ Forall (fun o => obs_validity o = ObservationValidity.INVALID) late;
  se_artifacts : rec_artifacts r' = rec_artifacts r;
  se_decisions : rec_decisions r' = rec_decisions r;
  se_points : rec_rollback_points r' = rec_rollback_points r
}.

#[export] Instance same_evidence_preorder : PreOrder same_evidence.
Proof.
  split.
  - intros r. constructor; try done. exists []. by rewrite app_nil_r.
  - intros r1 r2 r3 [] []. constructor; try congruence.
    destruct se_observations0 as (l1 & H1' & Hl1), se_observations1 as (l2 & H2' & Hl2). exists (l1 ++ l2).
    rewrite H2', H1', app_assoc. split; [done|]. by apply Forall_app.
Qed.

Record same_authority (impl impl' : Impl) : Prop := {
  sa_epoch : impl_epoch impl' = impl_epoch impl;
  sa_limits : impl_limits impl' = impl_limits impl;
  sa_admitting : impl_admitting_work impl' = impl_admitting_work impl;
  sa_live : impl_live_workers impl' = impl_live_workers impl;
  sa_records : forall id, option_Forall2 same_evidence (find_experiment id impl) (find_experiment id impl')
}.

#[export] Instance same_authority_preorder : PreOrder same_authority.
Proof.
  split.
  - intros impl. by constructor.
  - intros i1 i2 i3 [? ? ? ? R1] [? ? ? ? R2]. constructor; try congruence. intros id. specialize (R1 id). specialize (R2 id).
    destruct R1 as [r1 r2 Hr12|]; inversion R2 as [? r3 Hr23|]; subst; constructor. by transitivity r2.
Qed.

Lemma persisted_authority impl impl' s : persist_locked impl = (impl', s) -> same_authority impl impl'.
Proof.
  intros Hp. apply persist_state in Hp as (d & w & -> & _). by constructor.
Qed.

Lemma put_authority id r r' impl impl' :
  find_experiment id impl = Some r -> same_evidence r r' ->
  st_experiments (impl_state impl') = om_set id r' (st_experiments (impl_state impl)) ->
  impl_epoch impl' = impl_epoch impl -> impl_limits impl' = impl_limits impl ->
  impl_admitting_work impl' = impl_admitting_work impl -> impl_live_workers impl' = impl_live_workers impl ->
  same_authority impl impl'.
Proof.
  intros Hr Hsame Hx. constructor; try done. intros other. unfold find_experiment in *. rewrite Hx, om_find_set.
  case_decide; subst; [rewrite Hr; by constructor|]. destruct (om_find other _); constructor. reflexivity.
Qed.

Lemma record_rejection_evidence kind identifier verdict r : same_evidence r (record_rejection kind identifier verdict r).
Proof. unfold record_rejection. case_match; [|reflexivity]. constructor; try done. exists []. by rewrite app_nil_r. Qed.

Lemma reject_observation_authority o verdict r impl :
  find_experiment (obs_experiment o) impl = Some r -> same_authority impl (reject_observation o verdict r impl).
Proof.
  intros Hr. unfold reject_observation. pose proof (record_rejection_evidence "observation" (obs_id o) verdict r) as Hrej.
  set (r1 := record_rejection _ _ _ _) in *. clearbody r1.
  destruct (_ && _); [|by eapply put_authority]. unfold next_sequence.
  eapply put_authority; [exact Hr| |reflexivity..]. etransitivity; [exact Hrej|].
  constructor; try done. eexists. split; [reflexivity|]. by repeat constructor.
Qed.

(** ** The calls that present an epoch *)

Definition op_epoch (op : Op) : option Z :=
  match op with
  | OpHeartbeat request => Some (beat_epoch request)
  | OpClaimTrials request => Some (claim_epoch request)
  | OpPublishObservation request => Some (pubo_epoch request)
  | OpPublishArtifact request => Some (puba_epoch request)
  | OpCommitTrial request => Some (commit_epoch request)
  | OpFailTrial request => Some (fail_epoch request)
  | _ => None
  end.

(** The status each answers with. *)
Definition op_status (op : Op) (impl : Impl) : Status :=
  match op with
  | OpHeartbeat request => (heartbeat request impl).2
  | OpClaimTrials request => claimr_status (claim_trials request impl).2
  | OpPublishObservation request => (publish_observation request impl).2
  | OpPublishArtifact request => (publish_artifact request impl).2
  | OpCommitTrial request => (commit_trial request impl).2
  | OpFailTrial request => (fail_trial request impl).2
  | _ => success
  end.

(** The storage answers with statuses of the enumerations. *)
Definition storage_named : Prop := forall impl, fits_status true (persist_locked impl).2 = true.

Lemma persisted_named impl impl' s : storage_named -> persist_locked impl = (impl', s) -> status_ok s = false -> named_error s.
Proof. intros Hn Hp Hs. split; [done|]. specialize (Hn impl). by rewrite Hp in Hn. Qed.

Lemma stale_op_refused op epoch impl :
  storage_named -> op_epoch op = Some epoch -> epoch <> impl_epoch impl ->
  named_error (op_status op impl) /\ same_authority impl (exec op impl).
Proof.
  intros Hstore Hop Hne. destruct op; try discriminate Hop; injection Hop as <-; cbn [op_status exec].
  - unfold heartbeat. destruct (negb (impl_admitting_work impl)); [by split; [split|]|].
    rewrite (proj2 (Z.eqb_neq _ _)) by done. by split; [split|].
  - unfold claim_trials. destruct (negb (impl_admitting_work impl)); [by split; [split|]|].
    rewrite (proj2 (Z.eqb_neq _ _)) by done. by split; [split|].
  - unfold publish_observation. destruct (find_experiment _ impl) as [r|] eqn:Hr; [|by split; [split|]].
    set (e := envelope_from _ _ _ _ _). destruct (stale_envelope e impl Hne) as [Hno Herr]. rewrite Hno.
    pose proof (reject_observation_authority (pubo_observation request) (check_verdict (check_envelope e impl)) r impl Hr) as Hrej.
    destruct (persist_locked _) as [impl1 persisted] eqn:Hp. pose proof (persisted_authority _ _ _ Hp) as Hkept.
    destruct (status_ok persisted) eqn:Hs; simpl; (split; [|by etransitivity]); [done|]. by eapply persisted_named.
  - unfold publish_artifact. destruct (find_experiment _ impl) as [r|] eqn:Hr; [|by split; [split|]].
    destruct (find_branch r _) as [b|]; [|by split; [split|]]. destruct (om_find _ _) as [a|]; [|by split; [split|]].
    set (e := artifact_envelope _ _ _ _). destruct (stale_envelope e impl Hne) as [Hno Herr]. rewrite Hno.
    set (r1 := record_rejection _ _ _ _). set (impl0 := put_experiment _ r1 impl).
    assert (Hput : same_authority impl impl0) by (eapply put_authority; [exact Hr|apply record_rejection_evidence|reflexivity..]).
    destruct (persist_locked impl0) as [impl1 persisted] eqn:Hp. pose proof (persisted_authority _ _ _ Hp) as Hkept.
    destruct (status_ok persisted) eqn:Hs; simpl; (split; [|by etransitivity]); [done|]. by eapply persisted_named.
  - unfold commit_trial. destruct (envelope_mismatch _ _ _ _) eqn:Hm; [by split; [split|]|].
    assert (Hstale : env_epoch (commit_envelope request) <> impl_epoch impl) by (unfold envelope_mismatch in Hm; zprop; congruence).
    destruct (stale_envelope _ impl Hstale) as [Hno Herr]. rewrite Hno. by split.
  - unfold fail_trial. destruct (envelope_mismatch _ _ _ _) eqn:Hm; [by split; [split|]|].
    assert (Hstale : env_epoch (fail_envelope request) <> impl_epoch impl) by (unfold envelope_mismatch in Hm; zprop; congruence).
    destruct (stale_envelope _ impl Hstale) as [Hno Herr]. rewrite Hno. by split.
Qed.

End Refusals.
