(* ===== verification/Creation.v ===== *)
(** * Definitions that are accepted (coordinator.cpp, [create_experiment])

    [validate_spec] looks at a specification, [validate_record] at the record
    that is built from it.  Here the two are connected: the identities drawn
    for metrics and branches are distinct, every fork is below its parent, the
    parameters a fork inherits have distinct keys, so that the record of a
    valid specification is well formed and the creation goes through. *)
From S2P Require Import Prelude OMap Error Domain Identity Float64 Model Hash Sorting Canonical State Validator Wire Codec StateCodec Messages Spec Coordinator Authority Evidence Decision Scenario Fencing History Ledger Invariants.

Lemma not_passes_definition r : ~ passes (definition_error r).
Proof. done. Qed.
Lemma not_passes_bound r : ~ passes (limits_error r).
Proof. done. Qed.
#[export] Hint Resolve not_passes_definition not_passes_bound : passes.

Lemma Forall2_elem_l {A B} (R : A -> B -> Prop) l l' x : Forall2 R l l' -> x ∈ l -> exists y, y ∈ l' /\ R x y.
Proof. induction 1; [set_solver|]. intros [->|Hx]%elem_of_cons; [eexists; split; [by left|done]|set_solver]. Qed.
Lemma Forall2_elem_r {A B} (R : A -> B -> Prop) l l' y : Forall2 R l l' -> y ∈ l' -> exists x, x ∈ l /\ R x y.
Proof. induction 1; [set_solver|]. intros [->|Hy]%elem_of_cons; [eexists; split; [by left|done]|set_solver]. Qed.

(** ** Names *)

Lemma name_find_elem {V} name (entries : list (string * V)) :
  name ∈ map fst entries -> exists v, name_find name entries = Some v /\ (name, v) ∈ entries.
Proof.
  induction entries as [|[name' v] entries IH]; simpl; [set_solver|].
  destruct (String.eqb_spec name name') as [<-|Hne]; [exists v; split; [done|by left]|].
  intros [?|Hin]%elem_of_cons; [done|]. destruct (IH Hin) as (u & Hu & Hel). exists u. split; [done|by right].
Qed.

Lemma name_find_snd {V} name (entries : list (string * V)) v : name_find name entries = Some v -> v ∈ map snd entries.
Proof.
  induction entries as [|[name' u] entries IH]; simpl; [done|].
  destruct (String.eqb name name'); [intros [= ->]; by left|]. intros Hv. right. auto.
Qed.

(** ** Metrics *)

Definition metric_spec_ok (limits : Limits) (m : MetricSpec) : Prop :=
  mspec_name m <> ""%string /\ str_size (mspec_name m) <= max_name_length limits
  /\ (mspec_kind m = MetricKind.CATEGORICAL ->
      mspec_aggregation m = AggregationRule.MAJORITY \/ mspec_aggregation m = AggregationRule.NONE)
  /\ (mspec_kind m = MetricKind.REAL \/ mspec_kind m = MetricKind.INTEGER ->
      mspec_aggregation m <> AggregationRule.MAJORITY)
  /\ bounds_inverted (mspec_lower_bound m) (mspec_upper_bound m) = false
  /\ bounds_inverted (mspec_target_low m) (mspec_target_high m) = false.

Lemma categorical_check (kind : MetricKind) (rule : AggregationRule) :
  bool_decide (kind = MetricKind.CATEGORICAL) && negb (bool_decide (rule = AggregationRule.MAJORITY))
    && negb (bool_decide (rule = AggregationRule.NONE)) = false
  <-> (kind = MetricKind.CATEGORICAL -> rule = AggregationRule.MAJORITY \/ rule = AggregationRule.NONE).
Proof. repeat case_bool_decide; simpl; naive_solver. Qed.

Lemma numeric_check (kind : MetricKind) (rule : AggregationRule) :
  (bool_decide (kind = MetricKind.REAL) || bool_decide (kind = MetricKind.INTEGER))
    && bool_decide (rule = AggregationRule.MAJORITY) = false
  <-> (kind = MetricKind.REAL \/ kind = MetricKind.INTEGER -> rule <> AggregationRule.MAJORITY).
Proof. repeat case_bool_decide; simpl; naive_solver. Qed.

Lemma str_empty_false s : str_empty s = false <-> s <> ""%string.
Proof. apply eqb_empty_false. Qed.

Lemma validate_metric_specs_ok limits names metrics :
  passes (validate_metric_specs limits names metrics) ->
  Forall (metric_spec_ok limits) metrics /\ NoDup (map mspec_name metrics)
  /\ Forall (fun m => mspec_name m ∉ names) metrics.
Proof.
  revert names. induction metrics as [|m metrics IH]; intros names Hp; [split_and!; constructor|].
  cbn [validate_metric_specs] in Hp. revert Hp. passes_steps.
  rewrite orb_false_iff, str_empty_false, Z.ltb_ge, bool_decide_eq_false, categorical_check, numeric_check.
  intros ([? ?] & _ & Hn & ? & ? & ? & ? & Hp). apply IH in Hp as (Hall & Hnd & Hout).
  simpl. rewrite !Forall_cons, NoDup_cons. rewrite Forall_forall in Hout. split_and!; auto; [done|..].
  - intros (m' & Heq & Hm')%list_elem_of_fmap. apply (Hout m' Hm'). rewrite <- Heq. by left.
  - apply Forall_forall. intros m' Hm' Hin. apply (Hout m' Hm'). by right.
Qed.

(** The metrics built from a list of specifications above a watermark. *)
Record metrics_built (watermark : Z) (metrics : list MetricSpec) (built : list MetricDefinition) : Prop := {
  mb_each : Forall2 (fun m d => d = build_metric (metric_id d) m) metrics built;
  mb_range : Forall (fun d => watermark < metric_id d) built;
  mb_ids : NoDup (map metric_id built)
}.

Lemma build_metrics_built watermark metrics :
  0 <= watermark -> watermark + size_of metrics <= u64_max ->
  (build_metrics watermark metrics).1 = watermark + size_of metrics
  /\ metrics_built watermark metrics (build_metrics watermark metrics).2.
Proof.
  revert watermark. induction metrics as [|m metrics IH]; intros w Hw Hroom; simpl.
  - split; [unfold size_of; simpl; lia|]. repeat constructor.
  - rewrite size_of_cons in *. pose proof (size_of_nonneg metrics). rewrite u64_succ_small by lia.
    destruct (IH (w + 1)) as (Hmark & [Heach Hrange Hids]); [lia..|].
    destruct (build_metrics (w + 1) metrics) as [w' built]. simpl in *. rewrite Forall_forall in Hrange.
    split; [lia|]. constructor; simpl.
    + constructor; [reflexivity|done].
    + rewrite Forall_cons. simpl. split; [lia|]. apply Forall_forall. intros d Hd. specialize (Hrange d Hd). lia.
    + constructor; [|done]. intros (d & Heq & Hd)%list_elem_of_fmap. specialize (Hrange d Hd). lia.
Qed.

Lemma metrics_built_names watermark metrics built :
  metrics_built watermark metrics built -> map metric_name built = map mspec_name metrics.
Proof. intros [Heach _ _]. induction Heach as [|m d metrics built -> _ IH]; simpl; [done|]. by f_equal. Qed.

(** ** Branches *)

Lemma override_parameters_keys inherited overrides :
  NoDup (map param_key inherited) -> NoDup (map param_key (override_parameters inherited overrides)).
Proof.
  unfold override_parameters. revert inherited. induction overrides as [|p overrides IH]; intros inherited Hnd; simpl; [done|].
  apply IH. rewrite map_app. apply NoDup_app. split_and!.
  - revert Hnd. clear IH. induction inherited as [|q inherited IH]; simpl; [done|]. intros [Hq Hnd]%NoDup_cons.
    destruct (negb _); simpl; [|auto]. constructor; [|auto]. intros (r & Heq & Hr)%list_elem_of_fmap. apply Hq.
    apply list_elem_of_In, filter_In in Hr as [Hr _]. apply list_elem_of_fmap. exists r. by rewrite list_elem_of_In.
  - intros k (r & -> & Hr)%list_elem_of_fmap Hk. apply list_elem_of_In, filter_In in Hr as [_ Hr].
    simpl in Hk. apply list_elem_of_singleton in Hk. by rewrite Hk, String.eqb_refl in Hr.
  - simpl. apply NoDup_singleton.
Qed.

Lemma normalize_parameters_keys parameters :
  NoDup (map param_key parameters) -> NoDup (map param_key (normalize_parameters parameters)).
Proof. intros Hnd. by rewrite (Permutation_map _ (normalize_parameters_perm parameters)). Qed.

Definition branch_spec_ok (limits : Limits) (b : BranchSpec) : Prop :=
  NoDup (map param_key (bspec_parameters b))
  /\ bspec_planned_trials b <> 0 /\ bspec_planned_trials b <= max_trials_per_branch limits.

(** Each branch passes the checks, and forks only from a branch before it. *)
Fixpoint forks_ok (names : list string) (branches : list BranchSpec) : Prop :=
  match branches with
  | [] => True
  | b :: rest => (forall parent, bspec_fork_from b = Some parent -> parent ∈ names) /\ forks_ok (bspec_name b :: names) rest
  end.

Lemma validate_branch_specs_ok limits names branches :
  passes (validate_branch_specs limits names branches) ->
  Forall (branch_spec_ok limits) branches /\ forks_ok names branches.
Proof.
  revert names. induction branches as [|b branches IH]; intros names Hp; [by split|].
  cbn [validate_branch_specs] in Hp. revert Hp. passes_steps.
  rewrite !orb_false_iff, Z.eqb_neq, !Z.ltb_ge, has_duplicate_parameter_key_spec.
  intros (_ & _ & Hfork & [? ?] & ? & Hp). apply IH in Hp as [Hall Hf]. rewrite Forall_cons. simpl.
  split; [by repeat split|]. split; [|done]. intros parent Hpar. rewrite Hpar in Hfork.
  by apply negb_false_iff, bool_decide_eq_true in Hfork.
Qed.

(** What a branch definition keeps of its specification. *)
Record branch_from (sequence : Z) (b : BranchSpec) (d : BranchDefinition) : Prop := {
  bf_name : branch_name d = bspec_name b;
  bf_role : branch_role d = bspec_role b;
  bf_generation : branch_generation d = 1;
  bf_state : branch_state d = BranchState.ACTIVE;
  bf_planned : branch_planned_trials d = bspec_planned_trials b;
  bf_sequence : branch_created_sequence d = sequence;
  bf_forked : branch_forked d = bool_decide (is_Some (bspec_fork_from b));
  bf_keys : NoDup (map param_key (bspec_parameters b)) -> NoDup (map param_key (branch_parameters d))
}.

Lemma root_branch_from id sequence b :
  bspec_fork_from b = None -> branch_from sequence b (build_root_branch id sequence b).
Proof. intros Hf. constructor; try reflexivity; [by rewrite Hf|]. apply normalize_parameters_keys. Qed.

Lemma inherited_branch_from id sequence b parent parent_id parent_spec :
  bspec_fork_from b = Some parent -> NoDup (map param_key (bspec_parameters parent_spec)) ->
  branch_from sequence b (inherit_from_spec parent_id parent_spec (build_root_branch id sequence b))
  /\ branch_id (inherit_from_spec parent_id parent_spec (build_root_branch id sequence b)) = id
  /\ branch_parent (inherit_from_spec parent_id parent_spec (build_root_branch id sequence b)) = parent_id.
Proof.
  intros Hf Hp. unfold inherit_from_spec.
  destruct (bspec_input_set parent_spec), (bspec_environment parent_spec); simpl;
    repeat (match goal with |- context [if ?c then _ else _] => destruct c end; simpl);
    split_and!; try reflexivity; constructor; try reflexivity; try (by rewrite Hf); intros _; simpl;
    by apply normalize_parameters_keys, override_parameters_keys, normalize_parameters_keys.
Qed.

(** The branches built above a watermark, from those already [known]. *)
Record branches_built (sequence watermark : Z) (known : list Z) (branches : list BranchSpec)
    (built : list BranchDefinition) : Prop := {
  bb_each : Forall2 (branch_from sequence) branches built;
  bb_range : Forall (fun d => watermark < branch_id d) built;
  bb_ids : NoDup (map branch_id built);
  bb_parents : Forall (fun d => branch_parent d = 0
    \/ branch_parent d < branch_id d /\ branch_parent d ∈ known ++ map branch_id built) built
}.

Lemma branches_built_cons sequence w known b d branches built :
  branch_from sequence b d -> branch_id d = w + 1 ->
  branch_parent d = 0 \/ branch_parent d < w + 1 /\ branch_parent d ∈ known ->
  branches_built sequence (w + 1) (known ++ [w + 1]) branches built ->
  branches_built sequence w known (b :: branches) (d :: built).
Proof.
  intros Hd Hid Hpar [Heach Hrange Hids Hpars]. rewrite Forall_forall in Hrange. constructor; simpl.
  - by constructor.
  - rewrite Forall_cons. split; [lia|]. apply Forall_forall. intros x Hx. specialize (Hrange x Hx). lia.
  - constructor; [|done]. intros (x & Heq & Hx)%list_elem_of_fmap. specialize (Hrange x Hx). lia.
  - rewrite Forall_cons. split; [rewrite Hid; set_solver|]. eapply Forall_impl; [exact Hpars|].
    intros x [?|[? Hin]]; [by left|right]. split; [done|]. rewrite Hid. set_solver.
Qed.

Definition known_ids (known : list (string * (Z * BranchSpec))) : list Z := map (fun entry => entry.2.1) known.

Lemma build_branches_built limits sequence watermark known names branches :
  0 <= watermark -> watermark + size_of branches <= u64_max ->
  Forall (branch_spec_ok limits) branches -> forks_ok names branches -> names ⊆ map fst known ->
  Forall (fun entry => entry.2.1 <= watermark /\ NoDup (map param_key (bspec_parameters entry.2.2))) known ->
  exists built, build_branches sequence watermark known branches = (watermark + size_of branches, Ok built)
    /\ branches_built sequence watermark (known_ids known) branches built.
Proof.
  revert watermark known names. induction branches as [|b branches IH]; intros w known names Hw Hroom Hok Hforks Hnames Hknown.
  - exists []. simpl. split; [unfold size_of; simpl; f_equal; lia|]. repeat constructor.
  - rewrite size_of_cons in *. pose proof (size_of_nonneg branches). apply Forall_cons in Hok as [Hb Hok].
    destruct Hforks as [Hfork Hforks]. cbn [build_branches]. rewrite u64_succ_small by lia.
    destruct (IH (w + 1) (known ++ [(bspec_name b, (w + 1, b))]) (bspec_name b :: names)) as (built & Hbuild & Hbuilt);
      [lia|lia|done|done|rewrite map_app; set_solver|..].
    { apply Forall_app. split; [|by rewrite Forall_singleton; split; [simpl; lia|apply Hb]].
      eapply Forall_impl; [exact Hknown|]. simpl. intros ? []. split; [lia|done]. }
    rewrite Hbuild. unfold known_ids in *. rewrite map_app in Hbuilt. simpl in Hbuilt.
    destruct (bspec_fork_from b) as [parent|] eqn:Hf.
    + destruct (name_find_elem parent known) as ([pid pspec] & Hfind & Hin); [by apply Hnames, Hfork|]. rewrite Hfind.
      rewrite Forall_forall in Hknown. destruct (Hknown _ Hin) as [Hle Hkeys]. simpl in *.
      destruct (inherited_branch_from (w + 1) sequence b parent pid pspec Hf Hkeys) as (Hfrom & Hid & Hpar).
      eexists. split; [f_equal; lia|]. apply branches_built_cons; [done|done| |done]. right. rewrite Hpar.
      split; [lia|]. apply list_elem_of_fmap. by exists (parent, (pid, pspec)).
    + eexists. split; [f_equal; lia|]. apply branches_built_cons; [by apply root_branch_from|done|by left|done].
Qed.

(** Branches whose parents come earlier have ancestors up to a root. *)
Lemma ordered_lineage (branches : list BranchDefinition) :
  Forall (fun d => 0 < branch_id d) branches -> NoDup (map branch_id branches) ->
  Forall (fun d => branch_parent d = 0 \/ branch_parent d < branch_id d /\ branch_parent d ∈ map branch_id branches) branches ->
  forall c, c ∈ map branch_id branches -> exists l, lineage_of branches c l /\ l ⊆ map branch_id branches.
Proof.
  intros Hpos Hnd Hpar. rewrite Forall_forall in Hpos, Hpar.
  intros c. induction (Z.lt_wf 0 c) as [c _ IH]. intros Hc.
  destruct (find_branch_elem branches c Hc) as (b & Hf & Hb).
  assert (Hid : branch_id b = c) by (by apply find_some in Hf as [_ ?%Z.eqb_eq]).
  pose proof (Hpos b Hb). destruct (Hpar b Hb) as [Hroot|[Hlt Hin]].
  - exists [c]. split; [|set_solver]. econstructor; [lia|exact Hf|]. rewrite Hroot. constructor.
  - assert (0 <= branch_parent b).
    { apply list_elem_of_fmap in Hin as (p & -> & Hp). specialize (Hpos p Hp). lia. }
    destruct (IH (branch_parent b)) as (l & Hl & Hsub); [lia|done|].
    exists (c :: l). split; [by econstructor; [lia|exact Hf|]|set_solver].
Qed.

(** ** The record of a valid specification *)

(** What [validate_spec] leaves open: a weighted score needs every required
    metric to have a direction. *)
Definition weighted_ok (spec : ExperimentSpec) : Prop :=
  spec_use_weighted_score spec = true ->
  Forall (fun m => mspec_required m = true -> mspec_direction m <> MetricDirection.INFORMATIONAL) (spec_metrics spec).

Record spec_ok (limits : Limits) (spec : ExperimentSpec) : Prop := {
  so_metrics : Forall (metric_spec_ok limits) (spec_metrics spec);
  so_metric_names : NoDup (map mspec_name (spec_metrics spec));
  so_metric_count : size_of (spec_metrics spec) <= max_metrics_per_experiment limits;
  so_branches : Forall (branch_spec_ok limits) (spec_branches spec);
  so_forks : forks_ok [] (spec_branches spec);
  so_branch_count : 0 < size_of (spec_branches spec) <= max_branches_per_experiment limits;
  so_baseline : spec_require_baseline spec = true -> Exists (fun b => bspec_role b = BranchRole.BASELINE) (spec_branches spec);
  so_rule_count : size_of (spec_rules spec) <= max_comparison_rules limits;
  so_rules : Forall (fun r => rspec_metric r ∈ map mspec_name (spec_metrics spec)
    /\ (rspec_op r = ComparisonOp.TARGET_RANGE -> dltb (rspec_target_high r) (rspec_target_low r) = false)
    /\ (rspec_op r = ComparisonOp.MAJORITY_WINS ->
        dltb (rspec_threshold r) double_zero = false /\ dltb double_one (rspec_threshold r) = false)) (spec_rules spec);
  so_parameters : NoDup (map param_key (spec_parameters spec));
  so_basis_points : spec_majority_wins_min_basis_points spec <= 10000
}.

Lemma list_empty_false {A} (l : list A) : list_empty l = false -> 0 < size_of l.
Proof. destruct l; [done|]. intros _. rewrite size_of_cons. pose proof (size_of_nonneg l). lia. Qed.

Lemma rule_spec_ok names r :
  passes (validate_rule_spec names r) ->
  rspec_metric r ∈ names
  /\ (rspec_op r = ComparisonOp.TARGET_RANGE -> dltb (rspec_target_high r) (rspec_target_low r) = false)
  /\ (rspec_op r = ComparisonOp.MAJORITY_WINS ->
      dltb (rspec_threshold r) double_zero = false /\ dltb double_one (rspec_threshold r) = false).
Proof.
  unfold validate_rule_spec. passes_steps.
  rewrite negb_false_iff, bool_decide_eq_true, !andb_false_impl, !bool_decide_eq_true, orb_false_iff. tauto.
Qed.

Lemma validate_spec_ok spec limits : passes (validate_spec spec limits) -> spec_ok limits spec.
Proof.
  unfold validate_spec. passes_steps. intros H. destruct_and! H.
  repeat match goal with
  | H : passes (validate_metric_specs _ _ _) |- _ => apply validate_metric_specs_ok in H as (? & ? & _)
  | H : passes (validate_branch_specs _ _ _) |- _ => apply validate_branch_specs_ok in H as [? ?]
  | H : passes (check_each _ _) |- _ => rewrite passes_check_each in H
  | H : list_empty _ = false |- _ => apply list_empty_false in H
  | H : (_ <? _) = false |- _ => apply Z.ltb_ge in H
  | H : has_duplicate_parameter_key _ = false |- _ => apply has_duplicate_parameter_key_spec in H
  end.
  constructor; auto.
  - rewrite andb_false_impl in *. intros Hr. 
    match goal with H : spec_require_baseline spec = true -> negb _ = false |- _ => specialize (H Hr); apply negb_false_iff, existsb_true_Exists in H; rename H into Hb end.
    eapply Exists_impl; [exact Hb|]. intros b. apply bool_decide_eq_true.
  - eapply Forall_impl; [eassumption|]. intros r. apply rule_spec_ok.
Qed.

Lemma built_lineage sequence watermark branches built limits :
  0 <= watermark -> branches_built sequence watermark [] branches built ->
  size_of branches <= max_branches_per_experiment limits -> max_branches_per_experiment limits <= 4096 ->
  Forall (fun b => exists l, lineage_of built (branch_id b) l /\ (length l <= lineage_depth_bound)%nat) built.
Proof.
  intros Hw [Heach Hrange Hids Hpars] Hcount Hmax. apply Forall_forall. intros b Hb.
  destruct (ordered_lineage built) with (c := branch_id b) as (l & Hl & Hsub).
  - eapply Forall_impl; [exact Hrange|]. simpl. lia.
  - done.
  - exact Hpars.
  - apply list_elem_of_fmap. by exists b.
  - exists l. split; [done|]. transitivity (length built).
    + rewrite <- (length_map branch_id built). apply submseteq_length, NoDup_submseteq; [by eapply lineage_acyclic|done].
    + apply Forall2_length in Heach. unfold lineage_depth_bound, size_of in *. lia.
Qed.

(** The bounds are unsigned, and the lineage walk is deep enough for the
    number of branches. *)
Record bounds_ok (limits : Limits) : Prop := {
  bo_trials : 0 <= max_trials_per_branch limits;
  bo_observations : 0 <= max_observations_per_experiment limits;
  bo_artifacts : 0 <= max_artifacts_per_experiment limits;
  bo_decisions : 0 <= max_decisions_per_experiment limits;
  bo_depth : max_branches_per_experiment limits <= 4096
}.

Section NewRecord.
Context (limits : Limits) (spec : ExperimentSpec) (experiment hypothesis policy sequence expected : Z).
Context (metric_mark branch_mark : Z) (metrics : list MetricDefinition) (branches : list BranchDefinition).
Context (Hspec : spec_ok limits spec) (Hbounds : bounds_ok limits).
Context (Hmetric_mark : 0 <= metric_mark) (Hmetrics : metrics_built metric_mark (spec_metrics spec) metrics).
Context (Hbranch_mark : 0 <= branch_mark) (Hbranches : branches_built sequence branch_mark [] (spec_branches spec) branches).
#[local] Abbreviation record := (new_record experiment hypothesis policy sequence spec metrics branches expected).
Set Default Proof Using "All".

Lemma new_branch_count : size_of branches = size_of (spec_branches spec).
Proof. destruct Hbranches as [Heach _ _ _]. apply Forall2_length in Heach. unfold size_of. lia. Qed.

Lemma new_record_lineage : lineage_wf record.
Proof.
  pose proof (built_lineage _ _ _ _ limits Hbranch_mark Hbranches) as Hlin.
  destruct Hspec, Hbounds, Hbranches as [Heach Hrange Hids Hpars]. constructor; simpl.
  - eapply Forall_impl; [exact Hrange|]. simpl. lia.
  - done.
  - eapply Forall_impl; [exact Hpars|]. simpl. tauto.
  - intros Hreq. specialize (so_baseline0 Hreq). apply Exists_exists in so_baseline0 as (b & Hb & Hrole).
    destruct (Forall2_elem_l _ _ _ _ Heach Hb) as (d & Hd & Hfrom). apply Exists_exists. exists d.
    split; [done|]. by rewrite (bf_role _ _ _ Hfrom).
  - apply Hlin; lia.
Qed.

Lemma new_record_metrics : weighted_ok spec -> metrics_wf limits record.
Proof.
  intros Hweighted. pose proof (metrics_built_names _ _ _ Hmetrics) as Hnames.
  destruct Hspec, Hmetrics as [Heach Hrange Hids]. pose proof (Forall2_length _ _ _ Heach) as Hlen.
  constructor; simpl; unfold metric_ids, size_of in *; simpl; rewrite ?Hnames, <- ?Hlen, ?length_map; try done.
  - apply Forall_forall. intros d Hd. destruct (Forall2_elem_r _ _ _ _ Heach Hd) as (m & Hm & Hdm).
    pose proof (proj1 (Forall_forall _ _) Hrange d Hd) as Hpos. rewrite Hdm.
    split; [simpl in *; lia|]. exact (proj1 (Forall_forall _ _) so_metrics0 m Hm).
  - apply Forall_map. eapply Forall_impl; [exact so_rules0|]. intros r (Hname & Hrange' & Hmajority).
    split; [|by split]. simpl. rewrite <- Hnames in Hname.
    destruct (name_find_elem (rspec_metric r) (metric_names_of metrics)) as (id & Hfind & Hin).
    { unfold metric_names_of. by rewrite map_map. }
    rewrite Hfind. apply list_elem_of_fmap in Hin as (d & [= _ ->] & Hd). simpl. unfold metric_ids. simpl.
    apply list_elem_of_fmap. by exists d.
  - intros Huse. specialize (Hweighted Huse). rewrite Forall_forall in Hweighted. apply Forall_forall. intros d Hd.
    destruct (Forall2_elem_r _ _ _ _ Heach Hd) as (m & Hm & ->). exact (Hweighted m Hm).
Qed.

Lemma new_record_wf : weighted_ok spec -> hypothesis <> 0 -> record_wf limits record experiment.
Proof.
  intros Hweighted Hhyp. pose proof (new_record_metrics Hweighted). pose proof new_record_lineage.
  pose proof new_branch_count as Hcount.
  destruct Hspec, Hbounds, Hbranches as [Heach Hrange Hids Hpars].
  constructor; simpl; try done; try (by constructor); try (split_and!; unfold size_of in *; simpl; lia || done).
  - by apply normalize_parameters_keys.
  - apply Forall_forall. intros d Hd. destruct (Forall2_elem_r _ _ _ _ Heach Hd) as (b & Hb & Hfrom).
    rewrite Forall_forall in so_branches0. destruct (so_branches0 b Hb) as (Hkeys & Hpos & Hmax).
    rewrite (bf_planned _ _ _ Hfrom). split; [|done]. by apply (bf_keys _ _ _ Hfrom).
  - unfold branch_ids, size_of. simpl. nia.
Qed.
End NewRecord.

(** ** Creation *)

Lemma om_find_emplace_ne {K A} `{KeyOrder K} k k' (v : A) m : k' <> k -> om_find k' (om_emplace k v m) = om_find k' m.
Proof. intros Hne. rewrite om_find_emplace, decide_False by done. by destruct (om_find k' m). Qed.

Section Accepted.
Context `{StorageLaws}.
Implicit Types (impl : Impl).

(** The coordinator admits work, holds fewer experiments than it may, has
    identities left for the specification, and the next identity of an
    experiment is unused. *)
Record admits (spec : ExperimentSpec) (impl : Impl) : Prop := {
  ad_bounds : bounds_ok (impl_limits impl);
  ad_admitting : impl_admitting_work impl = true;
  ad_count : size_of (st_experiments (impl_state impl)) < max_experiments (impl_limits impl);
  ad_hypothesis : 0 <= st_id_watermark_hypothesis (impl_state impl) < u64_max;
  ad_metric : 0 <= st_id_watermark_metric (impl_state impl)
    /\ st_id_watermark_metric (impl_state impl) + size_of (spec_metrics spec) <= u64_max;
  ad_branch : 0 <= st_id_watermark_branch (impl_state impl)
    /\ st_id_watermark_branch (impl_state impl) + size_of (spec_branches spec) <= u64_max;
  ad_fresh : om_find (increment (st_id_watermark_experiment (impl_state impl))) (st_experiments (impl_state impl)) = None
}.

(** A fresh record that holds what the specification declares. *)
Record created_from (spec : ExperimentSpec) (limits : Limits) (id : Z) (r : ExperimentRecord) : Prop := {
  cf_wf : record_wf limits r id;
  cf_state : rec_state r = ExperimentState.OPEN;
  cf_generation : def_generation (rec_definition r) = 1;
  cf_name : def_name (rec_definition r) = spec_name spec;
  cf_statement : hyp_statement (rec_hypothesis r) = spec_hypothesis_statement spec;
  cf_metrics : Forall2 (fun m d => d = build_metric (metric_id d) m) (spec_metrics spec) (def_metrics (rec_definition r));
  cf_branches : Forall2 (branch_from (rec_created_sequence r)) (spec_branches spec) (def_branches (rec_definition r));
  cf_policy : policy_rules (def_policy (rec_definition r))
    = map (build_rule (metric_names_of (def_metrics (rec_definition r)))) (spec_rules spec);
  cf_trials : rec_trials r = [] /\ rec_attempts r = [] /\ rec_observations r = [] /\ rec_decisions r = []
}.

Lemma new_record_created limits spec experiment hypothesis policy sequence expected metric_mark branch_mark metrics branches :
  spec_ok limits spec -> bounds_ok limits -> weighted_ok spec -> hypothesis <> 0 ->
  0 <= metric_mark -> metrics_built metric_mark (spec_metrics spec) metrics ->
  0 <= branch_mark -> branches_built sequence branch_mark [] (spec_branches spec) branches ->
  created_from spec limits experiment (new_record experiment hypothesis policy sequence spec metrics branches expected).
Proof.
  intros Hs Hl Hw Hh Hmm Hm Hbm Hb. constructor; try reflexivity.
  - by apply new_record_wf with (metric_mark := metric_mark) (branch_mark := branch_mark).
  - by destruct Hm.
  - by destruct Hb.
  - by split_and!.
Qed.

Lemma expected_metric_found spec metric_mark metrics :
  metrics_built metric_mark (spec_metrics spec) metrics ->
  (forall name, spec_expected_metric spec = Some name -> name ∈ map mspec_name (spec_metrics spec)) ->
  exists expected, match spec_expected_metric spec with
                   | None => Some 0
                   | Some name => name_find name (metric_names_of metrics)
                   end = Some expected.
Proof.
  intros Hm Hexp. destruct (spec_expected_metric spec) as [name|]; [|eauto].
  destruct (name_find_elem name (metric_names_of metrics)) as (id & Hid & _); [|eauto].
  unfold metric_names_of. rewrite map_map. change (name ∈ map metric_name metrics).
  rewrite (metrics_built_names _ _ _ Hm). by apply Hexp.
Qed.

(** The specification is created under the next identity, every other
    experiment stays as it was; if the storage refuses the image, nothing is
    added. *)
Definition creates (spec : ExperimentSpec) (impl : Impl) : Prop :=
  let id := increment (st_id_watermark_experiment (impl_state impl)) in
  let '(impl', result) := create_experiment spec impl in
  (forall other, other <> id -> find_experiment other impl' = find_experiment other impl)
  /\ match result with
     | Ok given => given = id /\ exists r, find_experiment id impl' = Some r /\ created_from spec (impl_limits impl) id r
     | Err s => find_experiment id impl' = None /\ status_ok s = false /\ exists stored, (persist_locked stored).2 = s
     end.

(** What a specification needs besides passing [validate_spec], which looks at
    neither: directed required metrics for a weighted score, and an expected
    metric that is declared. *)
Definition consistent (spec : ExperimentSpec) : Prop :=
  weighted_ok spec
  /\ forall name, spec_expected_metric spec = Some name -> name ∈ map mspec_name (spec_metrics spec).

Lemma valid_spec_creates spec impl :
  status_ok (validate_spec spec (impl_limits impl)) = true -> consistent spec -> admits spec impl -> creates spec impl.
Proof.
  intros Hvalid [Hweighted Hexp] [Hbounds Hadm Hcount Hh [Hm0 Hm] [Hb0 Hb] Hfresh]. unfold creates.
  set (id := increment (st_id_watermark_experiment (impl_state impl))). unfold create_experiment.
  pose proof (validate_spec_ok _ _ Hvalid) as Hspec.
  rewrite Hvalid, Hadm. cbn [negb]. rewrite (proj2 (Z.leb_gt _ _) Hcount). unfold alloc_experiment_id. fold id. simpl.
  fold id in Hfresh. unfold om_mem. rewrite Hfresh. simpl. unfold next_sequence, alloc_hypothesis_id. simpl.
  destruct (build_metrics_built _ _ Hm0 Hm) as [_ Hmetrics]. destruct (build_metrics _ _) as [metric_mark metrics]. simpl in Hmetrics.
  destruct (expected_metric_found _ _ _ Hmetrics Hexp) as [expected ->].
  set (sequence := increment _). set (hypothesis := increment _). set (policy := increment _).
  destruct (build_branches_built (impl_limits impl) sequence (st_id_watermark_branch (impl_state impl)) [] [] (spec_branches spec))
    as (branches & Hbuild & Hbranches); [done|done|by destruct Hspec|by destruct Hspec|set_solver|constructor|].
  simpl. rewrite Hbuild. simpl.
  set (record := new_record _ _ _ _ _ _ _ _).
  assert (Hcreated : created_from spec (impl_limits impl) id record).
  { apply new_record_created with (metric_mark := st_id_watermark_metric (impl_state impl))
      (branch_mark := st_id_watermark_branch (impl_state impl)); try done.
    unfold hypothesis, increment. rewrite u64_succ_small by done. lia. }
  unfold find_experiment at 1. simpl. rewrite om_find_emplace, decide_True, Hfresh by done. simpl.
  assert (Hv : status_ok (validate_experiment_record record (impl_limits impl) id) = true).
  { apply validate_record_wf, Hcreated. }
  rewrite Hv. simpl. destruct (persist_locked _) as [impl1 persisted] eqn:Hp.
  pose proof (f_equal snd Hp) as Hstatus. apply persist_state in Hp as (d & w & -> & _). simpl in Hstatus.
  destruct (status_ok persisted) eqn:Hok; simpl; unfold find_experiment; simpl.
  - match goal with |- context [notify_event ?e ?x] => destruct (notify_event_state e x) as [n ->] end. simpl. split; [intros other Hne; by apply om_find_emplace_ne|]. split; [done|].
    exists record. by rewrite om_find_emplace, decide_True, Hfresh.
  - split; [intros other Hne; rewrite om_find_erase, decide_False by done; by apply om_find_emplace_ne|].
    rewrite om_find_erase, decide_True by done. split; [done|]. split; [done|]. by eexists.
Qed.


End Accepted.

(** The concrete experiment of the run, created by a fresh coordinator. *)
Lemma default_bounds : bounds_ok default_Limits.
Proof. constructor; vm_compute; discriminate. Qed.

Lemma fresh_admits spec :
  size_of (spec_metrics spec) <= u64_max -> size_of (spec_branches spec) <= u64_max -> admits spec Run.s0.
Proof.
  intros Hm Hb. constructor; [exact default_bounds|reflexivity|vm_compute; reflexivity| | | |vm_compute; reflexivity].
  - split; [vm_compute; discriminate|vm_compute; reflexivity].
  - split; [vm_compute; discriminate|exact Hm].
  - split; [vm_compute; discriminate|exact Hb].
Qed.

