(* ===== verification/Durability.v ===== *)
(** * Acknowledged changes are durable

    Every operation reports success only after the state it leaves has been
    written.  A coordinator that crashes afterwards and is started again from
    the same path begins with exactly that state, its texts cut at the bounds
    of the stored format. *)
From S2P Require Import Prelude OMap Error Domain Identity Float64 Model Hash Sorting Canonical State Wire Codec StateCodec Messages Spec Coordinator Authority Evidence Decision Scenario Fencing History Ledger Invariants Recovery System.

(** ** What a call reports *)

Section Durability.
Context `{StorageLaws} `{Formatting}.
Implicit Types (impl : Impl) (op : Op).

(** The caller is told that the call has succeeded. *)
Definition succeeded (op : Op) (impl : Impl) : bool :=
  match op with
  | OpCreateExperiment spec => result_ok (create_experiment spec impl).2
  | OpReviseHypothesis experiment spec => result_ok (revise_hypothesis experiment spec impl).2
  | OpForkBranch experiment parent spec => result_ok (fork_branch experiment parent spec impl).2
  | OpRetireBranch experiment branch reason => result_ok (retire_branch experiment branch reason impl).2
  | OpCreateTrial experiment branch payload => result_ok (create_trial experiment branch payload impl).2
  | OpRegisterWorker request => status_ok (regr_status (register_worker request impl).2)
  | OpRevokeWorker worker boot kind reason => status_ok (revoke_worker worker boot kind reason impl).2
  | OpHeartbeat request => status_ok (heartbeat request impl).2
  | OpClaimTrials request => status_ok (claimr_status (claim_trials request impl).2)
  | OpPublishObservation request => status_ok (publish_observation request impl).2
  | OpPublishArtifact request => status_ok (publish_artifact request impl).2
  | OpCommitTrial request => status_ok (commit_trial request impl).2
  | OpFailTrial request => status_ok (fail_trial request impl).2
  | OpCancelTrial trial reason => status_ok (cancel_trial trial reason impl).2
  | OpCancelExperiment experiment reason => status_ok (cancel_experiment experiment reason impl).2
  | OpFinalize experiment candidate reason => result_ok (finalize_experiment experiment candidate reason impl).2
  | OpRollback experiment target reason => status_ok (rollback experiment target reason impl).2
  | OpSave => status_ok (coordinator_save impl).2
  | OpSetAdmission _ => true
  end.

(** The calls that promise something durable: not a heartbeat, not the flag of
    the server, and not a claim that has handed out nothing. *)
Definition promises (op : Op) (impl : Impl) : bool :=
  match op with
  | OpHeartbeat _ | OpSetAdmission _ => false
  | OpClaimTrials request => negb (list_empty (claimr_assignments (claim_trials request impl).2))
  | _ => true
  end.

(** The coordinator is as a successful [persist_locked] has left it, but for
    what observers were told. *)
Definition persisted_by (impl : Impl) : Prop :=
  exists before after status, persist_locked before = (after, status) /\ status_ok status = true
    /\ impl_state impl = impl_state after /\ impl_world impl = impl_world after /\ impl_config impl = impl_config after.

Lemma persisted_intro before after status :
  persist_locked before = (after, status) -> negb (status_ok status) = false -> persisted_by after.
Proof. intros Hp Hs. exists before, after, status. apply negb_false_iff in Hs. done. Qed.

Lemma persisted_notify_event event impl : persisted_by impl -> persisted_by (notify_event event impl).
Proof. destruct (notify_event_state event impl) as [n ->]. done. Qed.
Lemma persisted_notify_decision decision impl : persisted_by impl -> persisted_by (notify_decision decision impl).
Proof. destruct (notify_decision_state decision impl) as [n ->]. done. Qed.

Definition durable_or_same (impl impl' : Impl) : Prop := impl_state impl' = impl_state impl \/ persisted_by impl'.
End Durability.

(** Splits a call into its branches, keeping the writes. *)
Ltac call_branches :=
  repeat match goal with
  | |- context [persist_locked ?x] =>
      let Hp := fresh "Hpersist" in destruct (persist_locked x) as [? ?] eqn:Hp
  | |- context [match ?x with _ => _ end] =>
      lazymatch x with
      | context [match _ with _ => _ end] => fail
      | _ => destruct x eqn:?
      end
  end; cbn [fst snd result_ok].

(** A branch that reports failure, leaves the state, or has written it. *)
Ltac call_ends :=
  intros Hok; first
    [ discriminate Hok
    | by left
    | right; repeat first [apply persisted_notify_event|apply persisted_notify_decision]; by eapply persisted_intro
    | match goal with Hs : negb (status_ok _) = true |- _ => apply negb_true_iff in Hs; by destruct (eq_true_false_abs _ Hok Hs) end ].

Section Calls.
Context `{StorageLaws} `{Formatting}.
Implicit Types (impl : Impl).

Lemma create_experiment_durable spec impl :
  result_ok (create_experiment spec impl).2 = true -> durable_or_same impl (create_experiment spec impl).1.
Proof. unfold create_experiment. call_branches; call_ends. Qed.

Lemma revise_hypothesis_durable experiment spec impl :
  result_ok (revise_hypothesis experiment spec impl).2 = true -> durable_or_same impl (revise_hypothesis experiment spec impl).1.
Proof. unfold revise_hypothesis. call_branches; call_ends. Qed.

Lemma fork_branch_durable experiment parent spec impl :
  result_ok (fork_branch experiment parent spec impl).2 = true -> durable_or_same impl (fork_branch experiment parent spec impl).1.
Proof. unfold fork_branch. call_branches; call_ends. Qed.

Lemma retire_branch_durable experiment branch reason impl :
  result_ok (retire_branch experiment branch reason impl).2 = true -> durable_or_same impl (retire_branch experiment branch reason impl).1.
Proof. unfold retire_branch. call_branches; call_ends. Qed.

Lemma create_trial_durable experiment branch payload impl :
  result_ok (create_trial experiment branch payload impl).2 = true -> durable_or_same impl (create_trial experiment branch payload impl).1.
Proof. unfold create_trial. call_branches; call_ends. Qed.

Lemma register_worker_durable request impl :
  status_ok (regr_status (register_worker request impl).2) = true -> durable_or_same impl (register_worker request impl).1.
Proof. unfold register_worker. call_branches; call_ends. Qed.

Lemma revoke_worker_durable worker boot kind reason impl :
  status_ok (revoke_worker worker boot kind reason impl).2 = true -> durable_or_same impl (revoke_worker worker boot kind reason impl).1.
Proof. unfold revoke_worker. call_branches; call_ends. Qed.

Lemma claim_trials_durable request impl :
  status_ok (claimr_status (claim_trials request impl).2) = true ->
  list_empty (claimr_assignments (claim_trials request impl).2) = false -> persisted_by (claim_trials request impl).1.
Proof.
  unfold claim_trials. repeat (case_match; [done|]). case_match; [|done].
  case_match; [done|]. case_match; [done|]. cbv zeta. set (placed := (loop_impl _) <| impl_live_workers ::= _ |>). clearbody placed.
  set (assignments := loop_assignments _). clearbody assignments. destruct (list_empty assignments) eqn:Hempty.
  { intros _ Hc. cbn [snd claimr_assignments] in Hc. congruence. }
  destruct (persist_locked placed) as [after status] eqn:Hp. cbn [fst snd claimr_status].
  intros Hs _. eapply persisted_intro; [exact Hp|]. by destruct (status_ok status) eqn:E; [|rewrite E in Hs].
Qed.

Lemma accept_observation_durable o record trial attempt impl :
  status_ok (accept_observation o record trial attempt impl).2 = true ->
  durable_or_same impl (accept_observation o record trial attempt impl).1.
Proof. unfold accept_observation. call_branches; call_ends. Qed.

Lemma publish_observation_durable request impl :
  status_ok (publish_observation request impl).2 = true -> durable_or_same impl (publish_observation request impl).1.
Proof.
  unfold publish_observation. case_match; [|done]. cbv zeta. set (o := pubo_observation request).
  repeat (case_match; try apply accept_observation_durable); call_branches; call_ends.
Qed.

Lemma publish_artifact_durable request impl :
  status_ok (publish_artifact request impl).2 = true -> durable_or_same impl (publish_artifact request impl).1.
Proof.
  unfold publish_artifact. repeat (case_match; [|done]). cbv zeta.
  set (result := check_envelope _ impl). clearbody result.
  destruct (verdict_accepted (check_verdict result)), (check_record result), (check_trial result);
    [unfold accept_artifact|..]; call_branches; call_ends.
Qed.

Lemma commit_trial_durable request impl :
  status_ok (commit_trial request impl).2 = true -> durable_or_same impl (commit_trial request impl).1.
Proof. unfold commit_trial, accept_commit. call_branches; call_ends. Qed.

Lemma fail_trial_durable request impl :
  status_ok (fail_trial request impl).2 = true -> durable_or_same impl (fail_trial request impl).1.
Proof. unfold fail_trial. call_branches; call_ends. Qed.

Lemma cancel_trial_durable trial reason impl :
  status_ok (cancel_trial trial reason impl).2 = true -> durable_or_same impl (cancel_trial trial reason impl).1.
Proof. unfold cancel_trial. call_branches; call_ends. Qed.

Lemma cancel_experiment_durable experiment reason impl :
  status_ok (cancel_experiment experiment reason impl).2 = true -> durable_or_same impl (cancel_experiment experiment reason impl).1.
Proof. unfold cancel_experiment. call_branches; call_ends. Qed.

Lemma finalize_experiment_durable experiment candidate reason impl :
  result_ok (finalize_experiment experiment candidate reason impl).2 = true ->
  durable_or_same impl (finalize_experiment experiment candidate reason impl).1.
Proof. unfold finalize_experiment. call_branches; call_ends. Qed.

Lemma rollback_durable experiment target reason impl :
  status_ok (rollback experiment target reason impl).2 = true ->
  durable_or_same impl (rollback experiment target reason impl).1.
Proof. unfold rollback. call_branches; call_ends. Qed.
End Calls.

Section AcknowledgedChanges.
Context `{StorageLaws} `{Formatting}.
Implicit Types (impl : Impl) (op : Op).

Lemma exec_durable op impl :
  promises op impl = true -> succeeded op impl = true -> durable_or_same impl (exec op impl).
Proof.
  destruct op; simpl; try done; intros Hp Hs.
  - by apply create_experiment_durable.
  - by apply revise_hypothesis_durable.
  - by apply fork_branch_durable.
  - by apply retire_branch_durable.
  - by apply create_trial_durable.
  - by apply register_worker_durable.
  - by apply revoke_worker_durable.
  - right. apply claim_trials_durable; [done|]. by apply negb_true_iff.
  - by apply publish_observation_durable.
  - by apply publish_artifact_durable.
  - by apply commit_trial_durable.
  - by apply fail_trial_durable.
  - by apply cancel_trial_durable.
  - by apply cancel_experiment_durable.
  - by apply finalize_experiment_durable.
  - by apply rollback_durable.
  - right. unfold coordinator_save in *. destruct (persist_locked impl) as [after status] eqn:Hpl.
    eapply persisted_intro; [exact Hpl|]. by apply negb_false_iff.
Qed.

(** The image at the coordinator's path holds its state and nothing else. *)
Definition stored (impl : Impl) : Prop :=
  image_exists (config_state_path (impl_config impl)) (impl_world impl) = true
  /\ forall limits s, load_image (config_state_path (impl_config impl)) limits (impl_world impl) = Ok s ->
       s = clip_state (impl_state impl).

Lemma persisted_stored impl :
  persisted_by impl -> state_keyed (impl_state impl) -> str_empty (config_state_path (impl_config impl)) = false -> stored impl.
Proof.
  intros (before & after & status & Hp & Hok & Hs & Hw & Hc) Hk Hpath. unfold stored. rewrite Hc, Hw, Hs.
  rewrite Hs in Hk. rewrite Hc in Hpath. clear Hs Hw Hc impl.
  pose proof (persist_state _ _ _ Hp) as (d & w & Hafter & _).
  assert (Hcfg : impl_config after = impl_config before) by (by rewrite Hafter).
  assert (Hst : impl_state after = impl_state before) by (by rewrite Hafter).
  rewrite Hcfg in *. rewrite Hst in *. clear Hafter Hcfg Hst d w.
  unfold persist_locked, persist_locked_if in Hp. rewrite Hpath in Hp. cbn [negb andb] in Hp.
  destruct (serialize _ _) as [bytes|e] eqn:Hser.
  2: { injection Hp as <- <-. by rewrite (serialize_refuses _ _ _ Hser) in Hok. }
  destruct (save_image _ _ _ _) as [world written] eqn:Hsave.
  destruct (status_ok written) eqn:Hw; injection Hp as <- <-; [|congruence]. simpl.
  by eapply save_image_stored.
Qed.

(** What [create] starts from when the image exists. *)
Lemma create_loads config world world' impl :
  create config world = (world', Ok impl) -> str_empty (config_state_path config) = false ->
  image_exists (config_state_path config) world = true ->
  exists world0 s, load_image (config_state_path config) (config_limits config) world = Ok s
    /\ impl = (reconcile_recovered_state (starting config s world0)).1.
Proof.
  unfold create. intros Hc Hpath Hex. destruct (negb (is_coherent _)); [done|]. rewrite Hpath in Hc.
  destruct (discard_temporary_images _ world) as [world0 result] eqn:Hd.
  rewrite <- (discard_keeps _ _ _ _ Hd) in Hex. destruct result as [n|e]; [|done]. rewrite Hex in Hc.
  destruct (load_image _ _ world0) as [s|e] eqn:Hl; [|done]. exists world0, s. split; [by eapply discard_preserves|].
  unfold starting, minted_epoch. destruct (reconcile_recovered_state _) as [impl1 recovered]. simpl.
  destruct (status_ok recovered); by simplify_eq.
Qed.

(** A change that could not be written leaves the stored image as it was. *)
Lemma persist_refused_keeps_image impl impl' status :
  persist_locked impl = (impl', status) -> status_ok status = false ->
  let path := config_state_path (impl_config impl) in
  image_exists path (impl_world impl') = image_exists path (impl_world impl)
  /\ forall limits, load_image path limits (impl_world impl') = load_image path limits (impl_world impl).
Proof.
  unfold persist_locked, persist_locked_if. destruct (str_empty _); [by intros [= <- <-]|]. cbn [negb andb].
  destruct (serialize _ _) as [bytes|e]; [|by intros [= <- _] _].
  destruct (save_image _ _ _ _) as [world written] eqn:Hs. destruct (status_ok written) eqn:Hw; [by intros [= _ <-]|].
  intros [= <- _] _. cbn zeta. simpl. by eapply save_image_refused.
Qed.

End AcknowledgedChanges.

(** ** In the run of [Scenario] *)

