(* ===== verification/Safety.v ===== *)
(** * What every history of the fabric guarantees

    Completion happens at most once, nothing that has been recorded is
    rewritten, authority that has been withdrawn never comes back, and a
    restart inherits no authority. *)
From S2P Require Import Prelude OMap Error Domain Identity Float64 Model Hash Sorting Canonical State Messages Spec Coordinator Authority Evidence Decision Scenario Fencing History Ledger Invariants Recovery System.

Section Safety.
Context `{StorageLaws} `{Formatting}.
Implicit Types (impl : Impl) (op : Op) (e : AuthorityEnvelope).

Lemma reachable_ledger impl id r :
  reachable (Up impl) -> find_experiment id impl = Some r ->
  ledger_inv (trial_mark impl) (attempt_mark impl) (rec_trials r) (rec_attempts r).
Proof. intros Hr Hf. by destruct (inv_record _ _ _ (reachable_inv _ Hr) Hf). Qed.

(** C1: in every state any history of operations, crashes and restarts can
    reach, a trial is COMPLETED exactly when an attempt has been committed for
    it, that attempt is its authoritative one and the only one committed, and
    the trial's commit counter is 1 or 0 accordingly. *)
Theorem completion_at_most_once impl id r k t :
  reachable (Up impl) -> find_experiment id impl = Some r -> om_find k (rec_trials r) = Some t ->
  if decide (trial_state t = TrialState.COMPLETED) then
    trial_committed_attempts t = 1
    /\ forall ka a, om_find ka (rec_attempts r) = Some a -> attempt_trial a = k ->
       (attempt_committed a = true <-> ka = trial_authoritative_attempt t)
  else trial_committed_attempts t = 0
    /\ forall ka a, om_find ka (rec_attempts r) = Some a -> attempt_trial a = k -> attempt_committed a = false.
Proof.
  intros Hr Hf Ht. pose proof (reachable_ledger _ _ _ Hr Hf) as Hl. case_decide as Hc.
  - destruct (li_completed _ _ _ _ Hl k t Ht Hc) as (Hn & a0 & Ha0 & Hat0 & Hac0). split; [done|].
    intros ka a Ha Hk. split.
    + intros Hac. rewrite <- Hk in Ht. by destruct (li_committed _ _ _ _ Hl ka a t Ha Ht Hac) as (_ & _ & <-).
    + intros ->. congruence.
  - split; [by eapply li_uncommitted|]. intros ka a Ha Hk. destruct (attempt_committed a) eqn:Hac; [|done].
    rewrite <- Hk in Ht. by destruct (li_committed _ _ _ _ Hl ka a t Ha Ht Hac) as (_ & Hcomp & _).
Qed.

(** C4: an attempt that is still running always belongs to an unfinished trial
    of the same branch, and is that trial's authoritative attempt; so a trial
    never has two attempts running. *)
Theorem running_attempt_authoritative impl id r ka a :
  reachable (Up impl) -> find_experiment id impl = Some r -> om_find ka (rec_attempts r) = Some a ->
  is_attempt_terminal (attempt_state a) = false ->
  exists t, om_find (attempt_trial a) (rec_trials r) = Some t /\ is_terminal (trial_state t) = false
    /\ trial_authoritative_attempt t = ka /\ attempt_branch a = trial_branch t.
Proof.
  intros Hr Hf Ha Ho. pose proof (reachable_ledger _ _ _ Hr Hf) as Hl.
  destruct (li_link _ _ _ _ Hl ka a Ha) as (t & Ht & Hb). exists t.
  destruct (li_open _ _ _ _ Hl ka a t Ha Ht Ho). done.
Qed.

(** C5: no operation of a run rewrites history: finished trials and attempts
    stay exactly as they are, trials, attempts, branches and metrics keep what
    they were bound to, and observations, artifacts, decisions, rollback
    points, superseded hypotheses, rejections and workers are only appended
    to, with a revoked worker staying revoked. *)
Theorem history_preserved impl impl' : reachable (Up impl) -> runs impl impl' -> evolves impl impl'.
Proof. apply runs_evolves. Qed.

(** ** Withdrawn authority *)

(** An envelope whose trial or attempt is finished, or whose worker
    incarnation has been revoked. *)
Inductive spent (e : AuthorityEnvelope) (impl : Impl) : Prop :=
| spent_trial r t : find_experiment (env_experiment e) impl = Some r ->
    om_find (env_trial e) (rec_trials r) = Some t -> is_terminal (trial_state t) = true -> spent e impl
| spent_attempt r a : find_experiment (env_experiment e) impl = Some r ->
    om_find (env_attempt e) (rec_attempts r) = Some a -> is_attempt_terminal (attempt_state a) = true -> spent e impl
| spent_worker live : find_live_worker (env_worker e) (env_boot e) impl = Some live -> live_revoked live = true -> spent e impl.

Lemma spent_evolves e impl impl' : evolves impl impl' -> spent e impl -> spent e impl'.
Proof.
  intros He [r t Hr Ht Hterm|r a Hr Ha Hterm|live Hl Hrev].
  - destruct (evo_experiments _ _ He _ _ Hr) as (r' & Hr' & Hre). destruct (re_trials _ _ Hre _ _ Ht) as (t' & Ht' & _ & Hsame).
    apply (spent_trial _ _ r' t'); auto. by rewrite (Hsame Hterm).
  - destruct (evo_experiments _ _ He _ _ Hr) as (r' & Hr' & Hre). destruct (re_attempts _ _ Hre _ _ Ha) as (a' & Ha' & _ & Hsame).
    apply (spent_attempt _ _ r' a'); auto. by rewrite (Hsame Hterm).
  - destruct (evo_live _ _ He _ _ Hl) as (live' & Hl' & _ & _ & _ & Hrev'). apply (spent_worker _ _ live'); auto.
Qed.

Lemma spent_not_authorized e impl : spent e impl -> verdict_accepted (check_verdict (check_envelope e impl)) = false.
Proof.
  intros Hs. destruct (check_envelope_cases e impl) as [(r & b & t & a & l & (_ & Hp & Hr & Hn) & _)|[_ ->]]; [|done].
  destruct Hp, Hr, Hn, Hs; congruence.
Qed.

(** What has been withdrawn stays withdrawn for the life of the process. *)
Lemma spent_forever e impl impl' :
  reachable (Up impl) -> runs impl impl' -> spent e impl ->
  verdict_accepted (check_verdict (check_envelope e impl')) = false.
Proof. intros Hr Hrun Hs. eapply spent_not_authorized, spent_evolves; [by eapply runs_evolves|done]. Qed.

(** After one operation, and whatever follows it. *)
Lemma spent_after op e impl impl' :
  reachable (Up impl) -> room op impl -> spent e (exec op impl) -> runs (exec op impl) impl' ->
  verdict_accepted (check_verdict (check_envelope e impl')) = false.
Proof.
  intros Hr Hroom Hs Hrun. eapply spent_forever; [|exact Hrun|exact Hs]. eapply reachable_step; [exact Hr|by constructor].
Qed.

(** *** Each operation that withdraws authority *)

(** The record an operation has left under a key, whatever was persisted. *)
Lemma find_written id r m impl : st_experiments (impl_state impl) = om_set id r m -> find_experiment id impl = Some r.
Proof. intros Hx. unfold find_experiment. by rewrite Hx, om_find_set_eq. Qed.

(** Revising the hypothesis fences every envelope of the experiment: no
    publication, completion or failure that was authorized before the
    revision is accepted in any later state of the process. *)
Theorem revise_hypothesis_fences e spec revision impl impl' :
  reachable (Up impl) -> verdict_accepted (check_verdict (check_envelope e impl)) = true ->
  (revise_hypothesis (env_experiment e) spec impl).2 = Ok revision ->
  runs (revise_hypothesis (env_experiment e) spec impl).1 impl' ->
  verdict_accepted (check_verdict (check_envelope e impl')) = false.
Proof.
  intros Hr (r & b & t & a & l & _ & _ & [Hf _ Ht _] & Hn)%check_envelope_inv Hok.
  apply (spent_after (OpReviseHypothesis (env_experiment e) spec)); [done..|]. revert Hok.
  simpl. unfold revise_hypothesis. rewrite Hf. op_branches; intros Hok; try done.
  eapply spent_trial; [eapply find_written; reflexivity|simpl; rewrite om_find_map, Ht; reflexivity|].
  simpl. by rewrite (cur_trial_open _ _ _ _ _ Hn).
Qed.

(** Retiring a branch fences every envelope of that branch. *)
Lemma retire_branch_fences e reason branch impl impl' :
  reachable (Up impl) -> verdict_accepted (check_verdict (check_envelope e impl)) = true ->
  (retire_branch (env_experiment e) (env_branch e) reason impl).2 = Ok branch ->
  runs (retire_branch (env_experiment e) (env_branch e) reason impl).1 impl' ->
  verdict_accepted (check_verdict (check_envelope e impl')) = false.
Proof.
  intros Hr (r & b & t & a & l & _ & _ & [Hf _ Ht _] & Hn)%check_envelope_inv Hok.
  apply (spent_after (OpRetireBranch (env_experiment e) (env_branch e) reason)); [done..|]. revert Hok.
  simpl. unfold retire_branch. rewrite Hf. op_branches; intros Hok; try done.
  eapply spent_trial; [eapply find_written; reflexivity|simpl; rewrite om_find_map, Ht; reflexivity|].
  simpl. by rewrite (cur_trial_branch _ _ _ _ _ Hn), Z.eqb_refl, (cur_trial_open _ _ _ _ _ Hn).
Qed.

(** Cancelling an experiment fences every envelope of it. *)
Lemma cancel_experiment_fences e reason impl impl' :
  reachable (Up impl) -> verdict_accepted (check_verdict (check_envelope e impl)) = true ->
  (cancel_experiment (env_experiment e) reason impl).2 = success ->
  runs (cancel_experiment (env_experiment e) reason impl).1 impl' ->
  verdict_accepted (check_verdict (check_envelope e impl')) = false.
Proof.
  intros Hr (r & b & t & a & l & _ & _ & [Hf _ Ht _] & Hn)%check_envelope_inv Hok.
  apply (spent_after (OpCancelExperiment (env_experiment e) reason)); [done..|]. revert Hok.
  simpl. unfold cancel_experiment. rewrite Hf.
  rewrite bool_decide_false by apply (not_mutable _ (cur_mutable _ _ _ _ _ Hn)).
  op_branches; intros Hok; try done.
  all: eapply spent_trial; [eapply find_written; reflexivity|simpl; rewrite om_find_map, Ht; reflexivity|].
  all: simpl; by rewrite (cur_trial_open _ _ _ _ _ Hn).
Qed.

Lemma rollback_record_trials chosen experiment point sequence reason r :
  rec_trials (rollback_record chosen experiment point sequence reason r)
  = rec_trials (abandon_stale_live_work sequence r).
Proof. unfold rollback_record. by destruct (restore_branches _ _). Qed.

(** Once a completion has been accepted no second one is: after a
    successful commit every envelope for that trial, the committed one
    included, is refused in every later state of the process. *)
Theorem commit_trial_final request e impl impl' :
  reachable (Up impl) -> (commit_trial request impl).2 = success ->
  env_experiment e = env_experiment (commit_envelope request) -> env_trial e = env_trial (commit_envelope request) ->
  runs (commit_trial request impl).1 impl' ->
  verdict_accepted (check_verdict (check_envelope e impl')) = false.
Proof.
  intros Hr Hok He Ht. apply (spent_after (OpCommitTrial request)); [done..|]. revert Hok. simpl.
  unfold commit_trial. destruct (envelope_mismatch _ _ _ _); [done|].
  destruct (check_envelope_cases (commit_envelope request) impl)
    as [(r & b & t & a & l & (_ & _ & [Hf _ Htr Ha] & Hn) & ->)|[_ ->]]; envelope_result; [|done].
  unfold accept_commit, write_back. rewrite bool_decide_false.
  2: { intros Hc. pose proof (cur_trial_open _ _ _ _ _ Hn) as Ho. by rewrite Hc in Ho. }
  destruct (next_sequence impl) as [sequence impl1].
  destruct (register_artifacts _ _ _) as [loop status]. op_branches; intros Hok; try done.
  all: try (subst; done).
  all: eapply spent_trial; [rewrite He; eapply find_written; reflexivity|simpl; by rewrite Ht, om_find_set_eq|done].
Qed.

Lemma fail_record_attempts request sequence t a r :
  rec_attempts (fail_record request sequence t a r)
  = om_set (env_attempt (fail_envelope request)) (fail_attempt request sequence a) (rec_attempts r).
Proof. unfold fail_record, invalidate_branch. simpl. by repeat case_match. Qed.

(** An accepted failure report ends its attempt: the same envelope is
    refused in every later state, whether or not the trial may be retried. *)
Theorem fail_trial_final request impl impl' :
  reachable (Up impl) -> (fail_trial request impl).2 = success -> runs (fail_trial request impl).1 impl' ->
  verdict_accepted (check_verdict (check_envelope (fail_envelope request) impl')) = false.
Proof.
  intros Hr Hok. apply (spent_after (OpFailTrial request)); [done..|]. revert Hok. simpl.
  unfold fail_trial. destruct (envelope_mismatch _ _ _ _); [done|].
  destruct (check_envelope_cases (fail_envelope request) impl)
    as [(r & b & t & a & l & (_ & _ & [Hf _ Htr Ha] & Hn) & ->)|[_ ->]]; envelope_result; [|done].
  op_branches; intros Hok; try done; try (subst; done).
  eapply spent_attempt; [eapply find_written; reflexivity| |].
  - by rewrite fail_record_attempts, om_find_set_eq.
  - done.
Qed.

(** Revoking a worker incarnation fences every envelope it has been issued,
    for the life of the process. *)
Theorem revoke_worker_fences e kind reason impl impl' :
  reachable (Up impl) -> (revoke_worker (env_worker e) (env_boot e) kind reason impl).2 = success ->
  runs (revoke_worker (env_worker e) (env_boot e) kind reason impl).1 impl' ->
  verdict_accepted (check_verdict (check_envelope e impl')) = false.
Proof.
  intros Hr Hok. apply (spent_after (OpRevokeWorker (env_worker e) (env_boot e) kind reason)); [done..|]. revert Hok.
  simpl. unfold revoke_worker. destruct (find_live_worker _ _ impl) as [live|] eqn:Hl; [|done].
  unfold next_sequence. op_branches; intros Hok; try done; try (subst; done).
  eapply spent_worker; [unfold find_live_worker; simpl; by rewrite om_find_set_eq|done].
Qed.

(** When a worker registers under a fresh boot identity, every envelope of
    its other incarnations is fenced. *)
Theorem register_worker_fences request e impl impl' :
  reachable (Up impl) -> verdict_accepted (check_verdict (check_envelope e impl)) = true ->
  env_worker e = reg_worker request -> env_boot e <> reg_boot request ->
  find_live_worker (reg_worker request) (reg_boot request) impl = None ->
  status_ok (regr_status (register_worker request impl).2) = true ->
  runs (register_worker request impl).1 impl' ->
  verdict_accepted (check_verdict (check_envelope e impl')) = false.
Proof.
  intros Hr (r & b & t & a & l & _ & [_ _ Hl Hrev _] & _ & _)%check_envelope_inv Hw Hb Hnew Hok.
  apply (spent_after (OpRegisterWorker request)); [done..|]. revert Hok. simpl.
  pose proof (reachable_keyed _ Hr _ eq_refl) as Hkeyed.
  unfold register_worker. rewrite Hnew. unfold next_sequence.
  pose proof (om_find_map_acc (replace_incarnation (reg_worker request) (reg_boot request)
    (increment (st_last_sequence (impl_state impl))))
    ((impl_state impl) <| st_last_sequence := increment (st_last_sequence (impl_state impl)) |>)
    (impl_live_workers impl) (env_worker e, env_boot e)) as Hm.
  unfold find_live_worker in Hl. rewrite Hl in Hm.
  injection (Hkeyed _ _ Hl) as Hlw Hlb.
  destruct (om_map_acc _ _ _) as [state live] eqn:Hacc. destruct Hm as (s' & Hm). simpl in Hm.
  unfold replace_incarnation in Hm. rewrite <- Hlw, <- Hlb, Hw, Z.eqb_refl, Hrev in Hm.
  rewrite (proj2 (Z.eqb_neq _ _) Hb) in Hm. simpl in Hm.
  op_branches; intros Hok; try done.
  all: eapply spent_worker; [unfold find_live_worker; simpl; rewrite ?om_find_emplace, Hw, Hm; reflexivity|done].
Qed.

(** Cancelling a trial fences every envelope for it. *)
Lemma cancel_trial_fences e reason r t impl impl' :
  reachable (Up impl) -> verdict_accepted (check_verdict (check_envelope e impl)) = true ->
  find_owner (env_trial e) (st_experiments (impl_state impl)) = Some (env_experiment e, r, t) ->
  (cancel_trial (env_trial e) reason impl).2 = success -> runs (cancel_trial (env_trial e) reason impl).1 impl' ->
  verdict_accepted (check_verdict (check_envelope e impl')) = false.
Proof.
  intros Hr (r0 & b & t0 & a & l & _ & _ & [Hf _ Ht _] & Hn)%check_envelope_inv Hown Hok.
  apply (spent_after (OpCancelTrial (env_trial e) reason)); [done..|]. revert Hok. simpl.
  unfold cancel_trial. rewrite Hown. apply find_owner_spec in Hown as [Ht' Hin].
  apply om_sorted_elem in Hin; [|by apply inv_sorted, inv_state, (reachable_inv _ Hr)].
  unfold find_experiment in Hf. assert (r0 = r) as -> by congruence. assert (t0 = t) as -> by congruence.
  rewrite (cur_trial_open _ _ _ _ _ Hn).
  op_branches; intros Hok; try done; try (subst; done).
  all: eapply spent_trial; [eapply find_written; reflexivity|simpl; by rewrite om_find_set_eq|done].
Qed.

(** The operations that close the branch, the experiment or the trial an
    envelope names, when they succeed. *)
Inductive closes (e : AuthorityEnvelope) (impl : Impl) : Op -> Prop :=
| closes_branch reason branch :
    (retire_branch (env_experiment e) (env_branch e) reason impl).2 = Ok branch ->
    closes e impl (OpRetireBranch (env_experiment e) (env_branch e) reason)
| closes_experiment reason :
    (cancel_experiment (env_experiment e) reason impl).2 = success ->
    closes e impl (OpCancelExperiment (env_experiment e) reason)
| closes_trial reason r t :
    find_owner (env_trial e) (st_experiments (impl_state impl)) = Some (env_experiment e, r, t) ->
    (cancel_trial (env_trial e) reason impl).2 = success ->
    closes e impl (OpCancelTrial (env_trial e) reason).

(** Retiring a branch, cancelling an experiment and cancelling a trial fence
    every envelope of what they close: what was authorized before is refused
    in every later state of the process. *)
Theorem closing_fences e op impl impl' :
  reachable (Up impl) -> verdict_accepted (check_verdict (check_envelope e impl)) = true ->
  closes e impl op -> runs (exec op impl) impl' ->
  verdict_accepted (check_verdict (check_envelope e impl')) = false.
Proof.
  intros Hr Hacc [reason branch Hok|reason Hok|reason r t Hown Hok] Hrun.
  - exact (retire_branch_fences e reason branch impl impl' Hr Hacc Hok Hrun).
  - exact (cancel_experiment_fences e reason impl impl' Hr Hacc Hok Hrun).
  - exact (cancel_trial_fences e reason r t impl impl' Hr Hacc Hown Hok Hrun).
Qed.

(** Rolling an experiment back fences every envelope of it. *)
Theorem rollback_fences e target reason impl impl' :
  reachable (Up impl) -> verdict_accepted (check_verdict (check_envelope e impl)) = true ->
  (rollback (env_experiment e) target reason impl).2 = success ->
  runs (rollback (env_experiment e) target reason impl).1 impl' ->
  verdict_accepted (check_verdict (check_envelope e impl')) = false.
Proof.
  intros Hr (r & b & t & a & l & _ & _ & [Hf _ Ht _] & Hn)%check_envelope_inv Hok.
  apply (spent_after (OpRollback (env_experiment e) target reason)); [done..|]. revert Hok. simpl.
  unfold rollback. rewrite Hf. op_branches; intros Hok; try done; try (subst; done).
  all: eapply spent_trial; [eapply find_written; reflexivity| |].
  all: rewrite ?rollback_record_trials; first [simpl; rewrite om_find_map, Ht; reflexivity
    | simpl; by rewrite (cur_trial_open _ _ _ _ _ Hn)].
Qed.

(** ** Restarts *)


(** A restart rewrites no history: each experiment of the image it has
    loaded evolves, finished trials and attempts stay as they were, and the
    records it appends to are kept. *)
Theorem restart_preserves_history config world world' impl :
  reachable (Down world) -> create config world = (world', Ok impl) ->
  exists s, starts_from world s
    /\ map_evolves record_evolves (st_experiments s) (st_experiments (impl_state impl))
    /\ workers_evolve (st_workers s) (st_workers (impl_state impl)).
Proof.
  intros Hr Hc. destruct (create_started _ _ _ _ (reachable_inv _ Hr) Hc) as (s & world0 & Hs & [_ He _ _] & _).
  exists s. destruct He. done.
Qed.

Lemma minted_epoch_above seed last :
  0 <= last < u64_max -> 0 <= seed < u64_modulus -> last < minted_epoch seed last < u64_modulus.
Proof.
  intros Hl Hs. unfold minted_epoch. rewrite u64_succ_small by done. unfold u64_max, u64_modulus in *.
  repeat case_match; zprop; lia.
Qed.

(** C18: a restart mints a coordinator epoch above the one in the image it has
    loaded, and every envelope it will ever accept carries the new epoch: an
    envelope of any stored epoch is refused for the life of the process. *)
Theorem restart_fences_stored_epochs config world world' impl :
  reachable (Down world) -> create config world = (world', Ok impl) -> 0 <= config_epoch_seed config < u64_modulus ->
  exists s, starts_from world s /\ (0 <= st_last_epoch s < u64_max -> st_last_epoch s < impl_epoch impl)
    /\ st_last_epoch (impl_state impl) = impl_epoch impl
    /\ forall e impl', runs impl impl' -> verdict_accepted (check_verdict (check_envelope e impl')) = true ->
         env_epoch e = impl_epoch impl.
Proof.
  intros Hr Hc Hseed. destruct (create_started _ _ _ _ (reachable_inv _ Hr) Hc) as (s & world0 & Hs & [_ He _ _] & _).
  exists s. split; [done|]. rewrite (evo_epoch _ _ He), (evo_last_epoch _ _ He). simpl. split_and!; [|done|].
  - intros Hl. by apply minted_epoch_above.
  - intros e impl' Hrun (r & b & t & a & l & _ & [_ Hep _ _ _] & _)%check_envelope_inv.
    assert (Hup : reachable (Up impl)) by (eapply reachable_step; [exact Hr|by eapply step_start]).
    by rewrite Hep, (evo_epoch _ _ (runs_evolves _ _ Hup Hrun)), (evo_epoch _ _ He).
Qed.
End Safety.

(** ** The run of [Scenario] as a history *)

Lemma completion_at_most_once_witness :
  om_find 1 (rec_trials (Run.record_at Run.s6)) <> None
  /\ forall t, om_find 1 (rec_trials (Run.record_at Run.s6)) = Some t -> trial_committed_attempts t = 1.
Proof.
  split; [vm_compute; discriminate|]. intros t Ht.
  assert (Hc : trial_state t = TrialState.COMPLETED) by (vm_compute in Ht; injection Ht as <-; reflexivity).
  pose proof (completion_at_most_once Run.s6 1 (Run.record_at Run.s6) 1 t Reach.s6 (eq_refl _) Ht) as Hm.
  rewrite decide_True in Hm by exact Hc. apply Hm.
Defined.

Lemma running_attempt_authoritative_witness :
  exists a t, om_find 1 (rec_attempts (Run.record_at Run.s4)) = Some a
    /\ om_find (attempt_trial a) (rec_trials (Run.record_at Run.s4)) = Some t /\ trial_authoritative_attempt t = 1.
Proof.
  destruct (om_find 1 (rec_attempts (Run.record_at Run.s4))) as [a|] eqn:Ha; [|vm_compute in Ha; discriminate].
  assert (Ho : is_attempt_terminal (attempt_state a) = false) by (vm_compute in Ha; injection Ha as <-; reflexivity).
  destruct (running_attempt_authoritative Run.s4 1 (Run.record_at Run.s4) 1 a Reach.s4 (eq_refl _) Ha Ho)
    as (t & Ht & _ & Hau & _).
  exists a, t. split; [reflexivity|]. split; [exact Ht|exact Hau].
Defined.

Lemma history_preserved_witness : evolves Run.s5 Run.s6.
Proof. exact (history_preserved Run.s5 Run.s6 Reach.s5 Reach.s6_runs). Defined.

Definition revision : HypothesisRevisionSpec := default_HypothesisRevisionSpec <| hspec_statement := "it is much faster" |>.

Lemma revise_hypothesis_fences_witness :
  verdict_accepted (check_verdict (check_envelope (Run.envelope 0) Run.s4)) = true
  /\ verdict_accepted (check_verdict (check_envelope (Run.envelope 0) (revise_hypothesis 1 revision Run.s4).1)) = false.
Proof.
  split; [vm_compute; reflexivity|].
  apply (revise_hypothesis_fences (Run.envelope 0) revision 2 Run.s4);
    [exact Reach.s4|vm_compute; reflexivity|vm_compute; reflexivity|apply runs_here].
Defined.

Lemma closing_fences_witness :
  verdict_accepted (check_verdict (check_envelope (Run.envelope 1) (exec (OpRetireBranch 1 2 "slow") Run.s4))) = false
  /\ verdict_accepted (check_verdict (check_envelope (Run.envelope 0) (exec (OpCancelExperiment 1 "stop") Run.s4))) = false
  /\ verdict_accepted (check_verdict (check_envelope (Run.envelope 0) (exec (OpCancelTrial 1 "stop") Run.s4))) = false.
Proof.
  split; [|split].
  - apply (closing_fences (Run.envelope 1) (OpRetireBranch 1 2 "slow") Run.s4);
      [exact Reach.s4|vm_compute; reflexivity|apply (closes_branch (Run.envelope 1) _ _ 2); vm_compute; reflexivity|apply runs_here].
  - apply (closing_fences (Run.envelope 0) (OpCancelExperiment 1 "stop") Run.s4);
      [exact Reach.s4|vm_compute; reflexivity|apply (closes_experiment (Run.envelope 0)); vm_compute; reflexivity|apply runs_here].
  - destruct (om_find 1 (rec_trials (Run.record_at Run.s4))) as [t|] eqn:Ht; [|vm_compute in Ht; discriminate].
    apply (closing_fences (Run.envelope 0) (OpCancelTrial 1 "stop") Run.s4); [exact Reach.s4|vm_compute; reflexivity| |apply runs_here].
    apply (closes_trial (Run.envelope 0) _ _ (Run.record_at Run.s4) t); [|vm_compute; reflexivity].
    vm_compute in Ht. injection Ht as <-. vm_compute. reflexivity.
Defined.

Lemma commit_trial_final_witness :
  verdict_accepted (check_verdict (check_envelope (Run.envelope 0)
    (commit_trial (Run.commit (Run.envelope 0)) Run.s5).1)) = false.
Proof.
  apply (commit_trial_final (Run.commit (Run.envelope 0)) (Run.envelope 0) Run.s5);
    [exact Reach.s5|vm_compute; reflexivity|reflexivity|reflexivity|apply runs_here].
Defined.

Definition failure : FailTrialRequest := default_FailTrialRequest
  <| fail_epoch := 1 |> <| fail_worker := 7 |> <| fail_boot := 70 |> <| fail_envelope := Run.envelope 0 |>
  <| fail_kind := FailureKind.EXECUTION_FAILURE |> <| fail_retryable := true |>.

Lemma fail_trial_final_witness :
  verdict_accepted (check_verdict (check_envelope (Run.envelope 0) (fail_trial failure Run.s4).1)) = false.
Proof. apply (fail_trial_final failure Run.s4); [exact Reach.s4|vm_compute; reflexivity|apply runs_here]. Defined.

Lemma revoke_worker_fences_witness :
  verdict_accepted (check_verdict (check_envelope (Run.envelope 0)
    (revoke_worker 7 70 FailureKind.PRODUCER_LOSS "lost" Run.s4).1)) = false.
Proof.
  apply (revoke_worker_fences (Run.envelope 0) FailureKind.PRODUCER_LOSS "lost" Run.s4);
    [exact Reach.s4|vm_compute; reflexivity|apply runs_here].
Defined.

Definition reboot : RegisterWorkerRequest := Run.registration <| reg_boot := 71 |>.

Lemma register_worker_fences_witness :
  verdict_accepted (check_verdict (check_envelope (Run.envelope 0) (register_worker reboot Run.s4).1)) = false.
Proof.
  apply (register_worker_fences reboot (Run.envelope 0) Run.s4);
    [exact Reach.s4|vm_compute; reflexivity|vm_compute; reflexivity|vm_compute; discriminate|vm_compute; reflexivity
    |vm_compute; reflexivity|apply runs_here].
Defined.


Lemma restart_preserves_history_witness :
  exists s, starts_from (impl_world Run.s5) s
    /\ map_evolves record_evolves (st_experiments s) (st_experiments (impl_state Reach.restarted)).
Proof.
  destruct (restart_preserves_history _ _ _ _ Reach.crashed Reach.restart) as (s & Hs & He & _).
  exists s. split; [exact Hs|exact He].
Defined.

Lemma restart_fences_stored_epochs_witness :
  impl_epoch Reach.restarted = 2
  /\ forall e impl', runs Reach.restarted impl' -> verdict_accepted (check_verdict (check_envelope e impl')) = true ->
       env_epoch e = impl_epoch Reach.restarted.
Proof.
  split; [reflexivity|]. intros e impl' Hrun Hv.
  destruct (restart_fences_stored_epochs _ _ _ _ Reach.crashed Reach.restart ltac:(vm_compute; split; [discriminate|reflexivity]))
    as (s & _ & _ & _ & Hall).
  exact (Hall e impl' Hrun Hv).
Defined.

(** A second generation: the finalized run is rolled back, revised, given a new
    trial and claimed again. *)
Module SecondGeneration.

Definition finalize : Op := OpFinalize 1 2 "".
Definition undo : Op := OpRollback 1 1 "undo".
Definition revise : Op := OpReviseHypothesis 1 revision.
Definition create_again : Op := OpCreateTrial 1 1 "again".
Definition claim : Op := OpClaimTrials Run.claim.

Definition before_claim : Impl := Eval vm_compute in exec create_again (exec revise (exec undo (exec finalize Run.s6))).
Definition claimed := Eval vm_compute in claim_trials Run.claim before_claim.
Definition envelope : AuthorityEnvelope :=
  match claimr_assignments claimed.2 with
  | a :: _ => asg_envelope a
  | [] => default_AuthorityEnvelope
  end.

Lemma before_claim_exec : before_claim = exec create_again (exec revise (exec undo (exec finalize Run.s6))).
Proof. by_evaluation. Qed.
Lemma claimed_exec : claimed.1 = exec claim before_claim.
Proof. by_evaluation. Qed.

Lemma second_generation_reached : reachable (Up claimed.1).
Proof.
  rewrite claimed_exec. eapply reachable_step; [|constructor; vm_compute; split; discriminate].
  rewrite before_claim_exec. eapply reachable_step; [|constructor; vm_compute; reflexivity].
  eapply reachable_step; [|by constructor]. eapply reachable_step; [|by constructor].
  eapply reachable_step; [exact Reach.s6|by constructor].
Qed.

End SecondGeneration.

Lemma rollback_fences_witness :
  verdict_accepted (check_verdict (check_envelope SecondGeneration.envelope SecondGeneration.claimed.1)) = true
  /\ verdict_accepted (check_verdict (check_envelope SecondGeneration.envelope
       (rollback 1 1 "undo" SecondGeneration.claimed.1).1)) = false.
Proof.
  split; [vm_compute; reflexivity|].
  apply (rollback_fences SecondGeneration.envelope 1 "undo" SecondGeneration.claimed.1);
    [exact SecondGeneration.second_generation_reached|vm_compute; reflexivity|vm_compute; reflexivity|apply runs_here].
Defined.
