(* ===== verification/Withdrawal.v ===== *)
(** * Authority that is withdrawn stays withdrawn

    Every operation that takes authority away, gathered in one relation, and
    the one theorem they share: what was authorized before is refused in every
    later state of the process.  Safety.v proves it operation by operation. *)
From S2P Require Import Prelude OMap Error Domain Identity Float64 Model Hash Sorting Canonical State Messages Spec Coordinator Authority Evidence Decision Scenario Fencing History Ledger Invariants Recovery System Safety.
#[local] Open Scope Z_scope.

Section Withdrawal.
Context `{StorageLaws} `{Formatting}.
Implicit Types (impl : Impl) (op : Op) (e : AuthorityEnvelope).

(** The operation, when it succeeds, takes away the authority of the envelope:
    it completes its trial or fails its attempt; revokes or replaces its
    worker's incarnation; revises or rolls back its experiment; or retires its
    branch, cancels its trial or its experiment. *)
Inductive withdraws e impl : Op -> Prop :=
| by_commit request :
    (commit_trial request impl).2 = success ->
    env_experiment e = env_experiment (commit_envelope request) -> env_trial e = env_trial (commit_envelope request) ->
    withdraws e impl (OpCommitTrial request)
| by_failure request :
    (fail_trial request impl).2 = success -> e = fail_envelope request -> withdraws e impl (OpFailTrial request)
| by_revocation kind reason :
    (revoke_worker (env_worker e) (env_boot e) kind reason impl).2 = success ->
    withdraws e impl (OpRevokeWorker (env_worker e) (env_boot e) kind reason)
| by_registration request :
    env_worker e = reg_worker request -> env_boot e <> reg_boot request ->
    find_live_worker (reg_worker request) (reg_boot request) impl = None ->
    status_ok (regr_status (register_worker request impl).2) = true -> withdraws e impl (OpRegisterWorker request)
| by_revision spec revision :
    (revise_hypothesis (env_experiment e) spec impl).2 = Ok revision ->
    withdraws e impl (OpReviseHypothesis (env_experiment e) spec)
| by_rollback target reason :
    (rollback (env_experiment e) target reason impl).2 = success -> withdraws e impl (OpRollback (env_experiment e) target reason)
| by_closing op : closes e impl op -> withdraws e impl op.

(** C19: withdrawn authority never comes back: after a completion, a failure
    report, a revocation, a registration under a fresh boot identity, a
    hypothesis revision, a rollback, a retired branch or a cancellation, every
    envelope that was accepted before and that it concerns is refused in every
    state the process reaches afterwards, whatever is called. *)
Theorem withdrawal_is_final e op impl impl' :
  reachable (Up impl) -> verdict_accepted (check_verdict (check_envelope e impl)) = true -> withdraws e impl op ->
  runs (exec op impl) impl' -> verdict_accepted (check_verdict (check_envelope e impl')) = false.
Proof.
  intros Hr Hacc Hw Hruns. destruct Hw.
  - by eapply commit_trial_final.
  - subst e. by eapply fail_trial_final.
  - by eapply revoke_worker_fences.
  - by eapply register_worker_fences.
  - by eapply revise_hypothesis_fences.
  - by eapply rollback_fences.
  - by eapply closing_fences.
Qed.

End Withdrawal.

Lemma withdrawal_is_final_witness :
  verdict_accepted (check_verdict (check_envelope (Run.envelope 0) (exec (OpCommitTrial (Run.commit (Run.envelope 0))) Run.s5))) = false
  /\ verdict_accepted (check_verdict (check_envelope (Run.envelope 0) (exec (OpFailTrial failure) Run.s4))) = false
  /\ verdict_accepted (check_verdict (check_envelope (Run.envelope 0)
       (exec (OpRevokeWorker 7 70 FailureKind.PRODUCER_LOSS "lost") Run.s4))) = false
  /\ verdict_accepted (check_verdict (check_envelope (Run.envelope 0) (exec (OpRegisterWorker reboot) Run.s4))) = false
  /\ verdict_accepted (check_verdict (check_envelope (Run.envelope 0) (exec (OpReviseHypothesis 1 revision) Run.s4))) = false
  /\ verdict_accepted (check_verdict (check_envelope SecondGeneration.envelope
       (exec (OpRollback 1 1 "undo") SecondGeneration.claimed.1))) = false
  /\ verdict_accepted (check_verdict (check_envelope (Run.envelope 1) (exec (OpRetireBranch 1 2 "slow") Run.s4))) = false.
Proof.
  split_and!.
  - apply (withdrawal_is_final (Run.envelope 0) (OpCommitTrial (Run.commit (Run.envelope 0))) Run.s5);
      [exact Reach.s5|vm_compute; reflexivity|apply by_commit; vm_compute; reflexivity|apply runs_here].
  - apply (withdrawal_is_final (Run.envelope 0) (OpFailTrial failure) Run.s4);
      [exact Reach.s4|vm_compute; reflexivity|apply by_failure; [vm_compute; reflexivity|reflexivity]|apply runs_here].
  - apply (withdrawal_is_final (Run.envelope 0) (OpRevokeWorker 7 70 FailureKind.PRODUCER_LOSS "lost") Run.s4);
      [exact Reach.s4|vm_compute; reflexivity|apply (by_revocation (Run.envelope 0)); vm_compute; reflexivity|apply runs_here].
  - apply (withdrawal_is_final (Run.envelope 0) (OpRegisterWorker reboot) Run.s4);
      [exact Reach.s4|vm_compute; reflexivity| |apply runs_here].
    apply by_registration; [vm_compute; reflexivity|vm_compute; discriminate|vm_compute; reflexivity|vm_compute; reflexivity].
  - apply (withdrawal_is_final (Run.envelope 0) (OpReviseHypothesis 1 revision) Run.s4);
      [exact Reach.s4|vm_compute; reflexivity|apply (by_revision (Run.envelope 0) _ _ 2); vm_compute; reflexivity|apply runs_here].
  - apply (withdrawal_is_final SecondGeneration.envelope (OpRollback 1 1 "undo") SecondGeneration.claimed.1);
      [exact SecondGeneration.second_generation_reached|vm_compute; reflexivity|
       apply (by_rollback SecondGeneration.envelope); vm_compute; reflexivity|apply runs_here].
  - apply (withdrawal_is_final (Run.envelope 1) (OpRetireBranch 1 2 "slow") Run.s4);
      [exact Reach.s4|vm_compute; reflexivity| |apply runs_here].
    apply by_closing, (closes_branch (Run.envelope 1) _ _ 2). vm_compute. reflexivity.
Defined.
