(* ===== verification/Verdicts.v ===== *)
(** * What a decision means

    [build_decision] accepts a candidate exactly when every hard constraint
    holds and every decisive comparison is won with at least one real
    difference; its evidence is drawn from authoritative observations only;
    finalizing records the decision an evaluation announces; and rolling back
    restores the branch authority of the chosen point. *)
From S2P Require Import Prelude OMap Error Domain Identity Float64 Model Hash Sorting Canonical State Validator Messages Spec Coordinator Authority Evidence Decision Scenario Fencing History.

(** ** Hard constraints *)

(** A stage keeps acceptance exactly when its condition holds. *)
Definition keeps_accept (P : Prop) (f : Constraints -> Constraints) : Prop :=
  forall c, con_outcome (f c) = DecisionOutcome.ACCEPT <-> con_outcome c = DecisionOutcome.ACCEPT /\ P.

Lemma fail_with_outcome outcome kind reason c :
  outcome <> DecisionOutcome.ACCEPT -> con_outcome (fail_with outcome kind reason c) <> DecisionOutcome.ACCEPT.
Proof. intros Hne. unfold fail_with. case_bool_decide as Hc; done. Qed.

Lemma insufficient_outcome reason c : con_outcome (insufficient reason c) <> DecisionOutcome.ACCEPT.
Proof. by apply fail_with_outcome. Qed.

Lemma fail_if_outcome (b : bool) f c :
  (forall c, con_outcome (f c) <> DecisionOutcome.ACCEPT) ->
  con_outcome (fail_if b f c) = DecisionOutcome.ACCEPT <-> con_outcome c = DecisionOutcome.ACCEPT /\ b = false.
Proof. intros Hf. destruct b; simpl; [|tauto]. split; [intros Hc; by destruct (Hf c)|intros [_ [=]]]. Qed.

Lemma add_result_outcome name passed detail c : con_outcome (add_result name passed detail c) = con_outcome c.
Proof. done. Qed.

Lemma keeps_accept_foldl {A} (f : Constraints -> A -> Constraints) (P : A -> Prop) l :
  (forall x, keeps_accept (P x) (fun c => f c x)) -> keeps_accept (Forall P l) (fun c => foldl f c l).
Proof.
  intros Hf. induction l as [|x l IH]; intros c; simpl; [by split; [|intros [? _]]|].
  rewrite (IH (f c x)), (Hf x c), Forall_cons_iff. tauto.
Qed.

(** The conditions of the stages. *)
Definition candidate_ok (candidate : BranchDefinition) (evidence : option BranchEvidence) : Prop :=
  is_Some evidence /\ is_branch_eligible (branch_state candidate) = true.

Definition baseline_ok (policy : ComparisonPolicy) (baseline : option BranchDefinition) (evidence : option BranchEvidence) : Prop :=
  match baseline with
  | None => policy_require_baseline policy = false
  | Some branch => is_Some evidence /\ is_branch_eligible (branch_state branch) = true
  end.

Definition trials_ok (policy : ComparisonPolicy) (evidence : option BranchEvidence) : Prop :=
  forall entry, evidence = Some entry -> policy_min_completed_trials_per_branch policy <= ev_completed_trials entry.

Definition metric_present (policy : ComparisonPolicy) (metric : Z) (evidence : option BranchEvidence) : Prop :=
  exists aggregate, present_aggregate metric evidence = Some aggregate
    /\ policy_min_valid_observations_per_required_metric policy <= agg_valid_count aggregate.

Definition metric_ok (policy : ComparisonPolicy) (candidate baseline : option BranchEvidence) (metric : MetricDefinition) : Prop :=
  metric_required metric = true ->
    metric_present policy (metric_id metric) candidate
    /\ (is_Some baseline -> metric_present policy (metric_id metric) baseline)
    /\ (policy_reject_on_any_invalid_observation policy = true ->
        u32 (invalid_observations (metric_id metric) candidate + invalid_observations (metric_id metric) baseline) = 0).

(** One declared environment among the compared trials. *)
Definition environment_ok (record : ExperimentRecord) (candidate : Z) (baseline : option BranchDefinition) : Prop :=
  policy_require_environment_match (def_policy (rec_definition record)) = true ->
  exists p, forall trial, trial ∈ map snd (rec_trials record) -> compared_trial candidate baseline trial = true ->
    trial_environment_fingerprint trial = "" \/ trial_environment_fingerprint trial = p.

Lemma constrain_state_keeps record :
  keeps_accept (rec_state record = ExperimentState.OPEN) (constrain_state record).
Proof.
  intros c. unfold constrain_state. destruct (rec_state record);
    rewrite ?add_result_outcome; try tauto; split; try (by intros [_ ?]);
    intros Hc; exfalso; revert Hc; by apply fail_with_outcome.
Qed.

Lemma constrain_candidate_keeps candidate evidence :
  keeps_accept (candidate_ok candidate evidence) (constrain_candidate candidate evidence).
Proof.
  intros c. unfold constrain_candidate, candidate_ok.
  destruct evidence as [entry|]; simpl; [destruct (is_branch_eligible (branch_state candidate)) eqn:E; simpl|].
  - split; [intros Hc; split_and!; eauto|tauto].
  - split; [|by intros (_ & _ & ?)]. intros Hc. exfalso. revert Hc.
    destruct (branch_state candidate); by apply fail_with_outcome.
  - split; [|by intros (_ & [? [=]] & _)]. intros Hc. exfalso. revert Hc.
    destruct (branch_state candidate); by apply fail_with_outcome.
Qed.

Lemma constrain_baseline_keeps policy baseline evidence :
  keeps_accept (baseline_ok policy baseline evidence) (constrain_baseline policy baseline evidence).
Proof.
  intros c. unfold constrain_baseline, baseline_ok. destruct baseline as [branch|].
  - rewrite fail_if_outcome by (intros; apply insufficient_outcome). rewrite !add_result_outcome.
    destruct evidence; simpl; [|split; [by intros [_ ?]|by intros (_ & [? [=]] & _)]].
    destruct (is_branch_eligible _); simpl; split; try by intros [_ ?]. { intros [? _]. eauto. } { tauto. }
    by intros (_ & _ & ?).
  - rewrite fail_if_outcome by (intros; apply insufficient_outcome). by rewrite add_result_outcome.
Qed.

Lemma constrain_trials_keeps name reason policy evidence :
  keeps_accept (trials_ok policy evidence) (constrain_trials name reason policy evidence).
Proof.
  intros c. unfold constrain_trials, trials_ok. destruct evidence as [entry|]; [|naive_solver].
  rewrite fail_if_outcome by (intros; apply insufficient_outcome). rewrite add_result_outcome, negb_false_iff, Z.leb_le.
  naive_solver.
Qed.

Lemma constrain_required_keeps side r1 r2 r3 policy metric evidence :
  keeps_accept (metric_present policy (metric_id metric) evidence) (constrain_required side r1 r2 r3 policy metric evidence).
Proof.
  intros c. unfold constrain_required, metric_present. destruct (present_aggregate _ evidence) as [aggregate|].
  - destruct (_ <? _) eqn:E; zprop; rewrite ?add_result_outcome; split.
    + intros Hc. by apply insufficient_outcome in Hc.
    + intros (_ & a & [= <-] & Hle). lia.
    + intros Hc. split; [done|]. by exists aggregate.
    + tauto.
  - split; [intros Hc; by apply insufficient_outcome in Hc|by intros (_ & ? & ? & _)].
Qed.

Lemma constrain_metric_keeps policy candidate baseline metric :
  keeps_accept (metric_ok policy candidate baseline metric) (fun c => constrain_metric policy candidate baseline c metric).
Proof.
  intros c. unfold constrain_metric, metric_ok. destruct (metric_required metric); simpl; [|naive_solver].
  set (c1 := constrain_required "candidate" _ _ _ _ _ _ _).
  set (c2 := match baseline with Some _ => _ | None => c1 end).
  assert (Hc2 : con_outcome c2 = DecisionOutcome.ACCEPT <-> con_outcome c = DecisionOutcome.ACCEPT
    /\ metric_present policy (metric_id metric) candidate
    /\ (is_Some baseline -> metric_present policy (metric_id metric) baseline)).
  { subst c2. destruct baseline as [entry|].
    - rewrite (constrain_required_keeps "baseline" _ _ _ policy metric (Some entry) c1). subst c1.
      rewrite (constrain_required_keeps "candidate" _ _ _ policy metric candidate c).
      assert (is_Some (Some entry)) by by eexists. tauto.
    - subst c1. rewrite (constrain_required_keeps "candidate" _ _ _ policy metric candidate c).
      split; [|tauto]. intros [? ?]. split_and!; [done|done|]. by intros [? [=]]. }
  destruct (policy_reject_on_any_invalid_observation policy).
  - rewrite fail_if_outcome by (intros; by apply fail_with_outcome).
    rewrite add_result_outcome, Hc2, negb_false_iff, Z.eqb_eq. tauto.
  - rewrite Hc2. naive_solver.
Qed.

Lemma remove_dups_single (l : list string) :
  size_of (remove_dups (List.filter (fun p => negb (str_empty p)) l)) <= 1
  <-> exists p, forall x, x ∈ l -> x = ""%string \/ x = p.
Proof.
  set (l' := List.filter _ l).
  assert (Hl' : forall x, x ∈ l' <-> x ∈ l /\ x <> ""%string).
  { intros x. unfold l'. rewrite !list_elem_of_In, filter_In, negb_true_iff. unfold str_empty.
    by rewrite String.eqb_neq. }
  split.
  - intros Hle. destruct (remove_dups l') as [|p [|q rest]] eqn:E; [exists ""%string|exists p|unfold size_of in Hle; simpl in Hle; lia].
    + intros x Hx. left. destruct (decide (x = ""%string)) as [|Hne]; [done|].
      assert (Hin : x ∈ remove_dups l') by (apply elem_of_remove_dups, Hl'; done). rewrite E in Hin. set_solver.
    + intros x Hx. destruct (decide (x = ""%string)) as [|Hne]; [by left|right].
      assert (Hin : x ∈ remove_dups l') by (apply elem_of_remove_dups, Hl'; done). rewrite E in Hin. set_solver.
  - intros (p & Hp). pose proof (NoDup_remove_dups l') as Hnd.
    assert (Hall : forall x, x ∈ remove_dups l' -> x = p).
    { intros x [Hx Hne]%elem_of_remove_dups%Hl'. destruct (Hp x Hx); congruence. }
    destruct (remove_dups l') as [|x [|y rest]]; unfold size_of; simpl; [lia|lia|].
    exfalso. rewrite !NoDup_cons in Hnd. destruct Hnd as [Hnin _]. apply Hnin.
    rewrite (Hall x), (Hall y) by set_solver. set_solver.
Qed.

Lemma constrain_environment_keeps record candidate baseline :
  keeps_accept (environment_ok record candidate baseline) (constrain_environment record candidate baseline).
Proof.
  intros c. unfold constrain_environment, environment_ok.
  destruct (policy_require_environment_match _); simpl; [|naive_solver].
  set (compared := List.filter (compared_trial candidate baseline) _).
  assert (Hmatch : (size_of (remove_dups (List.filter (fun p => negb (str_empty p)) (map trial_environment_fingerprint compared))) <=? 1) = true
    <-> exists p, forall trial, trial ∈ map snd (rec_trials record) -> compared_trial candidate baseline trial = true ->
        trial_environment_fingerprint trial = ""%string \/ trial_environment_fingerprint trial = p).
  { rewrite Z.leb_le, remove_dups_single. split; intros (p & Hp); exists p.
    - intros trial Hin Hc. apply Hp, list_elem_of_fmap. exists trial. split; [done|].
      unfold compared. apply list_elem_of_In, filter_In. by rewrite <- list_elem_of_In.
    - intros x (trial & -> & Hin)%list_elem_of_fmap. unfold compared in Hin.
      apply list_elem_of_In, filter_In in Hin as [Hin Hc]. apply Hp; [by apply list_elem_of_In|done]. }
  destruct (_ <=? 1) eqn:E; rewrite ?andb_false_r, ?andb_true_r; simpl.
  - split; [|tauto]. intros Hc. split; [done|]. intros _. by apply Hmatch.
  - match goal with |- con_outcome (if ?b then _ else _) = _ <-> _ => destruct b end; simpl.
    all: split; [intros Hc; exfalso; revert Hc; by apply fail_with_outcome|].
    all: intros [_ Hp]; discriminate (proj2 Hmatch (Hp eq_refl)).
Qed.

(** All hard constraints. *)
Record constraints_hold (record : ExperimentRecord) (candidate : BranchDefinition) (baseline : option BranchDefinition)
    (candidate_evidence baseline_evidence : option BranchEvidence) : Prop := {
  hold_open : rec_state record = ExperimentState.OPEN;
  hold_candidate : candidate_ok candidate candidate_evidence;
  hold_baseline : baseline_ok (def_policy (rec_definition record)) baseline baseline_evidence;
  hold_candidate_trials : trials_ok (def_policy (rec_definition record)) candidate_evidence;
  hold_baseline_trials : trials_ok (def_policy (rec_definition record)) baseline_evidence;
  hold_metrics : Forall (metric_ok (def_policy (rec_definition record)) candidate_evidence baseline_evidence)
                   (def_metrics (rec_definition record));
  hold_environment : environment_ok record (branch_id candidate) baseline
}.

Definition evidence_for (baseline : option BranchDefinition) (evidence : list BranchEvidence) : option BranchEvidence :=
  match baseline with Some b => evidence_of (branch_id b) evidence | None => None end.

Lemma apply_constraints_accepts record candidate baseline evidence :
  con_outcome (apply_constraints record candidate baseline evidence) = DecisionOutcome.ACCEPT
  <-> constraints_hold record candidate baseline (evidence_of (branch_id candidate) evidence) (evidence_for baseline evidence).
Proof.
  unfold apply_constraints. fold (evidence_for baseline evidence).
  set (ce := evidence_of _ evidence). set (be := evidence_for _ _). set (policy := def_policy (rec_definition record)).
  rewrite (constrain_environment_keeps record (branch_id candidate) baseline _).
  rewrite (keeps_accept_foldl (constrain_metric policy ce be) _ _ (constrain_metric_keeps policy ce be) _).
  rewrite (constrain_trials_keeps _ _ policy be _), (constrain_trials_keeps _ _ policy ce _).
  rewrite (constrain_baseline_keeps policy baseline be _), (constrain_candidate_keeps candidate ce _).
  rewrite (constrain_state_keeps record _). simpl. split; [intros ?; destruct_and!; by constructor|intros []; tauto].
Qed.

(** ** Comparison factors *)

Definition decisive (rule : ComparisonRule) : Prop := rule_op rule <> ComparisonOp.REPORT_ONLY.

Definition rule_direction (record : ExperimentRecord) (rule : ComparisonRule) : MetricDirection :=
  match last_such (fun m => metric_id m =? rule_metric rule) (def_metrics (rec_definition record)) with
  | Some m => metric_direction m
  | None => MetricDirection.MINIMIZE
  end.

(** Both aggregates are there and the operator holds of them. *)
Definition rule_won (record : ExperimentRecord) (candidate baseline : option BranchEvidence) (rule : ComparisonRule) : Prop :=
  exists c b, present_aggregate (rule_metric rule) candidate = Some c
    /\ present_aggregate (rule_metric rule) baseline = Some b
    /\ (rule_verdict rule (rule_direction record rule) c b).1 = true.

(** Both aggregates are there and differ. *)
Definition rule_differs (candidate baseline : option BranchEvidence) (rule : ComparisonRule) : Prop :=
  exists c b, present_aggregate (rule_metric rule) candidate = Some c
    /\ present_aggregate (rule_metric rule) baseline = Some b
    /\ deqb (dsub (agg_value c) (agg_value b)) double_zero = false.

(** The weighted score, when the policy asks for it and a weighted metric is
    present on both branches, reaches the threshold. *)
Definition score_passes (record : ExperimentRecord) (candidate baseline : option BranchEvidence) : Prop :=
  policy_use_weighted_score (def_policy (rec_definition record)) = true ->
  let result := foldl (score_metric candidate baseline) (double_zero, false) (def_metrics (rec_definition record)) in
  result.2 = true -> dleb (policy_accept_score_threshold (def_policy (rec_definition record))) result.1 = true.

Section Verdicts.
Context `{Storage} `{Formatting}.

Lemma rule_present record candidate baseline rule c b :
  present_aggregate (rule_metric rule) candidate = Some c -> present_aggregate (rule_metric rule) baseline = Some b ->
  (rule_won record candidate baseline rule <-> (rule_verdict rule (rule_direction record rule) c b).1 = true)
  /\ (rule_differs candidate baseline rule <-> deqb (dsub (agg_value c) (agg_value b)) double_zero = false).
Proof.
  intros Hc Hb. unfold rule_won, rule_differs. rewrite Hc, Hb. split; split.
  1, 3: by intros (? & ? & [= <-] & [= <-] & ?).
  all: by exists c, b.
Qed.

Lemma rule_absent record candidate baseline rule :
  present_aggregate (rule_metric rule) candidate = None \/ present_aggregate (rule_metric rule) baseline = None ->
  ~ rule_won record candidate baseline rule /\ ~ rule_differs candidate baseline rule.
Proof. intros [Hn|Hn]; split; intros (? & ? & ? & ? & _); congruence. Qed.

(** What one rule does to the three flags. *)
Lemma evaluate_rule_flags record candidate baseline loop rule :
  let loop' := evaluate_rule record candidate baseline loop rule in
  (fl_any_decisive loop' = true <-> fl_any_decisive loop = true \/ decisive rule)
  /\ (fl_any_decisive_failed loop' = false
      <-> fl_any_decisive_failed loop = false /\ (decisive rule -> rule_won record candidate baseline rule))
  /\ (fl_any_nonzero_delta loop' = true
      <-> fl_any_nonzero_delta loop = true \/ decisive rule /\ rule_differs candidate baseline rule).
Proof.
  unfold evaluate_rule, decisive. fold (rule_direction record rule). case_bool_decide as Hop; [simpl; tauto|].
  pose proof (rule_absent record candidate baseline rule) as Habs.
  pose proof (rule_present record candidate baseline rule) as Hpres.
  destruct (present_aggregate _ candidate) as [c|] eqn:Hc, (present_aggregate _ baseline) as [b|] eqn:Hb.
  2-4: destruct Habs as [Hw Hd]; [tauto|]; simpl; split_and!; (split; [intros; simplify_eq; tauto|tauto]).
  destruct (Hpres c b eq_refl eq_refl) as [Hw Hd]. rewrite Hw, Hd. clear Hpres Habs Hw Hd.
  destruct (rule_verdict _ _ c b) as [satisfied delta].
  destruct (deqb _ _), satisfied; simpl; (split_and!; (split; [intros; simplify_eq|intros]); intuition congruence).
Qed.

Lemma rules_flags record candidate baseline rules loop :
  let loop' := foldl (evaluate_rule record candidate baseline) loop rules in
  (fl_any_decisive loop' = true <-> fl_any_decisive loop = true \/ Exists decisive rules)
  /\ (fl_any_decisive_failed loop' = false
      <-> fl_any_decisive_failed loop = false
          /\ Forall (fun rule => decisive rule -> rule_won record candidate baseline rule) rules)
  /\ (fl_any_nonzero_delta loop' = true
      <-> fl_any_nonzero_delta loop = true
          \/ Exists (fun rule => decisive rule /\ rule_differs candidate baseline rule) rules).
Proof.
  revert loop. induction rules as [|rule rules IH]; intros loop; simpl.
  - rewrite !Exists_nil. intuition.
  - destruct (IH (evaluate_rule record candidate baseline loop rule)) as (H1 & H2 & H3).
    destruct (evaluate_rule_flags record candidate baseline loop rule) as (E1 & E2 & E3).
    rewrite H1, H2, H3, E1, E2, E3, !Exists_cons, Forall_cons_iff. tauto.
Qed.

Lemma run_factors_flags record candidate baseline :
  let loop := run_factors record candidate baseline in
  let rules := policy_rules (def_policy (rec_definition record)) in
  (fl_any_decisive loop = true <-> exists rule, rule ∈ rules /\ decisive rule)
  /\ (fl_any_decisive_failed loop = false
      <-> (forall rule, rule ∈ rules -> decisive rule -> rule_won record candidate baseline rule)
          /\ score_passes record candidate baseline)
  /\ (fl_any_nonzero_delta loop = true
      <-> exists rule, rule ∈ rules /\ decisive rule /\ rule_differs candidate baseline rule).
Proof.
  unfold run_factors. set (rules := policy_rules _).
  destruct (rules_flags record candidate baseline (stable_sort rule_order rules) (mkFactorLoop [] false false false ""))
    as (H1 & H2 & H3). simpl in H1, H2, H3. set (loop := foldl _ _ _) in *.
  rewrite Exists_exists in H1, H3. rewrite Forall_forall in H2. setoid_rewrite stable_sort_elem in H1.
  setoid_rewrite stable_sort_elem in H2. setoid_rewrite stable_sort_elem in H3.
  unfold apply_weighted_score, score_passes.
  destruct (policy_use_weighted_score _); simpl; [|split_and!; [rewrite H1|rewrite H2|rewrite H3]; naive_solver].
  destruct (foldl (score_metric _ _) _ _) as [score evaluated]. simpl.
  destruct evaluated; simpl; [|split_and!; [rewrite H1|rewrite H2|rewrite H3]; naive_solver].
  destruct (dleb _ score); simpl; split_and!; rewrite ?H1, ?H2, ?H3; naive_solver.
Qed.

(** ** Acceptance *)

(** The candidate's and the baseline's evidence in a record. *)
Definition record_evidence (record : ExperimentRecord) (branch : Z) : option BranchEvidence :=
  evidence_of branch (compute_evidence record).
Definition record_baseline (record : ExperimentRecord) : option BranchDefinition :=
  first_baseline (def_branches (rec_definition record)).
Definition baseline_evidence (record : ExperimentRecord) : option BranchEvidence :=
  evidence_for (record_baseline record) (compute_evidence record).

(** The candidate may replace the baseline. *)
Record acceptable (record : ExperimentRecord) (candidate : BranchDefinition) : Prop := {
  acc_not_baseline : forall b, record_baseline record = Some b -> branch_id b <> branch_id candidate;
  acc_constraints : constraints_hold record candidate (record_baseline record)
                      (record_evidence record (branch_id candidate)) (baseline_evidence record);
  acc_won : forall rule, rule ∈ policy_rules (def_policy (rec_definition record)) -> decisive rule ->
              rule_won record (record_evidence record (branch_id candidate)) (baseline_evidence record) rule;
  acc_score : score_passes record (record_evidence record (branch_id candidate)) (baseline_evidence record);
  acc_differs : exists rule, rule ∈ policy_rules (def_policy (rec_definition record)) /\ decisive rule
              /\ rule_differs (record_evidence record (branch_id candidate)) (baseline_evidence record) rule
}.

Lemma conclude_accepts loop decision :
  dec_outcome (conclude loop decision) = DecisionOutcome.ACCEPT
  <-> dec_outcome decision = DecisionOutcome.ACCEPT /\ fl_any_decisive loop = true
      /\ fl_any_decisive_failed loop = false /\ fl_any_nonzero_delta loop = true.
Proof.
  unfold conclude. case_bool_decide as Ho; simpl; [|tauto].
  destruct (fl_any_decisive loop), (fl_any_decisive_failed loop), (fl_any_nonzero_delta loop); simpl; intuition congruence.
Qed.

(** C21: a decision accepts a candidate exactly when the branch exists and is
    not the baseline, the experiment is open, both branches are eligible and
    hold the required completed trials and valid observations of every
    required metric, no invalid observation blocks it, the environments match,
    every decisive comparison is won on aggregates that are present, the
    weighted score reaches its threshold, and at least one decisive metric
    differs: a tie is never an acceptance. *)
Theorem build_decision_accepts record candidate_key id sequence :
  dec_outcome (build_decision record candidate_key id sequence) = DecisionOutcome.ACCEPT
  <-> exists candidate,
        last_such (fun b => branch_id b =? candidate_key) (def_branches (rec_definition record)) = Some candidate
        /\ acceptable record candidate.
Proof.
  unfold build_decision. fold (record_baseline record).
  destruct (last_such _ _) as [candidate|] eqn:Hc; [|split; [done|by intros (? & ? & _)]].
  destruct (match record_baseline record with Some b => branch_id b =? branch_id candidate | None => false end) eqn:Hb.
  { split; [done|]. intros (c & [= <-] & [Hne _ _ _ _]). destruct (record_baseline record) as [b|]; [|done].
    zprop. by destruct (Hne b eq_refl). }
  fold (evidence_for (record_baseline record) (compute_evidence record)). fold (baseline_evidence record).
  fold (record_evidence record (branch_id candidate)).
  rewrite conclude_accepts. simpl. rewrite apply_constraints_accepts.
  fold (baseline_evidence record). fold (record_evidence record (branch_id candidate)).
  destruct (run_factors_flags record (record_evidence record (branch_id candidate)) (baseline_evidence record)) as (H1 & H2 & H3).
  rewrite H1, H2, H3. split.
  - intros (Hcon & Hdec & (Hwon & Hscore) & Hdiff). exists candidate. split; [done|]. constructor; auto.
    intros b Hbl. rewrite Hbl in Hb. by apply Z.eqb_neq.
  - intros (c & [= <-] & [_ Hcon Hwon Hscore Hdiff]). split_and!; auto.
    destruct Hdiff as (rule & Hin & Hd & _). eauto.
Qed.

(** ** Evidence *)

(** What the summaries hold only depends on the authoritative observations. *)
Lemma index_observation_filter record observations index :
  foldl (index_observation record) index (List.filter (is_authoritative record) observations)
  = foldl (index_observation record) index observations.
Proof.
  revert index. induction observations as [|o observations IH]; intros index; simpl; [done|].
  destruct (is_authoritative record o) eqn:Ha; simpl; rewrite IH; [done|].
  f_equal. unfold index_observation. by rewrite Ha.
Qed.

Lemma branch_evidence_observations record branch observations :
  observation_summaries (record <| rec_observations := observations |>) = observation_summaries record ->
  branch_evidence (record <| rec_observations := observations |>) branch = branch_evidence record branch.
Proof. intros Heq. unfold branch_evidence. by rewrite Heq. Qed.


(** ** Finalization *)

(** What identifies a decision's content, its identity, sequence and text aside. *)
Definition decision_content (d : Decision) :=
  (dec_outcome d, dec_experiment d, dec_generation d, dec_hypothesis d, dec_hypothesis_revision d, dec_policy d,
   (dec_candidate d, dec_baseline d, dec_factors d, dec_constraints d, dec_evidence d, dec_canonical_state_digest d)).

Lemma build_decision_content record candidate id sequence id' sequence' :
  decision_content (build_decision record candidate id sequence)
  = decision_content (build_decision record candidate id' sequence').
Proof.
  unfold build_decision, conclude. generalize (compute_evidence record). intros evidence.
  destruct (last_such _ _) as [b|]; [|reflexivity]. destruct (match first_baseline _ with Some _ => _ | None => _ end).
  - destruct (first_baseline _); reflexivity.
  - cbn [dec_outcome]. destruct (first_baseline _); simpl; repeat case_match; reflexivity.
Qed.


(** ** Rollback *)

Lemma last_such_cons {A} (f : A -> bool) x l :
  last_such f (x :: l) = match last_such f l with Some y => Some y | None => if f x then Some x else None end.
Proof.
  unfold last_such. simpl. generalize (if f x then Some x else None) as acc. intros acc. revert acc.
  induction l as [|y l IH]; intros acc; simpl; [done|]. rewrite (IH (if f y then Some y else acc)), (IH (if f y then Some y else None)).
  destruct (foldl _ None l); [done|]. by destruct (f y).
Qed.

(** With distinct identities the first match is the only one. *)
Lemma update_branch_map id f branches :
  NoDup (map branch_id branches) ->
  update_branch id f branches = map (fun b => if branch_id b =? id then f b else b) branches.
Proof.
  induction branches as [|b branches IH]; simpl; [done|]. intros [Hn Hnd]%NoDup_cons.
  destruct (branch_id b =? id) eqn:E; [|by rewrite IH]. zprop. f_equal. clear IH Hnd.
  induction branches as [|c branches IH]; simpl in *; [done|]. apply not_elem_of_cons in Hn as [Hne Hn].
  rewrite (proj2 (Z.eqb_neq _ _)) by congruence. f_equal. auto.
Qed.

Definition restore (snapshot : BranchAuthoritySnapshot) (b : BranchDefinition) : BranchDefinition :=
  b <| branch_state := snap_state snapshot |> <| branch_generation := snap_generation snapshot |>.

(** What the snapshots make of one branch: the last one naming it counts. *)
Definition restored_branch (authority : list BranchAuthoritySnapshot) (b : BranchDefinition) : BranchDefinition :=
  match last_such (fun s => snap_branch s =? branch_id b) authority with
  | Some snapshot => restore snapshot b
  | None => b
  end.

Lemma find_branch_definition_Some branches id :
  is_Some (find_branch_definition branches id) <-> id ∈ map branch_id branches.
Proof.
  unfold find_branch_definition. split.
  - intros [b [Hin Hid]%find_some]. zprop. apply list_elem_of_fmap. exists b. rewrite list_elem_of_In. auto.
  - intros (b & -> & Hin)%list_elem_of_fmap. destruct (List.find _ branches) eqn:E; [by eexists|].
    apply list_elem_of_In in Hin. pose proof (find_none _ _ E b Hin) as Hn. simpl in Hn. by rewrite Z.eqb_refl in Hn.
Qed.

Lemma restore_branches_spec authority branches restored :
  NoDup (map branch_id branches) ->
  let result := foldl (fun acc snapshot =>
    match find_branch_definition acc.1 (snap_branch snapshot) with
    | None => acc
    | Some _ => (update_branch (snap_branch snapshot) (restore snapshot) acc.1, snap_branch snapshot :: acc.2)
    end) (branches, restored) authority in
  result.1 = map (restored_branch authority) branches
  /\ forall b, b ∈ branches -> (branch_id b ∈ result.2 <-> branch_id b ∈ restored
        \/ is_Some (last_such (fun s => snap_branch s =? branch_id b) authority)).
Proof.
  revert branches restored. induction authority as [|snapshot authority IH]; intros branches restored Hnd; simpl.
  - split; [by rewrite map_id|]. intros b _. split; [auto|]. by intros [?|[? [=]]].
  - destruct (find_branch_definition branches (snap_branch snapshot)) eqn:Hf.
    + set (branches' := update_branch _ _ branches).
      assert (Hmap : branches' = map (fun b => if branch_id b =? snap_branch snapshot then restore snapshot b else b) branches)
        by by apply update_branch_map.
      assert (Hids : map branch_id branches' = map branch_id branches).
      { rewrite Hmap, map_map. apply map_ext. intros b'. by destruct (_ =? _). }
      destruct (IH branches' (snap_branch snapshot :: restored)) as [H1 H2]; [by rewrite Hids|].
      split.
      * rewrite H1, Hmap, map_map. apply map_ext. intros b'. unfold restored_branch. rewrite last_such_cons.
        rewrite (Z.eqb_sym (snap_branch snapshot)). destruct (branch_id b' =? snap_branch snapshot) eqn:E; simpl; by destruct (last_such _ authority).
      * intros b' Hb'.
        assert (Hin : exists b'', b'' ∈ branches' /\ branch_id b'' = branch_id b').
        { assert (Hi : branch_id b' ∈ map branch_id branches') by (rewrite Hids; apply list_elem_of_fmap; eauto).
          apply list_elem_of_fmap in Hi as (b'' & ? & ?). eauto. }
        destruct Hin as (b'' & Hb'' & Heq). specialize (H2 b'' Hb''). rewrite Heq in H2. rewrite H2, last_such_cons.
        destruct (last_such _ authority) as [s|]; [split; [by right; eexists|by right; eexists]|].
        rewrite elem_of_cons. destruct (Z.eqb_spec (snap_branch snapshot) (branch_id b')) as [->|Hne].
        -- split; [by right; eexists|by left; left].
        -- split; intros [?|[? [=]]]; try tauto; try (destruct H3; [congruence|tauto]).
    + destruct (IH branches restored Hnd) as [H1 H2].
      assert (Hnot : forall b, b ∈ branches -> (snap_branch snapshot =? branch_id b) = false).
      { intros b Hb. apply Z.eqb_neq. intros Heq.
        destruct (proj2 (find_branch_definition_Some branches (snap_branch snapshot))) as [? ?]; [|congruence].
        rewrite Heq. apply list_elem_of_fmap. eauto. }
      split.
      * rewrite H1. apply map_ext_in. intros b Hb%list_elem_of_In. unfold restored_branch. rewrite last_such_cons, Hnot by done.
        by destruct (last_such _ authority).
      * intros b Hb. rewrite H2 by done. rewrite last_such_cons, Hnot by done. by destruct (last_such _ authority).
Qed.

Lemma rollback_record_branches chosen experiment point sequence reason r :
  NoDup (branch_ids r) ->
  def_branches (rec_definition (rollback_record chosen experiment point sequence reason r))
  = map (fun b => match last_such (fun s => snap_branch s =? branch_id b) (point_authority chosen) with
                  | Some snapshot => restore snapshot b
                  | None => demote_branch [] b
                  end) (def_branches (rec_definition r)).
Proof.
  intros Hnd. unfold rollback_record, restore_branches.
  destruct (restore_branches_spec (point_authority chosen) (def_branches (rec_definition r)) [] Hnd) as [H1 H2].
  simpl in H1, H2. fold restore in H1, H2. unfold restore in *.
  destruct (foldl _ _ _) as [branches restored]. simpl in *. rewrite H1, map_map.
  apply map_ext_in. intros b Hb%list_elem_of_In. specialize (H2 b Hb). unfold restored_branch, restore.
  destruct (last_such _ _) as [snapshot|] eqn:Hs; unfold demote_branch; simpl.
  - rewrite bool_decide_true; [done|]. apply H2. right. by eexists.
  - rewrite bool_decide_false; [done|]. rewrite H2. intros [?|[? [=]]]. set_solver.
Qed.

Lemma rollback_record_ids chosen experiment point sequence reason r :
  branch_ids (rollback_record chosen experiment point sequence reason r) = branch_ids r.
Proof.
  pose proof (re_branches _ _ (rollback_record_evolves chosen experiment point sequence reason r)) as [l Hl].
  assert (Hlen : length (def_branches (rec_definition (rollback_record chosen experiment point sequence reason r)))
    = length (def_branches (rec_definition r))).
  { unfold rollback_record.
    pose proof (restore_branches_identity (point_authority chosen)
      (def_branches (rec_definition (abandon_stale_live_work sequence r)))) as Hr.
    destruct (restore_branches _ _) as [branches restored]. simpl in *. rewrite length_map.
    apply (f_equal length) in Hr. by rewrite !length_map in Hr. }
  assert (l = []) as ->.
  { apply (f_equal length) in Hl. rewrite length_app, !length_map in Hl. destruct l; [done|simpl in Hl; lia]. }
  rewrite app_nil_r in Hl. unfold branch_ids.
  apply (f_equal (map (fun i => i.1.1.1.1.1.1.1.1.1))) in Hl. by rewrite !map_map in Hl.
Qed.

(** C39: a rollback that succeeds has found a recorded point of the requested
    generation and restores it: the experiment is at that generation again and
    no longer final, every branch the point names has the recorded state and
    branch generation, every other branch is ineligible, all trials and
    attempts are finished, and the restoration is recorded as a new point. *)
Theorem rollback_restores experiment target reason impl impl' :
  rollback experiment target reason impl = (impl', success) ->
  exists r r' chosen,
    find_experiment experiment impl = Some r /\ find_experiment experiment impl' = Some r'
    /\ chosen ∈ rec_rollback_points r /\ point_generation chosen = target
    /\ def_generation (rec_definition r') = target
    /\ rec_state r' <> ExperimentState.FINALIZED /\ rec_state r' <> ExperimentState.SUPERSEDED
    /\ Forall2 (fun b b' => branch_id b' = branch_id b /\
         match last_such (fun s => snap_branch s =? branch_id b) (point_authority chosen) with
         | Some snapshot => branch_state b' = snap_state snapshot /\ branch_generation b' = snap_generation snapshot
         | None => is_branch_eligible (branch_state b') = false
         end) (def_branches (rec_definition r)) (def_branches (rec_definition r'))
    /\ (forall k t, om_find k (rec_trials r') = Some t -> is_terminal (trial_state t) = true)
    /\ (forall k a, om_find k (rec_attempts r') = Some a -> is_attempt_terminal (attempt_state a) = true)
    /\ (exists point, rec_rollback_points r' = rec_rollback_points r ++ [point]
         /\ point_generation point = target /\ point_restored_from point = def_generation (rec_definition r)
         /\ point_authority point = point_authority chosen).
Proof.
  unfold rollback. destruct (find_experiment experiment impl) as [r|] eqn:Hr; [|done].
  case_bool_decide as Hcancel; [done|]. destruct (negb (id_valid target)); [done|].
  destruct (last_such _ (rec_rollback_points r)) as [chosen|] eqn:Hch; [|done]. destruct (_ && _); [done|].
  unfold next_sequence, alloc_rollback_id.
  set (sequence := increment (st_last_sequence _)). set (point := increment (st_id_watermark_rollback _)).
  set (r' := rollback_record _ _ _ _ _ _).
  match goal with |- context [validate_experiment_record ?a ?b ?c] =>
    destruct (validate_experiment_record a b c) as [code stage detail] eqn:Hvalid end.
  destruct (negb (status_ok _)) eqn:Hv; [intros [= _ -> -> ->]; done|].
  rewrite <- Hvalid in Hv. apply negb_false_iff, validated_wf in Hv.
  match goal with |- context [persist_locked ?x] => destruct (persist_locked x) as [impl1 persisted] eqn:Hp end.
  apply persist_state in Hp as (deg & w & -> & _).
  destruct (negb (status_ok persisted)) eqn:Hper; [intros [= _ ->]; done|]. intros [= <-].
  match goal with |- context [notify_event ?a ?b] => destruct (notify_event_state a b) as [n ->] end.
  assert (Hnd : NoDup (branch_ids r)).
  { pose proof (wf_branch_unique _ (wf_lineage _ _ _ Hv)) as Hnd. unfold r' in Hnd. by rewrite rollback_record_ids in Hnd. }
  assert (Hpick : chosen ∈ rec_rollback_points r /\ point_generation chosen = target).
  { clear -Hch. revert Hch. induction (rec_rollback_points r) as [|p points IH]; [done|]. rewrite last_such_cons.
    destruct (last_such _ points); [intros Hs; destruct (IH Hs); split; [by right|done]|].
    case_match eqn:E; [|done]. intros [= <-]. zprop. split; [left|done]. }
  exists r, r', chosen. split_and!; [done|unfold find_experiment; simpl; by rewrite om_find_set_eq|apply Hpick|apply Hpick|..].
  - unfold r', rollback_record. destruct (restore_branches _ _). simpl. apply Hpick.
  - unfold r', rollback_record. destruct (restore_branches _ _). simpl. by destruct (rec_state r).
  - unfold r', rollback_record. destruct (restore_branches _ _). simpl. by destruct (rec_state r).
  - unfold r'. rewrite rollback_record_branches by done. apply Forall2_fmap_r, Forall_Forall2_diag, Forall_forall.
    intros b _. simpl. destruct (last_such _ (point_authority chosen)); [by split_and!|].
    unfold demote_branch. rewrite bool_decide_false by set_solver. by destruct (branch_state b) eqn:E; simpl; rewrite ?E.
  - intros k t. unfold r', rollback_record. destruct (restore_branches _ _). simpl. rewrite om_find_map.
    destruct (om_find k (rec_trials r)) as [t0|]; [|done]. simpl. intros [= <-]. by destruct (is_terminal (trial_state t0)) eqn:E.
  - intros k a. unfold r', rollback_record. destruct (restore_branches _ _). simpl. rewrite om_find_map.
    destruct (om_find k (rec_attempts r)) as [a0|]; [|done]. simpl. intros [= <-].
    by destruct (is_attempt_terminal (attempt_state a0)) eqn:E.
  - unfold r', rollback_record. destruct (restore_branches _ _). simpl. eexists. split_and!; try reflexivity. apply Hpick.
Qed.

End Verdicts.

(** ** In the run of [Scenario] *)

(** The results of the two operations, evaluated once. *)
Definition final_decision : Decision := Eval vm_compute in
  match (finalize_experiment 1 2 "" Run.s6).2 with Ok d => d | Err _ => default_Decision end.
Definition undone : Impl := Eval vm_compute in (rollback 1 1 "undo" Run.s7).1.


Lemma rollback_restores_witness :
  exists r', find_experiment 1 undone = Some r' /\ rec_state r' <> ExperimentState.FINALIZED
    /\ def_generation (rec_definition r') = 1.
Proof.
  destruct (rollback_restores 1 1 "undo" Run.s7 undone ltac:(by_evaluation))
    as (r & r' & chosen & _ & Hr' & _ & _ & Hg & Hs & _).
  exists r'. split; [exact Hr'|]. split; [exact Hs|exact Hg].
Defined.
