(* ===== verification/Lifecycle.v ===== *)
(** * What the operations do

    The effect of the accepted paths: a created experiment is stored, well
    formed and faithful to its specification; an observation is stored once
    however often it is delivered; a completion needs evidence and marks
    exactly one attempt; a claim stays within its budget. *)
From S2P Require Import Prelude OMap Error Domain Identity Float64 Model Hash Sorting Canonical State Validator Messages Spec Coordinator Authority Evidence Decision Scenario Fencing History Ledger Invariants Recovery System.

(** ** Definitions *)

Lemma build_metrics_names watermark specs :
  map metric_name (build_metrics watermark specs).2 = map mspec_name specs
  /\ map metric_kind (build_metrics watermark specs).2 = map mspec_kind specs.
Proof.
  revert watermark. induction specs as [|m specs IH]; intros watermark; simpl; [done|].
  destruct (IH (u64 (watermark + 1))) as [H1 H2]. destruct (build_metrics _ specs) as [w built]. simpl in *. by rewrite H1, H2.
Qed.

Lemma inherit_from_spec_identity parent_id parent b :
  branch_name (inherit_from_spec parent_id parent b) = branch_name b
  /\ branch_role (inherit_from_spec parent_id parent b) = branch_role b
  /\ branch_planned_trials (inherit_from_spec parent_id parent b) = branch_planned_trials b
  /\ branch_state (inherit_from_spec parent_id parent b) = branch_state b.
Proof. unfold inherit_from_spec. by repeat case_match. Qed.

(** The branches of a built experiment follow the specification one by one. *)
Definition follows_spec (s : BranchSpec) (b : BranchDefinition) : Prop :=
  branch_name b = bspec_name s /\ branch_role b = bspec_role s /\ branch_planned_trials b = bspec_planned_trials s
  /\ branch_state b = BranchState.ACTIVE.

Lemma build_branches_follow sequence watermark known specs w branches :
  build_branches sequence watermark known specs = (w, Ok branches) -> Forall2 follows_spec specs branches.
Proof.
  revert watermark known w branches. induction specs as [|s specs IH]; intros watermark known w branches; simpl.
  { intros [= _ <-]. constructor. }
  set (known' := known ++ _). specialize (IH (u64 (watermark + 1)) known').
  destruct (build_branches _ _ known' specs) as [w' [l|e]].
  - assert (Hl : Forall2 follows_spec specs l) by by eapply IH.
    destruct (bspec_fork_from s) as [parent|]; [destruct (name_find parent known) as [[pid pspec]|]; [|done]|];
      intros [= _ <-]; constructor; try done.
    destruct (inherit_from_spec_identity pid pspec (build_root_branch (u64 (watermark + 1)) sequence s)) as (H1 & H2 & H3 & H4).
    unfold follows_spec. by rewrite H1, H2, H3, H4.
  - destruct (bspec_fork_from s) as [parent|]; [destruct (name_find parent known) as [[pid pspec]|]|]; done.
Qed.

Section Lifecycle.
Context `{StorageLaws} `{Formatting}.
Implicit Types (impl : Impl).

(** A successful creation stores, under an identity that was not in use, a
    record that passes the validator, is open at generation 1 with no trials
    or evidence, and whose metrics and branches follow the specification in
    order; every other experiment is left as it was. *)
Theorem create_experiment_stores spec impl impl' id :
  create_experiment spec impl = (impl', Ok id) ->
  find_experiment id impl = None
  /\ (exists r, find_experiment id impl' = Some r /\ record_wf (impl_limits impl) r id
      /\ rec_state r = ExperimentState.OPEN /\ def_generation (rec_definition r) = 1
      /\ rec_trials r = [] /\ rec_attempts r = [] /\ rec_observations r = []
      /\ def_name (rec_definition r) = spec_name spec
      /\ map metric_name (def_metrics (rec_definition r)) = map mspec_name (spec_metrics spec)
      /\ Forall2 follows_spec (spec_branches spec) (def_branches (rec_definition r)))
  /\ forall id', id' <> id -> find_experiment id' impl' = find_experiment id' impl.
Proof.
  unfold create_experiment. destruct (negb _); [done|]. destruct (negb _); [done|]. destruct (_ <=? _); [done|].
  destruct (alloc_experiment_id impl) as [experiment impl1] eqn:E1.
  assert (S1 : same_tables impl impl1) by (injection E1 as _ <-; by constructor).
  destruct (om_mem experiment _) eqn:Hfresh; [done|].
  destruct (next_sequence impl1) as [sequence impl2] eqn:E2. apply next_sequence_same in E2.
  destruct (alloc_hypothesis_id impl2) as [hypothesis impl3] eqn:E3.
  assert (S3 : same_tables impl2 impl3) by (injection E3 as _ <-; by constructor).
  pose proof (build_metrics_names (st_id_watermark_metric (impl_state impl3)) (spec_metrics spec)) as [Hmetrics _].
  destruct (build_metrics _ _) as [mw metrics]. simpl in Hmetrics.
  destruct (match spec_expected_metric spec with Some _ => _ | None => _ end) as [expected|]; [|done].
  destruct (build_branches _ _ _ _) as [bw [branches|e]] eqn:Hbuild; [|done]. apply build_branches_follow in Hbuild.
  set (policy := increment _). set (impl6 := upd impl_state _ (upd impl_state _ (upd impl_state _ impl3))).
  assert (S6 : same_tables impl impl6).
  { transitivity impl1; [done|]. transitivity impl2; [done|]. transitivity impl3; [done|]. by constructor. }
  assert (Hnone : find_experiment experiment impl = None).
  { unfold find_experiment. rewrite <- (st_same_experiments _ _ S1). unfold om_mem in Hfresh. by case_match. }
  set (record := new_record _ _ _ _ _ _ _ _). set (placed := upd impl_state _ impl6).
  assert (Hplaced : forall id', find_experiment id' placed
    = if decide (id' = experiment) then Some record else find_experiment id' impl).
  { intros id'. unfold find_experiment in *.
    change (st_experiments (impl_state placed)) with (om_emplace experiment record (st_experiments (impl_state impl6))).
    rewrite (st_same_experiments _ _ S6), om_find_emplace.
    destruct (decide (id' = experiment)) as [->|]; [by rewrite Hnone, ?decide_True|by destruct (om_find id' _)]. }
  assert (Hself : find_experiment experiment placed = Some record).
  { specialize (Hplaced experiment). by rewrite decide_True in Hplaced. }
  rewrite Hself.
  destruct (negb (status_ok (validate_experiment_record _ _ _))) eqn:Hv; [done|].
  apply negb_false_iff, validated_wf in Hv.
  destruct (persist_locked placed) as [impl8 persisted] eqn:Hp. apply persist_state in Hp as (d & w & -> & _).
  destruct (negb (status_ok persisted)); [done|]. intros [= <- <-].
  destruct (notify_event_state ("experiment-created:" +:+ id_to_string experiment)
    (placed <| impl_persistence_degraded := d |> <| impl_world := w |>)) as [n ->].
  split; [done|]. split.
  - exists record. rewrite <- (st_same_limits _ _ S6). split_and!; try done.
  - intros id' Hne. change (find_experiment id' placed = find_experiment id' impl). by rewrite Hplaced, decide_False.
Qed.

(** ** Evidence *)

(** An accepted observation moves its trial and attempt forward and leaves
    what the envelope check reads of them. *)
Definition trial_moved (t t' : TrialRecord) : Prop :=
  t' = t \/ exists s, t' = t <| trial_state := TrialState.OBSERVING |> <| trial_updated_sequence := s |>.
Definition attempt_moved (a a' : AttemptRecord) : Prop :=
  a' = a \/ exists s, a' = a <| attempt_state := AttemptState.RUNNING |> <| attempt_updated_sequence := s |>.

Lemma names_current_moved e r r' b t t' a a' :
  names_current e r b t a -> rec_definition r' = rec_definition r -> rec_state r' = rec_state r ->
  trial_moved t t' -> attempt_moved a a' -> names_current e r' b t' a'.
Proof.
  intros [] Hd Hs [->|[s ->]] [->|[s' ->]]; constructor; simpl; rewrite ?Hd, ?Hs; auto.
Qed.

(** What storing an observation does. *)
Record stored (o : Observation) (r : ExperimentRecord) (t : TrialRecord) (a : AttemptRecord) (impl : Impl)
    (r' : ExperimentRecord) (impl' : Impl) : Prop := {
  sto_definition : rec_definition r' = rec_definition r;
  sto_state : rec_state r' = rec_state r;
  sto_observations : exists s, rec_observations r' = rec_observations r ++ [o <| obs_sequence := s |>];
  sto_trial : exists t', om_find (obs_trial o) (rec_trials r') = Some t' /\ trial_moved t t';
  sto_attempt : exists a', om_find (obs_attempt o) (rec_attempts r') = Some a' /\ attempt_moved a a';
  sto_index : impl_observation_index impl'
    = index_set (def_id (rec_definition r)) (obs_id o) (length (rec_observations r)) (impl_observation_index impl);
  sto_tables : same_tables impl impl';
  sto_admitting : impl_admitting_work impl' = impl_admitting_work impl
}.

Lemma store_observation_stored o r t a impl r' impl' :
  om_find (obs_trial o) (rec_trials r) = Some t -> om_find (obs_attempt o) (rec_attempts r) = Some a ->
  store_observation o r t a impl = (r', impl') -> stored o r t a impl r' impl'.
Proof.
  intros Ht Ha. unfold store_observation, next_sequence. intros Hs.
  repeat case_match; simplify_eq/=; constructor; simpl; rewrite ?om_find_set_eq; try done; eauto.
  all: try by (eexists; split; [done|]; first [by left|right; by eexists]).
  all: try by constructor.
Qed.

Lemma index_find_set experiment id position index :
  index_find experiment id (index_set experiment id position index) = Some position.
Proof. unfold index_find, index_set. rewrite om_find_set_eq. simpl. by rewrite om_find_set_eq. Qed.

Lemma same_observation_stored o s :
  mv_real (obs_value o) <> S754_nan -> same_observation (o <| obs_sequence := s |>) o = true.
Proof.
  intros Hnan. unfold same_observation, same_metric_value. simpl.
  rewrite !Z.eqb_refl, !bool_decide_true, deqb_refl, Bool.eqb_reflx, !String.eqb_refl by done. done.
Qed.

Lemma publish_observation_again request impl r e :
  find_experiment (obs_experiment (pubo_observation request)) impl = Some r ->
  e = envelope_from (pubo_observation request) (pubo_epoch request) (pubo_worker request) (pubo_boot request) r ->
  forall r' b t a l metric position, authorized_by e impl r' b t a l -> r' = r ->
  find_metric r (obs_metric (pubo_observation request)) = Some metric ->
  index_find (def_id (rec_definition r)) (obs_id (pubo_observation request)) (impl_observation_index impl) = Some position ->
  same_observation (nth position (rec_observations r) default_Observation) (pubo_observation request) = true ->
  publish_observation request impl = (impl, success).
Proof.
  intros Hr -> r' b t a l metric position Hau -> Hm Hix Hsame. unfold publish_observation. rewrite Hr.
  rewrite (check_envelope_authorized _ _ _ _ _ _ _ Hau). envelope_result.
  unfold accept_observation. by rewrite Hm, Hix, Hsame.
Qed.

(** Publishing is idempotent: delivering an accepted observation again
    succeeds and changes nothing, provided its real value is not a NaN. *)
Theorem publish_observation_idempotent request impl impl' :
  publish_observation request impl = (impl', success) ->
  mv_real (obs_value (pubo_observation request)) <> S754_nan ->
  publish_observation request impl' = (impl', success).
Proof.
  set (o := pubo_observation request). intros Hpub Hnan. pose proof Hpub as Hsame. revert Hpub.
  unfold publish_observation at 1. fold o. destruct (find_experiment (obs_experiment o) impl) as [r|] eqn:Hr; [|done].
  set (e := envelope_from o (pubo_epoch request) (pubo_worker request) (pubo_boot request) r).
  destruct (check_envelope_cases e impl) as [(r0 & b & t & a & l & Hau & ->)|[_ ->]]; envelope_result.
  2: { destruct (persist_locked _) as [? persisted]. destruct (negb (status_ok persisted)) eqn:Hp; [intros [= _ ->]; done|done]. }
  pose proof Hau as (Hc & [Ha1 Ha2 Ha3 Ha4 Ha5] & [Hr0 Hb Ht Ha] & Hn).
  simpl in Hr0. assert (r0 = r) as -> by congruence. unfold accept_observation.
  destruct (find_metric r (obs_metric o)) as [metric|] eqn:Hm; [|done].
  destruct (index_find _ (obs_id o) (impl_observation_index impl)) as [position|] eqn:Hix.
  { destruct (same_observation _ o) eqn:Hso; [|done]. intros [= <-].
    by eapply publish_observation_again. }
  destruct (_ <=? _); [done|]. destruct (_ <=? _); [done|].
  destruct (negb (status_ok (check_observation r metric o))) eqn:Hchk; [intros [= _ Hs]; by rewrite Hs in Hchk|].
  destruct (store_observation o r t a impl) as [r1 impl1] eqn:Hst.
  apply store_observation_stored in Hst as [Hd Hs (s & Hobs) (t' & Ht' & Htm) (a' & Ha' & Ham) Hidx Htab Hadm]; [|done..].
  destruct (persist_locked _) as [impl2 persisted] eqn:Hp. apply persist_state in Hp as (d & w & -> & _).
  destruct (negb (status_ok persisted)) eqn:Hper; [intros [= _ ->]; done|]. intros [= <-].
  eapply (publish_observation_again _ _ r1 e) with (r' := r1) (b := b) (t := t') (a := a') (l := l) (metric := metric)
    (position := length (rec_observations r)).
  - unfold find_experiment. simpl. by rewrite om_find_set_eq.
  - unfold e, envelope_from. by rewrite Hd.
  - split; [done|]. split; [|split].
    + destruct Htab as [_ Hep _ _ _ Hlv]. constructor; simpl; unfold find_live_worker in *; simpl; rewrite ?Hadm, ?Hep, ?Hlv; done.
    + constructor; simpl; [unfold find_experiment; simpl; by rewrite om_find_set_eq|unfold find_branch; by rewrite Hd|done|done].
    + by eapply names_current_moved.
  - done.
  - unfold find_metric. by rewrite Hd.
  - simpl. rewrite Hd, Hidx. apply index_find_set.
  - rewrite Hobs, app_nth2, Nat.sub_diag by lia. simpl. by apply same_observation_stored.
Qed.

(** ** Completion *)

(** A successful artifact loop has registered everything submitted. *)
Lemma register_artifacts_registered attempt submitted loop loop' status :
  register_artifacts attempt submitted loop = (loop', status) -> status_ok status = true ->
  cl_registered loop' = cl_registered loop ++ map artifact_id submitted.
Proof.
  revert loop. induction submitted as [|a submitted IH]; intros loop; cbn [register_artifacts].
  { intros [= <- _] _. by rewrite app_nil_r. }
  destruct (next_sequence (cl_impl loop)) as [sequence impl1].
  repeat case_match; try by intros [= _ <-]. intros Hr Hok. apply IH in Hr; [|done]. simpl in Hr.
  by rewrite Hr, <- app_assoc.
Qed.

Lemma attempt_observations_some r trial attempt :
  attempt_observations r trial attempt <> 0 ->
  exists o, o ∈ rec_observations r /\ obs_trial o = trial /\ obs_attempt o = attempt.
Proof.
  unfold attempt_observations. destruct (List.filter _ _) as [|o rest] eqn:E; [done|]. intros _.
  assert (Hin : In o (o :: rest)) by by left. rewrite <- E in Hin. apply filter_In in Hin as [Hin Hc]. zprop.
  exists o. by rewrite list_elem_of_In.
Qed.

(** What a completion leaves of a record. *)
Record committed_record (e : AuthorityEnvelope) (artifacts : list ArtifactRecord) (r r' : ExperimentRecord) : Prop := {
  cmt_trial : exists t', om_find (env_trial e) (rec_trials r') = Some t'
    /\ trial_state t' = TrialState.COMPLETED /\ trial_committed_attempts t' = 1
    /\ trial_authoritative_attempt t' = env_attempt e;
  cmt_attempt : exists a', om_find (env_attempt e) (rec_attempts r') = Some a'
    /\ attempt_state a' = AttemptState.COMPLETED /\ attempt_committed a' = true;
  cmt_artifacts : exists added, rec_artifacts r' = rec_artifacts r ++ added /\ length added = length artifacts;
  cmt_observations : rec_observations r' = rec_observations r;
  cmt_definition : rec_definition r' = rec_definition r;
  cmt_other_trials : forall k, k <> env_trial e -> om_find k (rec_trials r') = om_find k (rec_trials r);
  cmt_other_attempts : forall k, k <> env_attempt e -> om_find k (rec_attempts r') = om_find k (rec_attempts r)
}.

Lemma commit_trial_committed request impl impl' :
  reachable (Up impl) -> commit_trial request impl = (impl', success) ->
  let e := commit_envelope request in
  authorized e impl
  /\ exists r r', find_experiment (env_experiment e) impl = Some r /\ find_experiment (env_experiment e) impl' = Some r'
     /\ (exists o, o ∈ rec_observations r /\ obs_trial o = env_trial e /\ obs_attempt o = env_attempt e)
     /\ committed_record e (commit_artifacts request) r r'.
Proof.
  intros Hreach Hok e. revert Hok. unfold commit_trial. fold e. destruct (envelope_mismatch _ _ _ _); [done|].
  destruct (check_envelope_cases e impl) as [(r & b & t & a & l & Hau & ->)|[_ ->]]; envelope_result; [|done].
  pose proof Hau as (_ & _ & [Hr _ Ht Ha] & Hn).
  pose proof (ri_ledger _ _ _ _ (inv_record _ _ _ (reachable_inv _ Hreach) Hr)) as Hl.
  destruct (li_trial_key _ _ _ _ Hl _ _ Ht) as [Htid _]. destruct (li_attempt_key _ _ _ _ Hl _ _ Ha) as [Haid _].
  unfold accept_commit, write_back. fold e. rewrite bool_decide_false.
  2: { intros Hc. pose proof (cur_trial_open _ _ _ _ _ Hn) as Ho. by rewrite Hc in Ho. }
  cbn [andb]. destruct (_ =? 0) eqn:Hobs; [done|]. zprop. apply attempt_observations_some in Hobs as (o & Ho & Hot & Hoa).
  destruct (next_sequence impl) as [sequence impl1] eqn:Hseq. apply next_sequence_same in Hseq.
  destruct (register_artifacts _ _ _) as [loop status] eqn:Hloop.
  pose proof (register_artifacts_grows (attempt_id a) (commit_artifacts request) impl1 r t (mkCommitLoop impl1 r t [])) as Hg.
  rewrite Hloop in Hg. destruct Hg as [Htab (added & Hrec & Hlen) Htr].
  { constructor; simpl; [reflexivity|exists []|]; by destruct r, t; unfold upd; simpl; rewrite ?app_nil_r. }
  simpl in *. destruct (negb (status_ok status)) eqn:Hs; [intros [= _ ->]; done|].
  destruct (negb (is_valid_attempt_transition _ _)); [done|].
  destruct (persist_locked _) as [impl2 persisted] eqn:Hp. apply persist_state in Hp as (d & w & -> & _).
  destruct (negb (status_ok persisted)) eqn:Hper; [intros [= _ ->]; done|]. intros [= <-].
  split; [by exists r, b, t, a, l|]. eexists r, _. split_and!; [done|unfold find_experiment; simpl; by rewrite om_find_set_eq| |].
  { exists o. split_and!; congruence. }
  assert (Hall : length added = length (commit_artifacts request)).
  { rewrite Hlen. destruct status as [code stage reason]. apply negb_false_iff in Hs.
    apply register_artifacts_registered in Hloop; [|done]. by rewrite Hloop, length_app, length_map. }
  rewrite Hrec, Htr. constructor; simpl.
  - eexists. rewrite om_find_set_eq. split_and!; try reflexivity. by apply (cur_authoritative _ _ _ _ _ Hn).
  - eexists. rewrite om_find_set_eq. by split_and!.
  - by exists added.
  - done.
  - done.
  - intros k Hk. by rewrite om_find_set_ne.
  - intros k Hk. by rewrite om_find_set_ne.
Qed.


(** ** Failure *)

Lemma eligible_invalidates s : is_branch_eligible s = true -> is_valid_branch_transition s BranchState.INVALID = true.
Proof. by destruct s. Qed.

(** What the failure of its attempt makes of a trial. *)
Definition failed_trial (request : FailTrialRequest) (definition : ExperimentDefinition) (t t' : TrialRecord) : Prop :=
  if fail_retryable request && retryable definition t
  then trial_state t' = TrialState.READY /\ trial_authoritative_attempt t' = 0
       /\ trial_next_attempt_number t' = u32 (trial_attempt_count t + 1)
  else trial_state t' = TrialState.FAILED /\ trial_authoritative_attempt t' = trial_authoritative_attempt t.

(** What it makes of the definition. *)
Definition definition_after_failure (definition : ExperimentDefinition) (branch : Z) : ExperimentDefinition :=
  if bool_decide (def_partial_failure_policy definition = PartialFailurePolicy.INVALIDATE_BRANCH)
  then definition <| def_branches ::= update_branch branch (fun b => b <| branch_state := BranchState.INVALID |>) |>
  else definition.

(** An accepted failure report needs current authority and marks exactly the
    named attempt FAILED; its trial becomes READY for the next attempt number,
    nothing holding it, when the report and the policy allow a retry, and FAILED
    otherwise; the branch is invalidated exactly under INVALIDATE_BRANCH; no
    observation, no other trial and no other attempt changes. *)
Theorem fail_trial_reports request impl impl' :
  fail_trial request impl = (impl', success) ->
  let e := fail_envelope request in
  authorized e impl /\ fail_kind request <> FailureKind.NONE
  /\ exists r r' t t' a a',
    find_experiment (env_experiment e) impl = Some r /\ find_experiment (env_experiment e) impl' = Some r'
    /\ om_find (env_trial e) (rec_trials r) = Some t /\ om_find (env_trial e) (rec_trials r') = Some t'
    /\ failed_trial request (rec_definition r) t t'
    /\ om_find (env_attempt e) (rec_attempts r) = Some a /\ om_find (env_attempt e) (rec_attempts r') = Some a'
    /\ attempt_state a' = AttemptState.FAILED /\ attempt_failure_kind a' = fail_kind request
    /\ rec_definition r' = definition_after_failure (rec_definition r) (env_branch e)
    /\ rec_observations r' = rec_observations r /\ rec_state r' = rec_state r
    /\ (forall k, k <> env_trial e -> om_find k (rec_trials r') = om_find k (rec_trials r))
    /\ (forall k, k <> env_attempt e -> om_find k (rec_attempts r') = om_find k (rec_attempts r)).
Proof.
  intros Hok e. revert Hok. unfold fail_trial. fold e. destruct (envelope_mismatch _ _ _ _); [done|].
  destruct (check_envelope_cases e impl) as [(r & b & t & a & l & Hau & ->)|[_ ->]]; envelope_result; [|done].
  pose proof Hau as (_ & _ & [Hr Hb Ht Ha] & Hn). case_bool_decide as Hk; [done|].
  destruct (next_sequence impl) as [sequence impl1].
  destruct (persist_locked _) as [impl2 persisted] eqn:Hp. apply persist_state in Hp as (d & w & -> & _).
  destruct (negb (status_ok persisted)) eqn:Hper; [intros [= _ ->]; done|]. intros [= <-].
  split; [by exists r, b, t, a, l|]. split; [done|].
  assert (Hdef : forall rest : ExperimentRecord, rec_definition rest = rec_definition r ->
    let r' := invalidate_branch (fail_detail request) (env_branch e) rest in
    rec_definition r' = definition_after_failure (rec_definition r) (env_branch e)
    /\ rec_trials r' = rec_trials rest /\ rec_attempts r' = rec_attempts rest
    /\ rec_observations r' = rec_observations rest /\ rec_state r' = rec_state rest).
  { intros rest Hd. unfold invalidate_branch, definition_after_failure. rewrite Hd. case_bool_decide; [|done].
    assert (Hb' : find_branch rest (env_branch e) = Some b) by (unfold find_branch; by rewrite Hd).
    rewrite Hb', eligible_invalidates by apply Hn. simpl. by rewrite Hd. }
  eexists r, _, t, _, a, _. split; [done|]. split; [unfold find_experiment; simpl; by rewrite om_find_set_eq|].
  unfold fail_record. fold e.
  set (t' := release_trial _ _ _ _ t). set (rest := (_ <| rec_trials ::= _ |>)).
  assert (Htb : trial_branch t' = env_branch e).
  { unfold t', release_trial. rewrite <- (cur_trial_branch _ _ _ _ _ Hn). by case_match. }
  rewrite Htb. unfold log. cbn [rec_trials rec_attempts rec_observations rec_state rec_definition upd field_update].
  destruct (Hdef rest) as (-> & -> & -> & -> & ->); [done|]. unfold rest.
  cbn [rec_trials rec_attempts rec_observations rec_state rec_definition upd field_update].
  rewrite !om_find_set_eq. split; [done|]. split; [reflexivity|]. split.
  { unfold failed_trial, t', release_trial. by destruct (_ && _). }
  split; [done|]. split; [reflexivity|]. split_and!; try done; intros k Hne; by rewrite om_find_set_ne.
Qed.

End Lifecycle.

(** ** In the run of [Scenario] *)

Lemma create_experiment_stores_witness :
  exists r, find_experiment 1 Run.s1 = Some r /\ rec_trials r = [].
Proof.
  destruct (create_experiment_stores Run.spec Run.s0 Run.s1 1 ltac:(by_evaluation)) as (_ & (r & Hf & _ & _ & _ & Ht & _) & _).
  exists r. split; [exact Hf|exact Ht].
Defined.

Definition redelivered : PublishObservationRequest := Run.publish 1 (Run.envelope 0) (double_of_Z 20).

(** The results of the two operations, evaluated once. *)
Definition delivered : Impl := Eval vm_compute in (publish_observation redelivered Run.s4).1.
Definition committed : Impl := Eval vm_compute in (commit_trial (Run.commit (Run.envelope 0)) Run.s5).1.

Lemma publish_observation_idempotent_witness : publish_observation redelivered delivered = (delivered, success).
Proof.
  apply (publish_observation_idempotent redelivered Run.s4 delivered); [by_evaluation|vm_compute; discriminate].
Defined.


Definition reported : FailTrialRequest := default_FailTrialRequest
  <| fail_epoch := 1 |> <| fail_worker := 7 |> <| fail_boot := 70 |> <| fail_envelope := Run.envelope 0 |>
  <| fail_kind := FailureKind.EXECUTION_FAILURE |> <| fail_retryable := true |>.
Definition failed : Impl := Eval vm_compute in (fail_trial reported Run.s4).1.

Lemma fail_trial_reports_witness :
  exists r' t', find_experiment 1 failed = Some r' /\ om_find 1 (rec_trials r') = Some t'
    /\ trial_state t' = TrialState.READY /\ trial_next_attempt_number t' = 2.
Proof.
  destruct (fail_trial_reports reported Run.s4 failed ltac:(by_evaluation))
    as (_ & _ & r & r' & t & t' & a & a' & Hr & Hr' & Ht & Ht' & Hf & _).
  injection Hr as <-. injection Ht as <-. destruct Hf as (Hs & _ & Hn).
  exists r', t'. split; [exact Hr'|]. split; [exact Ht'|]. split; [exact Hs|exact Hn].
Defined.
