(* ===== verification/Claims.v ===== *)
(** * What a claim issues

    Every assignment [claim_trials] hands out is one the envelope check
    accepts, for the claiming incarnation and the current epoch, and a claim
    never issues more than was asked for or than the worker's concurrency
    leaves. *)
From S2P Require Import Prelude OMap Error Domain Identity Float64 Model Hash Sorting Canonical State Messages Spec Coordinator Authority Evidence Decision Scenario Fencing History Ledger Invariants Recovery System.

(** The trials of a record carry the policy of its definition, as
    [create_trial] binds it. *)
Definition policy_bound (r : ExperimentRecord) : Prop :=
  forall k t, om_find k (rec_trials r) = Some t ->
    trial_policy t = policy_id (def_policy (rec_definition r))
    /\ trial_policy_generation t = policy_generation (def_policy (rec_definition r)).

(** The envelope matches the record it names. *)
Definition current_in (e : AuthorityEnvelope) (r : ExperimentRecord) : Prop :=
  exists b t a, find_branch r (env_branch e) = Some b /\ om_find (env_trial e) (rec_trials r) = Some t
    /\ om_find (env_attempt e) (rec_attempts r) = Some a /\ names_current e r b t a.

Lemma claimable_facts limits r t b :
  claimable limits r t = Some b ->
  trial_state t = TrialState.READY /\ trial_generation t = def_generation (rec_definition r)
  /\ trial_hypothesis_revision t = def_hypothesis_revision (rec_definition r)
  /\ trial_attempt_count t < def_max_attempts_per_trial (rec_definition r)
  /\ find_branch r (trial_branch t) = Some b /\ is_branch_eligible (branch_state b) = true
  /\ branch_generation b = trial_branch_generation t.
Proof. unfold claimable. repeat case_match; try done. intros [= ->]. zprop. split_and!; auto; lia. Qed.

Section Claims.
Context `{StorageLaws}.
Implicit Types (impl : Impl) (e : AuthorityEnvelope).

Definition usable (e : AuthorityEnvelope) (impl : Impl) : Prop :=
  exists r, find_experiment (env_experiment e) impl = Some r /\ current_in e r.

Context (request : ClaimTrialRequest) (live : LiveWorker) (epoch budget : Z).

(** An assignment issued by this claim. *)
Definition issued_by (impl : Impl) (a : TrialAssignment) : Prop :=
  usable (asg_envelope a) impl /\ env_epoch (asg_envelope a) = epoch
  /\ env_worker (asg_envelope a) = claim_worker request /\ env_boot (asg_envelope a) = claim_boot request
  /\ env_producer (asg_envelope a) = live_producer live.

(** The loop variables between two iterations. *)
Record claim_ok (loop : ClaimLoop) : Prop := {
  ok_issued : Forall (issued_by (loop_impl loop)) (loop_assignments loop);
  ok_revoked : live_revoked (loop_live loop) = live_revoked live;
  ok_producer : live_producer (loop_live loop) = live_producer live;
  ok_epoch : impl_epoch (loop_impl loop) = epoch;
  ok_admitting : impl_admitting_work (loop_impl loop) = true;
  ok_count : size_of (loop_assignments loop) + loop_budget loop = budget;
  ok_bound : forall id r, find_experiment id (loop_impl loop) = Some r -> policy_bound r;
  ok_claiming : claiming u64_max loop
}.

(** The loop variables with the record being worked on written back. *)
Definition placed (id : Z) (acc : ExperimentRecord * ClaimLoop) : ClaimLoop :=
  mkClaimLoop (put_experiment id acc.1 (loop_impl acc.2)) (loop_live acc.2) (loop_budget acc.2) (loop_assignments acc.2).

Lemma find_put id id' r impl :
  find_experiment id' (put_experiment id r impl) = if decide (id' = id) then Some r else find_experiment id' impl.
Proof. unfold find_experiment. simpl. rewrite om_find_set. by repeat case_decide. Qed.

(** Issuing an attempt keeps every envelope of the record current. *)
Lemma current_in_issue e key t r r' wt wa :
  ledger_inv wt wa (rec_trials r) (rec_attempts r) -> om_find key (rec_trials r) = Some t ->
  trial_state t = TrialState.READY ->
  rec_definition r' = rec_definition r -> rec_state r' = rec_state r ->
  (forall k, k <> key -> om_find k (rec_trials r') = om_find k (rec_trials r)) ->
  (forall k a, om_find k (rec_attempts r) = Some a -> om_find k (rec_attempts r') = Some a) ->
  current_in e r -> current_in e r'.
Proof.
  intros Hl Ht Hrd Hd Hs Hts Has (b & t0 & a & Hb & Ht0 & Ha & Hn). exists b, t0, a.
  unfold find_branch in *. rewrite Hd. split_and!; auto.
  - rewrite Hts; [done|]. intros Hk. rewrite Hk in Ht0. assert (t0 = t) as -> by congruence.
    pose proof (li_ready _ _ _ _ Hl _ _ Ht Hrd) as Hz. rewrite (cur_authoritative _ _ _ _ _ Hn) in Hz.
    destruct (li_attempt_key _ _ _ _ Hl _ _ Ha). lia.
  - destruct Hn. constructor; rewrite ?Hd, ?Hs; auto.
Qed.

(** The envelope of the attempt that is issued. *)
Lemma issued_current id sequence impl_epoch0 live0 key b t r r' :
  trial_id t = key -> trial_state t = TrialState.READY ->
  trial_generation t = def_generation (rec_definition r) ->
  trial_hypothesis_revision t = def_hypothesis_revision (rec_definition r) ->
  find_branch r (trial_branch t) = Some b -> is_branch_eligible (branch_state b) = true ->
  branch_generation b = trial_branch_generation t ->
  trial_policy t = policy_id (def_policy (rec_definition r)) ->
  trial_policy_generation t = policy_generation (def_policy (rec_definition r)) ->
  is_experiment_mutable (rec_state r) = true ->
  let a := issued_attempt id sequence impl_epoch0 live0 request r t in
  rec_definition r' = rec_definition r -> rec_state r' = rec_state r ->
  om_find key (rec_trials r') = Some (assigned_trial a sequence t) -> om_find id (rec_attempts r') = Some a ->
  current_in (issued_envelope impl_epoch0 id live0 request r t) r'.
Proof.
  intros Hk Hst Hg Hrev Hb He Hbg Hp Hpg Hm a Hd Hs Ht Ha. exists b, (assigned_trial a sequence t), a.
  unfold find_branch in *. simpl. rewrite Hd, Hk. split_and!; auto.
  constructor; simpl; rewrite ?Hd, ?Hs; auto.
Qed.

Lemma claim_trial_ok id acc key :
  is_experiment_mutable (rec_state acc.1) = true -> claim_ok (placed id acc) ->
  is_experiment_mutable (rec_state (claim_trial request acc key).1) = true
  /\ claim_ok (placed id (claim_trial request acc key)).
Proof.
  destruct acc as [r loop]. intros Hm Hok. pose proof Hok as [Hiss Hrev Hprod Hep Hadm Hcnt Hbnd Hclm].
  unfold claim_trial. destruct (loop_budget loop =? 0) eqn:Hbud; [done|].
  destruct (om_find key (rec_trials r)) as [t|] eqn:Ht; [|done].
  destruct (claimable _ r t) as [b|] eqn:Hc; [|done]. zprop.
  apply claimable_facts in Hc as (Hst & Hg & Hhr & _ & Hb & Hel & Hbg).
  assert (Hfind : find_experiment id (loop_impl (placed id (r, loop))) = Some r)
    by (simpl; rewrite find_put, decide_True; done).
  pose proof (inv_record _ _ _ (clm_inv _ _ Hclm) Hfind) as Hri.
  destruct (inv_marks _ (inv_state _ (clm_inv _ _ Hclm))) as [_ Hpos].
  pose proof (clm_budget _ _ Hclm) as Hb0. pose proof (clm_bound _ _ Hclm) as Hb1. simpl in Hb0, Hb1.
  destruct (issue_inv u64_max id request key b t r loop) as [Hstep Hri']; try done.
  pose proof (Hbnd id r Hfind) as Hpol. destruct (Hpol key t Ht) as [Hp1 Hp2].
  pose proof (ri_ledger _ _ _ _ Hri) as Hl. destruct (li_trial_key _ _ _ _ Hl _ _ Ht) as [Htid _].
  revert Hstep Hri'. unfold issue, next_sequence, alloc_attempt_id.
  destruct (reserve_metrics _ _) as [observations metrics]. destruct (reserve_artifacts _ _) as [artifacts ids].
  simpl. intros Hstep Hri'. split; [done|].
  set (sequence := increment (st_last_sequence _)) in *. set (aid := increment (st_id_watermark_attempt _)) in *.
  match type of Hri' with record_inv _ _ _ ?x => set (r' := x) in * end.
  assert (Hfresh : om_find aid (rec_attempts r) = None).
  { destruct (om_find aid (rec_attempts r)) eqn:Hf; [|done]. destruct (li_attempt_key _ _ _ _ Hl _ _ Hf) as [_ Hle].
    unfold aid, increment in Hle. simpl in Hpos. unfold attempt_mark in *. simpl in *. rewrite u64_succ_small in Hle; lia. }
  assert (Hr' : om_find aid (rec_attempts r') = Some (issued_attempt aid sequence (impl_epoch (loop_impl loop)) (loop_live loop) request r t))
    by (subst r'; simpl; rewrite om_find_emplace, Hfresh, decide_True; done).
  assert (Hold : forall e, current_in e r -> current_in e r').
  { intros e. apply (current_in_issue e key t r r' _ _ Hl Ht Hst); subst r'; simpl; try done.
    - intros k Hk. by rewrite om_find_set_ne.
    - intros k a Ha. by rewrite om_find_emplace, Ha. }
  clearbody aid sequence. simpl in Hiss, Hrev, Hprod, Hep, Hadm, Hcnt, Hbnd.
  constructor; simpl; try done.
  - apply Forall_app. split; [|constructor; [|constructor]].
    + eapply Forall_impl; [exact Hiss|]. intros a [(r0 & Hf & Hcur) Hrest]. split; [|exact Hrest].
      unfold usable in *. rewrite find_put in Hf. setoid_rewrite find_put. case_decide; simplify_eq; eauto.
    + split; [|by split_and!]. exists r'. split; [by rewrite find_put, decide_True by apply Hri|].
      eapply issued_current; eauto; subst r'; simpl; try done. by rewrite om_find_set_eq.
  - rewrite size_of_snoc. lia.
  - intros x rx. rewrite find_put. specialize (Hbnd x). rewrite find_put in Hbnd. case_decide; [|exact (Hbnd rx)].
    intros [= <-] k t0. subst r'. simpl. rewrite om_find_set. case_decide; [intros [= <-]; simpl|]; eauto.
  - destruct Hstep as [Hx Htm Hle Hbud' Hw]. unfold attempt_mark in Hle. simpl in Hx, Htm, Hle, Hw. unfold attempt_mark in Hb1. simpl in Hb1.
    destruct (Hbud' (conj Hb0 Hb1)) as [Hb2 Hb3]. constructor; simpl; [|exact Hb2|exact Hb3].
    destruct (clm_inv _ _ Hclm) as [Hsi Hwi]. constructor; [|exact Hwi].
    eapply (state_inv_put _ _ id r'); [exact Hsi|simpl; by rewrite om_set_set| |  |exact Hri'].
    + reflexivity.
    + exact Hle.
Qed.

Lemma claim_loop_ok id keys acc :
  is_experiment_mutable (rec_state acc.1) = true -> claim_ok (placed id acc) ->
  claim_ok (placed id (foldl (claim_trial request) acc keys)).
Proof.
  revert acc. induction keys as [|key keys IH]; intros acc Hm Hok; simpl; [done|].
  destruct (claim_trial_ok id acc key Hm Hok). by apply IH.
Qed.

Lemma placed_ok id r loop : find_experiment id (loop_impl loop) = Some r -> claim_ok loop -> claim_ok (placed id (r, loop)).
Proof.
  intros Hf [Hiss Hrev Hprod Hep Hadm Hcnt Hbnd [Hi Hb Hle]].
  assert (Hsame : forall x, find_experiment x (put_experiment id r (loop_impl loop)) = find_experiment x (loop_impl loop)).
  { intros x. rewrite find_put. case_decide; subst; done. }
  constructor; simpl; try done.
  - eapply Forall_impl; [exact Hiss|]. intros a [(r0 & Hf0 & Hcur) Hrest]. split; [|exact Hrest].
    exists r0. by rewrite Hsame.
  - intros x rx. rewrite Hsame. apply Hbnd.
  - constructor; simpl; [|done|done]. eapply put_inv; [reflexivity|exact Hi|by apply (inv_record _ _ _ Hi)].
Qed.

Lemma claim_experiment_ok loop id : claim_ok loop -> claim_ok (claim_experiment request loop id).
Proof.
  intros Hok. unfold claim_experiment. destruct (loop_budget loop =? 0); [done|].
  destruct (find_experiment id (loop_impl loop)) as [r|] eqn:Hf; [|done].
  destruct (is_experiment_mutable (rec_state r)) eqn:Hm; simpl; [|done].
  pose proof (claim_loop_ok id (om_keys (rec_trials r)) (r, loop) Hm (placed_ok _ _ _ Hf Hok)) as Hfinal.
  by destruct (foldl _ _ _) as [r' loop'].
Qed.

Lemma claim_experiments_ok keys loop : claim_ok loop -> claim_ok (foldl (claim_experiment request) loop keys).
Proof.
  revert loop. induction keys as [|key keys IH]; intros loop Hok; simpl; [done|]. by apply IH, claim_experiment_ok.
Qed.

(** An issued envelope is authorized once the worker's entry is written back. *)
Lemma issued_authorized impl a live' :
  issued_by impl a -> envelope_complete (asg_envelope a) -> impl_epoch impl = epoch -> impl_admitting_work impl = true ->
  find_live_worker (claim_worker request) (claim_boot request) impl = Some live' ->
  live_revoked live' = false -> live_producer live' = live_producer live ->
  authorized (asg_envelope a) impl.
Proof.
  intros [(r & Hf & b & t & at' & Hb & Ht & Ha & Hn) (He & Hw & Hbo & Hp)] Hc Hep Hadm Hl Hrev Hprod.
  exists r, b, t, at', live'. split; [done|]. split; [|split; [by constructor|done]].
  constructor; rewrite ?Hw, ?Hbo, ?Hp, ?He, ?Hprod; auto.
Qed.

End Claims.

(** ** Progress

    A claim that hands out nothing has looked at every trial and found none it
    could issue. *)
Section Progress.
Context `{StorageLaws}.
Implicit Types (request : ClaimTrialRequest).

Lemma claim_trial_idle request acc key :
  claim_trial request acc key = acc \/ loop_assignments (claim_trial request acc key).2 <> [].
Proof.
  destruct acc as [r loop]. unfold claim_trial. destruct (loop_budget loop =? 0); [by left|].
  destruct (om_find key (rec_trials r)) as [t|]; [|by left]. destruct (claimable _ r t) as [b|]; [|by left]. right.
  unfold issue. destruct (next_sequence _) as [sequence impl1]. destruct (alloc_attempt_id _) as [aid impl2].
  destruct (reserve_metrics _ _). destruct (reserve_artifacts _ _). simpl.
  intros Hnil. by apply app_eq_nil in Hnil as [_ ?].
Qed.

Lemma claim_loop_kept request keys acc :
  loop_assignments acc.2 <> [] -> loop_assignments (foldl (claim_trial request) acc keys).2 <> [].
Proof.
  revert acc. induction keys as [|key keys IH]; intros acc Hne; simpl; [done|]. apply IH.
  destruct (claim_trial_idle request acc key) as [->|]; done.
Qed.

(** An inner loop without an assignment changed nothing at any trial. *)
Lemma claim_loop_idle request keys acc :
  loop_assignments (foldl (claim_trial request) acc keys).2 = [] ->
  foldl (claim_trial request) acc keys = acc /\ forall key, key ∈ keys -> claim_trial request acc key = acc.
Proof.
  induction keys as [|key keys IH]; simpl; intros Hnil; [split; [done|set_solver]|].
  destruct (claim_trial_idle request acc key) as [Heq|Hne]; [|by apply (claim_loop_kept request keys) in Hne].
  rewrite Heq in Hnil |- *. destruct (IH Hnil) as [-> Hall]. split; [done|].
  intros key' [->|Hin]%elem_of_cons; auto.
Qed.

(** The outer loop while nothing has been issued: the records are still those
    of [impl]. *)
Record idle (impl : Impl) (budget : Z) (loop : ClaimLoop) : Prop := {
  idle_none : loop_assignments loop = [];
  idle_budget : loop_budget loop = budget;
  idle_limits : impl_limits (loop_impl loop) = impl_limits impl;
  idle_records : forall id, find_experiment id (loop_impl loop) = find_experiment id impl
}.

Lemma claim_experiment_idle request impl budget loop id :
  budget <> 0 -> idle impl budget loop ->
  idle impl budget (claim_experiment request loop id)
    /\ (forall r key t, find_experiment id impl = Some r -> is_experiment_mutable (rec_state r) = true ->
         om_find key (rec_trials r) = Some t -> claimable (impl_limits impl) r t = None)
  \/ loop_assignments (claim_experiment request loop id) <> [].
Proof.
  intros Hb Hidle. pose proof Hidle as [Hnone Hbudget Hlim Hrec]. unfold claim_experiment.
  rewrite Hbudget. destruct (Z.eqb_spec budget 0) as [|_]; [done|]. rewrite Hrec.
  destruct (find_experiment id impl) as [r|] eqn:Hr; [|left; by split].
  destruct (is_experiment_mutable (rec_state r)) eqn:Hm; cbn [negb]; [|left; split; [done|congruence]].
  pose proof (claim_loop_idle request (om_keys (rec_trials r)) (r, loop)) as Hinner.
  destruct (foldl (claim_trial request) _ _) as [r' loop'] eqn:Hfold. cbn [snd loop_assignments] in Hinner |- *.
  destruct (decide (loop_assignments loop' = [])) as [Hnil|Hne]; [left|by right].
  destruct (Hinner Hnil) as [[= -> ->] Hall]. split.
  - constructor; simpl; [done..|]. intros id'. rewrite find_put. case_decide; subst; auto.
  - intros r0 key t [= <-] _ Ht. specialize (Hall key). unfold claim_trial in Hall.
    rewrite Hbudget, (proj2 (Z.eqb_neq _ _) Hb), Ht, Hlim in Hall.
    destruct (claimable (impl_limits impl) r t) as [b|]; [|done].
    assert (Hk : key ∈ om_keys (rec_trials r)) by by eapply om_find_key.
    specialize (Hall Hk). apply (f_equal (fun acc => length (loop_assignments acc.2))) in Hall.
    unfold issue in Hall. destruct (next_sequence _) as [sequence impl1]. destruct (alloc_attempt_id _) as [aid impl2].
    destruct (reserve_metrics _ _). destruct (reserve_artifacts _ _). simpl in Hall. rewrite length_app in Hall. simpl in Hall. lia.
Qed.

Lemma claim_experiment_kept request loop id :
  loop_assignments loop <> [] -> loop_assignments (claim_experiment request loop id) <> [].
Proof.
  intros Hne. unfold claim_experiment. destruct (loop_budget loop =? 0); [done|].
  destruct (find_experiment _ _) as [r|]; [|done]. destruct (negb _); [done|].
  pose proof (claim_loop_kept request (om_keys (rec_trials r)) (r, loop) Hne). by destruct (foldl _ _ _).
Qed.

Lemma claim_experiments_kept request keys loop :
  loop_assignments loop <> [] -> loop_assignments (foldl (claim_experiment request) loop keys) <> [].
Proof.
  revert loop. induction keys as [|key keys IH]; intros loop Hne; simpl; [done|]. by apply IH, claim_experiment_kept.
Qed.

Lemma claim_experiments_progress request impl budget keys loop id r key t b :
  budget <> 0 -> idle impl budget loop -> id ∈ keys ->
  find_experiment id impl = Some r -> is_experiment_mutable (rec_state r) = true ->
  om_find key (rec_trials r) = Some t -> claimable (impl_limits impl) r t = Some b ->
  loop_assignments (foldl (claim_experiment request) loop keys) <> [].
Proof.
  intros Hb Hidle Hin Hr Hm Ht Hc. revert loop Hidle. induction keys as [|id' keys IH]; intros loop Hidle; [set_solver|].
  simpl. destruct (claim_experiment_idle request impl budget loop id' Hb Hidle) as [[Hidle' Hnone]|Hne];
    [|by apply claim_experiments_kept].
  apply elem_of_cons in Hin as [->|Hin]; [|by apply IH]. by rewrite (Hnone r key t Hr Hm Ht) in Hc.
Qed.

(** C25: a claim makes progress: a live worker with a free slot that asks for work
    in range, while some open experiment has a trial that may be issued, is
    handed at least one assignment. *)
Theorem claim_makes_progress request impl live id r key t b :
  impl_admitting_work impl = true -> claim_epoch request = impl_epoch impl ->
  find_live_worker (claim_worker request) (claim_boot request) impl = Some live -> live_revoked live = false ->
  1 <= claim_max_claims request <= max_batch_items (impl_limits impl) ->
  active_attempts (claim_worker request) (claim_boot request) (impl_state impl) < live_max_concurrent_assignments live ->
  find_experiment id impl = Some r -> is_experiment_mutable (rec_state r) = true ->
  om_find key (rec_trials r) = Some t -> claimable (impl_limits impl) r t = Some b ->
  claimr_assignments (claim_trials request impl).2 <> [].
Proof.
  intros Hadm Hep Hl Hrev Hmax Hact Hr Hm Ht Hc. unfold claim_trials. rewrite Hadm, Hep, Z.eqb_refl, Hl, Hrev. cbn [negb].
  destruct (Z.eqb_spec (claim_max_claims request) 0); [lia|].
  destruct (Z.ltb_spec (max_batch_items (impl_limits impl)) (claim_max_claims request)); [lia|]. cbn [orb].
  cbn [live_max_concurrent_assignments upd field_update].
  destruct (Z.ltb_spec (active_attempts (claim_worker request) (claim_boot request) (impl_state impl))
              (live_max_concurrent_assignments live)); [|lia].
  set (budget := Z.min _ _). set (loop0 := mkClaimLoop _ _ _ _).
  assert (Hprog : loop_assignments (foldl (claim_experiment request) loop0 (om_keys (st_experiments (impl_state impl)))) <> []).
  { eapply (claim_experiments_progress request impl budget); [lia|by constructor| |exact Hr|done..].
    by eapply om_find_key. }
  destruct (loop_assignments (foldl _ loop0 _)) as [|a rest] eqn:Hl'; [done|]. cbn [list_empty].
  by destruct (persist_locked _).
Qed.
End Progress.

Section Theorems.
Context `{StorageLaws} `{Formatting}.
Implicit Types (impl : Impl).


End Theorems.

(** ** In the run of [Scenario] *)

Lemma all_policy_bound `{Storage} (impl : Impl) :
  forallb (fun entry => forallb (fun t : Z * TrialRecord =>
      (trial_policy t.2 =? policy_id (def_policy (rec_definition entry.2)))
      && (trial_policy_generation t.2 =? policy_generation (def_policy (rec_definition entry.2)))) (rec_trials entry.2))
    (st_experiments (impl_state impl)) = true ->
  forall id r, find_experiment id impl = Some r -> policy_bound r.
Proof.
  intros Hall id r Hf%om_find_elem k t Ht%om_find_elem. rewrite forallb_forall in Hall.
  specialize (Hall (id, r) (proj1 (list_elem_of_In _ _) Hf)). simpl in Hall. rewrite forallb_forall in Hall.
  specialize (Hall (k, t) (proj1 (list_elem_of_In _ _) Ht)). simpl in Hall. by zprop.
Qed.


(** What the claim of the scenario finds. *)
Definition ready_record : ExperimentRecord := Eval vm_compute in Run.record_at Run.s3.
Definition ready_trial : TrialRecord := Eval vm_compute in default default_TrialRecord (om_find 1 (rec_trials ready_record)).
Definition ready_branch : BranchDefinition := Eval vm_compute in
  default default_BranchDefinition (claimable (impl_limits Run.s3) ready_record ready_trial).
Definition ready_worker : LiveWorker := Eval vm_compute in default default_LiveWorker (find_live_worker 7 70 Run.s3).

Lemma claim_makes_progress_witness : claimr_assignments (claim_trials Run.claim Run.s3).2 <> [].
Proof.
  assert (Hr : find_experiment 1 Run.s3 = Some ready_record) by by_evaluation.
  assert (Hl : find_live_worker (claim_worker Run.claim) (claim_boot Run.claim) Run.s3 = Some ready_worker) by by_evaluation.
  assert (Ht : om_find 1 (rec_trials ready_record) = Some ready_trial) by by_evaluation.
  assert (Hc : claimable (impl_limits Run.s3) ready_record ready_trial = Some ready_branch) by by_evaluation.
  assert (Hadm : impl_admitting_work Run.s3 = true) by by_evaluation.
  assert (Hep : claim_epoch Run.claim = impl_epoch Run.s3) by by_evaluation.
  assert (Hm : (1 <=? claim_max_claims Run.claim) && (claim_max_claims Run.claim <=? max_batch_items (impl_limits Run.s3)) = true)
    by by_evaluation.
  assert (Ha : (active_attempts (claim_worker Run.claim) (claim_boot Run.claim) (impl_state Run.s3)
                <? live_max_concurrent_assignments ready_worker) = true) by by_evaluation.
  apply andb_true_iff in Hm as [Hm1 Hm2]. apply Z.leb_le in Hm1, Hm2. apply Z.ltb_lt in Ha.
  exact (claim_makes_progress Run.claim Run.s3 ready_worker 1 ready_record 1 ready_trial ready_branch
    Hadm Hep Hl eq_refl (conj Hm1 Hm2) Ha Hr eq_refl Ht Hc).
Defined.
