(* ===== verification/Budget.v ===== *)
(** * The budget of attempts

    A trial may be attempted as often as its experiment allows and no more.
    This file counts what is left: the sum, over the trials there are, of the
    attempts each may still be given.  Every assignment a claim hands out takes
    at least one from the sum; what a worker reports, and registering again,
    leave it as it is.  The measure makes the loop of a worker end (Programs.v). *)
From S2P Require Import Prelude OMap Error Domain Identity Float64 Model Hash Sorting Canonical State Messages Spec Coordinator Authority Evidence Decision Scenario Fencing History Claims.
#[local] Open Scope Z_scope.

(** ** What is left *)

(** The attempts a trial may be given, and those it has been given. *)
Definition trial_budget (r : ExperimentRecord) (key : Z) : option (Z * Z) :=
  match om_find key (rec_trials r) with
  | None => None
  | Some t => Some (def_max_attempts_per_trial (rec_definition r), trial_attempt_count t)
  end.
Definition same_budget (r r' : ExperimentRecord) : Prop := forall key, trial_budget r' key = trial_budget r key.

#[export] Instance same_budget_preorder : PreOrder same_budget.
Proof. split; [by intros r k|]. intros r1 r2 r3 H12 H23 k. by rewrite H23. Qed.

Lemma budget_trials r r' :
  rec_trials r' = rec_trials r -> def_max_attempts_per_trial (rec_definition r') = def_max_attempts_per_trial (rec_definition r) ->
  same_budget r r'.
Proof. intros Ht Hm k. unfold trial_budget. by rewrite Ht, Hm. Qed.

(** A trial replaced by one with the same count. *)
Lemma budget_set r r' key t t' :
  om_find key (rec_trials r) = Some t -> rec_trials r' = om_set key t' (rec_trials r) ->
  trial_attempt_count t' = trial_attempt_count t ->
  def_max_attempts_per_trial (rec_definition r') = def_max_attempts_per_trial (rec_definition r) -> same_budget r r'.
Proof.
  intros Hf Ht Hc Hm k. unfold trial_budget. rewrite Ht, Hm, om_find_set. case_decide; [subst|done]. by rewrite Hf, Hc.
Qed.

Lemma log_budget line r : same_budget r (log line r).
Proof. by apply budget_trials. Qed.
Lemma release_trial_count retry kind detail sequence t :
  trial_attempt_count (release_trial retry kind detail sequence t) = trial_attempt_count t.
Proof. unfold release_trial. by destruct retry. Qed.
Lemma record_rejection_budget kind id verdict r : same_budget r (record_rejection kind id verdict r).
Proof. unfold record_rejection. case_match; by apply budget_trials. Qed.
Lemma invalidate_branch_budget detail key r : same_budget r (invalidate_branch detail key r).
Proof. unfold invalidate_branch. repeat case_match; try reflexivity. etransitivity; [|apply log_budget]. by apply budget_trials. Qed.

Lemma fail_record_budget request sequence t a r :
  om_find (env_trial (fail_envelope request)) (rec_trials r) = Some t -> same_budget r (fail_record request sequence t a r).
Proof.
  intros Ht. unfold fail_record. etransitivity; [|apply log_budget]. etransitivity; [|apply invalidate_branch_budget].
  eapply budget_set; [exact Ht|reflexivity|apply release_trial_count|done].
Qed.

(** Losing an incarnation releases its trials without touching their counts. *)
Lemma withdraw_budget worker boot kind attempt_detail trial_detail line sequence r :
  same_budget r (withdraw_in_record worker boot kind attempt_detail trial_detail line sequence r).
Proof.
  unfold withdraw_in_record.
  pose proof (om_map_acc_inv (withdraw_attempt (rec_definition r) worker boot kind attempt_detail trial_detail sequence)
    (fun acc => same_budget r (r <| rec_trials := acc.1 |>)) (rec_trials r, false) (rec_attempts r)) as Hinv.
  destruct (om_map_acc _ _ _) as [[trials touched] attempts]. cbn [fst] in Hinv.
  assert (Hb : same_budget r (r <| rec_trials := trials |>)).
  { apply Hinv; [by apply budget_trials|]. intros [ts flag] a Hts. unfold withdraw_attempt. destruct (_ || _); [done|]. cbn [fst].
    destruct (om_find (attempt_trial a) ts) as [t|] eqn:Ht; [|done]. destruct (_ || _); [done|].
    etransitivity; [exact Hts|]. eapply budget_set; [exact Ht|reflexivity|apply release_trial_count|done]. }
  destruct touched; [etransitivity; [|apply log_budget]|]; (etransitivity; [exact Hb|]); by apply budget_trials.
Qed.

Section Budget.
Context `{Storage} `{Formatting}.
Implicit Types (impl : Impl).

(** Every budget is as it was. *)
Record unspent (impl impl' : Impl) : Prop := {
  un_limits : impl_limits impl' = impl_limits impl;
  un_records : forall id, option_Forall2 same_budget (find_experiment id impl) (find_experiment id impl')
}.

#[export] Instance unspent_preorder : PreOrder unspent.
Proof.
  split; [intros impl; split; [done|]; intros id; destruct (find_experiment id impl); by constructor|].
  intros i1 i2 i3 [Hl1 H1] [Hl2 H2]. split; [congruence|]. intros id. specialize (H1 id). specialize (H2 id).
  destruct H1; inversion H2; subst; constructor. by etransitivity.
Qed.

Lemma unspent_tables impl impl' : same_tables impl impl' -> unspent impl impl'.
Proof.
  intros [Hl _ _ Hx _ _]. split; [done|]. intros id. unfold find_experiment. rewrite Hx. destruct (om_find id _); by constructor.
Qed.

Lemma unspent_put impl impl' id r r' :
  same_tables impl impl' -> find_experiment id impl = Some r -> same_budget r r' -> unspent impl (put_experiment id r' impl').
Proof.
  intros [Hl _ _ Hx _ _] Hr Hb. split; [done|]. intros k. unfold find_experiment in *. simpl. rewrite Hx, om_find_set.
  case_decide; [subst; rewrite Hr; by constructor|]. destruct (om_find k _); by constructor.
Qed.

Lemma unspent_put_again impl impl' id r r' r'' d w :
  same_tables impl impl' -> find_experiment id impl = Some r -> same_budget r r'' ->
  unspent impl (put_experiment id r'' ((put_experiment id r' impl') <| impl_persistence_degraded := d |> <| impl_world := w |>)).
Proof.
  intros [Hl _ _ Hx _ _] Hr Hb. split; [done|]. intros k. unfold find_experiment in *. simpl. rewrite om_set_set, Hx, om_find_set.
  case_decide; [subst; rewrite Hr; by constructor|]. destruct (om_find k _); by constructor.
Qed.

Lemma unspent_persisted impl impl' d w :
  unspent impl impl' -> unspent impl (impl' <| impl_persistence_degraded := d |> <| impl_world := w |>).
Proof. intros Hu. etransitivity; [exact Hu|]. apply unspent_tables, persisted_same. Qed.
Lemma unspent_observation_index impl impl' f : unspent impl impl' -> unspent impl (impl' <| impl_observation_index ::= f |>).
Proof. intros Hu. etransitivity; [exact Hu|]. apply unspent_tables, observation_index_same. Qed.
Lemma unspent_notified impl impl' n : unspent impl impl' -> unspent impl (impl' <| impl_notified := n |>).
Proof. intros Hu. etransitivity; [exact Hu|]. apply unspent_tables, notified_same. Qed.

Ltac spent_nothing :=
  repeat first [ apply unspent_persisted | apply unspent_observation_index | apply unspent_notified ];
  first [ reflexivity
        | eapply unspent_put; [solve [tables]|eassumption|]
        | eapply unspent_put_again; [solve [tables]|eassumption|]
        | apply unspent_tables; solve [tables] ].

Lemma fail_trial_unspent request impl : unspent impl (fail_trial request impl).1.
Proof.
  unfold fail_trial. destruct (envelope_mismatch _ _ _ _); [reflexivity|].
  destruct (check_envelope_cases (fail_envelope request) impl)
    as [(r & b & t & a & l & (_ & _ & [Hr _ Ht Ha] & Hn) & ->)|[_ ->]]; envelope_result; [|reflexivity].
  op_branches; spent_nothing; by apply fail_record_budget.
Qed.

Lemma store_observation_budget o r t a impl r' impl' :
  om_find (obs_trial o) (rec_trials r) = Some t -> store_observation o r t a impl = (r', impl') ->
  same_tables impl impl' /\ same_budget r r'.
Proof.
  intros Ht. unfold store_observation. intros Hs.
  repeat case_match; simplify_eq; unfold next_sequence in *; simplify_eq/=; (split; [by constructor|]);
    first [eapply budget_set; [exact Ht|reflexivity..] | by apply budget_trials].
Qed.

Lemma publish_observation_unspent request impl : unspent impl (publish_observation request impl).1.
Proof.
  unfold publish_observation. destruct (find_experiment _ impl) as [probe|] eqn:Hprobe; [|reflexivity].
  set (e := envelope_from _ _ _ _ probe).
  destruct (check_envelope_cases e impl)
    as [(r & b & t & a & l & (_ & _ & [Hr _ Ht Ha] & Hn) & ->)|[_ ->]]; envelope_result.
  - unfold accept_observation. destruct (store_observation _ r t a impl) as [r' impl'] eqn:Hs.
    apply store_observation_budget in Hs as [Htab Hb]; [|done].
    op_branches; spent_nothing; [exact Hb|]. etransitivity; [exact Hb|]. by apply budget_trials.
  - op_branches; apply unspent_persisted; unfold reject_observation; op_branches; spent_nothing.
    all: try apply record_rejection_budget.
    all: etransitivity; [apply record_rejection_budget|]; by apply budget_trials.
Qed.

Lemma commit_trial_unspent request impl : unspent impl (commit_trial request impl).1.
Proof.
  unfold commit_trial. destruct (envelope_mismatch _ _ _ _); [reflexivity|].
  destruct (check_envelope_cases (commit_envelope request) impl)
    as [(r & b & t & a & l & (_ & _ & [Hr _ Ht Ha] & Hn) & ->)|[_ ->]]; envelope_result; [|reflexivity].
  unfold accept_commit, write_back. destruct (next_sequence impl) as [sequence impl1] eqn:Hseq. apply next_sequence_same in Hseq.
  destruct (register_artifacts _ _ _) as [loop status] eqn:Hloop.
  pose proof (register_artifacts_grows (attempt_id a) (commit_artifacts request) impl1 r t (mkCommitLoop impl1 r t [])) as Hg.
  rewrite Hloop in Hg. destruct Hg as [Htab (added & Hrec & Hlen) Htr].
  { constructor; simpl; [reflexivity|exists []|]; by destruct r, t; unfold upd; simpl; rewrite ?app_nil_r. }
  simpl in *. rewrite Hrec, Htr. op_branches; spent_nothing.
  all: eapply budget_set; [exact Ht|reflexivity..].
Qed.

(** The budgets of the experiments of a state. *)
Definition budgets_kept (s s' : CoordinatorState) : Prop :=
  forall id, option_Forall2 same_budget (om_find id (st_experiments s)) (om_find id (st_experiments s')).

Lemma replace_incarnation_budget worker boot sequence s s' l :
  budgets_kept s s' -> budgets_kept s (replace_incarnation worker boot sequence s' l).1.
Proof.
  intros Hs id. specialize (Hs id). unfold replace_incarnation. destruct (_ || _); [exact Hs|]. simpl.
  rewrite om_find_map. destruct Hs; simpl; constructor. etransitivity; [eassumption|]. apply withdraw_budget.
Qed.

Lemma register_worker_unspent request impl : unspent impl (register_worker request impl).1.
Proof.
  unfold register_worker. repeat (destruct (negb _); [reflexivity|]). destruct (_ || _); [reflexivity|].
  destruct (_ && _); [reflexivity|]. destruct (_ || _); [reflexivity|].
  destruct (find_live_worker _ _ impl) as [live|]; [destruct (live_revoked live); reflexivity|].
  unfold next_sequence. cbv beta iota zeta.
  match goal with |- context [om_map_acc ?f ?s ?m] =>
    pose proof (om_map_acc_inv f (budgets_kept (impl_state impl)) s m) as Hinv; destruct (om_map_acc f s m) as [state live] end.
  cbn [fst] in Hinv.
  assert (Hs : budgets_kept (impl_state impl) state).
  { apply Hinv; [|intros; by apply replace_incarnation_budget]. intros id. simpl. destruct (om_find id _); by constructor. }
  op_branches; try (split; [done|exact Hs]); repeat first [ apply unspent_persisted | apply unspent_notified ]; (split; [done|exact Hs]).
Qed.

(** ** Claims spend *)

Definition budget_left (budget : option (Z * Z)) : Z :=
  match budget with Some (most, count) => Z.max 0 (most - count) | None => 0 end.

(** What is left of the trial under a pair of keys. *)
Definition remaining impl (at_ : Z * Z) : Z :=
  match find_experiment at_.1 impl with Some r => budget_left (trial_budget r at_.2) | None => 0 end.
Definition left_of (trials : list (Z * Z)) impl : Z := foldr (fun at_ total => remaining impl at_ + total) 0 trials.

(** Every trial there is, and the attempts all of them may still be given. *)
Definition trial_keys impl : list (Z * Z) :=
  flat_map (fun entry => map (fun trial => (entry.1, trial.1)) (rec_trials entry.2)) (st_experiments (impl_state impl)).
Definition attempts_left impl : Z := left_of (trial_keys impl) impl.

Lemma budget_left_nonneg b : 0 <= budget_left b.
Proof. destruct b as [[]|]; simpl; lia. Qed.
Lemma remaining_nonneg impl at_ : 0 <= remaining impl at_.
Proof. unfold remaining. destruct (find_experiment _ _); [apply budget_left_nonneg|done]. Qed.
Lemma left_of_nonneg trials impl : 0 <= left_of trials impl.
Proof. induction trials as [|at_ trials IH]; simpl; [done|]. pose proof (remaining_nonneg impl at_). lia. Qed.

Lemma left_of_le trials impl impl' :
  (forall at_, remaining impl' at_ <= remaining impl at_) -> left_of trials impl' <= left_of trials impl.
Proof. intros Hle. induction trials as [|at_ trials IH]; simpl; [done|]. specialize (Hle at_). lia. Qed.

Lemma left_of_lt trials impl impl' spent :
  (forall at_, remaining impl' at_ <= remaining impl at_) -> remaining impl' spent + 1 <= remaining impl spent -> spent ∈ trials ->
  left_of trials impl' + 1 <= left_of trials impl.
Proof.
  intros Hle Hlt. induction trials as [|at_ trials IH]; [by intros ?%not_elem_of_nil|]. simpl. intros [<-|Hin]%elem_of_cons.
  - pose proof (left_of_le trials impl impl' Hle). lia.
  - specialize (Hle at_). specialize (IH Hin). lia.
Qed.

(** The trials there are stand among those counted, and their allowances are
    32-bit numbers. *)
Record counted (trials : list (Z * Z)) impl : Prop := {
  co_keys : forall id r key t, find_experiment id impl = Some r -> om_find key (rec_trials r) = Some t -> (id, key) ∈ trials;
  co_most : forall id r key t, find_experiment id impl = Some r -> om_find key (rec_trials r) = Some t ->
    def_max_attempts_per_trial (rec_definition r) < u32_modulus
}.

(** At least [n] attempts are taken from what is left. *)
Record spends (trials : list (Z * Z)) (n : Z) impl impl' : Prop := {
  sp_counted : counted trials impl';
  sp_left : left_of trials impl' + n <= left_of trials impl
}.

Lemma spends_trans trials n1 n2 impl1 impl2 impl3 :
  spends trials n1 impl1 impl2 -> spends trials n2 impl2 impl3 -> spends trials (n1 + n2) impl1 impl3.
Proof. intros [Hc1 Hl1] [Hc2 Hl2]. split; [done|lia]. Qed.

Lemma spends_eq trials n n' impl impl' : spends trials n impl impl' -> n = n' -> spends trials n' impl impl'.
Proof. by intros ? <-. Qed.

Lemma spends_none trials impl : counted trials impl -> spends trials 0 impl impl.
Proof. intros Hc. split; [done|lia]. Qed.

(** Calls that leave the budgets as they are spend nothing. *)
Lemma unspent_remaining impl impl' at_ : unspent impl impl' -> remaining impl' at_ = remaining impl at_.
Proof. intros [_ Hr]. specialize (Hr at_.1). unfold remaining. destruct Hr as [r r' Hb|]; [by rewrite Hb|done]. Qed.

Lemma same_budget_trial r r' key t' :
  same_budget r r' -> om_find key (rec_trials r') = Some t' ->
  exists t, om_find key (rec_trials r) = Some t
    /\ def_max_attempts_per_trial (rec_definition r') = def_max_attempts_per_trial (rec_definition r).
Proof.
  intros Hb Ht. specialize (Hb key). unfold trial_budget in Hb. rewrite Ht in Hb. destruct (om_find key (rec_trials r)) as [t|]; [|done].
  exists t. by injection Hb.
Qed.

Lemma unspent_spends trials impl impl' : counted trials impl -> unspent impl impl' -> spends trials 0 impl impl'.
Proof.
  intros [Hk Hm] Hu. assert (Hback : forall id r' key t', find_experiment id impl' = Some r' -> om_find key (rec_trials r') = Some t' ->
    exists r t, find_experiment id impl = Some r /\ om_find key (rec_trials r) = Some t
      /\ def_max_attempts_per_trial (rec_definition r') = def_max_attempts_per_trial (rec_definition r)).
  { intros id r' key t' Hr' Ht'. pose proof (un_records _ _ Hu id) as Hr. rewrite Hr' in Hr. inversion Hr as [r ? Hb Heq|]; subst.
    destruct (same_budget_trial _ _ _ _ Hb Ht') as (t & Ht & Hd). by exists r, t. }
  split; [split|].
  - intros id r' key t' Hr' Ht'. destruct (Hback _ _ _ _ Hr' Ht') as (r & t & Hr & Ht & _). by eapply Hk.
  - intros id r' key t' Hr' Ht'. destruct (Hback _ _ _ _ Hr' Ht') as (r & t & Hr & Ht & ->). by eapply Hm.
  - rewrite Z.add_0_r. apply left_of_le. intros at_. by rewrite (unspent_remaining _ _ _ Hu).
Qed.

(** *** The claim loops *)

(** The coordinator with the record being worked on in its place. *)
Definition in_place (id : Z) (acc : ExperimentRecord * ClaimLoop) : Impl := put_experiment id acc.1 (loop_impl acc.2).
Definition handed_out (loop loop' : ClaimLoop) : Z := size_of (loop_assignments loop') - size_of (loop_assignments loop).

Lemma find_in_place id acc k :
  find_experiment k (in_place id acc) = if decide (k = id) then Some acc.1 else find_experiment k (loop_impl acc.2).
Proof. unfold in_place, find_experiment. simpl. rewrite om_find_set. by repeat case_decide. Qed.

(** One more attempt of a trial that had attempts left. *)
Lemma count_spends most count : count < most < u32_modulus -> budget_left (Some (most, u32 (count + 1))) + 1 <= budget_left (Some (most, count)).
Proof.
  intros Hm. simpl. destruct (Z.leb_spec 0 (count + 1)).
  - rewrite u32_small by lia. lia.
  - pose proof (Z.mod_pos_bound (count + 1) u32_modulus). unfold u32, u32_modulus in *. lia.
Qed.

Lemma issue_effect request key branch t r loop :
  let acc := issue request key branch t r loop in
  (exists t', rec_trials acc.1 = om_set key t' (rec_trials r) /\ trial_attempt_count t' = u32 (trial_attempt_count t + 1))
  /\ rec_definition acc.1 = rec_definition r /\ st_experiments (impl_state (loop_impl acc.2)) = st_experiments (impl_state (loop_impl loop))
  /\ handed_out loop acc.2 = 1.
Proof.
  unfold issue, next_sequence, alloc_attempt_id. destruct (reserve_metrics _ _) as [observations metrics].
  destruct (reserve_artifacts _ _) as [artifacts ids]. simpl. split; [by eexists|]. split_and!; [done|done|].
  unfold handed_out. simpl. rewrite size_of_snoc. lia.
Qed.

Lemma issue_spends trials id request key branch t r loop :
  counted trials (in_place id (r, loop)) -> om_find key (rec_trials r) = Some t ->
  trial_attempt_count t < def_max_attempts_per_trial (rec_definition r) ->
  let acc := issue request key branch t r loop in
  spends trials (handed_out loop acc.2) (in_place id (r, loop)) (in_place id acc).
Proof.
  intros [Hk Hm] Ht Hcount. cbv zeta. destruct (issue_effect request key branch t r loop) as ((t' & Htr & Hc') & Hdef & Hx & ->).
  destruct (issue request key branch t r loop) as [r' loop']. cbn [fst snd] in *.
  assert (Hfind : forall k, find_experiment k (in_place id (r', loop')) = if decide (k = id) then Some r' else find_experiment k (in_place id (r, loop))).
  { intros k. rewrite !find_in_place. case_decide; [done|]. cbn [snd]. unfold find_experiment. by rewrite Hx. }
  assert (Hold : find_experiment id (in_place id (r, loop)) = Some r) by (rewrite find_in_place; by rewrite decide_True).
  assert (Hbudget : forall k, trial_budget r' k = if decide (k = key)
      then Some (def_max_attempts_per_trial (rec_definition r), u32 (trial_attempt_count t + 1)) else trial_budget r k).
  { intros k. unfold trial_budget. rewrite Htr, Hdef, om_find_set. repeat case_decide; try done. by rewrite Hc'. }
  assert (Hspent : budget_left (trial_budget r' key) + 1 <= budget_left (trial_budget r key)).
  { rewrite Hbudget, decide_True by done. unfold trial_budget. rewrite Ht. apply count_spends. split; [done|]. by eapply Hm. }
  assert (Hback : forall k x y, find_experiment k (in_place id (r', loop')) = Some x -> om_find y (rec_trials x) <> None ->
    exists z, find_experiment k (in_place id (r, loop)) = Some z /\ om_find y (rec_trials z) <> None
      /\ def_max_attempts_per_trial (rec_definition x) = def_max_attempts_per_trial (rec_definition z)).
  { intros k x y. rewrite Hfind. case_decide; [subst k|by eauto]. intros [= <-]. rewrite Htr, om_find_set, Hdef. intros Hy. exists r.
    split; [done|]. split; [|done]. case_decide; [subst; by rewrite Ht|done]. }
  split; [split|].
  - intros k x y u Hx' Hu. destruct (Hback k x y Hx') as (z & Hz & Hne & _); [by rewrite Hu|].
    destruct (om_find y (rec_trials z)) as [v|] eqn:Hv; [|done]. by eapply Hk.
  - intros k x y u Hx' Hu. destruct (Hback k x y Hx') as (z & Hz & Hne & ->); [by rewrite Hu|].
    destruct (om_find y (rec_trials z)) as [v|] eqn:Hv; [|done]. by eapply Hm.
  - apply (left_of_lt trials _ _ (id, key)); [| |by eapply Hk].
    + intros [k y]. unfold remaining. cbn [fst snd]. rewrite Hfind. case_decide; [subst k|done]. rewrite Hold, Hbudget.
      case_decide; [subst y|done]. rewrite Hbudget, decide_True in Hspent by done. lia.
    + unfold remaining. cbn [fst snd]. rewrite Hfind, Hold, decide_True by done. exact Hspent.
Qed.

Lemma claim_trial_spends trials id request key acc :
  counted trials (in_place id acc) ->
  spends trials (handed_out acc.2 (claim_trial request acc key).2) (in_place id acc) (in_place id (claim_trial request acc key)).
Proof.
  intros Hc. assert (Hnone : handed_out acc.2 acc.2 = 0) by (unfold handed_out; lia). destruct acc as [r loop]. cbn [snd] in *.
  unfold claim_trial. destruct (loop_budget loop =? 0); [cbn [snd]; rewrite Hnone; by apply spends_none|].
  destruct (om_find key (rec_trials r)) as [t|] eqn:Ht; [|cbn [snd]; rewrite Hnone; by apply spends_none].
  destruct (claimable _ r t) as [branch|] eqn:Hclaim; [|cbn [snd]; rewrite Hnone; by apply spends_none].
  apply issue_spends; [done|done|]. by apply claimable_facts in Hclaim as (_ & _ & _ & Hlt & _).
Qed.

Lemma claim_loop_spends trials id request keys acc :
  counted trials (in_place id acc) ->
  spends trials (handed_out acc.2 (foldl (claim_trial request) acc keys).2) (in_place id acc)
    (in_place id (foldl (claim_trial request) acc keys)).
Proof.
  revert acc. induction keys as [|key keys IH]; intros acc Hc; cbn [foldl].
  - unfold handed_out. rewrite Z.sub_diag. by apply spends_none.
  - pose proof (claim_trial_spends trials id request key acc Hc) as Hone. pose proof (IH _ (sp_counted _ _ _ _ Hone)) as Hrest.
    pose proof (spends_trans _ _ _ _ _ _ Hone Hrest) as Hall. unfold handed_out in *. eapply spends_eq; [exact Hall|lia].
Qed.

Lemma claim_experiment_spends trials request loop id :
  counted trials (loop_impl loop) ->
  spends trials (handed_out loop (claim_experiment request loop id)) (loop_impl loop) (loop_impl (claim_experiment request loop id)).
Proof.
  intros Hc. assert (Hnone : handed_out loop loop = 0) by (unfold handed_out; lia).
  unfold claim_experiment. destruct (loop_budget loop =? 0); [rewrite Hnone; by apply spends_none|].
  destruct (find_experiment id (loop_impl loop)) as [r|] eqn:Hr; [|rewrite Hnone; by apply spends_none].
  destruct (negb _); [rewrite Hnone; by apply spends_none|].
  assert (Hplace : spends trials 0 (loop_impl loop) (in_place id (r, loop))).
  { apply unspent_spends; [done|]. apply (unspent_put _ _ id r); [reflexivity|exact Hr|reflexivity]. }
  pose proof (claim_loop_spends trials id request (om_keys (rec_trials r)) (r, loop) (sp_counted _ _ _ _ Hplace)) as Hloop.
  pose proof (spends_trans _ _ _ _ _ _ Hplace Hloop) as Hall. destruct (foldl _ _ _) as [r' loop']. exact Hall.
Qed.

Lemma claim_experiments_spends trials request keys loop :
  counted trials (loop_impl loop) ->
  let loop' := foldl (claim_experiment request) loop keys in spends trials (handed_out loop loop') (loop_impl loop) (loop_impl loop').
Proof.
  cbv zeta. revert loop. induction keys as [|key keys IH]; intros loop Hc; cbn [foldl].
  - unfold handed_out. rewrite Z.sub_diag. by apply spends_none.
  - pose proof (claim_experiment_spends trials request loop key Hc) as Hone. pose proof (IH _ (sp_counted _ _ _ _ Hone)) as Hrest.
    pose proof (spends_trans _ _ _ _ _ _ Hone Hrest) as Hall. unfold handed_out in *. eapply spends_eq; [exact Hall|lia].
Qed.

(** A claim takes from what is left what it hands out. *)
Lemma claim_trials_spends trials request impl :
  counted trials impl ->
  spends trials (size_of (claimr_assignments (claim_trials request impl).2)) impl (claim_trials request impl).1.
Proof.
  intros Hc. unfold claim_trials. pose proof (spends_none trials impl Hc) as Hnone.
  destruct (negb _); [done|]. destruct (negb _); [done|]. destruct (find_live_worker _ _ impl) as [live|]; [|done].
  destruct (live_revoked live); [done|]. destruct (_ || _); [done|].
  set (loop0 := mkClaimLoop _ _ _ _).
  pose proof (claim_experiments_spends trials request (om_keys (st_experiments (impl_state impl))) loop0 Hc) as Hall. cbv zeta in Hall.
  set (loop := foldl _ _ _) in *.
  assert (Hsize : handed_out loop0 loop = size_of (loop_assignments loop)) by apply Z.sub_0_r. rewrite Hsize in Hall.
  assert (Hlive : spends trials (size_of (loop_assignments loop)) impl
    ((loop_impl loop) <| impl_live_workers ::= om_set (claim_worker request, claim_boot request) (loop_live loop) |>)).
  { destruct Hall as [[Hk Hm] Hl]. split; [by split|exact Hl]. }
  destruct (list_empty (loop_assignments loop)); [exact Hlive|].
  destruct (persist_locked _) as [impl1 persisted] eqn:Hp. apply persist_state in Hp as (d & w & -> & _).
  destruct Hlive as [[Hk Hm] Hl]. split; [by split|exact Hl].
Qed.

(** The trials there are, counted. *)
Lemma trial_keys_counted impl :
  (forall id r, find_experiment id impl = Some r -> def_max_attempts_per_trial (rec_definition r) < u32_modulus) ->
  counted (trial_keys impl) impl.
Proof.
  intros Hm. split; [|by eauto]. intros id r key t Hr Ht. unfold trial_keys. apply list_elem_of_In, in_flat_map. exists (id, r). split.
  - apply list_elem_of_In. by apply om_find_elem.
  - apply in_map_iff. exists (key, t). split; [done|]. by apply list_elem_of_In, om_find_elem.
Qed.

End Budget.
