(* ===== verification/Findings.v ===== *)
(** * Divergences the model exhibits

    Concrete runs of the modelled coordinator in which the code does not do
    what its comments and documentation promise.  Each is evaluated by the
    kernel from the operations' own definitions. *)
From S2P Require Import Prelude OMap Error Domain Identity Float64 Model Hash Sorting Canonical State Messages Spec Coordinator Authority Evidence Decision Scenario Fencing History Ledger Invariants Recovery System Safety.

(** ** Epochs *)

Definition second_start : Impl := Eval vm_compute in Run.created (create Run.config (impl_world Run.s0)).

(** Starting writes nothing when recovery has nothing to reconcile, so the
    freshly minted epoch is not stored and the next start mints it again. *)
Theorem epoch_reissued :
  create Run.config Run.empty_world = (impl_world Run.s0, Ok Run.s0)
  /\ create Run.config (impl_world Run.s0) = (impl_world second_start, Ok second_start)
  /\ impl_epoch second_start = impl_epoch Run.s0.
Proof. split; [|split]; by_evaluation. Qed.

(** ** A retried trial's evidence *)

Module Retry.

(** Trial 1 is claimed, observed, reported failed as retryable, claimed again
    and observed again: every call succeeds. *)
Definition observed : Impl := Eval vm_compute in exec Reach.observe Run.s4.
Definition failed : Impl := Eval vm_compute in (fail_trial failure observed).1.
Definition reclaimed := Eval vm_compute in claim_trials Run.claim failed.
Definition envelope : AuthorityEnvelope :=
  match claimr_assignments reclaimed.2 with
  | a :: _ => asg_envelope a
  | [] => default_AuthorityEnvelope
  end.
Definition observe_again : PublishObservationRequest := Run.publish 9 envelope (double_of_Z 21).
Definition observed_again : Impl := Eval vm_compute in (publish_observation observe_again reclaimed.1).1.

Lemma observed_exec : observed = exec Reach.observe Run.s4.
Proof. by_evaluation. Qed.
Lemma failed_exec : failed = exec (OpFailTrial failure) observed.
Proof. by_evaluation. Qed.
Lemma reclaimed_exec : reclaimed.1 = exec (OpClaimTrials Run.claim) failed.
Proof. by_evaluation. Qed.
Lemma observed_again_exec : observed_again = exec (OpPublishObservation observe_again) reclaimed.1.
Proof. by_evaluation. Qed.

Lemma retry_reached : reachable (Up observed_again).
Proof.
  rewrite observed_again_exec. eapply reachable_step; [|by constructor].
  rewrite reclaimed_exec. eapply reachable_step; [|constructor; vm_compute; split; discriminate].
  rewrite failed_exec. eapply reachable_step; [|by constructor].
  rewrite observed_exec. eapply reachable_step; [exact Reach.s4|by constructor].
Qed.

End Retry.

(** The state reached satisfies every rule the operations enforce, but not the
    validator of the loader, so the image the last publication has stored can
    never be loaded again. *)
Theorem retry_evidence_blocks_restart :
  reachable (Up Retry.observed_again)
  /\ (fail_trial failure Retry.observed).2 = success
  /\ (publish_observation Retry.observe_again Retry.reclaimed.1).2 = success
  /\ coordinator_validate_state Retry.observed_again
     = corrupt "experiment 1: duplicate valid observation for one metric on one trial"
  /\ match (create Run.config (impl_world Retry.observed_again)).2 with Ok _ => False | Err e => status_ok e = false end.
Proof.
  split; [exact Retry.retry_reached|]. split; [vm_compute; reflexivity|]. split; [vm_compute; reflexivity|].
  split; [vm_compute; reflexivity|]. vm_compute. reflexivity.
Qed.

(** ** A cancelled experiment comes back *)

Module Reopened.
Definition cancelled : Impl := Eval vm_compute in (cancel_experiment 1 "stop" Run.s6).1.
Definition finalized : Impl := Eval vm_compute in (finalize_experiment 1 1 "" cancelled).1.
Definition rolled_back : Impl := Eval vm_compute in (rollback 1 1 "undo" finalized).1.
End Reopened.

(** [rollback] refuses a cancelled experiment, but finalizing a cancelled
    experiment with its baseline as the candidate yields an INVALID decision,
    which makes the experiment FINALIZED with a rollback point; rolling back to
    it opens the cancelled experiment again. *)
Theorem cancelled_experiment_reopens :
  rec_state (Run.record_at Reopened.cancelled) = ExperimentState.CANCELLED
  /\ status_ok (rollback 1 1 "undo" Reopened.cancelled).2 = false
  /\ rec_state (Run.record_at Reopened.finalized) = ExperimentState.FINALIZED
  /\ (rollback 1 1 "undo" Reopened.finalized).2 = success
  /\ rec_state (Run.record_at Reopened.rolled_back) = ExperimentState.OPEN.
Proof. repeat split; vm_compute; reflexivity. Qed.

(** ** An unknown candidate *)

Module UnknownCandidate.
Definition finalized : Impl := Eval vm_compute in (finalize_experiment 1 99 "" Run.s6).1.
End UnknownCandidate.

(** Finalizing with a candidate that names no branch is not refused: the
    decision it stores references an unknown branch, which the loader's
    validator rejects, so the stored image can never be loaded again. *)
Theorem unknown_candidate_blocks_restart :
  match (finalize_experiment 1 99 "" Run.s6).2 with Ok d => dec_outcome d = DecisionOutcome.INVALID | Err _ => False end
  /\ coordinator_validate_state UnknownCandidate.finalized
     = corrupt "experiment 1: decision references an unknown candidate branch"
  /\ match (create Run.config (impl_world UnknownCandidate.finalized)).2 with Ok _ => False | Err e => status_ok e = false end.
Proof. split; [vm_compute; reflexivity|split]; vm_compute; reflexivity. Qed.
