(* ===== verification/Inspect.v ===== *)
(** * Reports (inspect.cpp, the snapshot structures of coordinator.hpp and model.hpp)

    The read-only views the coordinator hands out, and how they are rendered
    as lines of text.  Every renderer appends through [push_limited], which
    stops at the configured number of lines; the bounds this gives, and that
    the lineage report names every branch, are proved at the end. *)
From S2P Require Import Prelude OMap Error Domain Identity Float64 Model Hash Sorting Canonical State Validator Messages Decision.

(** ** Views *)

Record TrialSnapshot := mkTrialSnapshot {
  tsnap_trial : TrialRecord;
  tsnap_attempts : list AttemptRecord
}.
#[export] Instance etaTrialSnapshot : Eta TrialSnapshot := fun r =>
  mkTrialSnapshot
    (tsnap_trial r) (tsnap_attempts r).
Definition default_TrialSnapshot : TrialSnapshot :=
  mkTrialSnapshot default_TrialRecord [].

Record ExperimentSnapshot := mkExperimentSnapshot {
  xsnap_definition : ExperimentDefinition;
  xsnap_hypothesis : HypothesisRec;
  xsnap_hypothesis_history : list HypothesisRec;
  xsnap_state : ExperimentState;
  xsnap_producing_epoch : Z;
  xsnap_revision_sequence : Z;
  xsnap_trials : list TrialSnapshot;
  xsnap_observations : list Observation;
  xsnap_artifacts : list ArtifactRecord;
  xsnap_decisions : list Decision;
  xsnap_rollback_points : list RollbackPoint;
  xsnap_rejected_evidence : list RejectedEvidence;
  xsnap_lifecycle_log : list string;
  xsnap_state_digest : Digest
}.
#[export] Instance etaExperimentSnapshot : Eta ExperimentSnapshot := fun r =>
  mkExperimentSnapshot
    (xsnap_definition r) (xsnap_hypothesis r) (xsnap_hypothesis_history r) (xsnap_state r)
    (xsnap_producing_epoch r) (xsnap_revision_sequence r) (xsnap_trials r) (xsnap_observations r)
    (xsnap_artifacts r) (xsnap_decisions r) (xsnap_rollback_points r) (xsnap_rejected_evidence r)
    (xsnap_lifecycle_log r) (xsnap_state_digest r).
Definition default_ExperimentSnapshot : ExperimentSnapshot :=
  mkExperimentSnapshot
    default_ExperimentDefinition default_HypothesisRec [] ExperimentState.OPEN 0 0 [] [] [] [] []
    [] [] zero_digest.

Record ReproducibilityRecord := mkReproducibilityRecord {
  repr_experiment : Z;
  repr_generation : Z;
  repr_hypothesis : Z;
  repr_hypothesis_revision : Z;
  repr_branch : Z;
  repr_branch_generation : Z;
  repr_policy : Z;
  repr_policy_generation : Z;
  repr_definition_digest : Digest;
  repr_branch_definition_digest : Digest;
  repr_policy_digest : Digest;
  repr_input_set : Z;
  repr_input_set_present : bool;
  repr_input_set_digest : Digest;
  repr_input_set_digest_present : bool;
  repr_environment : Z;
  repr_environment_present : bool;
  repr_environment_fingerprint : string;
  repr_executable_identity : string;
  repr_producer_identity : string;
  repr_seed : option Z;
  repr_parameters : list ParameterAssignment;
  repr_artifacts : list Z;
  repr_observation_count : Z;
  repr_missing_materials : list string;
  repr_status : ReproducibilityStatus
}.
#[export] Instance etaReproducibilityRecord : Eta ReproducibilityRecord := fun r =>
  mkReproducibilityRecord
    (repr_experiment r) (repr_generation r) (repr_hypothesis r) (repr_hypothesis_revision r)
    (repr_branch r) (repr_branch_generation r) (repr_policy r) (repr_policy_generation r)
    (repr_definition_digest r) (repr_branch_definition_digest r) (repr_policy_digest r)
    (repr_input_set r) (repr_input_set_present r) (repr_input_set_digest r)
    (repr_input_set_digest_present r) (repr_environment r) (repr_environment_present r)
    (repr_environment_fingerprint r) (repr_executable_identity r) (repr_producer_identity r)
    (repr_seed r) (repr_parameters r) (repr_artifacts r) (repr_observation_count r)
    (repr_missing_materials r) (repr_status r).
Definition default_ReproducibilityRecord : ReproducibilityRecord :=
  mkReproducibilityRecord 0 0
    0 0 0 0 0 0 zero_digest zero_digest zero_digest 0 false zero_digest false 0 false "" "" ""
    None [] [] 0 [] ReproducibilityStatus.UNKNOWN.

(** ** Texts *)

Definition version_string : string := "1.0.0".

(** [std::to_string] of an unsigned and of a signed integer. *)
Definition unsigned_to_string (value : Z) : string := id_to_string value.
Definition signed_to_string (value : Z) : string :=
  if value <? 0 then "-" +:+ unsigned_to_string (- value) else unsigned_to_string value.
Definition size_text {A} (l : list A) : string := unsigned_to_string (size_of l).
Definition bool_text (b : bool) : string := if b then "true" else "false".
Definition digest_hex (digest : Digest) : string := to_hex digest.
Definition provenance_label (provenance : Provenance) : string := provenance_to_string provenance.

Section Rendering.
Context `{Formatting} (limits : Limits).

Definition format_real (value : double) : string :=
  match value with
  | S754_nan => "nan"
  | S754_infinity negative => if negative then "-inf" else "inf"
  | S754_zero _ | S754_finite _ _ _ => to_chars value
  end.

Definition push_limited (lines : list string) (line : string) : list string :=
  if max_explanation_lines limits <=? size_of lines then lines else lines ++ [line].

(** A sequence of calls of [push_limited]. *)
Definition push_lines (lines new : list string) : list string := foldl push_limited lines new.
(** A call under a condition, and the body of a guard on an optional. *)
Definition line_if (b : bool) (line : string) : list string := if b then [line] else [].
Definition line_of {A} (o : option A) (f : A -> string) : list string :=
  match o with Some a => [f a] | None => [] end.

Definition describe_metric (definition : ExperimentDefinition) (id : Z) : string :=
  match List.find (fun metric => metric_id metric =? id) (def_metrics definition) with
  | Some metric => metric_name metric
  | None => "metric#" +:+ id_to_string id
  end.

Definition branch_of (definition : ExperimentDefinition) (id : Z) : option BranchDefinition :=
  List.find (fun branch => branch_id branch =? id) (def_branches definition).

(** ** Branches and lineage *)

Fixpoint spaces (n : nat) : string := match n with O => "" | S n => String " " (spaces n) end.

Definition parent_text (branch : BranchDefinition) : string :=
  if id_valid (branch_parent branch) then " parent=" +:+ id_to_string (branch_parent branch) else "".

Definition branch_line (depth : Z) (branch : BranchDefinition) : string :=
  spaces (Z.to_nat (u32 (depth * 2))) +:+ "branch " +:+ id_to_string (branch_id branch)
  +:+ " name=" +:+ branch_name branch +:+ " role=" +:+ branch_role_to_string (branch_role branch)
  +:+ " state=" +:+ branch_state_to_string (branch_state branch)
  +:+ " branch-generation=" +:+ id_to_string (branch_generation branch) +:+ parent_text branch.

Definition children_of (definition : ExperimentDefinition) (node : Z) : list Z :=
  stable_sort Z.ltb (map branch_id (List.filter (fun candidate => branch_parent candidate =? node) (def_branches definition))).

(** The recursion stops past [max_lineage_depth]; [fuel] calls are nested at most. *)
Fixpoint render_branch_tree (definition : ExperimentDefinition) (fuel : nat) (node depth : Z) (lines : list string) : list string :=
  match fuel with
  | O => lines
  | S fuel =>
      if max_lineage_depth limits <? depth then lines
      else
        match branch_of definition node with
        | None => lines
        | Some branch =>
            foldl (fun lines child => render_branch_tree definition fuel child (u32 (depth + 1)) lines)
              (push_limited lines (branch_line depth branch)) (children_of definition node)
        end
  end.

(** One call for each depth from 0 to the limit, and the call that returns. *)
Definition tree_fuel : nat := Z.to_nat (max_lineage_depth limits + 2).

Definition lineage_header (snapshot : ExperimentSnapshot) : string :=
  let definition := xsnap_definition snapshot in
  "lineage experiment " +:+ id_to_string (def_id definition) +:+ " hypothesis " +:+ id_to_string (def_hypothesis definition)
  +:+ " revision " +:+ id_to_string (def_hypothesis_revision definition).

Definition lineage_roots (definition : ExperimentDefinition) : list Z :=
  stable_sort Z.ltb (map branch_id (List.filter (fun branch => negb (id_valid (branch_parent branch))) (def_branches definition))).
Definition lineage_orphans (definition : ExperimentDefinition) : list Z :=
  map branch_id (List.filter (fun branch => id_valid (branch_parent branch)
    && match branch_of definition (branch_parent branch) with None => true | Some _ => false end) (def_branches definition)).

Definition render_lineage (snapshot : ExperimentSnapshot) : list string :=
  let definition := xsnap_definition snapshot in
  foldl (fun lines node => render_branch_tree definition tree_fuel node 0 lines)
    (push_limited [] (lineage_header snapshot)) (lineage_roots definition ++ lineage_orphans definition).

Definition branch_report (branch : BranchDefinition) : list string :=
  ["branch " +:+ id_to_string (branch_id branch) +:+ " name=" +:+ branch_name branch
   +:+ " role=" +:+ branch_role_to_string (branch_role branch)
   +:+ " state=" +:+ branch_state_to_string (branch_state branch)
   +:+ " branch-generation=" +:+ id_to_string (branch_generation branch)
   +:+ " planned-trials=" +:+ unsigned_to_string (branch_planned_trials branch)
   +:+ " forked=" +:+ bool_text (branch_forked branch) +:+ parent_text branch]
  ++ map (fun parameter => "  parameter " +:+ param_key parameter +:+ "["
            +:+ parameter_kind_to_string (param_kind parameter) +:+ "]=" +:+ param_value parameter) (branch_parameters branch)
  ++ line_if (branch_input_set_present branch) ("  input-set " +:+ id_to_string (branch_input_set branch))
  ++ line_if (branch_environment_present branch) ("  environment " +:+ id_to_string (branch_environment branch))
  ++ line_if (negb (String.eqb (branch_environment_fingerprint branch) ""))
       ("  environment-fingerprint " +:+ branch_environment_fingerprint branch)
  ++ line_of (branch_seed branch) (fun seed => "  seed " +:+ unsigned_to_string seed).

Definition render_branches (snapshot : ExperimentSnapshot) : list string :=
  push_lines [] (flat_map branch_report (stable_sort (id_less branch_id) (def_branches (xsnap_definition snapshot)))).

(** ** Hypotheses and the whole snapshot *)

Definition revision_line (entry : HypothesisRec) : string :=
  "  revision " +:+ id_to_string (hyp_revision entry) +:+ " superseded=" +:+ bool_text (hyp_superseded entry)
  +:+ " superseded-by=" +:+ id_to_string (hyp_superseded_by_revision entry) +:+ " statement=" +:+ hyp_statement entry.

Definition render_hypothesis (snapshot : ExperimentSnapshot) : list string :=
  let hypothesis := xsnap_hypothesis snapshot in
  push_lines []
    (["hypothesis " +:+ id_to_string (hyp_id hypothesis) +:+ " revision " +:+ id_to_string (hyp_revision hypothesis)
      +:+ " statement=" +:+ hyp_statement hypothesis]
     ++ line_of (hyp_expected_direction hypothesis) (fun direction => "expected-direction " +:+ metric_direction_to_string direction)
     ++ line_if (id_valid (hyp_expected_metric hypothesis))
          ("expected-metric " +:+ describe_metric (xsnap_definition snapshot) (hyp_expected_metric hypothesis))
     ++ line_if (negb (String.eqb (hyp_provenance hypothesis) "")) ("provenance " +:+ hyp_provenance hypothesis)
     ++ ["revision-history " +:+ size_text (xsnap_hypothesis_history snapshot)]
     ++ map revision_line (xsnap_hypothesis_history snapshot)).

Definition snapshot_summary (snapshot : ExperimentSnapshot) : list string :=
  let definition := xsnap_definition snapshot in
  ["experiment-fabric " +:+ version_string;
   "experiment " +:+ id_to_string (def_id definition) +:+ " name=" +:+ def_name definition;
   "state " +:+ experiment_state_to_string (xsnap_state snapshot);
   "generation " +:+ id_to_string (def_generation definition);
   "hypothesis " +:+ id_to_string (hyp_id (xsnap_hypothesis snapshot)) +:+ " revision "
     +:+ id_to_string (hyp_revision (xsnap_hypothesis snapshot));
   "policy " +:+ id_to_string (policy_id (def_policy definition)) +:+ " generation "
     +:+ id_to_string (policy_generation (def_policy definition));
   "producing-epoch " +:+ id_to_string (xsnap_producing_epoch snapshot);
   "state-digest " +:+ digest_hex (xsnap_state_digest snapshot);
   "trials " +:+ size_text (xsnap_trials snapshot);
   "observations " +:+ size_text (xsnap_observations snapshot);
   "artifacts " +:+ size_text (xsnap_artifacts snapshot);
   "decisions " +:+ size_text (xsnap_decisions snapshot);
   "rollback-points " +:+ size_text (xsnap_rollback_points snapshot);
   "rejected-evidence " +:+ size_text (xsnap_rejected_evidence snapshot)].

(** The branches and the hypothesis are inserted whole. *)
Definition render_snapshot (snapshot : ExperimentSnapshot) : list string :=
  let lines := push_lines [] (snapshot_summary snapshot) in
  let lines := lines ++ render_branches snapshot in
  let lines := lines ++ render_hypothesis snapshot in
  push_lines lines (map (fun entry => "log " +:+ entry) (xsnap_lifecycle_log snapshot)).

(** ** Trials *)

Definition failure_text (kind : FailureKind) : string :=
  if bool_decide (kind = FailureKind.NONE) then "" else " failure=" +:+ failure_kind_to_string kind.

Definition attempt_line (attempt : AttemptRecord) : string :=
  "  attempt " +:+ id_to_string (attempt_id attempt) +:+ " number=" +:+ id_to_string (attempt_number attempt)
  +:+ " state=" +:+ attempt_state_to_string (attempt_state attempt)
  +:+ " worker=" +:+ id_to_string (attempt_worker attempt) +:+ " boot=" +:+ id_to_string (attempt_boot attempt)
  +:+ " epoch=" +:+ id_to_string (attempt_epoch attempt)
  +:+ " committed=" +:+ bool_text (attempt_committed attempt) +:+ failure_text (attempt_failure_kind attempt).

Definition trial_report (entry : TrialSnapshot) : list string :=
  let trial := tsnap_trial entry in
  ["trial " +:+ id_to_string (trial_id trial) +:+ " branch=" +:+ id_to_string (trial_branch trial)
   +:+ " state=" +:+ trial_state_to_string (trial_state trial)
   +:+ " generation=" +:+ id_to_string (trial_generation trial)
   +:+ " branch-generation=" +:+ id_to_string (trial_branch_generation trial)
   +:+ " attempts=" +:+ unsigned_to_string (trial_attempt_count trial)
   +:+ " committed-attempts=" +:+ unsigned_to_string (trial_committed_attempts trial)
   +:+ (if id_valid (trial_authoritative_attempt trial)
        then " authoritative-attempt=" +:+ id_to_string (trial_authoritative_attempt trial) else "")
   +:+ failure_text (trial_failure_kind trial)]
  ++ line_if (negb (String.eqb (trial_failure_detail trial) "")) ("  failure-detail " +:+ trial_failure_detail trial)
  ++ line_of (trial_seed trial) (fun seed => "  seed " +:+ unsigned_to_string seed)
  ++ map attempt_line (tsnap_attempts entry).

Definition render_trials (snapshot : ExperimentSnapshot) : list string :=
  push_lines [] (flat_map trial_report (xsnap_trials snapshot)).

(** ** Evidence *)

(** By trial, metric and identity. *)
Definition observation_order (lhs rhs : Observation) : bool :=
  if negb (obs_trial lhs =? obs_trial rhs) then obs_trial lhs <? obs_trial rhs
  else if negb (obs_metric lhs =? obs_metric rhs) then obs_metric lhs <? obs_metric rhs
  else obs_id lhs <? obs_id rhs.

Definition value_text (value : MetricValue) : string :=
  match mv_kind value with
  | MetricKind.REAL => format_real (mv_real value)
  | MetricKind.INTEGER => signed_to_string (mv_integer value)
  | MetricKind.BOOLEAN => bool_text (mv_boolean value)
  | MetricKind.CATEGORICAL => mv_category value
  end.

Definition observation_report (definition : ExperimentDefinition) (observation : Observation) : list string :=
  ["observation " +:+ id_to_string (obs_id observation) +:+ " trial=" +:+ id_to_string (obs_trial observation)
   +:+ " branch=" +:+ id_to_string (obs_branch observation)
   +:+ " metric=" +:+ describe_metric definition (obs_metric observation)
   +:+ " validity=" +:+ observation_validity_to_string (obs_validity observation)
   +:+ " kind=" +:+ metric_kind_to_string (mv_kind (obs_value observation))
   +:+ " value=" +:+ value_text (obs_value observation)
   +:+ " attempt=" +:+ id_to_string (obs_attempt observation) +:+ " producer=" +:+ id_to_string (obs_producer observation)]
  ++ line_if (negb (String.eqb (obs_detail observation) "")) ("  detail " +:+ obs_detail observation).

Definition render_observations (snapshot : ExperimentSnapshot) : list string :=
  push_lines [] (flat_map (observation_report (xsnap_definition snapshot))
                   (stable_sort observation_order (xsnap_observations snapshot))).

Definition rejected_line (evidence : RejectedEvidence) : string :=
  "rejected " +:+ rej_kind evidence +:+ " id=" +:+ unsigned_to_string (rej_identifier evidence)
  +:+ " reason=" +:+ error_code_to_string (rej_reason evidence) +:+ " detail=" +:+ rej_detail evidence.

(** The state named for an observation that is not valid. *)
Definition non_authoritative_line (definition : ExperimentDefinition) (observation : Observation) : list string :=
  let line (state : string) :=
    ["non-authoritative observation " +:+ id_to_string (obs_id observation)
     +:+ " trial=" +:+ id_to_string (obs_trial observation)
     +:+ " metric=" +:+ describe_metric definition (obs_metric observation) +:+ " validity=" +:+ state] in
  match obs_validity observation with
  | ObservationValidity.VALID => []
  | ObservationValidity.INVALID => line "INVALID"
  | ObservationValidity.MISSING => line "MISSING"
  | ObservationValidity.UNSUPPORTED => line "UNSUPPORTED"
  end.

Definition closed_trial_line (entry : TrialSnapshot) : list string :=
  let trial := tsnap_trial entry in
  line_if (bool_decide (trial_state trial = TrialState.SUPERSEDED) || bool_decide (trial_state trial = TrialState.CANCELLED))
    ("trial " +:+ id_to_string (trial_id trial) +:+ " state=" +:+ trial_state_to_string (trial_state trial)
     +:+ " detail=" +:+ trial_failure_detail trial).

Definition render_rejected_evidence (snapshot : ExperimentSnapshot) : list string :=
  push_lines []
    (map rejected_line (xsnap_rejected_evidence snapshot)
     ++ flat_map (non_authoritative_line (xsnap_definition snapshot)) (xsnap_observations snapshot)
     ++ flat_map closed_trial_line (xsnap_trials snapshot)).

Definition artifact_report (artifact : ArtifactRecord) : list string :=
  ["artifact " +:+ id_to_string (artifact_id artifact) +:+ " trial=" +:+ id_to_string (artifact_trial artifact)
   +:+ " attempt=" +:+ id_to_string (artifact_attempt artifact) +:+ " category=" +:+ artifact_category artifact
   +:+ " current=" +:+ bool_text (artifact_current artifact) +:+ " production-trusted=false"
   +:+ " locator=" +:+ artifact_locator artifact]
  ++ line_if (artifact_digest_present artifact) ("  digest " +:+ digest_hex (artifact_content_digest artifact))
  ++ line_if (artifact_size_present artifact) ("  size " +:+ unsigned_to_string (artifact_size_bytes artifact)).

Definition render_artifacts (snapshot : ExperimentSnapshot) : list string :=
  push_lines [] (flat_map artifact_report (stable_sort (id_less artifact_id) (xsnap_artifacts snapshot))).

Definition aggregate_line (aggregate : MetricAggregate) : string :=
  "  aggregate metric=" +:+ id_to_string (agg_metric aggregate)
  +:+ " rule=" +:+ aggregation_rule_to_string (agg_rule aggregate)
  +:+ " present=" +:+ bool_text (agg_present aggregate)
  +:+ " value=" +:+ (if agg_present aggregate then format_real (agg_value aggregate) else "absent")
  +:+ (if String.eqb (agg_category aggregate) "" then "" else " category=" +:+ agg_category aggregate)
  +:+ " valid=" +:+ unsigned_to_string (agg_valid_count aggregate)
  +:+ " invalid=" +:+ unsigned_to_string (agg_invalid_count aggregate)
  +:+ " missing=" +:+ unsigned_to_string (agg_missing_count aggregate)
  +:+ " unsupported=" +:+ unsigned_to_string (agg_unsupported_count aggregate).

Definition evidence_line (evidence : BranchEvidence) : string :=
  "evidence branch " +:+ id_to_string (ev_branch evidence) +:+ " role=" +:+ branch_role_to_string (ev_role evidence)
  +:+ " state=" +:+ branch_state_to_string (ev_state evidence)
  +:+ " completed=" +:+ unsigned_to_string (ev_completed_trials evidence)
  +:+ " failed=" +:+ unsigned_to_string (ev_failed_trials evidence)
  +:+ " cancelled=" +:+ unsigned_to_string (ev_cancelled_trials evidence)
  +:+ " invalid=" +:+ unsigned_to_string (ev_invalid_trials evidence)
  +:+ " superseded=" +:+ unsigned_to_string (ev_superseded_trials evidence)
  +:+ " open=" +:+ unsigned_to_string (ev_open_trials evidence).

Definition render_evidence (evidence : BranchEvidence) : list string :=
  push_lines [] (evidence_line evidence :: map aggregate_line (ev_aggregates evidence)).

(** ** Decisions *)

Definition decision_header (decision : Decision) : list string :=
  ["decision " +:+ id_to_string (dec_id decision) +:+ " experiment " +:+ id_to_string (dec_experiment decision)
     +:+ " generation " +:+ id_to_string (dec_generation decision);
   "hypothesis " +:+ id_to_string (dec_hypothesis decision) +:+ " revision " +:+ id_to_string (dec_hypothesis_revision decision);
   "policy " +:+ id_to_string (dec_policy decision) +:+ " generation " +:+ id_to_string (dec_policy_generation decision);
   foldl (fun compared branch => compared +:+ " " +:+ id_to_string branch) "compared-branches" (dec_compared_branches decision);
   "candidate " +:+ id_to_string (dec_candidate decision) +:+ " baseline "
     +:+ (if dec_baseline_present decision then id_to_string (dec_baseline decision) else "none");
   "outcome " +:+ decision_outcome_to_string (dec_outcome decision);
   "reason-kind " +:+ failure_kind_to_string (dec_reason_kind decision);
   "reason " +:+ dec_reason decision].

Definition constraint_line (constraint : ConstraintResult) : string :=
  "constraint " +:+ (if constraint_passed constraint then "PASS " else "FAIL ")
  +:+ constraint_name constraint +:+ " " +:+ constraint_detail constraint.

Definition factor_line (factor : ComparisonFactor) : string :=
  "factor metric=" +:+ (if id_valid (factor_metric factor) then id_to_string (factor_metric factor) else "weighted-score")
  +:+ " op=" +:+ comparison_op_to_string (factor_op factor) +:+ " priority=" +:+ unsigned_to_string (factor_priority factor)
  +:+ " has-values=" +:+ bool_text (factor_has_values factor) +:+ " baseline=" +:+ format_real (factor_baseline_value factor)
  +:+ " candidate=" +:+ format_real (factor_candidate_value factor) +:+ " delta=" +:+ format_real (factor_delta factor)
  +:+ " satisfied=" +:+ bool_text (factor_satisfied factor).

(** Each evidence report is inserted whole. *)
Definition render_decision (decision : Decision) : list string :=
  let lines := push_lines [] (decision_header decision) in
  let lines := foldl (fun lines evidence => lines ++ render_evidence evidence) lines (dec_evidence decision) in
  push_lines lines
    (map constraint_line (dec_constraints decision) ++ map factor_line (dec_factors decision)
     ++ line_if (dec_tied decision) ("tie-break " +:+ dec_tie_break_rule decision)
     ++ map rejected_line (dec_rejected_evidence decision)
     ++ ["canonical-state-digest " +:+ digest_hex (dec_canonical_state_digest decision);
         "sequence " +:+ unsigned_to_string (dec_sequence decision)]).

(** ** Reproducibility *)

Definition or_absent {A} (f : A -> string) (o : option A) : string := match o with Some a => f a | None => "absent" end.

Definition render_reproducibility (record : ReproducibilityRecord) : list string :=
  push_lines []
    (["reproducibility experiment " +:+ id_to_string (repr_experiment record)
        +:+ " generation " +:+ id_to_string (repr_generation record);
      "branch " +:+ id_to_string (repr_branch record) +:+ " branch-generation " +:+ id_to_string (repr_branch_generation record);
      "hypothesis " +:+ id_to_string (repr_hypothesis record) +:+ " revision " +:+ id_to_string (repr_hypothesis_revision record);
      "definition-digest " +:+ digest_hex (repr_definition_digest record);
      "branch-definition-digest " +:+ digest_hex (repr_branch_definition_digest record);
      "policy-digest " +:+ digest_hex (repr_policy_digest record);
      "status " +:+ reproducibility_status_to_string (repr_status record);
      "seed " +:+ or_absent unsigned_to_string (repr_seed record);
      "input-set " +:+ (if repr_input_set_present record then id_to_string (repr_input_set record) else "absent");
      "environment " +:+ (if repr_environment_present record then id_to_string (repr_environment record) else "absent")]
     ++ line_if (negb (String.eqb (repr_environment_fingerprint record) ""))
          ("environment-fingerprint " +:+ repr_environment_fingerprint record)
     ++ line_if (negb (String.eqb (repr_executable_identity record) ""))
          ("executable-identity " +:+ repr_executable_identity record)
     ++ line_if (negb (String.eqb (repr_producer_identity record) ""))
          ("producer-identity " +:+ repr_producer_identity record)
     ++ ["valid-observations " +:+ unsigned_to_string (repr_observation_count record);
         "artifacts " +:+ size_text (repr_artifacts record)]
     ++ map (fun artifact => "  artifact " +:+ id_to_string artifact) (repr_artifacts record)
     ++ map (fun parameter => "parameter " +:+ param_key parameter +:+ "=" +:+ param_value parameter) (repr_parameters record)
     ++ map (fun missing => "missing-material " +:+ missing) (repr_missing_materials record)).

Definition summarize (snapshot : ExperimentSnapshot) : string :=
  "experiment " +:+ id_to_string (def_id (xsnap_definition snapshot)) +:+ " name=" +:+ def_name (xsnap_definition snapshot)
  +:+ " state=" +:+ experiment_state_to_string (xsnap_state snapshot)
  +:+ " generation=" +:+ id_to_string (def_generation (xsnap_definition snapshot))
  +:+ " branches=" +:+ size_text (def_branches (xsnap_definition snapshot))
  +:+ " trials=" +:+ size_text (xsnap_trials snapshot).

End Rendering.

(** ** Bounds *)

Section Bounds.
Context (limits : Limits).

(** Once the bound is reached nothing more is appended. *)
Lemma push_lines_full lines new : max_explanation_lines limits <= size_of lines -> push_lines limits lines new = lines.
Proof.
  intros Hfull. induction new as [|line new IH]; [done|]. cbn. unfold push_limited at 2.
  destruct (Z.leb_spec (max_explanation_lines limits) (size_of lines)); [exact IH|lia].
Qed.

(** A renderer returns the first [max_explanation_lines] of its lines. *)
Lemma push_lines_take lines new :
  size_of lines <= max_explanation_lines limits ->
  push_lines limits lines new = take (Z.to_nat (max_explanation_lines limits)) (lines ++ new).
Proof.
  revert lines. induction new as [|line new IH]; intros lines Hle.
  - rewrite app_nil_r, take_ge; [done|]. unfold size_of in Hle. lia.
  - destruct (Z.leb_spec (max_explanation_lines limits) (size_of lines)) as [Hfull|Hroom].
    + rewrite push_lines_full by done. unfold size_of in *. rewrite take_app_length'; [done|lia].
    + cbn. unfold push_limited at 2. destruct (Z.leb_spec (max_explanation_lines limits) (size_of lines)); [lia|].
      fold (push_lines limits (lines ++ [line]) new). rewrite IH, <- app_assoc; [done|]. rewrite size_of_snoc. lia.
Qed.

Lemma push_lines_app lines new new' :
  push_lines limits lines (new ++ new') = push_lines limits (push_lines limits lines new) new'.
Proof. apply foldl_app. Qed.

Lemma push_lines_bounded lines new :
  size_of (push_lines limits lines new) <= Z.max (max_explanation_lines limits) (size_of lines).
Proof.
  destruct (Z.le_gt_cases (max_explanation_lines limits) (size_of lines)).
  - rewrite push_lines_full by done. lia.
  - rewrite push_lines_take by lia. unfold size_of. rewrite length_take. lia.
Qed.

Lemma push_lines_nil_bounded new :
  0 <= max_explanation_lines limits -> size_of (push_lines limits [] new) <= max_explanation_lines limits.
Proof. intros. etransitivity; [apply push_lines_bounded|]. unfold size_of. simpl. lia. Qed.

(** The whole snapshot is the one report that can grow past the bound: to it
    come the lines of two reports that are inserted without a check. *)
Lemma render_snapshot_bounded snapshot :
  0 <= max_explanation_lines limits ->
  size_of (render_snapshot limits snapshot) <= 2 * max_explanation_lines limits + Z.min 14 (max_explanation_lines limits).
Proof.
  intros Hpos. unfold render_snapshot. etransitivity; [apply push_lines_bounded|]. rewrite !size_of_app.
  assert (Hs : size_of (push_lines limits [] (snapshot_summary snapshot)) <= Z.min 14 (max_explanation_lines limits)).
  { rewrite push_lines_take by (unfold size_of; simpl; lia). unfold size_of. rewrite length_take. simpl. lia. }
  assert (Hb : size_of (render_branches limits snapshot) <= max_explanation_lines limits) by by apply push_lines_nil_bounded.
  assert (Hh : size_of (render_hypothesis limits snapshot) <= max_explanation_lines limits) by by apply push_lines_nil_bounded.
  lia.
Qed.

(** ** The lineage report *)

(** The lines of a subtree, in the order they are pushed. *)
Fixpoint tree_lines (definition : ExperimentDefinition) (fuel : nat) (node depth : Z) : list string :=
  match fuel with
  | O => []
  | S fuel =>
      if max_lineage_depth limits <? depth then []
      else
        match branch_of definition node with
        | None => []
        | Some branch =>
            branch_line depth branch
              :: flat_map (fun child => tree_lines definition fuel child (u32 (depth + 1))) (children_of definition node)
        end
  end.

Lemma push_flat_map {A} (f : A -> list string) (g : list string -> A -> list string) l lines :
  (forall lines x, g lines x = push_lines limits lines (f x)) ->
  foldl g lines l = push_lines limits lines (flat_map f l).
Proof.
  intros Hg. revert lines. induction l as [|x l IH]; intros lines; [done|].
  cbn [foldl flat_map]. by rewrite Hg, IH, push_lines_app.
Qed.

Lemma render_branch_tree_lines definition fuel node depth lines :
  render_branch_tree limits definition fuel node depth lines = push_lines limits lines (tree_lines definition fuel node depth).
Proof.
  revert node depth lines. induction fuel as [|fuel IH]; intros node depth lines; [done|]. cbn [render_branch_tree tree_lines].
  destruct (max_lineage_depth limits <? depth); [done|]. destruct (branch_of definition node) as [branch|]; [|done].
  rewrite push_flat_map with (f := fun child => tree_lines definition fuel child (u32 (depth + 1))); [done|].
  intros lines' child. apply IH.
Qed.

Lemma render_lineage_lines snapshot :
  let definition := xsnap_definition snapshot in
  render_lineage limits snapshot =
    push_lines limits []
      (lineage_header snapshot :: flat_map (fun node => tree_lines definition (tree_fuel limits) node 0)
                                    (lineage_roots definition ++ lineage_orphans definition)).
Proof.
  intros definition. unfold render_lineage. fold definition.
  rewrite push_flat_map with (f := fun node => tree_lines definition (tree_fuel limits) node 0); [done|].
  intros lines node. apply render_branch_tree_lines.
Qed.

(** The recursion returns by itself: more than [tree_fuel] nested calls are
    never made, so the fuel is no restriction. *)
Lemma tree_lines_fuel definition more fuel node depth :
  is_coherent limits = true -> 0 <= depth -> max_lineage_depth limits + 2 <= depth + Z.of_nat fuel ->
  tree_lines definition (more + fuel) node depth = tree_lines definition fuel node depth.
Proof.
  intros Hc. assert (Hmax : max_lineage_depth limits <= 1048576) by (unfold is_coherent in Hc; repeat case_match; simplify_eq; blia).
  revert node depth. induction fuel as [|fuel IH]; intros node depth Hd Hfuel.
  - rewrite Nat.add_0_r. destruct more; [done|]. cbn [tree_lines]. by destruct (Z.ltb_spec (max_lineage_depth limits) depth); [|lia].
  - rewrite Nat.add_succ_r. cbn [tree_lines]. destruct (Z.ltb_spec (max_lineage_depth limits) depth); [done|].
    destruct (branch_of definition node); [|done]. f_equal. apply flat_map_ext. intros child.
    rewrite u32_small by (unfold u32_modulus; lia). apply IH; lia.
Qed.

Lemma child_listed definition node branch :
  branch_of definition node = Some branch -> node ∈ children_of definition (branch_parent branch).
Proof.
  intros Hf. apply find_some in Hf as [Hin Hid%Z.eqb_eq]. apply stable_sort_elem, list_elem_of_fmap.
  exists branch. split; [done|]. apply list_elem_of_In, filter_In. split; [done|]. apply Z.eqb_refl.
Qed.

Lemma subtree_listed definition fuel parent node branch child depth :
  is_coherent limits = true -> 0 <= depth <= max_lineage_depth limits ->
  branch_of definition parent = Some branch -> branch_of definition node = Some child -> branch_parent child = parent ->
  tree_lines definition fuel node (depth + 1) ⊆ tree_lines definition (S fuel) parent depth.
Proof.
  intros Hc Hd Hp Hn Hpar line Hin. cbn [tree_lines]. destruct (Z.ltb_spec (max_lineage_depth limits) depth); [lia|]. rewrite Hp.
  assert (Hmax : max_lineage_depth limits <= 1048576) by (unfold is_coherent in Hc; repeat case_match; simplify_eq; blia).
  apply list_elem_of_further, list_elem_of_In, in_flat_map. exists node. rewrite u32_small by (unfold u32_modulus; lia).
  rewrite <- !list_elem_of_In. split; [|done]. subst parent. by apply child_listed.
Qed.

(** A branch whose ancestors end at a root is in the tree of that root, as deep
    as it has ancestors. *)
Lemma lineage_listed definition node ancestors fuel :
  is_coherent limits = true -> lineage_of (def_branches definition) node ancestors ->
  forall depth, length ancestors = S depth -> Z.of_nat depth <= max_lineage_depth limits ->
  exists root, root ∈ lineage_roots definition
    /\ tree_lines definition fuel node (Z.of_nat depth) ⊆ tree_lines definition (depth + fuel) root 0.
Proof.
  intros Hc Hl. revert fuel. induction Hl as [|node branch ancestors Hne Hf Hl IH]; intros fuel depth Hlen Hmax; [done|].
  injection Hlen as Hlen. destruct depth as [|depth].
  - destruct ancestors; [|done]. inversion Hl as [Hroot|]. exists node. split; [|done].
    apply stable_sort_elem, list_elem_of_fmap. pose proof Hf as [Hin Hid%Z.eqb_eq]%find_some.
    exists branch. split; [done|]. apply list_elem_of_In, filter_In. split; [done|]. unfold id_valid. by rewrite <- Hroot.
  - destruct (IH (S fuel) depth Hlen) as (root & Hroot & Hsub); [lia|]. exists root. split; [done|].
    rewrite Nat.add_succ_r in Hsub. change (S depth + fuel)%nat with (S (depth + fuel)). rewrite Nat2Z.inj_succ, <- Z.add_1_r.
    inversion Hl as [|parent parent_branch rest Hpne Hpf Hpl]; subst; [done|].
    etransitivity; [|exact Hsub]. eapply subtree_listed; [done|lia|exact Hpf|exact Hf|done].
Qed.

(** Every branch of a well-formed definition is a line of the report, unless the report is full. *)
Lemma lineage_reported snapshot record branch :
  is_coherent limits = true -> lineage_wf record -> xsnap_definition snapshot = rec_definition record ->
  size_of (def_branches (rec_definition record)) <= max_lineage_depth limits ->
  branch ∈ def_branches (rec_definition record) ->
  size_of (render_lineage limits snapshot) < max_explanation_lines limits ->
  exists depth, branch_line (Z.of_nat depth) branch ∈ render_lineage limits snapshot.
Proof.
  intros Hc [Hids Hnd _ _ Hanc] Hdef Hsize Hb Hroom. rewrite Forall_forall in Hanc.
  destruct (Hanc branch Hb) as (ancestors & Hl & _).
  assert (Hlen : (length ancestors <= length (map branch_id (def_branches (rec_definition record))))%nat).
  { apply NoDup_incl_length; [apply NoDup_ListNoDup; eapply lineage_acyclic; exact Hl|].
    clear -Hl. induction Hl as [|c b l _ Hf _ IH]; [intros ? []|]. intros x [<-|Hin]; [|by apply IH].
    apply find_some in Hf as [Hf Hid%Z.eqb_eq]. apply in_map_iff. exists b. split; [exact Hid|exact Hf]. }
  rewrite length_map in Hlen. unfold size_of in Hsize. destruct ancestors as [|c ancestors].
  { inversion Hl. rewrite Forall_forall in Hids. exfalso. by apply (Hids _ Hb). }
  exists (length ancestors). cbn [length] in Hlen.
  destruct (lineage_listed (rec_definition record) _ _ (tree_fuel limits - length ancestors) Hc Hl (length ancestors) eq_refl)
    as (root & Hroot & Hsub); [lia|].
  assert (0 <= max_explanation_lines limits) by (pose proof (size_of_nonneg (render_lineage limits snapshot)); lia).
  rewrite render_lineage_lines, Hdef in Hroom |- *. rewrite push_lines_take in Hroom |- * by (unfold size_of; simpl; lia).
  cbn [app] in Hroom |- *. rewrite take_ge by (unfold size_of in Hroom; rewrite length_take in Hroom; lia).
  apply list_elem_of_further, list_elem_of_In, in_flat_map. exists root. rewrite <- !list_elem_of_In.
  split; [apply elem_of_app; by left|]. unfold tree_fuel in *.
  replace (Z.to_nat (max_lineage_depth limits + 2)) with
    (length ancestors + (Z.to_nat (max_lineage_depth limits + 2) - length ancestors))%nat by lia.
  apply Hsub. destruct (_ - _)%nat as [|fuel] eqn:Hfuel; [lia|]. cbn [tree_lines].
  destruct (Z.ltb_spec (max_lineage_depth limits) (Z.of_nat (length ancestors))); [lia|].
  inversion Hl as [|? found ? _ Hf _]; subst. unfold branch_of. unfold find_branch_definition in Hf. rewrite Hf.
  apply find_some in Hf as [Hin%list_elem_of_In Hid%Z.eqb_eq].
  assert (found = branch) as -> by (by eapply NoDup_map_inj). left.
Qed.

End Bounds.
