(* ===== verification/Parameters.v ===== *)
(** * Parameter factories (model.hpp, model.cpp)

    The constructors callers use to build typed parameter assignments.  The
    text of a real is what [std::to_chars] prints, a field of [Formatting]. *)
From S2P Require Import Prelude Domain Identity Float64 Model Decision Inspect.
#[local] Open Scope Z_scope.

Definition make_text_parameter (key value : string) : ParameterAssignment :=
  default_ParameterAssignment <| param_key := key |> <| param_kind := ParameterKind.TEXT |> <| param_value := value |>.
(** [format_integer]. *)
Definition format_integer (value : Z) : string := signed_to_string value.
Definition make_integer_parameter (key : string) (value : Z) : ParameterAssignment :=
  default_ParameterAssignment <| param_key := key |> <| param_kind := ParameterKind.INTEGER |>
    <| param_value := format_integer value |>.
Definition make_real_parameter `{Formatting} (key : string) (value : double) : ParameterAssignment :=
  default_ParameterAssignment <| param_key := key |> <| param_kind := ParameterKind.REAL |>
    <| param_value := to_chars value |>.
Definition make_boolean_parameter (key : string) (value : bool) : ParameterAssignment :=
  default_ParameterAssignment <| param_key := key |> <| param_kind := ParameterKind.BOOLEAN |>
    <| param_value := if value then "true" else "false" |>.

Example integer_text : param_value (make_integer_parameter "batch" (-64)) = "-64"%string.
Proof. reflexivity. Qed.
