(* ===== verification/Query.v ===== *)
(** * Queries (coordinator_query.cpp)

    The read-only operations of the coordinator: the list of experiments, the
    snapshot of one, the reproducibility record of a branch, the live workers,
    and the textual queries a remote client sends.  Each is a function of the
    coordinator's state; where the code takes the shared lock twice in one
    query, both reads see the same state here. *)
From S2P Require Import Prelude OMap Error Domain Identity Float64 Model Hash Sorting Canonical State Validator Messages Spec Coordinator Evidence Decision Scenario StateCodec Invariants System Inspect.
From Stdlib Require Import Sorted.

Section Queries.
Context `{Storage} `{Formatting}.
Implicit Types impl : Impl.

Definition list_experiments (impl : Impl) : list Z := om_keys (st_experiments (impl_state impl)).

(** ** Snapshots *)

Definition no_experiment {A} : Result A := Err (make_error ErrorCode.NOT_FOUND ErrorStage.VALIDATION "experiment does not exist").

Definition snapshot_trial (record : ExperimentRecord) (entry : Z * TrialRecord) : TrialSnapshot :=
  mkTrialSnapshot entry.2
    (stable_sort (id_less attempt_id)
       (map snd (List.filter (fun attempt => attempt_trial attempt.2 =? entry.1) (rec_attempts record)))).

Definition snapshot_record (experiment : Z) (record : ExperimentRecord) (impl : Impl) : ExperimentSnapshot := {|
  xsnap_definition := rec_definition record;
  xsnap_hypothesis := rec_hypothesis record;
  xsnap_hypothesis_history := stable_sort (id_less hyp_revision) (rec_hypothesis_history record);
  xsnap_state := rec_state record;
  xsnap_producing_epoch := impl_epoch impl;
  xsnap_revision_sequence := rec_revision_sequence record;
  xsnap_trials := stable_sort (id_less (fun entry => trial_id (tsnap_trial entry))) (map (snapshot_trial record) (rec_trials record));
  xsnap_observations := stable_sort (id_less obs_id) (rec_observations record);
  xsnap_artifacts := stable_sort (id_less artifact_id) (rec_artifacts record);
  xsnap_decisions := stable_sort (id_less dec_id) (rec_decisions record);
  xsnap_rollback_points := stable_sort (id_less point_id) (rec_rollback_points record);
  xsnap_rejected_evidence := rec_rejected_evidence record;
  xsnap_lifecycle_log := rec_lifecycle_log record;
  xsnap_state_digest := experiment_digest to_chars (impl_state impl) experiment
|}.

(** [Coordinator::snapshot]. *)
Definition snapshot (experiment : Z) (impl : Impl) : Result ExperimentSnapshot :=
  match find_experiment experiment impl with
  | None => no_experiment
  | Some record => Ok (snapshot_record experiment record impl)
  end.

(** ** Reproducibility *)

(** The trials whose materials count: completed by one commit, in this generation. *)
Definition counted_trial (record : ExperimentRecord) (branch : Z) (trial : TrialRecord) : bool :=
  (trial_branch trial =? branch) && bool_decide (trial_state trial = TrialState.COMPLETED)
  && (trial_generation trial =? def_generation (rec_definition record)) && (trial_committed_attempts trial =? 1).

Definition producer_text (attempt : AttemptRecord) : string :=
  "producer:" +:+ id_to_string (attempt_producer attempt) +:+ " worker:" +:+ id_to_string (attempt_worker attempt)
  +:+ " boot:" +:+ id_to_string (attempt_boot attempt).

Definition has_value {A} (o : option A) : bool := match o with Some _ => true | None => false end.

(** The body of the loop over the trials. *)
Definition collect_trial (record : ExperimentRecord) (branch : Z) (result : ReproducibilityRecord) (entry : Z * TrialRecord) :
    ReproducibilityRecord :=
  let trial := entry.2 in
  if negb (counted_trial record branch trial) then result
  else
    let result := result <| repr_artifacts ::= fun l => l ++ trial_artifacts trial |> in
    let result :=
      match om_find (trial_authoritative_attempt trial) (rec_attempts record) with
      | Some attempt => result <| repr_producer_identity := producer_text attempt |>
      | None => result
      end in
    if negb (has_value (trial_seed trial)) && has_value (repr_seed result)
    then result <| repr_seed := trial_seed trial |> else result.

(** [std::unique] on a sorted vector. *)
Fixpoint unique (l : list string) : list string :=
  match l with
  | x :: ((y :: _) as rest) => if String.eqb x y then unique rest else x :: unique rest
  | _ => l
  end.

Definition missing_materials (record : ExperimentRecord) (branch : BranchDefinition) (result : ReproducibilityRecord) : list string :=
  let missing :=
    line_if (String.eqb (branch_environment_fingerprint branch) "") "environment-fingerprint"
    ++ line_if (negb (branch_input_set_present branch)) "input-set-identity"
    ++ line_if (negb (has_value (branch_seed branch)) && negb (has_value (def_experiment_seed (rec_definition record)))) "seed"
    ++ line_if (String.eqb (repr_producer_identity result) "") "producer-identity"
    ++ line_if (match repr_artifacts result with [] => true | _ => false end) "artifact-references"
    ++ line_if (String.eqb (repr_environment_fingerprint result) "") "executable-identity" in
  unique (stable_sort String.ltb missing).

Definition reproducibility_status (missing : list string) (seed : option Z) : ReproducibilityStatus :=
  match missing with
  | [] => ReproducibilityStatus.REPRODUCIBLE
  | _ =>
      if (size_of missing <=? 2) && has_value seed then ReproducibilityStatus.PARTIALLY_REPRODUCIBLE
      else if negb (has_value seed) && (3 <=? size_of missing) then ReproducibilityStatus.NOT_REPRODUCIBLE
      else ReproducibilityStatus.PARTIALLY_REPRODUCIBLE
  end.

(** The fields copied from the definition and the branch. *)
Definition initial_reproducibility (record : ExperimentRecord) (branch : BranchDefinition) : ReproducibilityRecord :=
  let definition := rec_definition record in
  default_ReproducibilityRecord
    <| repr_experiment := def_id definition |>
    <| repr_generation := def_generation definition |>
    <| repr_hypothesis := def_hypothesis definition |>
    <| repr_hypothesis_revision := def_hypothesis_revision definition |>
    <| repr_branch := branch_id branch |>
    <| repr_branch_generation := branch_generation branch |>
    <| repr_policy := policy_id (def_policy definition) |>
    <| repr_policy_generation := policy_generation (def_policy definition) |>
    <| repr_definition_digest := definition_digest to_chars definition |>
    <| repr_branch_definition_digest := branch_digest branch |>
    <| repr_policy_digest := policy_digest to_chars (def_policy definition) |>
    <| repr_input_set := branch_input_set branch |>
    <| repr_input_set_present := branch_input_set_present branch |>
    <| repr_environment := branch_environment branch |>
    <| repr_environment_present := branch_environment_present branch |>
    <| repr_environment_fingerprint := branch_environment_fingerprint branch |>
    <| repr_seed := branch_seed branch |>
    <| repr_parameters := branch_parameters branch |>.

Definition valid_of_branch (branch : Z) (observation : Observation) : bool :=
  (obs_branch observation =? branch) && bool_decide (obs_validity observation = ObservationValidity.VALID).

Definition reproducibility_of (record : ExperimentRecord) (branch : BranchDefinition) (key : Z) : ReproducibilityRecord :=
  let result := foldl (collect_trial record key) (initial_reproducibility record branch) (rec_trials record) in
  let result := result <| repr_artifacts ::= stable_sort Z.ltb |> in
  let result := foldl (fun result observation =>
                         if valid_of_branch key observation then result <| repr_observation_count ::= fun n => u32 (n + 1) |> else result)
                  result (rec_observations record) in
  let result := if String.eqb (def_provenance (rec_definition record)) "" then result
                else result <| repr_executable_identity := def_provenance (rec_definition record) |> in
  let result := if String.eqb (branch_environment_fingerprint branch) "" then result
                else result <| repr_environment_fingerprint := branch_environment_fingerprint branch |> in
  let missing := missing_materials record branch result in
  result <| repr_missing_materials := missing |> <| repr_status := reproducibility_status missing (repr_seed result) |>.

(** [Coordinator::reproducibility]. *)
Definition reproducibility (experiment branch : Z) (impl : Impl) : Result ReproducibilityRecord :=
  match find_experiment experiment impl with
  | None => no_experiment
  | Some record =>
      match find_branch record branch with
      | None => Err (make_error ErrorCode.NOT_FOUND ErrorStage.VALIDATION "branch does not exist")
      | Some definition => Ok (reproducibility_of record definition branch)
      end
  end.

(** ** Lines *)

Definition worker_order (lhs rhs : LiveWorker) : bool :=
  if negb (live_worker lhs =? live_worker rhs) then live_worker lhs <? live_worker rhs else live_boot lhs <? live_boot rhs.

Definition worker_line (worker : LiveWorker) : string :=
  "worker " +:+ id_to_string (live_worker worker) +:+ " boot " +:+ id_to_string (live_boot worker)
  +:+ " producer " +:+ id_to_string (live_producer worker) +:+ (if live_revoked worker then " REVOKED" else " LIVE")
  +:+ " active " +:+ unsigned_to_string (live_active_assignments worker)
  +:+ " total " +:+ unsigned_to_string (live_total_assignments worker)
  +:+ (if String.eqb (live_endpoint worker) "" then "" else " endpoint " +:+ live_endpoint worker).

(** [Coordinator::worker_lines]. *)
Definition worker_lines (impl : Impl) : list string :=
  ("epoch " +:+ id_to_string (impl_epoch impl))
    :: map worker_line (stable_sort worker_order (map snd (impl_live_workers impl))).

(** [Coordinator::state_digest_hex]. *)
Definition state_digest_hex (impl : Impl) : string :=
  to_hex (sha_digest_of (write_text "coordinator-state-v1" ++ le_u64 (st_last_sequence (impl_state impl))
    ++ flat_map (fun entry => experiment_digest to_chars (impl_state impl) entry.1) (st_experiments (impl_state impl)))).

Definition status_lines (impl : Impl) : list string :=
  ["experiment-fabric " +:+ version_string;
   "coordinator-epoch " +:+ id_to_string (impl_epoch impl);
   "sequence " +:+ unsigned_to_string (current_sequence impl);
   "admitting-work " +:+ bool_text (impl_admitting_work impl);
   "persistence-degraded " +:+ bool_text (impl_persistence_degraded impl);
   "experiments " +:+ size_text (st_experiments (impl_state impl));
   "worker-incarnations " +:+ size_text (st_workers (impl_state impl));
   "live-workers " +:+ size_text (impl_live_workers impl)].

Definition experiment_line (entry : Z * ExperimentRecord) : string :=
  let record := entry.2 in
  "experiment " +:+ id_to_string entry.1 +:+ " generation " +:+ id_to_string (def_generation (rec_definition record))
  +:+ " state " +:+ experiment_state_to_string (rec_state record)
  +:+ " branches " +:+ size_text (def_branches (rec_definition record))
  +:+ " trials " +:+ size_text (rec_trials record) +:+ " name " +:+ def_name (rec_definition record).

Definition validation_lines (impl : Impl) : list string :=
  let status := coordinator_validate_state impl in
  [if status_ok status then "validate-state OK" else "validate-state FAILED"]
  ++ line_if (negb (status_ok status)) (status_to_string status) ++ ["state-digest " +:+ state_digest_hex impl].

(** ** The arguments of a query *)

(** [argument.find(':')]: what precedes and what follows the first colon. *)
Fixpoint split_colon (text : string) : option (string * string) :=
  match text with
  | EmptyString => None
  | String c rest =>
      if Ascii.eqb c ":" then Some ("", rest)
      else match split_colon rest with Some (before, after) => Some (String c before, after) | None => None end
  end.

Definition bad_argument {A} (reason : string) : Result A :=
  Err (make_error ErrorCode.INVALID_ARGUMENT ErrorStage.VALIDATION reason).

(** The experiment and the branch, which is null when it is not given. *)
Definition parse_argument (argument : string) : Result (Z * Z) :=
  let '(experiment_text, branch_text) :=
    match split_colon argument with Some parts => parts | None => (argument, "") end in
  if str_empty experiment_text then bad_argument "a query of this kind requires an experiment identity argument"
  else
    match id_parse experiment_text with
    | None => bad_argument "experiment identity argument is not canonical decimal text"
    | Some experiment =>
        if str_empty branch_text then Ok (experiment, 0)
        else
          match id_parse branch_text with
          | None => bad_argument "branch identity argument is not canonical decimal text"
          | Some branch => Ok (experiment, branch)
          end
    end.

Definition unsupported_query {A} : Result A := Err (make_error ErrorCode.UNSUPPORTED ErrorStage.VALIDATION "query kind is not supported").

(** The queries that render a snapshot. *)
Definition query_snapshot (kind : QueryKind) (experiment branch : Z) (value : ExperimentSnapshot) (impl : Impl) : Result (list string) :=
  let limits := impl_limits impl in
  match kind with
  | QueryKind.EXPERIMENT_SNAPSHOT => Ok (render_snapshot limits value)
  | QueryKind.HYPOTHESIS => Ok (render_hypothesis limits value)
  | QueryKind.BRANCH_LINEAGE => Ok (render_lineage limits value)
  | QueryKind.TRIALS => Ok (render_trials limits value)
  | QueryKind.OBSERVATIONS => Ok (render_observations limits value)
  | QueryKind.REJECTED_EVIDENCE => Ok (render_rejected_evidence limits value)
  | QueryKind.ARTIFACTS => Ok (render_artifacts limits value)
  | QueryKind.REPRODUCIBILITY =>
      if negb (id_valid branch) then bad_argument "reproducibility requires the canonical experiment:branch form"
      else
        match reproducibility experiment branch impl with
        | Err s => Err s
        | Ok record => Ok (render_reproducibility limits record)
        end
  | _ => unsupported_query
  end.

(** [Coordinator::query_lines]. *)
Definition query_lines (kind : QueryKind) (argument : string) (impl : Impl) : Result (list string) :=
  match kind with
  | QueryKind.STATUS => Ok (status_lines impl)
  | QueryKind.LIST_EXPERIMENTS => Ok (map experiment_line (st_experiments (impl_state impl)))
  | QueryKind.WORKERS => Ok (worker_lines impl)
  | QueryKind.VALIDATE_STATE => Ok (validation_lines impl)
  | _ =>
      match parse_argument argument with
      | Err s => Err s
      | Ok (experiment, branch) =>
          match kind with
          | QueryKind.EXPLAIN_DECISION =>
              if negb (id_valid branch) then bad_argument "explain-decision requires the canonical experiment:branch form"
              else
                match evaluate experiment branch impl with
                | Err s => Err s
                | Ok decision => Ok (render_decision (impl_limits impl) decision)
                end
          | _ =>
              match snapshot experiment impl with
              | Err s => Err s
              | Ok value => query_snapshot kind experiment branch value impl
              end
          end
      end
  end.

(** [Coordinator::explain]. *)
Definition explain (experiment candidate : Z) (impl : Impl) : Result string :=
  match evaluate experiment candidate impl with
  | Err s => Err s
  | Ok decision =>
      Ok (foldl (fun text line => text +:+ line +:+ String "010" "") "" (render_decision (impl_limits impl) decision))
  end.

End Queries.

(** ** Arguments, read back *)

(** A text with a colon is no identity. *)
Lemma parse_loop_no_colon text value v : parse_loop text value = Some v -> split_colon text = None.
Proof.
  revert value. induction text as [|c text IH]; intros value; [done|]. cbn [parse_loop split_colon].
  destruct (_ || _) eqn:Hrange; [done|]. destruct (_ <? value); [done|]. intros Hp.
  destruct (Ascii.eqb_spec c ":") as [->|_]; [by vm_compute in Hrange|]. by rewrite (IH _ Hp).
Qed.

Lemma id_no_colon v : 0 <= v <= u64_max -> split_colon (id_to_string v) = None.
Proof.
  intros Hv. pose proof (id_parse_print v Hv) as Hp. unfold id_parse in Hp. repeat case_match; try done.
  by eapply parse_loop_no_colon.
Qed.

Lemma split_colon_app before after : split_colon before = None -> split_colon (before +:+ ":" +:+ after) = Some (before, after).
Proof.
  induction before as [|c before IH]; [done|]. rewrite string_app_cons. cbn [split_colon].
  destruct (Ascii.eqb c ":"); [done|]. destruct (split_colon before) as [[]|]; [done|]. intros _. by rewrite IH.
Qed.

Lemma id_to_string_nonempty v : 0 <= v <= u64_max -> str_empty (id_to_string v) = false.
Proof. intros Hv. pose proof (id_parse_print v Hv) as Hp. by destruct (id_to_string v). Qed.

(** The argument of a query names an experiment, or an experiment and a branch. *)
Lemma parse_argument_experiment v : 0 <= v <= u64_max -> parse_argument (id_to_string v) = Ok (v, 0).
Proof.
  intros Hv. unfold parse_argument. rewrite id_no_colon by done.
  by rewrite id_to_string_nonempty, id_parse_print.
Qed.
Lemma parse_argument_branch v w :
  0 <= v <= u64_max -> 0 <= w <= u64_max -> parse_argument (id_to_string v +:+ ":" +:+ id_to_string w) = Ok (v, w).
Proof.
  intros Hv Hw. unfold parse_argument. rewrite split_colon_app by (by apply id_no_colon).
  by rewrite !id_to_string_nonempty, !id_parse_print.
Qed.

(** ** Sorting what is in order *)

Lemma id_less_asym {A} (id : A -> Z) x y : id_less id x y = true -> id_less id y x = false.
Proof. unfold id_less. lia. Qed.

Lemma stable_sort_by_id {A} (id : A -> Z) l : StronglySorted (fun x y => id x < id y) l -> stable_sort (id_less id) l = l.
Proof.
  induction 1 as [|x l Hl IH Hx]; [done|]. cbn [stable_sort fold_right]. fold (stable_sort (id_less id) l). rewrite IH.
  destruct l as [|y l]; [done|]. cbn [sort_insert]. apply Forall_cons_1 in Hx as [Hx _]. unfold id_less.
  by destruct (Z.ltb_spec (id y) (id x)); [lia|].
Qed.

(** The values of a table, or of some of its entries, are in the order of their identities. *)
Lemma keyed_values {A} (key : A -> Z) (f : Z * A -> bool) (table : list (Z * A)) :
  keyed key table -> StronglySorted (fun x y => key x < key y) (map snd (List.filter f table)).
Proof.
  intros [Hs Hk]. induction table as [|[k v] table IH]; [constructor|]. simpl in Hs. destruct Hs as [Hlt Hs].
  apply Forall_cons in Hk as [Hkv Hk]. cbn [List.filter]. destruct (f (k, v)); [|by apply IH]. cbn. constructor; [by apply IH|].
  apply Forall_forall. intros y (e & -> & Hin)%list_elem_of_fmap. apply list_elem_of_In, filter_In in Hin as [Hin%list_elem_of_In _].
  rewrite Forall_forall in Hlt, Hk. specialize (Hlt _ Hin). specialize (Hk _ Hin). cbn in *. lia.
Qed.

Lemma filter_true {A} (l : list A) : List.filter (fun _ => true) l = l.
Proof. induction l; cbn; congruence. Qed.

(** ** What a snapshot shows *)

Section Views.
Context `{StorageLaws} `{Formatting}.
Implicit Types impl : Impl.

Definition sorted_by {A} (id : A -> Z) (view stored : list A) : Prop := view ≡ₚ stored /\ in_order (id_less id) view.

Lemma stable_sort_sorted_by {A} (id : A -> Z) l : sorted_by id (stable_sort (id_less id) l) l.
Proof. split; [apply stable_sort_perm|]. apply stable_sort_in_order, id_less_asym. Qed.

(** C30: a snapshot of an experiment of a running coordinator shows the record
    completely: every trial once, in the order of their identities and with
    exactly its attempts; and the observations, artifacts, decisions, rollback
    points and earlier hypotheses, none dropped, added or repeated, each list
    sorted by identity (the hypotheses by revision). *)
Theorem snapshot_complete impl experiment record :
  reachable (Up impl) -> find_experiment experiment impl = Some record ->
  exists view, snapshot experiment impl = Ok view
    /\ xsnap_definition view = rec_definition record /\ xsnap_state view = rec_state record
    /\ map tsnap_trial (xsnap_trials view) = map snd (rec_trials record)
    /\ (forall entry, entry ∈ xsnap_trials view ->
          tsnap_attempts entry =
            map snd (List.filter (fun attempt => attempt_trial attempt.2 =? trial_id (tsnap_trial entry)) (rec_attempts record)))
    /\ sorted_by obs_id (xsnap_observations view) (rec_observations record)
    /\ sorted_by artifact_id (xsnap_artifacts view) (rec_artifacts record)
    /\ sorted_by dec_id (xsnap_decisions view) (rec_decisions record)
    /\ sorted_by point_id (xsnap_rollback_points view) (rec_rollback_points record)
    /\ sorted_by hyp_revision (xsnap_hypothesis_history view) (rec_hypothesis_history record).
Proof.
  intros Hr Hf. pose proof (reachable_inv (Up impl) Hr) as Hi. cbn in Hi.
  assert (Hkeyed : record_keyed record).
  { destruct (state_inv_keyed _ (inv_state _ Hi)) as [_ Hk]. rewrite Forall_forall in Hk.
    apply (Hk (experiment, record)). by apply om_find_elem. }
  destruct Hkeyed as [Ht Ha].
  assert (Htrials : stable_sort (id_less (fun entry => trial_id (tsnap_trial entry))) (map (snapshot_trial record) (rec_trials record))
                    = map (snapshot_trial record) (rec_trials record)).
  { apply stable_sort_by_id. pose proof (keyed_values trial_id (fun _ => true) _ Ht) as Hs. rewrite filter_true in Hs.
    clear -Hs. induction (rec_trials record) as [|t l IH]; [constructor|]. cbn in *. apply StronglySorted_inv in Hs as [Hs Hx].
    constructor; [by apply IH|]. apply Forall_forall. intros y (e & -> & Hin)%list_elem_of_fmap.
    rewrite Forall_forall in Hx. apply Hx, list_elem_of_fmap. by exists e. }
  unfold snapshot. rewrite Hf. eexists. split; [done|]. split_and!; try apply stable_sort_sorted_by; try done; cbn; rewrite Htrials.
  - rewrite map_map. by apply map_ext.
  - intros entry (e & -> & Hin)%list_elem_of_fmap. cbn. rewrite stable_sort_by_id; [|by apply keyed_values].
    destruct Ht as [_ Ht]. rewrite Forall_forall in Ht. by rewrite <- (Ht e Hin).
Qed.

(** ** Reproducibility *)

Lemma unique_nil l : unique l = [] <-> l = [].
Proof.
  split; [|by intros ->]. induction l as [|x l IH]; [done|]. destruct l as [|y l]; [done|]. cbn. destruct (String.eqb x y); [|done].
  intros Hu. by specialize (IH Hu).
Qed.

Lemma missing_nil l : unique (stable_sort String.ltb l) = [] <-> l = [].
Proof.
  rewrite unique_nil. split; [|by intros ->]. intros Hs. apply Permutation_nil. rewrite <- Hs. apply stable_sort_perm.
Qed.

Lemma line_if_nil b line rest : line_if b line ++ rest = [] <-> b = false /\ rest = [].
Proof. destruct b; cbn; naive_solver. Qed.

Lemma status_reproducible missing seed :
  reproducibility_status missing seed = ReproducibilityStatus.REPRODUCIBLE <-> missing = [].
Proof. unfold reproducibility_status. destruct missing; [done|]. split; [|done]. by repeat case_match. Qed.

(** Some trial of the branch counts, and [P] holds of it. *)
Definition some_counted (record : ExperimentRecord) (branch : Z) (P : TrialRecord -> bool) (trials : list (Z * TrialRecord)) : bool :=
  existsb (fun entry => counted_trial record branch entry.2 && P entry.2) trials.

Definition has_producer (record : ExperimentRecord) (trial : TrialRecord) : bool :=
  has_value (om_find (trial_authoritative_attempt trial) (rec_attempts record)).
Definition has_artifacts (trial : TrialRecord) : bool := match trial_artifacts trial with [] => false | _ => true end.
Definition has_no_seed (trial : TrialRecord) : bool := negb (has_value (trial_seed trial)).

Definition is_nil {A} (l : list A) : bool := match l with [] => true | _ => false end.

(** What the loop over the trials leaves: a producer if it found one, artifacts
    if there are any, and the seed unless it was dropped. *)
Record collected (record : ExperimentRecord) (branch : Z) (trials : list (Z * TrialRecord)) (result result' : ReproducibilityRecord) : Prop := {
  col_producer : String.eqb (repr_producer_identity result') "" =
    String.eqb (repr_producer_identity result) "" && negb (some_counted record branch (has_producer record) trials);
  col_artifacts : is_nil (repr_artifacts result') =
    is_nil (repr_artifacts result) && negb (some_counted record branch has_artifacts trials);
  col_seed : repr_seed result' = if some_counted record branch has_no_seed trials then None else repr_seed result;
  col_rest : repr_environment_fingerprint result' = repr_environment_fingerprint result
}.

Lemma collect_one record branch entry result : collected record branch [entry] result (collect_trial record branch result entry).
Proof.
  unfold collect_trial. destruct (counted_trial record branch entry.2) eqn:Hc; cbn [negb].
  2: { constructor; unfold some_counted; cbn; rewrite ?Hc; cbn; by rewrite ?andb_true_r. }
  set (found := om_find _ _). constructor; unfold some_counted; cbn; rewrite ?Hc, ?orb_false_r; cbn.
  - unfold has_producer. fold found. by destruct found, (_ && _); cbn; rewrite ?andb_false_r, ?andb_true_r.
  - unfold has_artifacts. destruct found, (negb (has_value (trial_seed entry.2)) && _); cbn;
      destruct (repr_artifacts result), (trial_artifacts entry.2); done.
  - unfold has_no_seed. destruct found; cbn; destruct (trial_seed entry.2), (repr_seed result) eqn:Hs; cbn; done.
  - by destruct found, (negb (has_value (trial_seed entry.2)) && _).
Qed.

Lemma collect_all record branch trials result : collected record branch trials result (foldl (collect_trial record branch) result trials).
Proof.
  revert result. induction trials as [|entry trials IH]; intros result.
  { constructor; cbn; by rewrite ?andb_true_r. }
  cbn [foldl]. destruct (IH (collect_trial record branch result entry)) as [Hp Ha Hs Hf], (collect_one record branch entry result) as [Hp' Ha' Hs' Hf'].
  assert (Hcons : forall P, some_counted record branch P (entry :: trials) = some_counted record branch P [entry] || some_counted record branch P trials).
  { intros P. unfold some_counted. cbn [existsb]. by rewrite orb_false_r. }
  constructor; rewrite ?Hcons.
  - by rewrite Hp, Hp', negb_orb, andb_assoc.
  - by rewrite Ha, Ha', negb_orb, andb_assoc.
  - rewrite Hs, Hs'. by destruct (some_counted record branch has_no_seed [entry]), (some_counted record branch has_no_seed trials).
  - by rewrite Hf.
Qed.

Lemma count_observations (f : Observation -> bool) observations (result : ReproducibilityRecord) :
  exists n, foldl (fun result observation => if f observation then result <| repr_observation_count ::= fun n => u32 (n + 1) |> else result)
              result observations = result <| repr_observation_count := n |>.
Proof.
  revert result. induction observations as [|o observations IH]; intros result; [exists (repr_observation_count result); by destruct result|].
  cbn [foldl]. destruct (f o); [|apply IH]. destruct (IH (result <| repr_observation_count ::= fun n => u32 (n + 1) |>)) as [n ->].
  by exists n.
Qed.

(** The record after the two loops. *)
Lemma reproducibility_of_spec record branch key :
  let result := reproducibility_of record branch key in
  let counted P := some_counted record key P (rec_trials record) in
  repr_seed result = (if counted has_no_seed then None else branch_seed branch)
  /\ (repr_status result = ReproducibilityStatus.REPRODUCIBLE <->
      branch_environment_fingerprint branch <> "" /\ branch_input_set_present branch = true
      /\ (branch_seed branch <> None \/ def_experiment_seed (rec_definition record) <> None)
      /\ counted (has_producer record) = true /\ counted has_artifacts = true).
Proof.
  cbv zeta. unfold reproducibility_of. destruct (collect_all record key (rec_trials record) (initial_reproducibility record branch)) as [Hp Ha Hs Hf].
  revert Hp Ha Hs Hf. set (col := foldl (collect_trial record key) _ _). clearbody col.
  cbn [initial_reproducibility]. intros Hp Ha Hs Hf.
  destruct (count_observations (valid_of_branch key) (rec_observations record) (col <| repr_artifacts ::= stable_sort Z.ltb |>)) as [n ->].
  assert (Hsort : is_nil (stable_sort Z.ltb (repr_artifacts col)) = is_nil (repr_artifacts col)).
  { pose proof (stable_sort_length Z.ltb (repr_artifacts col)) as Hlen. by destruct (stable_sort _ _), (repr_artifacts col). }
  assert (Hfields : forall (b1 b2 : bool) (s1 s2 : string), let r := (col <| repr_artifacts ::= stable_sort Z.ltb |>) <| repr_observation_count := n |> in
    let r := if b1 then r else r <| repr_executable_identity := s1 |> in
    let r := if b2 then r else r <| repr_environment_fingerprint := s2 |> in
    repr_seed r = repr_seed col /\ repr_producer_identity r = repr_producer_identity col
    /\ is_nil (repr_artifacts r) = is_nil (repr_artifacts col)
    /\ repr_environment_fingerprint r = (if b2 then repr_environment_fingerprint col else s2)).
  { intros [] [] s1 s2; cbn; auto. }
  specialize (Hfields (String.eqb (def_provenance (rec_definition record)) "") (String.eqb (branch_environment_fingerprint branch) "")
    (def_provenance (rec_definition record)) (branch_environment_fingerprint branch)). cbv zeta in Hfields |- *.
  set (r := if String.eqb (branch_environment_fingerprint branch) "" then _ else _) in *. clearbody r.
  destruct Hfields as (Hrs & Hrp & Hra & Hrf). cbn. rewrite Hrs. split; [exact Hs|].
  rewrite status_reproducible. unfold missing_materials. rewrite missing_nil, !line_if_nil, <- (app_nil_r (line_if _ "executable-identity")), line_if_nil.
  fold (is_nil (repr_artifacts r)). rewrite Hra, Ha, Hrp, Hp, Hrf. cbn.
  destruct (String.eqb_spec (branch_environment_fingerprint branch) "") as [He|He]; cbn.
  - split; [by intros [? _]|by intros [? _]].
  - rewrite !negb_false_iff. apply String.eqb_neq in He as Heq. rewrite Heq.
    destruct (branch_seed branch), (def_experiment_seed (rec_definition record)); cbn; intuition congruence.
Qed.

(** C31: the reproducibility record of a branch.  It is called reproducible
    exactly when the branch has an environment fingerprint and an input set,
    the branch or the experiment has a seed, and the completed trials of the
    current generation include one whose committed attempt is on record and
    one with artifacts.  The seed it names is the branch's own, never a
    trial's, and it is dropped as soon as one such trial ran without a seed,
    even when the record is called reproducible. *)
Theorem reproducibility_spec impl experiment branch_key record branch :
  find_experiment experiment impl = Some record -> find_branch record branch_key = Some branch ->
  exists result, reproducibility experiment branch_key impl = Ok result
    /\ repr_seed result = (if some_counted record branch_key has_no_seed (rec_trials record) then None else branch_seed branch)
    /\ (repr_status result = ReproducibilityStatus.REPRODUCIBLE <->
        branch_environment_fingerprint branch <> "" /\ branch_input_set_present branch = true
        /\ (branch_seed branch <> None \/ def_experiment_seed (rec_definition record) <> None)
        /\ some_counted record branch_key (has_producer record) (rec_trials record) = true
        /\ some_counted record branch_key has_artifacts (rec_trials record) = true).
Proof.
  intros He Hb. unfold reproducibility. rewrite He, Hb. eexists. split; [done|]. apply reproducibility_of_spec.
Qed.

(** ** Queries on the wire *)

(** The lineage query on an experiment whose record the validator accepts
    answers with a report in which every branch of the experiment has its line,
    unless the report has reached the configured number of lines; the tree is
    never cut by its depth limit as long as that limit is at least the bound on
    the number of branches. *)
Theorem lineage_query_complete impl experiment record branch :
  0 <= experiment <= u64_max -> find_experiment experiment impl = Some record ->
  is_coherent (impl_limits impl) = true ->
  max_branches_per_experiment (impl_limits impl) <= max_lineage_depth (impl_limits impl) ->
  status_ok (validate_record record (impl_limits impl) experiment) = true ->
  branch ∈ def_branches (rec_definition record) ->
  exists lines, query_lines QueryKind.BRANCH_LINEAGE (id_to_string experiment) impl = Ok lines
    /\ (max_explanation_lines (impl_limits impl) <= size_of lines
        \/ exists depth, branch_line (Z.of_nat depth) branch ∈ lines).
Proof.
  intros He Hf Hc Hdepth Hv Hb. apply validate_record_wf in Hv. unfold query_lines. rewrite parse_argument_experiment by done.
  unfold snapshot. rewrite Hf. eexists. split; [done|].
  match goal with |- context [render_lineage ?limits ?view] =>
    destruct (Z.le_gt_cases (max_explanation_lines limits) (size_of (render_lineage limits view))) as [|Hroom]; [by left|right] end.
  eapply lineage_reported; [exact Hc|apply (wf_lineage _ _ _ Hv)|done| |exact Hb|exact Hroom].
  destruct (wf_branch_count _ _ _ Hv). lia.
Qed.

End Views.

(** ** At a concrete state *)

Lemma snapshot_complete_witness :
  exists view, snapshot 1 Run.s6 = Ok view /\ map tsnap_trial (xsnap_trials view) = map snd (rec_trials (Run.record_at Run.s6)).
Proof.
  assert (Hf : find_experiment 1 Run.s6 = Some (Run.record_at Run.s6)) by by_evaluation.
  destruct (snapshot_complete Run.s6 1 (Run.record_at Run.s6) Reach.s6 Hf) as (view & Hv & _ & _ & Ht & _).
  exists view. split; [exact Hv|exact Ht].
Defined.

Definition sample_branch : BranchDefinition := Eval vm_compute in
  default default_BranchDefinition (find_branch (Run.record_at Run.s6) 1).

(** Both trials of the run completed without artifacts: not reproducible. *)
Lemma reproducibility_spec_witness :
  exists result, reproducibility 1 1 Run.s6 = Ok result
    /\ some_counted (Run.record_at Run.s6) 1 has_artifacts (rec_trials (Run.record_at Run.s6)) = false
    /\ repr_status result <> ReproducibilityStatus.REPRODUCIBLE.
Proof.
  assert (Hf : find_experiment 1 Run.s6 = Some (Run.record_at Run.s6)) by by_evaluation.
  assert (Hb : find_branch (Run.record_at Run.s6) 1 = Some sample_branch) by by_evaluation.
  assert (Ha : some_counted (Run.record_at Run.s6) 1 has_artifacts (rec_trials (Run.record_at Run.s6)) = false) by by_evaluation.
  destruct (reproducibility_spec Run.s6 1 1 (Run.record_at Run.s6) sample_branch Hf Hb) as (result & Hr & _ & Hs).
  exists result. split; [exact Hr|]. split; [exact Ha|]. intros Hrep. apply Hs in Hrep as (_ & _ & _ & _ & Hart).
  rewrite Ha in Hart. discriminate Hart.
Defined.

Lemma lineage_query_complete_witness :
  exists lines, query_lines QueryKind.BRANCH_LINEAGE (id_to_string 1) Run.s6 = Ok lines
    /\ (max_explanation_lines (impl_limits Run.s6) <= size_of lines
        \/ exists depth, branch_line (Z.of_nat depth) sample_branch ∈ lines).
Proof.
  assert (Hf : find_experiment 1 Run.s6 = Some (Run.record_at Run.s6)) by by_evaluation.
  assert (Hv : status_ok (validate_record (Run.record_at Run.s6) (impl_limits Run.s6) 1) = true) by by_evaluation.
  assert (Hb : hd_error (def_branches (rec_definition (Run.record_at Run.s6))) = Some sample_branch) by by_evaluation.
  apply (lineage_query_complete Run.s6 1 (Run.record_at Run.s6) sample_branch);
    [split; vm_compute; discriminate|exact Hf|vm_compute; reflexivity|vm_compute; discriminate|exact Hv|].
  destruct (def_branches (rec_definition (Run.record_at Run.s6))); [discriminate Hb|]. injection Hb as ->. left.
Defined.
