(* ===== verification/Transport.v ===== *)
(** * Connections (transport.cpp)

    One end of a TCP connection.  What the operating system does with it is a
    script: how the peer's bytes arrive, in which pieces, and how much of each
    [send] is accepted.  [receive_exact] and [send_all] are the loops that make
    whole messages out of the pieces; [receive_frame] checks a frame's header
    before it asks for the payload.  However the stream is cut up, the frame
    received is the one [decode_frame] finds at its head. *)
From S2P Require Import Prelude Error Model Hash Wire Frames.

(** What one call of [recv] finds: bytes, nothing yet, or an error.  After the
    last of them the peer has closed the channel. *)
Inductive Arrival := Bytes (data : list Z) | ReceiveBlocked | ReceiveFailed.

(** What one call of [send] does: it accepts some bytes, at least one, blocks,
    or fails.  After the last of them it accepts everything. *)
Inductive Departure := Accepted (more : nat) | SendBlocked | SendFailed.

Record Connection := mkConnection {
  conn_open : bool;
  conn_arrivals : list Arrival;
  conn_departures : list Departure;
  conn_sent : list Z
}.
#[export] Instance etaConnection : Eta Connection := fun r =>
  mkConnection (conn_open r) (conn_arrivals r) (conn_departures r) (conn_sent r).

Definition transport_error (code : ErrorCode) (reason : string) : Status := make_error code ErrorStage.TRANSPORT reason.

(** [TcpConnection::close]. *)
Definition close (connection : Connection) : Connection := connection <| conn_open := false |>.

(** ** Receiving *)

(** Bytes that were not asked for stay in the channel. *)
Definition put_back (data : list Z) (arrivals : list Arrival) : list Arrival :=
  match data with [] => arrivals | _ => Bytes data :: arrivals end.

(** The loop of [receive_exact]: [buffer] has been received, [remaining] bytes
    are asked for. *)
Fixpoint receive_loop (buffer : list Z) (remaining : nat) (arrivals : list Arrival) : list Arrival * Result (list Z) :=
  match remaining with
  | O => (arrivals, Ok buffer)
  | _ =>
      match arrivals with
      | [] =>
          ([], Err (match buffer with
                    | [] => transport_error ErrorCode.NOT_FOUND "peer closed the connection"
                    | _ => transport_error ErrorCode.PROTOCOL_ERROR "connection closed mid-frame"
                    end))
      | ReceiveBlocked :: arrivals => receive_loop buffer remaining arrivals
      | ReceiveFailed :: arrivals => (arrivals, Err (transport_error ErrorCode.TRANSPORT_FAILURE "receive failed"))
      | Bytes data :: arrivals =>
          if (length data <? remaining)%nat then receive_loop (buffer ++ data) (remaining - length data) arrivals
          else (put_back (drop remaining data) arrivals, Ok (buffer ++ take remaining data))
      end
  end.

Definition receive_exact (count : Z) (connection : Connection) : Connection * Result (list Z) :=
  if negb (conn_open connection) then
    (connection, Err (transport_error ErrorCode.NOT_FOUND "cannot receive on a closed connection"))
  else
    let '(arrivals, result) := receive_loop [] (Z.to_nat count) (conn_arrivals connection) in
    (connection <| conn_arrivals := arrivals |>, result).

Definition receive_frame (limits : Limits) (connection : Connection) : Connection * Result Frame :=
  let '(connection, header) := receive_exact kFrameHeaderBytes connection in
  match header with
  | Err s => (connection, Err s)
  | Ok header =>
      match parse_frame_header header limits with
      | Err s => (connection, Err s)
      | Ok info =>
          let mismatch := transport_error ErrorCode.PROTOCOL_ERROR "frame payload checksum mismatch" in
          let frame := mkFrame (info_version info) (info_type info) (info_correlation info) [] in
          if negb (info_payload_length info =? 0) then
            let '(connection, payload) := receive_exact (info_payload_length info) connection in
            match payload with
            | Err s => (connection, Err s)
            | Ok payload =>
                if negb (crc32 payload =? info_payload_crc info) then (connection, Err mismatch)
                else (connection, Ok (frame <| frame_payload := payload |>))
            end
          else if negb (info_payload_crc info =? crc32 []) then (connection, Err mismatch)
          else (connection, Ok frame)
      end
  end.

(** ** Sending *)

(** The loop of [send_all]: the bytes sent, and whether all were. *)
Fixpoint send_loop (remaining : list Z) (departures : list Departure) (sent : list Z) : list Departure * list Z * Status :=
  match remaining with
  | [] => (departures, sent, success)
  | _ =>
      match departures with
      | [] => ([], sent ++ remaining, success)
      | SendBlocked :: departures => send_loop remaining departures sent
      | SendFailed :: departures => (departures, sent, transport_error ErrorCode.TRANSPORT_FAILURE "send failed")
      | Accepted more :: departures => send_loop (drop (S more) remaining) departures (sent ++ take (S more) remaining)
      end
  end.

Definition send_all (bytes : list Z) (connection : Connection) : Connection * Status :=
  if negb (conn_open connection) then
    (connection, transport_error ErrorCode.NOT_FOUND "cannot send on a closed connection")
  else
    let '(departures, sent, status) := send_loop bytes (conn_departures connection) (conn_sent connection) in
    (connection <| conn_departures := departures |> <| conn_sent := sent |>, status).

Definition send_frame (frame : Frame) (limits : Limits) (connection : Connection) : Connection * Status :=
  match encode_frame frame limits with
  | Err s => (connection, s)
  | Ok bytes => send_all bytes connection
  end.

(** ** The stream *)

Definition bytes_of (arrival : Arrival) : list Z := match arrival with Bytes data => data | _ => [] end.
(** Everything the peer sends, in order. *)
Definition stream (arrivals : list Arrival) : list Z := flat_map bytes_of arrivals.
Definition intact (arrivals : list Arrival) : Prop := ReceiveFailed ∉ arrivals.

Lemma put_back_stream data arrivals : stream (put_back data arrivals) = data ++ stream arrivals.
Proof. by destruct data. Qed.
Lemma put_back_intact data arrivals : intact arrivals -> intact (put_back data arrivals).
Proof. unfold intact. destruct data; [done|]. cbn. set_solver. Qed.

(** The loop takes the next bytes of the stream, or all there are. *)
Lemma receive_loop_spec buffer remaining arrivals :
  intact arrivals ->
  let '(arrivals', result) := receive_loop buffer remaining arrivals in
  intact arrivals' /\
  if (remaining <=? length (stream arrivals))%nat
  then result = Ok (buffer ++ take remaining (stream arrivals)) /\ stream arrivals' = drop remaining (stream arrivals)
  else exists s, result = Err s.
Proof.
  revert buffer remaining. induction arrivals as [|arrival arrivals IH]; intros buffer remaining Hin.
  - destruct remaining; cbn; [split; [done|]; by rewrite app_nil_r|]. split; [done|by eexists].
  - assert (Hi : intact arrivals) by (unfold intact in *; set_solver).
    destruct remaining as [|remaining]; [cbn; split; [done|by rewrite app_nil_r]|].
    destruct arrival as [data| |]; cbn [receive_loop stream flat_map bytes_of app].
    + fold (stream arrivals). destruct (Nat.ltb_spec (length data) (S remaining)) as [Hlt|Hge].
      * specialize (IH (buffer ++ data) (S remaining - length data)%nat Hi). destruct (receive_loop _ _ arrivals) as [arrivals' result].
        destruct IH as [Hi' IH]. split; [done|]. rewrite length_app.
        destruct (Nat.leb_spec (S remaining) (length data + length (stream arrivals)));
          destruct (Nat.leb_spec (S remaining - length data) (length (stream arrivals))); try lia; [|done].
        destruct IH as [-> ->]. rewrite take_app_ge, drop_app_ge, app_assoc by lia. done.
      * split; [by apply put_back_intact|]. rewrite length_app.
        destruct (Nat.leb_spec (S remaining) (length data + length (stream arrivals))); [|lia].
        by rewrite put_back_stream, take_app_le, drop_app_le by lia.
    + apply (IH buffer (S remaining) Hi).
    + exfalso. apply Hin. left.
Qed.

Lemma receive_exact_spec count connection :
  conn_open connection = true -> intact (conn_arrivals connection) -> 0 <= count ->
  let '(connection', result) := receive_exact count connection in
  conn_open connection' = true /\ conn_sent connection' = conn_sent connection
  /\ conn_departures connection' = conn_departures connection /\ intact (conn_arrivals connection')
  /\ if count <=? size_of (stream (conn_arrivals connection))
     then result = Ok (take (Z.to_nat count) (stream (conn_arrivals connection)))
          /\ stream (conn_arrivals connection') = drop (Z.to_nat count) (stream (conn_arrivals connection))
     else exists s, result = Err s.
Proof.
  intros Ho Hi Hc. unfold receive_exact. rewrite Ho. cbn [negb].
  pose proof (receive_loop_spec [] (Z.to_nat count) (conn_arrivals connection) Hi) as Hs.
  destruct (receive_loop _ _ _) as [arrivals result]. destruct Hs as [Hi' Hs]. cbn. split_and!; try done.
  unfold size_of. destruct (Nat.leb_spec (Z.to_nat count) (length (stream (conn_arrivals connection))));
    destruct (Z.leb_spec count (Z.of_nat (length (stream (conn_arrivals connection))))); try lia; done.
Qed.

Lemma parse_header_length header limits info :
  parse_frame_header header limits = Ok info -> Forall is_byte header -> 0 <= info_payload_length info.
Proof.
  unfold parse_frame_header, size_of, kFrameHeaderBytes. intros Hp Hb.
  destruct (Z.eqb_spec (Z.of_nat (length header)) 32) as [Hl|]; [|done].
  repeat case_match; simplify_eq/=. apply (field_range 4 16 header Hb). lia.
Qed.

Lemma parse_header_error header limits s : parse_frame_header header limits = Err s -> status_ok s = false.
Proof. unfold parse_frame_header. intros Hp. repeat case_match; by simplify_eq/=. Qed.

(** What is left alone by receiving. *)
Record receiving (connection connection' : Connection) : Prop := {
  rcv_open : conn_open connection' = true;
  rcv_sent : conn_sent connection' = conn_sent connection;
  rcv_departures : conn_departures connection' = conn_departures connection;
  rcv_intact : intact (conn_arrivals connection')
}.

Lemma receive_frame_decodes limits connection :
  conn_open connection = true -> intact (conn_arrivals connection) -> Forall is_byte (stream (conn_arrivals connection)) ->
  let '(connection', result) := receive_frame limits connection in
  let outcome := decode_frame (stream (conn_arrivals connection)) limits in
  receiving connection connection' /\
  match result with
  | Ok frame =>
      exists consumed, outcome = mkFrameDecodeOutcome success consumed frame
        /\ stream (conn_arrivals connection') = drop (Z.to_nat consumed) (stream (conn_arrivals connection))
  | Err _ => status_ok (outcome_status outcome) = false
  end.
Proof.
  intros Ho Hi Hb. unfold receive_frame, decode_frame. set (bytes := stream (conn_arrivals connection)) in *.
  pose proof (receive_exact_spec kFrameHeaderBytes connection Ho Hi ltac:(done)) as Hh. fold bytes in Hh.
  destruct (receive_exact kFrameHeaderBytes connection) as [c1 header]. destruct Hh as (Ho1 & Hs1 & Hd1 & Hi1 & Hh).
  assert (Hr1 : receiving connection c1) by done.
  destruct (Z.leb_spec kFrameHeaderBytes (size_of bytes)) as [H32|H32].
  2: { destruct Hh as [s ->]. destruct (Z.ltb_spec (size_of bytes) kFrameHeaderBytes); [done|lia]. }
  destruct Hh as [-> Hrest]. destruct (Z.ltb_spec (size_of bytes) kFrameHeaderBytes); [lia|].
  change (Z.to_nat kFrameHeaderBytes) with 32%nat in *.
  destruct (parse_frame_header (take 32 bytes) limits) as [info|s] eqn:Hp; [|split; [done|]; by apply parse_header_error in Hp].
  pose proof (parse_header_length _ _ _ Hp ltac:(by apply Forall_take)) as Hlen.
  assert (Hsize : size_of (stream (conn_arrivals c1)) = size_of bytes - 32).
  { rewrite Hrest. unfold size_of in *. rewrite length_drop. unfold kFrameHeaderBytes in H32. lia. }
  destruct (Z.eqb_spec (info_payload_length info) 0) as [H0|Hne]; cbn [negb].
  - rewrite H0. change (kFrameHeaderBytes + 0) with kFrameHeaderBytes. destruct (Z.ltb_spec (size_of bytes) kFrameHeaderBytes); [lia|].
    change (take (Z.to_nat 0) (drop 32 bytes)) with (@nil Z). rewrite (Z.eqb_sym (crc32 [])).
    destruct (info_payload_crc info =? crc32 []); cbn [negb]; [|done]. split; [done|]. by eexists.
  - pose proof (receive_exact_spec (info_payload_length info) c1 Ho1 Hi1 Hlen) as Hq.
    destruct (receive_exact (info_payload_length info) c1) as [c2 payload]. destruct Hq as (Ho2 & Hs2 & Hd2 & Hi2 & Hq).
    assert (Hr2 : receiving connection c2) by (constructor; congruence).
    rewrite Hsize in Hq. unfold kFrameHeaderBytes.
    destruct (Z.leb_spec (info_payload_length info) (size_of bytes - 32)) as [Hle|Hgt].
    2: { destruct Hq as [s ->]. destruct (Z.ltb_spec (size_of bytes) (32 + info_payload_length info)); [done|lia]. }
    destruct Hq as [-> Hrest2]. destruct (Z.ltb_spec (size_of bytes) (32 + info_payload_length info)); [lia|].
    rewrite Hrest in Hrest2 |- *. destruct (crc32 _ =? info_payload_crc info); cbn [negb]; [|done].
    split; [done|]. eexists. split; [done|]. rewrite Hrest2, drop_drop. f_equal. lia.
Qed.

(** ** Sending whole messages *)

Lemma send_loop_spec remaining departures sent :
  let '(_, sent', status) := send_loop remaining departures sent in
  exists done rest, remaining = done ++ rest /\ sent' = sent ++ done /\ (status_ok status = true <-> rest = []).
Proof.
  revert remaining sent. induction departures as [|departure departures IH]; intros remaining sent.
  - destruct remaining as [|b remaining]; cbn.
    + exists [], []. by rewrite !app_nil_r.
    + exists (b :: remaining), []. by rewrite !app_nil_r.
  - destruct remaining as [|b remaining].
    { cbn. exists [], []. by rewrite !app_nil_r. }
    destruct departure as [more| |]; cbn [send_loop].
    + specialize (IH (drop (S more) (b :: remaining)) (sent ++ take (S more) (b :: remaining))).
      destruct (send_loop _ departures _) as [[d s'] status]. destruct IH as (sent_part & rest & Hd & -> & Hs).
      exists (take (S more) (b :: remaining) ++ sent_part), rest. rewrite <- app_assoc, <- Hd, take_drop. by rewrite app_assoc.
    + apply (IH (b :: remaining) sent).
    + exists [], (b :: remaining). by rewrite !app_nil_r.
Qed.

(** What reaches the peer is a prefix of the message, and all of it exactly
    when success is reported. *)
Lemma send_all_spec bytes connection :
  conn_open connection = true ->
  let '(connection', status) := send_all bytes connection in
  conn_arrivals connection' = conn_arrivals connection /\ conn_open connection' = true
  /\ exists done rest, bytes = done ++ rest /\ conn_sent connection' = conn_sent connection ++ done
     /\ (status_ok status = true <-> rest = []).
Proof.
  intros Ho. unfold send_all. rewrite Ho. cbn [negb]. pose proof (send_loop_spec bytes (conn_departures connection) (conn_sent connection)) as Hs.
  by destruct (send_loop _ _ _) as [[d s] status].
Qed.

(** C33: however a stream of bytes is cut into pieces on its way, and however
    often a read finds nothing yet, as long as no read fails the frame received
    from an open connection is the one [decode_frame] finds at the head of the
    stream, what follows it stays in the channel for the next frame, and when
    the stream does not start with a frame nothing is received. *)
Theorem receive_frame_spec limits connection frame rest :
  conn_open connection = true -> intact (conn_arrivals connection) -> Forall is_byte (stream (conn_arrivals connection)) ->
  (exists connection', receive_frame limits connection = (connection', Ok frame)
     /\ receiving connection connection' /\ stream (conn_arrivals connection') = rest)
  <-> exists consumed, decode_frame (stream (conn_arrivals connection)) limits = mkFrameDecodeOutcome success consumed frame
        /\ rest = drop (Z.to_nat consumed) (stream (conn_arrivals connection)).
Proof.
  intros Ho Hi Hb. pose proof (receive_frame_decodes limits connection Ho Hi Hb) as Hd.
  destruct (receive_frame limits connection) as [c result]. destruct Hd as [Hr Hd]. split.
  - intros (c' & Heq & _ & <-). injection Heq as -> ->. destruct Hd as (consumed & Hd & Hs). by exists consumed.
  - intros (consumed & Hdec & ->). destruct result as [frame'|s].
    + destruct Hd as (consumed' & Hd & Hs). rewrite Hd in Hdec. injection Hdec as -> ->. exists c. split_and!; [done|exact Hr|exact Hs].
    + rewrite Hdec in Hd. discriminate Hd.
Qed.

(** Ten bytes, a pause, the rest of the frame and the start of another one. *)
Definition sample_connection : Connection :=
  mkConnection true [Bytes (take 10 sample_bytes); ReceiveBlocked; Bytes (drop 10 sample_bytes ++ [1; 2; 3])] [] [].

Lemma receive_frame_spec_witness :
  exists connection', receive_frame default_Limits sample_connection = (connection', Ok sample_frame)
    /\ receiving sample_connection connection' /\ stream (conn_arrivals connection') = [1; 2; 3].
Proof.
  assert (Hi : intact (conn_arrivals sample_connection)) by (unfold intact; set_solver).
  assert (Hb : Forall is_byte (stream (conn_arrivals sample_connection))) by (apply forallb_bytes; vm_compute; reflexivity).
  apply (receive_frame_spec default_Limits sample_connection sample_frame [1; 2; 3] eq_refl Hi Hb).
  exists 34. split; vm_compute; reflexivity.
Defined.
