(* ===== verification/Sockets.v ===== *)
(** * Sockets (transport.hpp, transport.cpp)

    How connections and listeners come and go: resolving, the loops over the
    resolved addresses, adopting, accepting and closing.  What the system calls
    do is a parameter: an address is given by what [socket] and then [connect],
    or [bind] and [listen], return for it.  Each operation yields the calls it
    made on descriptors, in order, so that what stays open can be counted.
    What goes over an open connection is in Transport.v. *)
From S2P Require Import Prelude Error Identity Inspect Transport.
#[local] Open Scope Z_scope.

(** What is done to a descriptor. *)
Inductive SocketEvent :=
| Opened (descriptor : Z)
| OptionSet (descriptor : Z)
| ShutDown (descriptor : Z)
| Closed (descriptor : Z).

(** One resolved address: the descriptor [socket] gives for it, and whether the
    calls that make it usable succeed. *)
Record Address := mkAddress { addr_socket : option Z; addr_usable : bool }.

(** [TcpConnection] and [TcpListener]: no descriptor once closed. *)
Record TcpSocket := mkTcpSocket { tcp_descriptor : option Z; tcp_peer : string }.
Record TcpListener := mkTcpListener { lst_descriptor : option Z; lst_port : Z; lst_address : string }.

(** [SocketRuntime::ensure_initialised]. *)
Definition ensure_initialised (initialised : bool) : Status :=
  if initialised then success
  else transport_error ErrorCode.UNSUPPORTED "the platform socket runtime could not be initialised".

Definition adopt (descriptor : Z) (peer : string) : TcpSocket := mkTcpSocket (Some descriptor) peer.

(** [TcpConnection::close] and [TcpListener::close]; a second call does nothing. *)
Definition close_connection (connection : TcpSocket) : TcpSocket * list SocketEvent :=
  match tcp_descriptor connection with
  | None => (connection, [])
  | Some descriptor => (mkTcpSocket None (tcp_peer connection), [ShutDown descriptor; Closed descriptor])
  end.
Definition close_listener (listener : TcpListener) : TcpListener * list SocketEvent :=
  match lst_descriptor listener with
  | None => (listener, [])
  | Some descriptor => (mkTcpListener None (lst_port listener) (lst_address listener), [Closed descriptor])
  end.

(** [TcpConnection::set_no_delay]. *)
Definition set_no_delay (connection : TcpSocket) : list SocketEvent :=
  match tcp_descriptor connection with None => [] | Some descriptor => [OptionSet descriptor] end.

(** The loop over the resolved addresses, which [connect] and [bind] share but
    for the option [bind] sets. *)
Fixpoint try_addresses (reuse : bool) (addresses : list Address) : option Z * list SocketEvent :=
  match addresses with
  | [] => (None, [])
  | address :: addresses =>
      match addr_socket address with
      | None => try_addresses reuse addresses
      | Some descriptor =>
          let opened := Opened descriptor :: (if reuse then [OptionSet descriptor] else []) in
          if addr_usable address then (Some descriptor, opened)
          else
            let '(result, events) := try_addresses reuse addresses in (result, opened ++ [Closed descriptor] ++ events)
      end
  end.

(** [TcpConnection::connect]; [resolve] is what [getaddrinfo] yields. *)
Definition tcp_connect (initialised : bool) (resolve : string -> string -> option (list Address)) (host : string) (port : Z) :
    Result TcpSocket * list SocketEvent :=
  let ready := ensure_initialised initialised in
  if negb (status_ok ready) then (Err ready, [])
  else
    let service := unsigned_to_string port in
    match resolve host service with
    | None => (Err (transport_error ErrorCode.NOT_FOUND "cannot resolve the coordinator endpoint"), [])
    | Some addresses =>
        match try_addresses false addresses with
        | (None, events) => (Err (transport_error ErrorCode.NOT_FOUND "cannot connect to the coordinator endpoint"), events)
        | (Some descriptor, events) => (Ok (adopt descriptor (host +:+ ":" +:+ service)%string), events)
        end
    end.

(** [TcpListener::bind]; [bound] is the port [getsockname] reports for an IPv4
    socket. *)
Definition tcp_bind (initialised : bool) (resolve : string -> string -> option (list Address)) (bound : Z -> option Z)
    (address : string) (port : Z) : Result TcpListener * list SocketEvent :=
  let ready := ensure_initialised initialised in
  if negb (status_ok ready) then (Err ready, [])
  else
    match resolve address (unsigned_to_string port) with
    | None => (Err (transport_error ErrorCode.INVALID_ARGUMENT "cannot resolve the requested bind address"), [])
    | Some addresses =>
        match try_addresses true addresses with
        | (None, events) => (Err (transport_error ErrorCode.TRANSPORT_FAILURE "cannot bind the coordinator control plane"), events)
        | (Some descriptor, events) => (Ok (mkTcpListener (Some descriptor) (default port (bound descriptor)) address), events)
        end
    end.

(** [TcpListener::accept_one]: [accept] gives a descriptor and the name of the
    peer, if it has one. *)
Definition accept_one (accept : Z -> option (Z * option string)) (listener : TcpListener) : Result TcpSocket * list SocketEvent :=
  match lst_descriptor listener with
  | None => (Err (transport_error ErrorCode.NOT_FOUND "listener is closed"), [])
  | Some descriptor =>
      match accept descriptor with
      | None => (Err (transport_error ErrorCode.NOT_FOUND "listener was closed while waiting for a connection"), [])
      | Some (accepted, peer) => (Ok (adopt accepted (default "unknown"%string peer)), [Opened accepted])
      end
  end.

(** ** Nothing is left open but what is returned *)

(** The descriptors open after the events. *)
Definition open_step (open : list Z) (event : SocketEvent) : list Z :=
  match event with
  | Opened descriptor => descriptor :: open
  | Closed descriptor => List.filter (fun other => negb (other =? descriptor)) open
  | _ => open
  end.
Definition open_after (events : list SocketEvent) : list Z := foldl open_step [] events.

(** The address can be used. *)
Definition works (address : Address) (descriptor : Z) : Prop := addr_socket address = Some descriptor /\ addr_usable address = true.
Definition fails (address : Address) : Prop := forall descriptor, ~ works address descriptor.

Lemma opened_closed (reuse : bool) descriptor events :
  open_after ((Opened descriptor :: (if reuse then [OptionSet descriptor] else [])) ++ [Closed descriptor] ++ events) = open_after events.
Proof. unfold open_after. destruct reuse; cbn; by rewrite Z.eqb_refl. Qed.

Lemma try_addresses_spec reuse addresses :
  match try_addresses reuse addresses with
  | (None, events) => Forall fails addresses /\ open_after events = []
  | (Some descriptor, events) =>
      (exists before address after, addresses = before ++ address :: after /\ Forall fails before /\ works address descriptor)
      /\ open_after events = [descriptor]
  end.
Proof.
  induction addresses as [|address addresses IH]; cbn [try_addresses]; [by split|].
  assert (Hskip : fails address -> match try_addresses reuse addresses with
    | (None, events) => Forall fails (address :: addresses) /\ open_after events = []
    | (Some descriptor, events) =>
        (exists before found after, address :: addresses = before ++ found :: after /\ Forall fails before /\ works found descriptor)
        /\ open_after events = [descriptor]
    end).
  { intros Hf. destruct (try_addresses reuse addresses) as [[descriptor|] events]; [|destruct IH; by split; [constructor|]].
    destruct IH as [(before & found & after & -> & Hb & Hw) Ho]. split; [|done]. exists (address :: before), found, after. by split_and!; [|constructor|]. }
  destruct (addr_socket address) as [descriptor|] eqn:Hs; [|apply Hskip; intros d [? _]; congruence].
  destruct (addr_usable address) eqn:Hu.
  - split; [exists [], address, addresses; by split_and!|]. by destruct reuse.
  - assert (Hf : fails address) by (intros d [_ ?]; congruence). specialize (Hskip Hf).
    destruct (try_addresses reuse addresses) as [[other|] events]; by rewrite opened_closed.
Qed.

