(* ===== verification/Server.v ===== *)
(** * The control plane (coordinator_server.cpp)

    [dispatch] turns one request frame into one call of the coordinator and one
    reply frame; [serve] does so for as long as the connection yields frames.
    The thread pool (Pool.v) only decides which connection is served next: a dispatched
    call holds the state lock for its whole duration, so calls from several
    connections are one sequence of the transition system of System.v. *)
From S2P Require Import Prelude OMap Error Domain Identity Float64 Model Hash Sorting Canonical State Wire Codec StateCodec Messages MessageCodec Frames Spec Coordinator Authority Evidence Decision Scenario History Invariants System Inspect Query Transport.

Section Server.
Context `{Storage} `{Formatting}.
Implicit Types impl : Impl.

(** The coordinator, whether its control plane runs, and the shutdown request
    it may have been given. *)
Record Server := mkServer {
  srv_impl : Impl;
  srv_active : bool;
  srv_shutdown_flagged : bool
}.
#[global] Instance etaServer : Eta Server := fun r => mkServer (srv_impl r) (srv_active r) (srv_shutdown_flagged r).

(** ** Replies *)

Definition make_error_frame (correlation : Z) (status : Status) : Frame :=
  mkFrame kProtocolVersion MessageType.ERROR_REPLY correlation (encode_error_reply (mkErrorReply status (status_to_string status))).
Definition make_ack_frame (correlation : Z) (status : Status) : Frame :=
  mkFrame kProtocolVersion MessageType.ACK correlation (encode_ack (mkAckReply status)).
Definition make_reply (correlation : Z) (type : MessageType) (payload : list Z) : Frame :=
  mkFrame kProtocolVersion type correlation payload.

(** The shared shape of the cases: a payload that does not decode changes
    nothing and is refused. *)
Definition on_decoded {A} (request : Frame) (decoded : Result A) (handle : A -> Server * Frame) (server : Server) : Server * Frame :=
  match decoded with
  | Err s => (server, make_error_frame (frame_correlation request) s)
  | Ok value => handle value
  end.

(** A call that returns a status. *)
Definition on_status (request : Frame) (server : Server) (call : Call Status) : Server * Frame :=
  let '(impl, status) := call in
  (server <| srv_impl := impl |>,
   if status_ok status then make_ack_frame (frame_correlation request) status
   else make_error_frame (frame_correlation request) status).

(** A call that returns a value or a status. *)
Definition on_result {A} (request : Frame) (type : MessageType) (encode : A -> list Z) (server : Server) (call : Call (Result A)) :
    Server * Frame :=
  let '(impl, result) := call in
  (server <| srv_impl := impl |>,
   match result with
   | Ok value => make_reply (frame_correlation request) type (encode value)
   | Err s => make_error_frame (frame_correlation request) s
   end).

(** A call whose reply carries its own status. *)
Definition on_reply {A} (request : Frame) (type : MessageType) (encode : A -> list Z) (server : Server) (call : Call A) : Server * Frame :=
  (server <| srv_impl := call.1 |>, make_reply (frame_correlation request) type (encode call.2)).

Definition value_payload (value : Z) : list Z := encode_value_reply (mkValueReply success value).

Definition fork_spec (request : ForkBranchRequest) : BranchSpec :=
  default_BranchSpec <| bspec_name := frkr_name request |> <| bspec_role := frkr_role request |>
    <| bspec_parameters := frkr_parameters request |> <| bspec_seed := frkr_seed request |>
    <| bspec_planned_trials := frkr_planned_trials request |>.

Definition revision_spec (request : ReviseHypothesisRequest) : HypothesisRevisionSpec :=
  mkHypothesisRevisionSpec (revr_statement request)
    (if revr_has_direction request then Some (revr_direction request) else None)
    (revr_metric request) (revr_provenance request).

Definition query_reply (lines : Result (list string)) : QueryResult :=
  match lines with
  | Ok lines => mkQueryResult success lines
  | Err s => mkQueryResult s []
  end.

(** [Coordinator::request_shutdown]. *)
Definition request_shutdown (server : Server) : Server :=
  server <| srv_impl ::= set_admission false |> <| srv_shutdown_flagged := true |>.

Definition unsupported_type (request : Frame) : Status :=
  make_error ErrorCode.UNSUPPORTED ErrorStage.TRANSPORT
    ("message type is not supported by the coordinator: " +:+ message_type_to_string (frame_type request)).

(** [CoordinatorServerRuntime::dispatch]. *)
Definition dispatch (request : Frame) (server : Server) : Server * Frame :=
  let impl := srv_impl server in
  let limits := impl_limits impl in
  let payload := frame_payload request in
  match frame_type request with
  | MessageType.HELLO =>
      (server, make_reply (frame_correlation request) MessageType.HELLO_ACK (value_payload (impl_epoch impl)))
  | MessageType.REGISTER_WORKER =>
      on_decoded request (decode_register_worker payload limits) (fun value =>
        on_reply request MessageType.REGISTER_ACK encode_register_reply server (register_worker value impl)) server
  | MessageType.CLAIM_TRIAL =>
      on_decoded request (decode_claim_trial payload limits) (fun value =>
        on_reply request MessageType.CLAIM_RESULT encode_claim_reply server (claim_trials value impl)) server
  | MessageType.PUBLISH_OBSERVATION =>
      on_decoded request (decode_publish_observation payload limits) (fun value =>
        on_status request server (publish_observation value impl)) server
  | MessageType.PUBLISH_ARTIFACT =>
      on_decoded request (decode_publish_artifact payload limits) (fun value =>
        on_status request server (publish_artifact value impl)) server
  | MessageType.COMMIT_TRIAL =>
      on_decoded request (decode_commit_trial payload limits) (fun value =>
        on_status request server (commit_trial value impl)) server
  | MessageType.FAIL_TRIAL =>
      on_decoded request (decode_fail_trial payload limits) (fun value =>
        on_status request server (fail_trial value impl)) server
  | MessageType.HEARTBEAT =>
      on_decoded request (decode_heartbeat payload limits) (fun value =>
        on_status request server (heartbeat value impl)) server
  | MessageType.CANCEL_TRIAL =>
      on_decoded request (decode_cancel_trial payload limits) (fun value =>
        on_status request server (cancel_trial (canr_trial value) (canr_reason value) impl)) server
  | MessageType.CANCEL_EXPERIMENT =>
      on_decoded request (decode_cancel_experiment payload limits) (fun value =>
        on_status request server (cancel_experiment (canx_experiment value) (canx_reason value) impl)) server
  | MessageType.ROLLBACK =>
      on_decoded request (decode_rollback payload limits) (fun value =>
        on_status request server (rollback (rolr_experiment value) (rolr_target_generation value) (rolr_reason value) impl)) server
  | MessageType.CREATE_TRIAL =>
      on_decoded request (decode_create_trial payload limits) (fun value =>
        on_result request MessageType.CREATE_TRIAL value_payload server
          (create_trial (crtr_experiment value) (crtr_branch value) (crtr_payload value) impl)) server
  | MessageType.FORK_BRANCH =>
      on_decoded request (decode_fork_branch payload limits) (fun value =>
        on_result request MessageType.FORK_BRANCH value_payload server
          (fork_branch (frkr_experiment value) (frkr_parent value) (fork_spec value) impl)) server
  | MessageType.REVISE_HYPOTHESIS =>
      on_decoded request (decode_revise_hypothesis payload limits) (fun value =>
        on_result request MessageType.REVISE_HYPOTHESIS value_payload server
          (revise_hypothesis (revr_experiment value) (revision_spec value) impl)) server
  | MessageType.FINALIZE_EXPERIMENT =>
      on_decoded request (decode_finalize_experiment payload limits) (fun value =>
        on_result request MessageType.FINALIZE_EXPERIMENT (encode_decision_reply success) server
          (finalize_experiment (finr_experiment value) (finr_candidate value) (finr_reason value) impl)) server
  | MessageType.QUERY =>
      on_decoded request (decode_query_request payload limits) (fun value =>
        (server, make_reply (frame_correlation request) MessageType.QUERY_RESULT
                   (encode_query_result (query_reply (query_lines value.1 value.2 impl))))) server
  | MessageType.SHUTDOWN => (request_shutdown server, make_ack_frame (frame_correlation request) success)
  | MessageType.INVALID | MessageType.HELLO_ACK | MessageType.REGISTER_ACK | MessageType.CLAIM_RESULT | MessageType.ACK
  | MessageType.CREATE_EXPERIMENT | MessageType.QUERY_RESULT | MessageType.ERROR_REPLY | MessageType.CREATE_HYPOTHESIS =>
      (server, make_error_frame (frame_correlation request) (unsupported_type request))
  end.

(** ** Connections *)

(** [CoordinatorServerRuntime::serve]: every round consumes a frame of the
    channel, so [fuel] rounds serve a stream of that many bytes. *)
Fixpoint serve (fuel : nat) (server : Server) (connection : Connection) : Server * Connection :=
  match fuel with
  | O => (server, connection)
  | S fuel =>
      let limits := impl_limits (srv_impl server) in
      let '(connection, frame) := receive_frame limits connection in
      match frame with
      | Err _ => (server, connection)
      | Ok request =>
          let '(server, reply) := dispatch request server in
          let '(connection, sent) := send_frame reply limits connection in
          if status_ok sent then serve fuel server connection else (server, connection)
      end
  end.

(** [Coordinator::start_server]; [started] is what binding the listener and
    starting the threads reports. *)
Definition start_server (started : Status) (server : Server) : Server * Status :=
  if srv_active server then
    (server, make_error ErrorCode.ALREADY_EXISTS ErrorStage.TRANSPORT "the control plane is already running")
  else if negb (status_ok started) then (server, started)
  else (server <| srv_impl ::= set_admission true |> <| srv_active := true |>, success).

(** [Coordinator::stop_server]. *)
Definition stop_server (server : Server) : Server * Status :=
  if negb (srv_active server) then (server, success)
  else
    let '(impl, persisted) := coordinator_save (set_admission false (srv_impl server)) in
    if negb (status_ok persisted) then (server <| srv_impl := impl |> <| srv_active := false |>, persisted)
    else (server <| srv_impl := notify_event "server-stopped" impl |> <| srv_active := false |>, success).

Definition shutdown_requested (server : Server) : bool := srv_shutdown_flagged server.

End Server.

(** ** A request is a call *)

Section Requests.
Context `{Storage} `{Formatting}.
Implicit Types (impl : Impl) (server : Server).

(** The call a decoded request stands for; a greeting and a query stand for none. *)
Definition operation_of (request : Frame) (limits : Limits) : option Op :=
  let payload := frame_payload request in
  let decoded {A} (r : Result A) (op : A -> Op) := match r with Ok value => Some (op value) | Err _ => None end in
  match frame_type request with
  | MessageType.REGISTER_WORKER => decoded (decode_register_worker payload limits) OpRegisterWorker
  | MessageType.CLAIM_TRIAL => decoded (decode_claim_trial payload limits) OpClaimTrials
  | MessageType.PUBLISH_OBSERVATION => decoded (decode_publish_observation payload limits) OpPublishObservation
  | MessageType.PUBLISH_ARTIFACT => decoded (decode_publish_artifact payload limits) OpPublishArtifact
  | MessageType.COMMIT_TRIAL => decoded (decode_commit_trial payload limits) OpCommitTrial
  | MessageType.FAIL_TRIAL => decoded (decode_fail_trial payload limits) OpFailTrial
  | MessageType.HEARTBEAT => decoded (decode_heartbeat payload limits) OpHeartbeat
  | MessageType.CANCEL_TRIAL =>
      decoded (decode_cancel_trial payload limits) (fun value => OpCancelTrial (canr_trial value) (canr_reason value))
  | MessageType.CANCEL_EXPERIMENT =>
      decoded (decode_cancel_experiment payload limits) (fun value => OpCancelExperiment (canx_experiment value) (canx_reason value))
  | MessageType.ROLLBACK =>
      decoded (decode_rollback payload limits)
        (fun value => OpRollback (rolr_experiment value) (rolr_target_generation value) (rolr_reason value))
  | MessageType.CREATE_TRIAL =>
      decoded (decode_create_trial payload limits)
        (fun value => OpCreateTrial (crtr_experiment value) (crtr_branch value) (crtr_payload value))
  | MessageType.FORK_BRANCH =>
      decoded (decode_fork_branch payload limits)
        (fun value => OpForkBranch (frkr_experiment value) (frkr_parent value) (fork_spec value))
  | MessageType.REVISE_HYPOTHESIS =>
      decoded (decode_revise_hypothesis payload limits)
        (fun value => OpReviseHypothesis (revr_experiment value) (revision_spec value))
  | MessageType.FINALIZE_EXPERIMENT =>
      decoded (decode_finalize_experiment payload limits)
        (fun value => OpFinalize (finr_experiment value) (finr_candidate value) (finr_reason value))
  | MessageType.SHUTDOWN => Some (OpSetAdmission false)
  | _ => None
  end.

Definition apply_op (op : option Op) (impl : Impl) : Impl := match op with Some op => exec op impl | None => impl end.

Lemma dispatch_exec request server :
  srv_impl (dispatch request server).1 = apply_op (operation_of request (impl_limits (srv_impl server))) (srv_impl server).
Proof.
  unfold dispatch, operation_of. destruct (frame_type request); try reflexivity; unfold on_decoded;
    match goal with |- context [match ?r with Ok _ => _ | Err _ => _ end] => destruct r; [|reflexivity] end;
    cbn [apply_op exec]; unfold on_reply, on_status, on_result; try reflexivity;
    match goal with |- srv_impl (let '(_, _) := ?call in _).1 = _ => by destruct call end.
Qed.

Lemma dispatch_correlation request server : frame_correlation (dispatch request server).2 = frame_correlation request.
Proof.
  unfold dispatch. destruct (frame_type request); try reflexivity; unfold on_decoded;
    match goal with |- context [match ?r with Ok _ => _ | Err _ => _ end] => destruct r; [|reflexivity] end;
    unfold on_reply, on_status, on_result; try reflexivity;
    match goal with |- frame_correlation (let '(_, _) := ?call in _).2 = _ => destruct call; cbn; by case_match end.
Qed.

Lemma dispatch_version request server : frame_version (dispatch request server).2 = kProtocolVersion.
Proof.
  unfold dispatch. destruct (frame_type request); try reflexivity; unfold on_decoded;
    match goal with |- context [match ?r with Ok _ => _ | Err _ => _ end] => destruct r; [|reflexivity] end;
    unfold on_reply, on_status, on_result; try reflexivity;
    match goal with |- frame_version (let '(_, _) := ?call in _).2 = _ => destruct call; cbn; by case_match end.
Qed.
End Requests.

(** ** The history the requests make *)

Lemma decoded_claims_unsigned payload limits value :
  decode_claim_trial payload limits = Ok value -> Forall is_byte payload -> 0 <= claim_max_claims value.
Proof.
  unfold decode_claim_trial, decode_with. intros Hd Hb. destruct (read_claim_trial limits payload) as [[v rest]|] eqn:Hr; [|done].
  destruct (status_ok (expect_end rest)); [|done]. apply Ok_inj in Hd as ->.
  unfold read_claim_trial, read_id, get_u64, get_u32, get_raw, mbind, reader_bind, mret, reader_ret in Hr.
  repeat (destruct (_ <? _); [done|]; cbn beta iota in Hr). apply Ok_inj in Hr. apply (f_equal fst) in Hr. cbn [fst] in Hr.
  rewrite <- Hr. cbn [claim_max_claims].
  apply le_value_range. by repeat first [apply Forall_take | apply Forall_drop].
Qed.

Section Histories.
Context `{StorageLaws} `{Formatting}.
Implicit Types (impl : Impl) (server : Server).

(** The identity counters have not run out. *)
Definition spacious (impl : Impl) : Prop :=
  trial_mark impl < u64_max /\ attempt_mark impl + max_batch_items (impl_limits impl) <= u64_max.

Lemma operation_room request impl op :
  Forall is_byte (frame_payload request) -> spacious impl ->
  operation_of request (impl_limits impl) = Some op -> room op impl.
Proof.
  intros Hb [Ht Ha]. unfold operation_of. destruct (frame_type request); try done;
    try (intros [= <-]; done);
    match goal with |- context [match ?r with Ok _ => _ | Err _ => _ end] => destruct r eqn:Hd; [|done] end;
    cbn beta iota; intros Heq; injection Heq as <-; try done. cbn. split; [|done]. by eapply decoded_claims_unsigned.
Qed.

Lemma dispatch_reachable request server :
  reachable (Up (srv_impl server)) -> Forall is_byte (frame_payload request) -> spacious (srv_impl server) ->
  reachable (Up (srv_impl (dispatch request server).1)) /\ evolves (srv_impl server) (srv_impl (dispatch request server).1).
Proof.
  intros Hr Hb Hs. rewrite dispatch_exec. destruct (operation_of _ _) as [op|] eqn:Ho; [|by split].
  pose proof (operation_room _ _ _ Hb Hs Ho) as Hroom. cbn [apply_op]. split.
  - eapply reachable_step; [exact Hr|by constructor].
  - apply exec_evolves; [by apply (reachable_inv (Up (srv_impl server)))|done].
Qed.

(** C11: a request frame does to a running coordinator exactly what the call it
    stands for does in process, and nothing when it stands for none: a frame
    of another type, a greeting, a query, or a payload that does not decode.
    So the control plane never leaves the reachable states, and every
    invariant of the coordinator holds for remote callers too.  Each request
    is answered by one frame, with its correlation. *)
Theorem dispatch_refines request server :
  reachable (Up (srv_impl server)) -> Forall is_byte (frame_payload request) -> spacious (srv_impl server) ->
  srv_impl (dispatch request server).1 =
    match operation_of request (impl_limits (srv_impl server)) with
    | Some op => exec op (srv_impl server)
    | None => srv_impl server
    end
  /\ reachable (Up (srv_impl (dispatch request server).1))
  /\ frame_correlation (dispatch request server).2 = frame_correlation request
  /\ frame_version (dispatch request server).2 = kProtocolVersion.
Proof.
  intros Hr Hb Hs. split_and!; [apply dispatch_exec|by apply dispatch_reachable|apply dispatch_correlation|apply dispatch_version].
Qed.

(** ** Whole connections *)

(** The requests of a stream, dispatched one after another. *)
Fixpoint dispatch_all (requests : list Frame) (server : Server) : Server * list Frame :=
  match requests with
  | [] => (server, [])
  | request :: requests =>
      let '(server, reply) := dispatch request server in
      let '(server, replies) := dispatch_all requests server in (server, reply :: replies)
  end.

(** The counters suffice at every one of them. *)
Fixpoint all_spacious (requests : list Frame) (server : Server) : Prop :=
  match requests with
  | [] => True
  | request :: requests => spacious (srv_impl server) /\ all_spacious requests (dispatch request server).1
  end.

(** Frames one after another on the wire. *)
Inductive encoded (limits : Limits) : list Frame -> list Z -> Prop :=
| encoded_nil : encoded limits [] []
| encoded_cons frame frames bytes rest :
    encode_frame frame limits = Ok bytes -> encoded limits frames rest -> encoded limits (frame :: frames) (bytes ++ rest).

(** The peer keeps reading. *)
Definition accepting (connection : Connection) : Prop := SendFailed ∉ conn_departures connection.

Lemma send_loop_accepting remaining departures sent :
  SendFailed ∉ departures ->
  exists departures', send_loop remaining departures sent = (departures', sent ++ remaining, success) /\ SendFailed ∉ departures'.
Proof.
  revert remaining sent. induction departures as [|departure departures IH]; intros remaining sent Ha.
  - destruct remaining; cbn; [|by exists []]. exists []. by rewrite app_nil_r.
  - destruct remaining as [|b remaining]; [cbn; exists (departure :: departures); by rewrite app_nil_r|].
    destruct departure as [more| |]; cbn [send_loop].
    + destruct (IH (drop (S more) (b :: remaining)) (sent ++ take (S more) (b :: remaining)) ltac:(set_solver)) as (d & Hd & Hd').
      exists d. split; [|done]. rewrite Hd. by rewrite <- app_assoc, take_drop.
    + apply (IH (b :: remaining) sent). set_solver.
    + set_solver.
Qed.

Lemma send_frame_accepting frame limits connection bytes :
  conn_open connection = true -> accepting connection -> encode_frame frame limits = Ok bytes ->
  exists connection', send_frame frame limits connection = (connection', success)
    /\ conn_open connection' = true /\ accepting connection' /\ conn_arrivals connection' = conn_arrivals connection
    /\ conn_sent connection' = conn_sent connection ++ bytes.
Proof.
  intros Ho Ha He. unfold send_frame. rewrite He. unfold send_all. rewrite Ho. cbn [negb].
  destruct (send_loop_accepting bytes (conn_departures connection) (conn_sent connection) Ha) as (d & -> & Hd).
  by eexists.
Qed.

Lemma receive_encoded limits connection frame bytes rest :
  max_frame_payload_bytes limits < u32_modulus -> frame_in_range frame -> encode_frame frame limits = Ok bytes ->
  conn_open connection = true -> intact (conn_arrivals connection) ->
  Forall is_byte (stream (conn_arrivals connection)) -> stream (conn_arrivals connection) = bytes ++ rest ->
  exists connection', receive_frame limits connection = (connection', Ok frame)
    /\ receiving connection connection' /\ stream (conn_arrivals connection') = rest.
Proof.
  intros Hl Hf He Ho Hi Hb Hs. pose proof (receive_frame_decodes limits connection Ho Hi Hb) as Hd.
  rewrite Hs, (decode_encode_frame frame limits bytes rest Hl Hf He) in Hd.
  destruct (receive_frame limits connection) as [c [frame'|s]]; destruct Hd as [Hr Hd]; [|discriminate Hd].
  destruct Hd as (consumed & Heq & Hrest). injection Heq as <- <-. exists c. split_and!; [done|exact Hr|].
  rewrite Hrest. unfold size_of. by rewrite Nat2Z.id, drop_app_length.
Qed.

Lemma receive_nothing limits connection :
  conn_open connection = true -> intact (conn_arrivals connection) -> stream (conn_arrivals connection) = [] ->
  exists connection' s, receive_frame limits connection = (connection', Err s) /\ conn_sent connection' = conn_sent connection.
Proof.
  intros Ho Hi Hs. pose proof (receive_frame_decodes limits connection Ho Hi ltac:(by rewrite Hs)) as Hd. rewrite Hs in Hd.
  destruct (receive_frame limits connection) as [c [frame|s]]; destruct Hd as [Hr Hd].
  - destruct Hd as (consumed & Heq & _). apply (f_equal (fun o => status_ok (outcome_status o))) in Heq. discriminate Heq.
  - exists c, s. split; [done|apply Hr].
Qed.

Lemma serve_all requests replies server server' connection outbound fuel :
  let limits := impl_limits (srv_impl server) in
  max_frame_payload_bytes limits < u32_modulus ->
  reachable (Up (srv_impl server)) -> all_spacious requests server -> Forall frame_in_range requests ->
  dispatch_all requests server = (server', replies) ->
  encoded limits requests (stream (conn_arrivals connection)) -> encoded limits replies outbound ->
  conn_open connection = true -> accepting connection -> intact (conn_arrivals connection) ->
  Forall is_byte (stream (conn_arrivals connection)) ->
  (length requests < fuel)%nat ->
  exists connection', serve fuel server connection = (server', connection') /\ conn_sent connection' = conn_sent connection ++ outbound.
Proof.
  cbv zeta. revert replies server connection outbound fuel.
  induction requests as [|request requests IH]; intros replies server connection outbound fuel Hl Hr Hsp Hin Hd Hi Ho Hopen Hacc Hint Hb Hfuel;
    (destruct fuel as [|fuel]; [simpl in Hfuel; lia|]); cbn [serve].
  - inversion Hi as [Hframes Hnil|]; subst. injection Hd as <- <-. inversion Ho; subst.
    destruct (receive_nothing (impl_limits (srv_impl server)) connection Hopen Hint (eq_sym Hnil)) as (c & s & -> & Hsent).
    exists c. by rewrite app_nil_r.
  - inversion Hi as [|? ? bytes rest Hf Hrest Hframes Hs]; subst. apply Forall_cons in Hin as [Hfr Hin]. destruct Hsp as [Hsp Hsps].
    destruct (receive_encoded _ connection request bytes rest Hl Hfr Hf Hopen Hint Hb (eq_sym Hs)) as (c1 & -> & [Ho1 Hs1 Hd1 Hi1] & Hst1).
    cbn [dispatch_all] in Hd. destruct (dispatch_reachable request server Hr ltac:(apply Hfr) Hsp) as [Hr' He].
    destruct (dispatch request server) as [server1 reply] eqn:Hdis. cbn [fst] in *.
    destruct (dispatch_all requests server1) as [server2 replies'] eqn:Hall. injection Hd as -> <-.
    inversion Ho as [|? ? obytes orest Hof Horest]; subst.
    destruct (send_frame_accepting reply _ c1 obytes Ho1 ltac:(unfold accepting; by rewrite Hd1) Hof) as (c2 & -> & Ho2 & Ha2 & Har2 & Hs2).
    change (status_ok success) with true. cbn iota.
    destruct (IH replies' server1 c2 orest fuel) as (c3 & Hserve & Hsent3); rewrite ?(evo_limits _ _ He), ?Har2, ?Hst1; try done.
    + rewrite <- Hs in Hb. by apply Forall_app in Hb as [_ Hb].
    + simpl in Hfuel. lia.
    + exists c3. split; [exact Hserve|]. by rewrite Hsent3, Hs2, Hs1, app_assoc.
Qed.
End Histories.

Section Serving.
Context `{StorageLaws} `{Formatting}.
Implicit Types (server : Server).

End Serving.

(** ** At a concrete state *)

Module Served.

Definition server : Server := mkServer Run.s5 true false.
Definition hello : Frame := mkFrame kProtocolVersion MessageType.HELLO 1 [].
Definition commit : Frame := Eval vm_compute in
  mkFrame kProtocolVersion MessageType.COMMIT_TRIAL 2 (encode_commit_trial (Run.commit (Run.envelope 0))).
Definition after : Server := Eval vm_compute in (dispatch_all [hello; commit] server).1.
Definition replies : list Frame := Eval vm_compute in (dispatch_all [hello; commit] server).2.
Definition reply (n : nat) : Frame := nth n replies default_Frame.

Definition bytes_of_frame (frame : Frame) : list Z :=
  match encode_frame frame default_Limits with Ok bytes => bytes | Err _ => [] end.
Definition hello_bytes : list Z := Eval vm_compute in bytes_of_frame hello.
Definition commit_bytes : list Z := Eval vm_compute in bytes_of_frame commit.
Definition first_bytes : list Z := Eval vm_compute in bytes_of_frame (reply 0).
Definition second_bytes : list Z := Eval vm_compute in bytes_of_frame (reply 1).

(** The peer's bytes in three pieces that do not respect the frames. *)
Definition connection : Connection :=
  mkConnection true
    [Bytes (take 20 hello_bytes); ReceiveBlocked; Bytes (drop 20 hello_bytes ++ take 7 commit_bytes); Bytes (drop 7 commit_bytes)]
    [Accepted 3; SendBlocked] [].

Lemma spacious_s5 : spacious Run.s5.
Proof. split; [vm_compute; reflexivity|vm_compute; discriminate]. Qed.

Lemma impl_server : srv_impl server = Run.s5.
Proof. unfold server. cbn [srv_impl]. exact eq_refl. Qed.
Lemma reachable_server : reachable (Up (srv_impl server)).
Proof. rewrite impl_server. exact Reach.s5. Qed.
Lemma spacious_server : spacious (srv_impl server).
Proof. rewrite impl_server. exact spacious_s5. Qed.

Lemma dispatched : dispatch_all [hello; commit] server = (after, [reply 0; reply 1]).
Proof. by_evaluation. Qed.

Lemma all_spacious_run : all_spacious [hello; commit] server.
Proof.
  assert (Hh : dispatch hello server = (server, reply 0)) by by_evaluation.
  cbn [all_spacious]. rewrite Hh. cbn [fst]. split; [exact spacious_server|]. split; [exact spacious_server|exact I].
Qed.

Lemma frames_in_range : Forall frame_in_range [hello; commit].
Proof.
  assert (Hc : frame_in_range commit).
  { split; [split; [vm_compute; discriminate|vm_compute; reflexivity]|]. apply forallb_bytes. vm_compute. reflexivity. }
  constructor; [|by constructor]. split; [split; [vm_compute; discriminate|vm_compute; reflexivity]|constructor].
Qed.

Lemma intact_pieces a b c : intact [Bytes a; ReceiveBlocked; Bytes b; Bytes c].
Proof. unfold intact. rewrite !not_elem_of_cons. split_and!; try done. apply not_elem_of_nil. Qed.

Lemma accepting_connection : accepting connection.
Proof. unfold accepting, connection. cbn [conn_departures]. rewrite !not_elem_of_cons. split_and!; try done. apply not_elem_of_nil. Qed.

Lemma encoded_two (f g : Frame) b c :
  encode_frame f default_Limits = Ok b -> encode_frame g default_Limits = Ok c ->
  encoded default_Limits [f; g] (b ++ c ++ []).
Proof. intros. constructor; [done|]. constructor; [done|constructor]. Qed.

End Served.

Lemma dispatch_refines_witness :
  srv_impl (dispatch Served.commit Served.server).1 = exec Reach.commit Run.s5
  /\ frame_type (dispatch Served.commit Served.server).2 = MessageType.ACK.
Proof.
  assert (Hb : Forall is_byte (frame_payload Served.commit)) by (apply forallb_bytes; vm_compute; reflexivity).
  assert (Ho : operation_of Served.commit (impl_limits Run.s5) = Some Reach.commit) by by_evaluation.
  assert (Ht : frame_type (dispatch Served.commit Served.server).2 = MessageType.ACK) by by_evaluation.
  split; [|exact Ht].
  pose proof (proj1 (dispatch_refines Served.commit Served.server Served.reachable_server Hb Served.spacious_server)) as Hs.
  rewrite Served.impl_server, Ho in Hs. exact Hs.
Defined.

