(* ===== verification/Pool.v ===== *)
(** * The threads of the control plane (coordinator_server.cpp)

    [CoordinatorServerRuntime] runs an accept thread and a fixed pool of
    worker threads around one mutex, one condition variable, a queue of
    accepted connections and a table of those being served; [stop] winds them
    down from yet another thread.  A thread is the program point it is at, a
    critical section is one event, and so is what a thread does between two of
    them; any interleaving of the events can happen.  A worker that serves
    a connection dispatches requests (Server.v) to the coordinator all threads
    share. *)
From stdpp Require Import gmap relations.
From S2P Require Import Prelude OMap Error Domain Identity Float64 Model Hash Sorting Canonical State Wire Codec StateCodec Messages MessageCodec Frames Spec Coordinator Authority Evidence Decision Scenario History Invariants System Inspect Query Transport Server.
#[local] Open Scope nat_scope.

(** ** Threads and what they share *)

(** A worker thread: at the top of its loop, parked in [available_.wait],
    in [serve] between two requests or with a request in hand, back from
    [serve], off the table, or returned. *)
Inductive WorkerPhase :=
| Entering
| Parked
| Serving (c : nat)
| Handling (c : nat) (request : Frame)
| Served (c : nat)
| Leaving (c : nat)
| Exited.

(** The accept thread: at the top of its loop, blocked in [accept_one], with
    an accepted connection, before [notify_one], or returned. *)
Inductive AcceptPhase :=
| Looping
| Accepting
| Connected (c : nat)
| Notifying
| Returned.

(** The thread in [stop]: after raising the flag, after closing the listener,
    after its critical section, after [notify_all], after joining the accept
    thread, and after joining the pool. *)
Inductive StopPhase := Running | FlagRaised | ListenerClosed | QueueCleared | Woken | AcceptJoined | Stopped.

#[export] Instance Frame_eq_dec : EqDecision Frame.
Proof. solve_decision. Defined.
#[export] Instance WorkerPhase_eq_dec : EqDecision WorkerPhase.
Proof. solve_decision. Defined.
#[export] Instance AcceptPhase_eq_dec : EqDecision AcceptPhase.
Proof. solve_decision. Defined.
#[export] Instance StopPhase_eq_dec : EqDecision StopPhase.
Proof. solve_decision. Defined.

(** Connections are numbered in the order they arrive in; [rt_open] has those
    whose socket is open, [rt_accepted] and [rt_taken] remember which were
    accepted and which a worker took up. *)
Record Runtime := mkRuntime {
  rt_listening : bool;
  rt_stopping : bool;
  rt_pending : list nat;
  rt_active : list nat;
  rt_workers : list WorkerPhase;
  rt_acceptor : AcceptPhase;
  rt_stop : StopPhase;
  rt_open : gset nat;
  rt_accepted : list nat;
  rt_taken : list nat
}.
#[export] Instance etaRuntime : Eta Runtime := fun r =>
  mkRuntime (rt_listening r) (rt_stopping r) (rt_pending r) (rt_active r) (rt_workers r) (rt_acceptor r) (rt_stop r)
    (rt_open r) (rt_accepted r) (rt_taken r).

(** The pool is never empty and never larger than the limits allow. *)
Definition pool_size (thread_count : Z) (limits : Limits) : nat :=
  Z.to_nat (Z.max 1 (Z.min thread_count (max_worker_threads limits))).

(** [CoordinatorServerRuntime::start], on a bound listener. *)
Definition start_runtime (thread_count : Z) (limits : Limits) : Runtime :=
  mkRuntime true false [] [] (replicate (pool_size thread_count limits) Entering) Looping Running ∅ [] [].

(** ** The accept thread *)

Definition accept_check (rt : Runtime) : Runtime :=
  rt <| rt_acceptor := if rt_stopping rt then Returned else Accepting |>.
Definition accept_connection (c : nat) (rt : Runtime) : Runtime :=
  rt <| rt_acceptor := Connected c |> <| rt_open ::= union {[c]} |> <| rt_accepted ::= fun l => l ++ [c] |>.
Definition accept_enqueue (c : nat) (rt : Runtime) : Runtime :=
  if rt_stopping rt then rt <| rt_acceptor := Returned |> <| rt_open ::= fun o => o ∖ {[c]} |>
  else rt <| rt_acceptor := Notifying |> <| rt_pending ::= fun l => l ++ [c] |>.
(** [notify_one] wakes a parked thread, whichever, when there is one. *)
Definition notify_one (target : option nat) (rt : Runtime) : option Runtime :=
  match target with
  | Some i =>
      if bool_decide (rt_workers rt !! i = Some Parked)
      then Some (rt <| rt_acceptor := Looping |> <| rt_workers ::= <[i := Entering]> |>) else None
  | None => if bool_decide (Parked ∈ rt_workers rt) then None else Some (rt <| rt_acceptor := Looping |>)
  end.

(** ** The worker threads *)

Definition set_worker (i : nat) (phase : WorkerPhase) (rt : Runtime) : Runtime := rt <| rt_workers ::= <[i := phase]> |>.

(** The critical section at the top of [worker_loop]: the predicate of the
    wait, then the queue. *)
Definition worker_enter (i : nat) (rt : Runtime) : Runtime :=
  match rt_pending rt with
  | [] => set_worker i (if rt_stopping rt then Exited else Parked) rt
  | c :: pending =>
      set_worker i (Serving c) rt <| rt_pending := pending |> <| rt_active ::= fun l => l ++ [c] |>
        <| rt_taken ::= fun l => l ++ [c] |>
  end.
Definition worker_deregister (i c : nat) (rt : Runtime) : Runtime :=
  set_worker i (Leaving c) rt <| rt_active ::= filter (fun other => other <> c) |>.
Definition worker_close (i c : nat) (rt : Runtime) : Runtime :=
  set_worker i Entering rt <| rt_open ::= fun o => o ∖ {[c]} |>.

(** ** Stopping *)

Definition wake (phase : WorkerPhase) : WorkerPhase := if bool_decide (phase = Parked) then Entering else phase.

(** The next action of [CoordinatorServerRuntime::stop]; a join waits. *)
Definition stop_advance (rt : Runtime) : option Runtime :=
  match rt_stop rt with
  | Running => Some (rt <| rt_stop := FlagRaised |> <| rt_stopping := true |>)
  | FlagRaised => Some (rt <| rt_stop := ListenerClosed |> <| rt_listening := false |>)
  | ListenerClosed =>
      Some (rt <| rt_stop := QueueCleared |> <| rt_open ::= fun o => o ∖ list_to_set (rt_active rt ++ rt_pending rt) |>
               <| rt_pending := [] |>)
  | QueueCleared => Some (rt <| rt_stop := Woken |> <| rt_workers ::= map wake |>)
  | Woken => if bool_decide (rt_acceptor rt = Returned) then Some (rt <| rt_stop := AcceptJoined |>) else None
  | AcceptJoined =>
      if forallb (fun phase => bool_decide (phase = Exited)) (rt_workers rt)
      then Some (rt <| rt_stop := Stopped |> <| rt_workers := [] |>) else None
  | Stopped => None
  end.

(** ** Interleavings *)

Inductive Event :=
| AcceptorChecks
| ConnectionArrives (c : nat)
| AcceptFails
| AcceptorQueues
| AcceptorNotifies (target : option nat)
| WorkerEnters (i : nat)
| SpuriousWakeup (i : nat)
| RequestArrives (i : nat) (request : Frame)
| RequestDispatched (i : nat)
| ServeEnds (i : nat)
| WorkerLeaves (i : nat)
| WorkerCloses (i : nat)
| StopAdvances.

Section Interleavings.
(** Whether closing the listening socket wakes a thread blocked in [accept];
    systems differ. *)
Variable close_wakes_accept : bool.

(** The event, where the thread is at the point it starts from. *)
Definition perform (event : Event) (rt : Runtime) : option Runtime :=
  match event with
  | AcceptorChecks => if bool_decide (rt_acceptor rt = Looping) then Some (accept_check rt) else None
  | ConnectionArrives c =>
      if bool_decide (rt_acceptor rt = Accepting /\ c ∉ rt_accepted rt) && (rt_listening rt || negb close_wakes_accept)
      then Some (accept_connection c rt) else None
  | AcceptFails => if bool_decide (rt_acceptor rt = Accepting) then Some (rt <| rt_acceptor := Returned |>) else None
  | AcceptorQueues => match rt_acceptor rt with Connected c => Some (accept_enqueue c rt) | _ => None end
  | AcceptorNotifies target => if bool_decide (rt_acceptor rt = Notifying) then notify_one target rt else None
  | WorkerEnters i => if bool_decide (rt_workers rt !! i = Some Entering) then Some (worker_enter i rt) else None
  | SpuriousWakeup i => if bool_decide (rt_workers rt !! i = Some Parked) then Some (set_worker i Entering rt) else None
  | RequestArrives i request =>
      match rt_workers rt !! i with
      | Some (Serving c) => if bool_decide (c ∈ rt_open rt) then Some (set_worker i (Handling c request) rt) else None
      | _ => None
      end
  | RequestDispatched i =>
      match rt_workers rt !! i with Some (Handling c _) => Some (set_worker i (Serving c) rt) | _ => None end
  | ServeEnds i => match rt_workers rt !! i with Some (Serving c) => Some (set_worker i (Served c) rt) | _ => None end
  | WorkerLeaves i => match rt_workers rt !! i with Some (Served c) => Some (worker_deregister i c rt) | _ => None end
  | WorkerCloses i => match rt_workers rt !! i with Some (Leaving c) => Some (worker_close i c rt) | _ => None end
  | StopAdvances => stop_advance rt
  end.

(** A run of events, in the order the scheduler chose. *)
Fixpoint performs (events : list Event) (rt : Runtime) : option Runtime :=
  match events with
  | [] => Some rt
  | event :: events => match perform event rt with Some rt' => performs events rt' | None => None end
  end.

(** The events the threads bring about themselves, without a peer: a blocked
    [accept] that a closed listener ends, and a [serve] whose connection has
    been closed, are among them. *)
Definition own (event : Event) (rt : Runtime) : bool :=
  match event with
  | ConnectionArrives _ | SpuriousWakeup _ | RequestArrives _ _ => false
  | AcceptFails => negb (rt_listening rt) && close_wakes_accept
  | ServeEnds i =>
      match rt_workers rt !! i with Some (Serving c) => bool_decide (c ∉ rt_open rt) | _ => false end
  | _ => true
  end.

Definition is_arrival (event : Event) : bool := match event with RequestArrives _ _ => true | _ => false end.

(** ** What a runtime keeps in order *)

(** The connections of a list of threads. *)
#[local] Abbreviation held := stdpp.base.omap.

Definition served_by (phase : WorkerPhase) : option nat :=
  match phase with Serving c | Handling c _ | Served c => Some c | _ => None end.
Definition held_by (phase : WorkerPhase) : option nat :=
  match phase with Serving c | Handling c _ | Served c | Leaving c => Some c | _ => None end.
Definition accepted_by (acceptor : AcceptPhase) : list nat := match acceptor with Connected c => [c] | _ => [] end.

(** Who is responsible for a connection. *)
Definition holders (rt : Runtime) : list nat :=
  rt_pending rt ++ held held_by (rt_workers rt) ++ accepted_by (rt_acceptor rt).

(** Threads on their way to look at the queue, and a wake-up on its way to one. *)
Definition entering (workers : list WorkerPhase) : nat :=
  sum_list_with (fun phase => match phase with Entering => 1 | _ => 0 end) workers.
#[local] Instance entering_proper : Proper ((≡ₚ) ==> (=)) entering.
Proof. intros l l' Hl. unfold entering. by rewrite Hl. Qed.
Definition signalled (acceptor : AcceptPhase) : nat := match acceptor with Notifying => 1 | _ => 0 end.

Definition phase_number (phase : StopPhase) : nat :=
  match phase with
  | Running => 0 | FlagRaised => 1 | ListenerClosed => 2 | QueueCleared => 3 | Woken => 4 | AcceptJoined => 5 | Stopped => 6
  end.

Record pool_inv (size : nat) (rt : Runtime) : Prop := {
  pool_active : rt_active rt ≡ₚ held served_by (rt_workers rt);
  pool_exclusive : NoDup (holders rt);
  pool_arrivals : NoDup (rt_accepted rt);
  pool_known : forall c, c ∈ holders rt -> c ∈ rt_accepted rt;
  pool_open : forall c, c ∈ rt_open rt -> c ∈ holders rt;
  pool_history : exists lost, rt_accepted rt = rt_taken rt ++ rt_pending rt ++ lost
                   /\ (rt_stopping rt = false -> lost = accepted_by (rt_acceptor rt));
  pool_awake : Parked ∈ rt_workers rt -> length (rt_pending rt) <= entering (rt_workers rt) + signalled (rt_acceptor rt);
  pool_stopping : rt_stopping rt = negb (bool_decide (rt_stop rt = Running));
  pool_listening : rt_listening rt = bool_decide (phase_number (rt_stop rt) < 2);
  pool_cleared : 3 <= phase_number (rt_stop rt) ->
                 rt_pending rt = [] /\ forall c, c ∈ held served_by (rt_workers rt) -> c ∉ rt_open rt;
  pool_woken : 4 <= phase_number (rt_stop rt) -> Parked ∉ rt_workers rt;
  pool_joined : 5 <= phase_number (rt_stop rt) -> rt_acceptor rt = Returned;
  pool_threads : length (rt_workers rt) = if bool_decide (rt_stop rt = Stopped) then 0 else size
}.

(** One worker moving on leaves the others where they are. *)
Lemma worker_moves workers i (phase : WorkerPhase) :
  workers !! i = Some phase ->
  exists others, workers ≡ₚ phase :: others /\ forall phase', <[i := phase']> workers ≡ₚ phase' :: others.
Proof.
  intros Hi. exists (delete i workers). split; [by apply delete_Permutation|]. intros phase'.
  replace (delete i workers) with (delete i (<[i := phase']> workers)).
  - apply delete_Permutation, list_lookup_insert_eq. by eapply lookup_lt_Some.
  - apply list_eq. intros j. destruct (decide (j < i)).
    + rewrite !list_lookup_delete_lt by done. apply list_lookup_insert_ne. lia.
    + rewrite !list_lookup_delete_ge by lia. apply list_lookup_insert_ne. lia.
Qed.

(** The part of the invariant about who holds what. *)
Definition held_once (rt : Runtime) : Prop :=
  NoDup (holders rt) /\ (forall c, c ∈ holders rt -> c ∈ rt_accepted rt) /\ (forall c, c ∈ rt_open rt -> c ∈ holders rt).

Lemma pool_held size rt : pool_inv size rt -> held_once rt.
Proof. intros []. by split_and!. Qed.

Lemma held_once_same rt rt' :
  holders rt' ≡ₚ holders rt -> rt_accepted rt' = rt_accepted rt -> rt_open rt' ⊆ rt_open rt -> held_once rt -> held_once rt'.
Proof.
  intros Hh Ha Ho (Hn & Hk & Hopen). split_and!; [by rewrite Hh| |].
  - intros c Hc. rewrite Ha. apply Hk. by rewrite <- Hh.
  - intros c Hc. rewrite Hh. by apply Hopen, Ho.
Qed.

Lemma held_once_drop rt rt' c :
  holders rt ≡ₚ c :: holders rt' -> rt_accepted rt' = rt_accepted rt -> rt_open rt' = rt_open rt ∖ {[c]} ->
  held_once rt -> held_once rt'.
Proof.
  intros Hh Ha Ho (Hn & Hk & Hopen). rewrite Hh in Hn. apply NoDup_cons in Hn as [Hc Hn]. split_and!; [done| |].
  - intros d Hd. rewrite Ha. apply Hk. rewrite Hh. by right.
  - intros d Hd. rewrite Ho in Hd. apply elem_of_difference in Hd as [Hd Hne]. apply Hopen in Hd. rewrite Hh in Hd.
    apply elem_of_cons in Hd as [->|Hd]; [|done]. by destruct Hne; apply elem_of_singleton.
Qed.

(** Takes an event apart: the guards of [perform], the runtime it leaves, and
    for a worker's event the other workers. *)
Ltac take_event Hp :=
  cbn [perform] in Hp;
  repeat match type of Hp with
  | (if ?b then _ else _) = Some _ => let Hg := fresh "Hguard" in destruct b eqn:Hg; [|discriminate Hp]
  | match ?x with _ => _ end = Some _ => let Hx := fresh "Hat" in destruct x eqn:Hx; try discriminate Hp
  end;
  try (injection Hp as <-); zprop; subst.

Ltac move_worker i :=
  match goal with
  | Hi : ?workers !! i = Some ?phase |- _ =>
      let others := fresh "others" in let Hw := fresh "Hworkers" in let Hm := fresh "Hmoved" in
      destruct (worker_moves workers i phase Hi) as (others & Hw & Hm)
  end.

(** The fields left over by the part about holders. *)
Ltac keep_held Hheld := destruct Hheld as (? & ? & ?); constructor; try done.

Lemma accept_check_inv size rt : pool_inv size rt -> rt_acceptor rt = Looping -> pool_inv size (accept_check rt).
Proof.
  intros Hi Ha. assert (Hh : held_once (accept_check rt)).
  { apply (held_once_same rt); try done; [|by eapply pool_held]. unfold holders, accept_check. simpl. rewrite Ha. by destruct (rt_stopping rt). }
  destruct Hi. unfold accept_check in *. keep_held Hh; simpl.
  - destruct pool_history0 as (lost & He & Hl). exists lost. split; [done|]. intros Hs. rewrite Hs. rewrite (Hl Hs), Ha. done.
  - intros Hp. specialize (pool_awake0 Hp). rewrite Ha in pool_awake0. simpl in pool_awake0. lia.
  - intros Hn. rewrite pool_joined0 in Ha by done. discriminate.
Qed.

Lemma accept_connection_inv size rt c :
  pool_inv size rt -> rt_acceptor rt = Accepting -> c ∉ rt_accepted rt -> pool_inv size (accept_connection c rt).
Proof.
  intros Hi Ha Hc. assert (Hh : held_once (accept_connection c rt)).
  { destruct (pool_held _ _ Hi) as (Hn & Hk & Ho). unfold accept_connection, held_once, holders in *. simpl.
    rewrite Ha in Hn, Hk, Ho. simpl in Hn, Hk, Ho. rewrite app_nil_r in Hn, Hk, Ho. rewrite !app_assoc. split_and!.
    - apply NoDup_app. split_and!; [done|intros d Hd Hd'%list_elem_of_singleton; subst; by apply Hc, Hk|apply NoDup_singleton].
    - intros d [Hd|Hd]%elem_of_app; apply elem_of_app; [left; by apply Hk|by right].
    - intros d Hd. apply elem_of_app. apply elem_of_union in Hd as [Hd%elem_of_singleton|Hd]; [right; by apply list_elem_of_singleton|left; by apply Ho]. }
  destruct Hi. unfold accept_connection in *. keep_held Hh; simpl.
  - apply NoDup_app. split_and!; [done|intros d Hd Hd'%list_elem_of_singleton; by subst|apply NoDup_singleton].
  - destruct pool_history0 as (lost & He & Hl). exists (lost ++ [c]). split; [by rewrite He, !app_assoc|].
    intros Hs. by rewrite (Hl Hs), Ha.
  - intros Hp. specialize (pool_awake0 Hp). rewrite Ha in pool_awake0. done.
  - intros Hn. destruct (pool_cleared0 Hn) as [He Hclosed]. split; [done|]. intros d Hd Hd'.
    apply elem_of_union in Hd' as [->%elem_of_singleton|Hd']; [|by apply (Hclosed d)].
    apply Hc, pool_known0. unfold holders. apply elem_of_app. right. apply elem_of_app. left.
    apply list_elem_of_omap in Hd as (phase & Hin & Hs). apply list_elem_of_omap. exists phase. split; [done|]. by destruct phase.
  - intros Hn. rewrite pool_joined0 in Ha by done. discriminate.
Qed.

Lemma accept_fails_inv size rt : pool_inv size rt -> rt_acceptor rt = Accepting -> pool_inv size (rt <| rt_acceptor := Returned |>).
Proof.
  intros Hi Ha. assert (Hh : held_once (rt <| rt_acceptor := Returned |>)).
  { apply (held_once_same rt); try done; [|by eapply pool_held]. unfold holders. simpl. by rewrite Ha. }
  destruct Hi. keep_held Hh; simpl.
  - destruct pool_history0 as (lost & He & Hl). exists lost. split; [done|]. intros Hs. by rewrite (Hl Hs), Ha.
  - intros Hp. specialize (pool_awake0 Hp). by rewrite Ha in pool_awake0.
Qed.

Lemma accept_enqueue_inv size rt c : pool_inv size rt -> rt_acceptor rt = Connected c -> pool_inv size (accept_enqueue c rt).
Proof.
  intros Hi Ha. unfold accept_enqueue. destruct (rt_stopping rt) eqn:Hs.
  - assert (Hh : held_once (rt <| rt_acceptor := Returned |> <| rt_open ::= fun o => o ∖ {[c]} |>)).
    { apply (held_once_drop rt _ c); try done; [|by eapply pool_held]. unfold holders. simpl. rewrite Ha. simpl.
      rewrite app_nil_r, app_assoc. symmetry. apply Permutation_cons_append. }
    destruct Hi. keep_held Hh; simpl.
    + destruct pool_history0 as (lost & He & Hl). exists lost. split; [done|]. congruence.
    + intros Hp. specialize (pool_awake0 Hp). by rewrite Ha in pool_awake0.
    + intros Hn. destruct (pool_cleared0 Hn) as [He Hclosed]. split; [done|]. intros d Hd [Hd' _]%elem_of_difference. by apply (Hclosed d Hd).
  - assert (Hh : held_once (rt <| rt_acceptor := Notifying |> <| rt_pending ::= fun l => l ++ [c] |>)).
    { apply (held_once_same rt); try done; [|by eapply pool_held]. unfold holders. simpl. rewrite Ha. simpl. rewrite app_nil_r, <- app_assoc.
      apply Permutation_app_head, Permutation_app_comm. }
    destruct Hi.
    assert (Hrunning : rt_stop rt = Running) by (rewrite pool_stopping0 in Hs; by destruct (rt_stop rt)).
    keep_held Hh; simpl.
    + destruct pool_history0 as (lost & He & Hl). exists []. split; [|done]. rewrite He, (Hl Hs), Ha. simpl. by rewrite app_nil_r.
    + intros Hp. specialize (pool_awake0 Hp). rewrite Ha in pool_awake0. simpl in pool_awake0. rewrite length_app. simpl. lia.
    + rewrite Hrunning. simpl. lia.
    + rewrite Hrunning. simpl. lia.
Qed.

Lemma notify_one_inv size rt rt' target :
  pool_inv size rt -> rt_acceptor rt = Notifying -> notify_one target rt = Some rt' -> pool_inv size rt'.
Proof.
  intros Hi Ha Hp. unfold notify_one in Hp. destruct target as [i|]; case_bool_decide as Hpark; try discriminate; injection Hp as <-.
  - move_worker i. specialize (Hmoved Entering).
    assert (Hh : held_once (rt <| rt_acceptor := Looping |> <| rt_workers ::= <[i := Entering]> |>)).
    { apply (held_once_same rt); try done; [|by eapply pool_held]. unfold holders. simpl. rewrite Ha, Hmoved, Hworkers. done. }
    destruct Hi. keep_held Hh; simpl.
    + by rewrite Hmoved, pool_active0, Hworkers.
    + destruct pool_history0 as (lost & He & Hl). exists lost. split; [done|]. intros Hs. by rewrite (Hl Hs), Ha.
    + intros _. rewrite Hmoved. simpl. assert (Hin : Parked ∈ rt_workers rt) by (by eapply list_elem_of_lookup_2).
      specialize (pool_awake0 Hin). rewrite Ha, Hworkers in pool_awake0. simpl in pool_awake0. lia.
    + intros Hn. destruct (pool_cleared0 Hn) as [He Hc]. split; [done|]. intros c. rewrite Hmoved. intros Hd. apply Hc. by rewrite Hworkers.
    + intros Hn Hin. apply (pool_woken0 Hn). by eapply list_elem_of_lookup_2.
    + intros Hn. rewrite pool_joined0 in Ha by done. discriminate.
    + by rewrite length_insert.
  - assert (Hh : held_once (rt <| rt_acceptor := Looping |>)).
    { apply (held_once_same rt); try done; [|by eapply pool_held]. unfold holders. simpl. by rewrite Ha. }
    destruct Hi. keep_held Hh; simpl.
    + destruct pool_history0 as (lost & He & Hl). exists lost. split; [done|]. intros Hs. by rewrite (Hl Hs), Ha.
    + intros Hn. rewrite pool_joined0 in Ha by done. discriminate.
Qed.

Lemma parked_others workers workers' phase phase' (others : list WorkerPhase) :
  workers ≡ₚ phase :: others -> workers' ≡ₚ phase' :: others -> phase' <> Parked -> Parked ∈ workers' -> Parked ∈ workers.
Proof. intros -> -> Hp [Heq|Hin]%elem_of_cons; [congruence|]. by right. Qed.

(** Events of a worker that leave the shared state alone and do not park it. *)
Lemma set_worker_inv size rt i phase phase' :
  pool_inv size rt -> rt_workers rt !! i = Some phase ->
  served_by phase' = served_by phase -> held_by phase' = held_by phase -> phase' <> Parked -> phase <> Entering ->
  pool_inv size (set_worker i phase' rt).
Proof.
  intros Hi Hat Hs Hh' Hp Hne. move_worker i. specialize (Hmoved phase').
  assert (Hh : held_once (set_worker i phase' rt)).
  { apply (held_once_same rt); try done; [|by eapply pool_held]. unfold holders, set_worker. simpl. rewrite Hmoved, Hworkers. simpl. by rewrite Hh'. }
  destruct Hi. unfold set_worker in *. keep_held Hh; simpl.
  - rewrite Hmoved, pool_active0, Hworkers. simpl. by rewrite Hs.
  - intros Hin. apply (parked_others _ _ _ _ _ Hworkers Hmoved) in Hin; [|done]. specialize (pool_awake0 Hin). rewrite Hmoved.
    rewrite Hworkers in pool_awake0. simpl in *. destruct phase; try done; lia.
  - intros Hn. destruct (pool_cleared0 Hn) as [He Hc]. split; [done|]. intros c. rewrite Hmoved. simpl. rewrite Hs.
    intros Hd. apply Hc. by rewrite Hworkers.
  - intros Hn. intros Hin. apply (parked_others _ _ _ _ _ Hworkers Hmoved) in Hin; [|done]. by apply (pool_woken0 Hn).
  - by rewrite length_insert.
Qed.

Lemma worker_enter_inv size rt i :
  pool_inv size rt -> rt_workers rt !! i = Some Entering -> pool_inv size (worker_enter i rt).
Proof.
  intros Hi Hat. move_worker i. unfold worker_enter. destruct (rt_pending rt) as [|c pending] eqn:Hpending.
  - set (phase' := if rt_stopping rt then Exited else Parked). specialize (Hmoved phase').
    assert (Hnone : served_by phase' = None /\ held_by phase' = None) by (subst phase'; by destruct (rt_stopping rt)).
    destruct Hnone as [Hs Hh'].
    assert (Hh : held_once (set_worker i phase' rt)).
    { apply (held_once_same rt); try done; [|by eapply pool_held]. unfold holders, set_worker. simpl. rewrite Hmoved, Hworkers. simpl. by rewrite Hh'. }
    destruct Hi. unfold set_worker in *. keep_held Hh; simpl.
    + rewrite Hmoved, pool_active0, Hworkers. simpl. by rewrite Hs.
    + intros _. rewrite Hpending. simpl. lia.
    + intros Hn. split; [done|]. intros d. rewrite Hmoved. simpl. rewrite Hs. intros Hd. apply (pool_cleared0 Hn). by rewrite Hworkers.
    + intros Hn. specialize (pool_woken0 Hn). rewrite Hmoved. rewrite Hworkers in pool_woken0.
      intros [Heq|Hin]%elem_of_cons; [|apply pool_woken0; by right]. subst phase'. rewrite pool_stopping0 in Heq.
      by destruct (rt_stop rt); try done; simpl in Hn; lia.
    + by rewrite length_insert.
  - specialize (Hmoved (Serving c)).
    match goal with |- pool_inv _ ?r => assert (Hh : held_once r) end.
    { apply (held_once_same rt); try done; [|by eapply pool_held]. unfold holders, set_worker. simpl. rewrite Hmoved, Hworkers, Hpending. simpl.
      symmetry. apply Permutation_middle. }
    destruct Hi. unfold set_worker in *. keep_held Hh; simpl.
    + rewrite Hmoved, pool_active0, Hworkers. simpl. symmetry. apply Permutation_cons_append.
    + destruct pool_history0 as (lost & He & Hl). exists lost. split; [|done]. rewrite He, Hpending. by rewrite <- app_assoc.
    + intros Hin. apply (parked_others _ _ _ _ _ Hworkers Hmoved) in Hin; [|done]. specialize (pool_awake0 Hin). rewrite Hmoved.
      rewrite Hworkers, Hpending in pool_awake0. simpl in *. lia.
    + intros Hn. destruct (pool_cleared0 Hn) as [He _]. rewrite Hpending in He. discriminate.
    + intros Hn. intros Hin. apply (parked_others _ _ _ _ _ Hworkers Hmoved) in Hin; [|done]. by apply (pool_woken0 Hn).
    + by rewrite length_insert.
Qed.

Lemma filter_other c (l : list nat) : c ∉ l -> filter (fun other => other <> c) l = l.
Proof.
  induction l as [|d l IH]; [done|]. intros [Hd Hl]%not_elem_of_cons. rewrite filter_cons. by rewrite decide_True, IH by done.
Qed.

Lemma held_exclusive size rt c phase others :
  pool_inv size rt -> rt_workers rt ≡ₚ phase :: others -> held_by phase = Some c -> c ∉ held served_by others.
Proof.
  intros Hi Hw Hh Hin. pose proof (pool_exclusive _ _ Hi) as Hn. unfold holders in Hn. rewrite Hw in Hn. simpl in Hn. rewrite Hh in Hn.
  apply NoDup_app in Hn as (_ & _ & Hn). apply NoDup_app in Hn as (Hn & _ & _). apply NoDup_cons in Hn as [Hn _]. apply Hn.
  apply list_elem_of_omap in Hin as (other & Ho & Hs). apply list_elem_of_omap. exists other. split; [done|]. by destruct other.
Qed.

Lemma worker_deregister_inv size rt i c :
  pool_inv size rt -> rt_workers rt !! i = Some (Served c) -> pool_inv size (worker_deregister i c rt).
Proof.
  intros Hi Hat. move_worker i. specialize (Hmoved (Leaving c)).
  assert (Hc : c ∉ held served_by others) by (by eapply held_exclusive).
  assert (Hh : held_once (worker_deregister i c rt)).
  { apply (held_once_same rt); try done; [|by eapply pool_held]. unfold holders, worker_deregister, set_worker. simpl. by rewrite Hmoved, Hworkers. }
  destruct Hi. unfold worker_deregister, set_worker in *. keep_held Hh; simpl.
  - rewrite Hmoved, pool_active0, Hworkers. simpl. rewrite filter_cons, decide_False by auto. by rewrite filter_other.
  - intros Hin. apply (parked_others _ _ _ _ _ Hworkers Hmoved) in Hin; [|done]. specialize (pool_awake0 Hin). rewrite Hmoved.
    by rewrite Hworkers in pool_awake0.
  - intros Hn. destruct (pool_cleared0 Hn) as [He Hcl]. split; [done|]. intros d. rewrite Hmoved. simpl.
    intros Hd. apply Hcl. rewrite Hworkers. by right.
  - intros Hn. intros Hin. apply (parked_others _ _ _ _ _ Hworkers Hmoved) in Hin; [|done]. by apply (pool_woken0 Hn).
  - by rewrite length_insert.
Qed.

Lemma worker_close_inv size rt i c :
  pool_inv size rt -> rt_workers rt !! i = Some (Leaving c) -> pool_inv size (worker_close i c rt).
Proof.
  intros Hi Hat. move_worker i. specialize (Hmoved Entering).
  assert (Hh : held_once (worker_close i c rt)).
  { apply (held_once_drop rt _ c); try done; [|by eapply pool_held]. unfold holders, worker_close, set_worker. simpl.
    rewrite Hmoved, Hworkers. simpl. symmetry. apply Permutation_middle. }
  destruct Hi. unfold worker_close, set_worker in *. keep_held Hh; simpl.
  - by rewrite Hmoved, pool_active0, Hworkers.
  - intros Hin. apply (parked_others _ _ _ _ _ Hworkers Hmoved) in Hin; [|done]. specialize (pool_awake0 Hin). rewrite Hmoved.
    rewrite Hworkers in pool_awake0. simpl in *. lia.
  - intros Hn. destruct (pool_cleared0 Hn) as [He Hcl]. split; [done|]. intros d. rewrite Hmoved. simpl.
    intros Hd [Hd' _]%elem_of_difference. apply (Hcl d); [|done]. by rewrite Hworkers.
  - intros Hn. intros Hin. apply (parked_others _ _ _ _ _ Hworkers Hmoved) in Hin; [|done]. by apply (pool_woken0 Hn).
  - by rewrite length_insert.
Qed.

Lemma wake_served (workers : list WorkerPhase) : held served_by (map wake workers) = held served_by workers.
Proof. induction workers as [|phase workers IH]; [done|]. destruct phase; cbn; try done; by f_equal. Qed.
Lemma wake_held (workers : list WorkerPhase) : held held_by (map wake workers) = held held_by workers.
Proof. induction workers as [|phase workers IH]; [done|]. destruct phase; cbn; try done; by f_equal. Qed.
Lemma wake_parked workers : Parked ∉ map wake workers.
Proof. intros (phase & Heq & _)%list_elem_of_fmap. unfold wake in Heq. by destruct phase. Qed.

Lemma exited_served workers :
  forallb (fun phase => bool_decide (phase = Exited)) workers = true -> held held_by workers = [].
Proof. induction workers as [|phase workers IH]; simpl; [done|]. intros [?%bool_decide_eq_true ?]%andb_true_iff. subst. by apply IH. Qed.

Lemma served_held (workers : list WorkerPhase) (c : nat) : c ∈ held served_by workers -> c ∈ held held_by workers.
Proof.
  intros (phase & Ho & Hs)%list_elem_of_omap. apply list_elem_of_omap. exists phase. split; [done|]. by destruct phase.
Qed.

Lemma stop_advance_inv size rt rt' : pool_inv size rt -> stop_advance rt = Some rt' -> pool_inv size rt'.
Proof.
  intros Hi Hp. pose proof (pool_held _ _ Hi) as Hheld. unfold stop_advance in Hp. destruct (rt_stop rt) eqn:Hphase.
  - injection Hp as <-. destruct Hi. rewrite Hphase in *. constructor; simpl in *; try done; try lia.
    destruct pool_history0 as (lost & He & _). by exists lost.
  - injection Hp as <-. destruct Hi. rewrite Hphase in *. constructor; simpl in *; try done; lia.
  - injection Hp as <-.
    assert (Hopen : forall c, c ∈ rt_open rt ∖ list_to_set (rt_active rt ++ rt_pending rt) ->
              c ∈ held held_by (rt_workers rt) ++ accepted_by (rt_acceptor rt)
              /\ c ∉ held served_by (rt_workers rt)).
    { intros c [Hc Hn]%elem_of_difference. rewrite elem_of_list_to_set, elem_of_app in Hn.
      destruct Hheld as (_ & _ & Ho). specialize (Ho c Hc). unfold holders in Ho. apply elem_of_app in Ho as [Ho|Ho]; [tauto|].
      split; [done|]. intros Hs. apply Hn. left. by rewrite (pool_active _ _ Hi). }
    destruct Hi. rewrite Hphase in *. constructor; simpl in *; try done; try lia.
    + unfold holders in *. simpl. by apply NoDup_app in pool_exclusive0 as (_ & _ & ?).
    + intros c Hc. apply pool_known0. unfold holders. apply elem_of_app. by right.
    + intros c Hc. by apply Hopen.
    + destruct pool_history0 as (lost & He & _). exists (rt_pending rt ++ lost). split; [done|]. by rewrite pool_stopping0.
    + intros _. split; [done|]. intros c Hs Hc. by apply (Hopen c Hc).
  - injection Hp as <-. destruct Hi. rewrite Hphase in *. constructor; simpl in *; try done; try lia.
    + by rewrite wake_served.
    + unfold holders in *. simpl. by rewrite wake_held.
    + unfold holders in *. simpl. by rewrite wake_held.
    + unfold holders in *. simpl. by rewrite wake_held.
    + intros Hin. by apply wake_parked in Hin.
    + intros _. rewrite wake_served. by apply pool_cleared0.
    + intros _. apply wake_parked.
    + by rewrite length_map.
  - case_bool_decide as Ha; [|done]. injection Hp as <-. destruct Hi. rewrite Hphase in *. constructor; simpl in *; try done; try lia.
    + intros _. apply pool_cleared0. lia.
    + intros _. apply pool_woken0. lia.
  - destruct (forallb _ _) eqn:He; [|done]. injection Hp as <-. apply exited_served in He.
    assert (Hs : held served_by (rt_workers rt) = []).
    { destruct (held served_by (rt_workers rt)) as [|c l] eqn:Heq; [done|]. assert (Hin : c ∈ held served_by (rt_workers rt)) by (rewrite Heq; left).
      apply served_held in Hin. rewrite He in Hin. by apply elem_of_nil in Hin. }
    destruct Hi. rewrite Hphase in *. constructor; simpl in *; try done; try lia.
    + by rewrite <- Hs.
    + unfold holders in *. simpl. by rewrite He in pool_exclusive0.
    + unfold holders in *. simpl. by rewrite He in pool_known0.
    + unfold holders in *. simpl. by rewrite He in pool_open0.
    + intros Hin. by apply elem_of_nil in Hin.
    + intros _. split; [by apply pool_cleared0; lia|]. intros c Hin. by apply elem_of_nil in Hin.
    + intros _ Hin. by apply elem_of_nil in Hin.
    + intros _. apply pool_joined0. lia.
  - done.
Qed.

Lemma perform_inv size event rt rt' : pool_inv size rt -> perform event rt = Some rt' -> pool_inv size rt'.
Proof.
  intros Hi Hp. destruct event; take_event Hp.
  - by apply accept_check_inv.
  - destruct_and?. by apply accept_connection_inv.
  - by apply accept_fails_inv.
  - by apply accept_enqueue_inv.
  - by eapply notify_one_inv.
  - by apply worker_enter_inv.
  - by eapply set_worker_inv.
  - by eapply set_worker_inv.
  - by eapply set_worker_inv.
  - by eapply set_worker_inv.
  - by apply worker_deregister_inv.
  - by apply worker_close_inv.
  - by eapply stop_advance_inv.
Qed.

Lemma performs_inv size events rt rt' : pool_inv size rt -> performs events rt = Some rt' -> pool_inv size rt'.
Proof.
  revert rt. induction events as [|event events IH]; simpl; intros rt Hi Hp; [by injection Hp as <-|].
  destruct (perform event rt) as [next|] eqn:He; [|done]. eapply IH; [|done]. by eapply perform_inv.
Qed.

Lemma replicate_served n : held served_by (replicate n Entering) = [] /\ held held_by (replicate n Entering) = [].
Proof. induction n as [|n [IH1 IH2]]; [done|]. by split. Qed.

Lemma start_inv thread_count limits :
  pool_inv (pool_size thread_count limits) (start_runtime thread_count limits).
Proof.
  unfold start_runtime. destruct (replicate_served (pool_size thread_count limits)) as [Hs Hh].
  constructor; unfold holders; simpl; rewrite ?Hs, ?Hh; try done; try lia.
  - constructor.
  - constructor.
  - by exists [].
  - by rewrite length_replicate.
Qed.

(** ** Winding down *)

Definition weight (phase : WorkerPhase) : nat :=
  match phase with
  | Exited => 0 | Entering => 1 | Parked => 2 | Leaving _ => 2 | Served _ => 3 | Serving _ => 4 | Handling _ _ => 5
  end.
Definition acceptor_weight (acceptor : AcceptPhase) : nat :=
  match acceptor with Returned => 0 | Looping => 1 | Connected _ => 2 | Notifying => 2 | Accepting => 3 end.

(** How many events a stopping runtime has left, but for requests still coming in. *)
Definition remaining (rt : Runtime) : nat :=
  sum_list_with weight (rt_workers rt) + 4 * length (rt_pending rt) + acceptor_weight (rt_acceptor rt)
  + (6 - phase_number (rt_stop rt)).

Lemma remaining_worker i phase phase' rt :
  rt_workers rt !! i = Some phase ->
  sum_list_with weight (<[i := phase']> (rt_workers rt)) + weight phase = sum_list_with weight (rt_workers rt) + weight phase'.
Proof. intros Hat. move_worker i. rewrite (Hmoved phase'), Hworkers. simpl. lia. Qed.

Lemma remaining_wake workers : sum_list_with weight (map wake workers) <= sum_list_with weight workers.
Proof. induction workers as [|phase workers IH]; simpl; [done|]. destruct phase; simpl; lia. Qed.

(** Once stopping, every event uses up what remains, except for the arrival of
    a request, which adds one. *)
Lemma perform_remaining event rt rt' :
  rt_stopping rt = true -> perform event rt = Some rt' ->
  remaining rt' + 1 <= remaining rt + (if is_arrival event then 2 else 0) /\ rt_stopping rt' = true.
Proof.
  intros Hs Hp. destruct event; take_event Hp; unfold remaining, is_arrival;
    try (match goal with
         | Hat : rt_workers rt !! ?i = Some ?phase |- context [?change ?i ?phase' rt] =>
             first [pose proof (remaining_worker i phase phase' rt Hat)
                   |pose proof (remaining_worker i phase (Leaving phase') rt Hat)]
         end; simpl in *; split; [lia|done]).
  - unfold accept_check. simpl. rewrite Hguard, Hs. simpl. split; [lia|done].
  - destruct_and?. simpl. match goal with H : rt_acceptor rt = _ |- _ => rewrite H end. simpl. split; [lia|done].
  - simpl. rewrite Hguard. simpl. split; [lia|done].
  - unfold accept_enqueue. rewrite Hs. simpl. rewrite Hat. simpl. split; [lia|done].
  - unfold notify_one in Hp. destruct target as [i|]; case_bool_decide as Hpark; try discriminate; injection Hp as <-.
    + pose proof (remaining_worker i Parked Entering rt Hpark). simpl in *. rewrite Hguard. simpl. split; [lia|done].
    + simpl. rewrite Hguard. simpl. split; [lia|done].
  - unfold worker_enter. destruct (rt_pending rt) as [|c pending] eqn:Hpending.
    + pose proof (remaining_worker i Entering (if rt_stopping rt then Exited else Parked) rt Hguard) as Hw.
      rewrite Hs in *. simpl in *. rewrite Hpending. simpl. split; [lia|done].
    + pose proof (remaining_worker i Entering (Serving c) rt Hguard). simpl in *. split; [lia|done].
  - pose proof (remaining_worker i (Leaving c) Entering rt Hat). simpl in *. split; [lia|done].
  - unfold stop_advance in Hp. destruct (rt_stop rt) eqn:Hphase; try discriminate;
      repeat match type of Hp with (if ?b then _ else _) = _ => destruct b; [|discriminate] end;
      injection Hp as <-; simpl; rewrite ?Hphase; simpl; try (split; [lia|done]).
    pose proof (remaining_wake (rt_workers rt)). split; [lia|done].
Qed.

Lemma performs_remaining events rt rt' :
  rt_stopping rt = true -> performs events rt = Some rt' ->
  remaining rt' + length events <= remaining rt + 2 * length (List.filter is_arrival events).
Proof.
  revert rt. induction events as [|event events IH]; simpl; intros rt Hs Hp; [injection Hp as <-; lia|].
  destruct (perform event rt) as [next|] eqn:He; [|done]. apply perform_remaining in He as [Hr Hs']; [|done].
  specialize (IH _ Hs' Hp). destruct (is_arrival event); simpl; lia.
Qed.

Lemma not_all_exited workers :
  forallb (fun phase => bool_decide (phase = Exited)) workers = false -> exists i phase, workers !! i = Some phase /\ phase <> Exited.
Proof.
  induction workers as [|phase workers IH]; simpl; [done|]. case_bool_decide as Hp; simpl.
  - intros (i & other & Hi & Hne)%IH. by exists (S i), other.
  - intros _. by exists 0, phase.
Qed.

Lemma served_size (workers : list WorkerPhase) : length (held served_by workers) <= length workers.
Proof. induction workers as [|phase workers IH]; simpl; [done|]. unfold stdpp.base.omap in *. destruct phase; cbn in *; lia. Qed.

(** A runtime that is stopping and has not stopped is not stuck: one of its own
    threads can go on. *)
Lemma stopping_goes_on size rt :
  close_wakes_accept = true -> pool_inv size rt -> rt_stopping rt = true -> rt_stop rt <> Stopped ->
  exists event rt', own event rt = true /\ perform event rt = Some rt'.
Proof.
  intros Hwakes Hi Hs Hrun. destruct (decide (phase_number (rt_stop rt) < 4)) as [Hearly|Hlate].
  { destruct (stop_advance rt) as [rt'|] eqn:Ha; [by exists StopAdvances, rt'|].
    exfalso. unfold stop_advance in Ha. destruct (rt_stop rt); simpl in *; try done; lia. }
  assert (Hlisten : rt_listening rt = false).
  { rewrite (pool_listening _ _ Hi). apply bool_decide_eq_false. lia. }
  destruct (rt_acceptor rt) as [| |c| |] eqn:Hacc.
  - eexists AcceptorChecks, _. split; [done|]. cbn. by rewrite bool_decide_eq_true_2.
  - eexists AcceptFails, _. split; [cbn; by rewrite Hlisten, Hwakes|]. cbn. by rewrite bool_decide_eq_true_2.
  - eexists AcceptorQueues, _. split; [done|]. cbn. by rewrite Hacc.
  - eexists (AcceptorNotifies None), _. split; [done|]. cbn. rewrite bool_decide_eq_true_2 by done.
    rewrite bool_decide_eq_false_2; [done|]. apply (pool_woken _ _ Hi). lia.
  - destruct (stop_advance rt) as [rt'|] eqn:Ha; [by exists StopAdvances, rt'|].
    assert (Hsome : exists i phase, rt_workers rt !! i = Some phase /\ phase <> Exited).
    { unfold stop_advance in Ha. destruct (rt_stop rt); simpl in *; try lia; try done.
      - rewrite bool_decide_eq_true_2 in Ha by done. discriminate.
      - destruct (forallb _ _) eqn:He; [done|]. by apply not_all_exited. }
    destruct Hsome as (i & phase & Hat & Hphase). destruct phase as [| |c|c request|c|c|]; try done.
    + eexists (WorkerEnters i), _. split; [done|]. cbn. by rewrite bool_decide_eq_true_2.
    + destruct (pool_woken _ _ Hi); [lia|]. by eapply list_elem_of_lookup_2.
    + eexists (ServeEnds i), _. cbn. rewrite Hat. split; [|done]. apply bool_decide_eq_true.
      apply (pool_cleared _ _ Hi); [lia|]. apply list_elem_of_omap. exists (Serving c). split; [|done]. by eapply list_elem_of_lookup_2.
    + eexists (RequestDispatched i), _. cbn. by rewrite Hat.
    + eexists (WorkerLeaves i), _. cbn. by rewrite Hat.
    + eexists (WorkerCloses i), _. cbn. by rewrite Hat.
Qed.

(** A run of the runtime's own threads. *)
Inductive own_run : Runtime -> Runtime -> Prop :=
| own_here rt : own_run rt rt
| own_event rt event next rt' : own event rt = true -> perform event rt = Some next -> own_run next rt' -> own_run rt rt'.

Lemma stopped_clean size rt : pool_inv size rt -> rt_stop rt = Stopped ->
  rt_open rt = ∅ /\ rt_pending rt = [] /\ rt_active rt = [] /\ rt_workers rt = [] /\ rt_acceptor rt = Returned /\ rt_listening rt = false.
Proof.
  intros Hi Hs. pose proof (pool_threads _ _ Hi) as Hw. rewrite Hs in Hw. apply nil_length_inv in Hw.
  assert (Ha : rt_acceptor rt = Returned) by (apply (pool_joined _ _ Hi); rewrite Hs; simpl; lia).
  assert (Hp : rt_pending rt = []) by (apply (pool_cleared _ _ Hi); rewrite Hs; simpl; lia).
  pose proof (pool_active _ _ Hi) as Hact. pose proof (pool_open _ _ Hi) as Ho. unfold holders in Ho.
  rewrite Hw in Hact. rewrite Hp, Hw, Ha in Ho. simpl in *. split_and!; try done.
  - apply leibniz_equiv. intros c. split; [|set_solver]. intros Hc. apply Ho in Hc. by apply elem_of_nil in Hc.
  - by apply Permutation_nil_r.
  - rewrite (pool_listening _ _ Hi), Hs. done.
Qed.

Lemma own_run_stops size rt :
  close_wakes_accept = true -> pool_inv size rt -> rt_stopping rt = true ->
  exists rt', own_run rt rt' /\ rt_stop rt' = Stopped /\ pool_inv size rt'.
Proof.
  intros Hwakes. remember (remaining rt) as n eqn:Hn. revert rt Hn. induction (lt_wf n) as [n _ IH]. intros rt -> Hi Hs.
  destruct (decide (rt_stop rt = Stopped)) as [Hstop|Hstop]; [exists rt; by split_and!; [constructor|..]|].
  destruct (stopping_goes_on size rt) as (event & next & Ho & He); [done..|].
  destruct (perform_remaining _ _ _ Hs He) as [Hr Hs'].
  assert (Harr : is_arrival event = false) by (by destruct event). rewrite Harr in Hr.
  destruct (IH (remaining next)) with (rt := next) as (rt' & Hrun & Hdone); [lia|done|by eapply perform_inv|done|].
  exists rt'. split; [|done]. by econstructor.
Qed.


(** C15: under every interleaving of the accept thread, the workers, peers and a
    thread that stops the runtime: a connection is held by one thread or the
    queue, never by two, and never by none while its socket is open; the table
    of active connections has exactly those being served, at most one per
    worker; workers take connections up in the order of their arrival, each
    once; and no wake-up is lost: while a worker is parked there is for every
    queued connection another thread on its way to the queue, or the
    notification of one still to come. *)
Theorem connections_held_once thread_count limits events rt :
  performs events (start_runtime thread_count limits) = Some rt ->
  NoDup (holders rt) /\ (forall c, c ∈ rt_open rt -> c ∈ holders rt)
  /\ rt_active rt ≡ₚ held served_by (rt_workers rt) /\ length (rt_active rt) <= pool_size thread_count limits
  /\ rt_taken rt `prefix_of` rt_accepted rt /\ NoDup (rt_accepted rt)
  /\ (rt_stopping rt = false -> rt_accepted rt = rt_taken rt ++ rt_pending rt ++ accepted_by (rt_acceptor rt))
  /\ (Parked ∈ rt_workers rt -> length (rt_pending rt) <= entering (rt_workers rt) + signalled (rt_acceptor rt)).
Proof.
  intros Hrun. pose proof (performs_inv _ _ _ _ (start_inv thread_count limits) Hrun) as Hi.
  destruct (pool_history _ _ Hi) as (lost & He & Hl). split_and!; try apply Hi.
  - rewrite (pool_active _ _ Hi). pose proof (pool_threads _ _ Hi) as Hw. pose proof (served_size (rt_workers rt)).
    case_bool_decide; lia.
  - rewrite He. by apply prefix_app_r.
  - intros Hs. by rewrite He, (Hl Hs).
Qed.
End Interleavings.

(** ** The threads and the coordinator *)

Section Composition.
Context `{StorageLaws} `{Formatting} (close_wakes_accept : bool).
Implicit Types (rt : Runtime) (server : Server).

(** The runtime around its coordinator: an event of the threads, the dispatch
    of a request a worker has in hand, or a call of the process itself. *)
Inductive pool_step : Runtime * Server -> Runtime * Server -> Prop :=
| pool_event event rt rt' server :
    perform close_wakes_accept event rt = Some rt' -> (forall i, event <> RequestDispatched i) ->
    pool_step (rt, server) (rt', server)
| pool_dispatch i c request rt rt' server :
    rt_workers rt !! i = Some (Handling c request) -> perform close_wakes_accept (RequestDispatched i) rt = Some rt' ->
    Forall is_byte (frame_payload request) -> spacious (srv_impl server) ->
    pool_step (rt, server) (rt', (dispatch request server).1)
| pool_local op rt server :
    room op (srv_impl server) -> pool_step (rt, server) (rt, server <| srv_impl ::= exec op |>).

Lemma pool_step_runs rt server rt' server' :
  pool_step (rt, server) (rt', server') ->
  srv_impl server' = srv_impl server \/ exists op, room op (srv_impl server) /\ srv_impl server' = exec op (srv_impl server).
Proof.
  inversion 1; subst; [by left| |right; by exists op]. rewrite dispatch_exec.
  destruct (operation_of _ _) as [op|] eqn:Ho; [|by left]. right. exists op. split; [|done]. by eapply operation_room.
Qed.

Lemma performs_steps events rt rt' server :
  Forall (fun event => forall i, event <> RequestDispatched i) events ->
  performs close_wakes_accept events rt = Some rt' -> rtc pool_step (rt, server) (rt', server).
Proof.
  intros Hevents. revert rt. induction Hevents as [|event events He _ IH]; intros rt Hp; simpl in Hp; [by injection Hp as ->|].
  destruct (perform close_wakes_accept event rt) as [next|] eqn:Hn; [|done].
  eapply rtc_l; [by eapply pool_event|]. by apply IH.
Qed.

End Composition.

(** ** A run *)

Module Pooled.

(** One worker parks, a connection arrives and wakes it, a request is served
    while a second connection queues, and the runtime is stopped. *)
Definition hello : Frame := mkFrame kProtocolVersion MessageType.HELLO 1 [].
Definition busy : list Event :=
  [WorkerEnters 0; AcceptorChecks; ConnectionArrives 0; AcceptorQueues; AcceptorNotifies (Some 0); WorkerEnters 0;
   RequestArrives 0 hello; AcceptorChecks; ConnectionArrives 1; AcceptorQueues; AcceptorNotifies None; AcceptorChecks;
   StopAdvances].
Definition first : Runtime := start_runtime 1 default_Limits.
Definition after (wakes : bool) (events : list Event) (rt : Runtime) : Runtime := default rt (performs wakes events rt).

(** The same stop where closing the listener leaves [accept] blocked: the
    worker returns, the accept thread does not, and [stop] waits for it. *)
Definition wound_down : list Event :=
  [RequestDispatched 0; StopAdvances; StopAdvances; StopAdvances; ServeEnds 0; WorkerLeaves 0; WorkerCloses 0; WorkerEnters 0].

(** A first worker with a request in hand. *)
Definition opening (request : Frame) : list Event :=
  [AcceptorChecks; ConnectionArrives 0; AcceptorQueues; WorkerEnters 0; RequestArrives 0 request].
Lemma handling `{StorageLaws} `{Formatting} request server :
  exists rt rt', rtc (pool_step true) (start_runtime 1 default_Limits, server) (rt, server)
    /\ rt_workers rt !! 0 = Some (Handling 0 request) /\ perform true (RequestDispatched 0) rt = Some rt'.
Proof.
  assert (Hw : rt_workers <$> performs true (opening request) first = Some [Handling 0 request]) by (vm_compute; reflexivity).
  destruct (performs true (opening request) first) as [rt|] eqn:Hrun; [|discriminate Hw]. apply Some_inj in Hw.
  assert (Hat : rt_workers rt !! 0 = Some (Handling 0 request)) by (by rewrite Hw).
  exists rt, (set_worker 0 (Serving 0) rt). split; [|split; [done|]].
  - apply (performs_steps true (opening request)); [by repeat constructor|done].
  - cbn [perform]. by rewrite Hat.
Qed.
End Pooled.


Lemma connections_held_once_witness :
  let rt := Pooled.after true Pooled.busy Pooled.first in
  performs true Pooled.busy Pooled.first = Some rt /\ rt_accepted rt = [0; 1] /\ rt_taken rt = [0]
  /\ NoDup (holders rt) /\ rt_taken rt `prefix_of` rt_accepted rt.
Proof.
  intros rt. assert (Hrun : performs true Pooled.busy Pooled.first = Some rt) by (vm_compute; reflexivity).
  destruct (connections_held_once true 1 default_Limits Pooled.busy rt Hrun) as (Hn & _ & _ & _ & Hp & _).
  split_and!; [exact Hrun|vm_compute; reflexivity|vm_compute; reflexivity|exact Hn|exact Hp].
Defined.

Lemma blocked_accept_stuck rt event rt' :
  rt_stop rt = Woken -> rt_acceptor rt = Accepting -> (forall i phase, rt_workers rt !! i = Some phase -> phase = Exited) ->
  own false event rt = true -> perform false event rt <> Some rt'.
Proof.
  intros Hs Ha Hexit Hown Hp. destruct event; cbn [own] in Hown; try done; cbn [perform] in Hp;
    try (rewrite Ha in Hp; discriminate Hp);
    try (unfold stop_advance in Hp; rewrite Hs, Ha in Hp; discriminate Hp);
    try (destruct (rt_workers rt !! _) as [phase|] eqn:Hi; [apply Hexit in Hi as ->|]; discriminate Hp).
  by rewrite andb_false_r in Hown.
Qed.

(** Where closing the listening socket does not wake a blocked [accept], as on
    systems where [close] leaves the call of another thread alone, [stop] waits
    for the accept thread until another peer happens to connect: after this
    run nothing the runtime does itself is left. *)
Example stop_waits_for_a_peer :
  exists rt, performs false (Pooled.busy ++ Pooled.wound_down) Pooled.first = Some rt
  /\ rt_stop rt = Woken /\ rt_acceptor rt = Accepting /\ rt_workers rt = [Exited]
  /\ forall event rt', own false event rt = true -> perform false event rt <> Some rt'.
Proof.
  destruct (performs false (Pooled.busy ++ Pooled.wound_down) Pooled.first) as [rt|] eqn:Hrun; [|by vm_compute in Hrun].
  assert (Hfacts : forall rt', performs false (Pooled.busy ++ Pooled.wound_down) Pooled.first = Some rt' ->
            rt_stop rt' = Woken /\ rt_acceptor rt' = Accepting /\ rt_workers rt' = [Exited]).
  { clear rt Hrun. intros rt Hrun. apply (f_equal (fmap (fun rt => (rt_stop rt, rt_acceptor rt, rt_workers rt)))) in Hrun.
    change (Some (Woken, Accepting, [Exited]) = Some (rt_stop rt, rt_acceptor rt, rt_workers rt)) in Hrun. by simplify_eq. }
  destruct (Hfacts rt Hrun) as (Hs & Ha & Hw). exists rt. split_and!; [done..|].
  intros event rt'. apply blocked_accept_stuck; [done..|]. intros i phase Hi. rewrite Hw in Hi. by destruct i; simplify_eq/=.
Qed.

