(* ===== verification/Client.v ===== *)
(** * The client (client.cpp)

    A thin wrapper over the framed protocol: each operation encodes its
    request, sends one frame, waits for one frame and parses it strictly.  The
    client is written against [Link], what it needs of a connection; a TCP
    connection is one, and so is a channel with a coordinator at its other end,
    over which a remote call is shown to do what the local call does. *)
From S2P Require Import Prelude OMap Error Domain Identity Float64 Model Hash Sorting Canonical State Wire Codec StateCodec Messages MessageCodec Frames Spec Coordinator Authority Evidence Decision Scenario System Inspect Query Transport Server.

(** What [TcpConnection] offers to a client. *)
Class Link (L : Type) := {
  link_send : list Z -> L -> L * Status;
  link_receive : Limits -> L -> L * Result Frame
}.

#[export] Instance connection_link : Link Connection := {
  link_send := send_all;
  link_receive := receive_frame
}.

(** ** The client *)

(** [connection_] is null until the client is connected and after it is
    closed; [cli_observed] is what the outbound observer has been shown. *)
Record Client (L : Type) := mkClient {
  cli_limits : Limits;
  cli_link : option L;
  cli_correlation : Z;
  cli_observed : list (list Z)
}.
Arguments mkClient {L}.
Arguments cli_limits {L}.
Arguments cli_link {L}.
Arguments cli_correlation {L}.
Arguments cli_observed {L}.
#[export] Instance etaClient L : Eta (Client L) := fun r =>
  mkClient (cli_limits r) (cli_link r) (cli_correlation r) (cli_observed r).

Section ClientOperations.
Context {L : Type} `{Link L}.
Implicit Types client : Client L.

Definition client_error (reason : string) : Status := make_error ErrorCode.PROTOCOL_ERROR ErrorStage.TRANSPORT reason.
Definition not_connected : Status := make_error ErrorCode.NOT_FOUND ErrorStage.TRANSPORT "client is not connected".

(** [Client::connect]: [link] is what connecting and setting the socket up gives. *)
Definition connect (limits : Limits) (link : option L) : Result (Client L) :=
  match link with
  | None => Err (make_error ErrorCode.NOT_FOUND ErrorStage.TRANSPORT "cannot connect to the coordinator")
  | Some _ => Ok (mkClient limits link 0 [])
  end.

Definition close_client (client : Client L) : Client L * Status := (client <| cli_link := None |>, success).

Definition next_correlation (client : Client L) : Z * Client L :=
  let correlation := u64 (cli_correlation client + 1) in (correlation, client <| cli_correlation := correlation |>).

(** [Client::request]. *)
Definition request (type : MessageType) (payload : list Z) (client : Client L) : Client L * Result Frame :=
  match cli_link client with
  | None => (client, Err not_connected)
  | Some link =>
      let '(correlation, client) := next_correlation client in
      match encode_frame (mkFrame kProtocolVersion type correlation payload) (cli_limits client) with
      | Err s => (client, Err s)
      | Ok bytes =>
          let client := client <| cli_observed ::= fun l => l ++ [bytes] |> in
          let '(link, sent) := link_send bytes link in
          if negb (status_ok sent) then (client <| cli_link := Some link |>, Err sent)
          else
            let '(link, reply) := link_receive (cli_limits client) link in
            let client := client <| cli_link := Some link |> in
            (client,
             match reply with
             | Err s => Err s
             | Ok reply =>
                 if negb (frame_correlation reply =? correlation) then
                   Err (client_error "reply correlation does not match the outstanding request")
                 else if bool_decide (frame_type reply = MessageType.ERROR_REPLY) then
                   match decode_error_reply (frame_payload reply) (cli_limits client) with
                   | Err s => Err s
                   | Ok value => Err (errr_status value)
                   end
                 else Ok reply
             end)
      end
  end.

(** A reply of the expected type, parsed. *)
Definition expect {A} (type : MessageType) (reason : string) (decode : list Z -> Limits -> Result A)
    (answer : Client L * Result Frame) : Client L * Result A :=
  let '(client, reply) := answer in
  (client,
   match reply with
   | Err s => Err s
   | Ok reply =>
       if negb (bool_decide (frame_type reply = type)) then Err (client_error reason)
       else decode (frame_payload reply) (cli_limits client)
   end).

(** The local [decode_ack] of client.cpp. *)
Definition ack_status (frame : Frame) (limits : Limits) : Status :=
  if negb (bool_decide (frame_type frame = MessageType.ACK)) then client_error "unexpected reply type for acknowledge"
  else match decode_ack (frame_payload frame) limits with Err s => s | Ok value => ackr_status value end.

Definition acknowledged (answer : Client L * Result Frame) : Client L * Status :=
  let '(client, reply) := answer in
  (client, match reply with Err s => s | Ok reply => ack_status reply (cli_limits client) end).

Definition client_register_worker (value : RegisterWorkerRequest) (client : Client L) : Client L * Result RegisterWorkerReply :=
  expect MessageType.REGISTER_ACK "unexpected reply type for registration" decode_register_reply
    (request MessageType.REGISTER_WORKER (encode_register_worker value) client).
Definition client_claim_trials (value : ClaimTrialRequest) (client : Client L) : Client L * Result ClaimTrialReply :=
  expect MessageType.CLAIM_RESULT "unexpected reply type for claim" decode_claim_reply
    (request MessageType.CLAIM_TRIAL (encode_claim_trial value) client).
Definition client_publish_observation (value : PublishObservationRequest) (client : Client L) : Client L * Status :=
  acknowledged (request MessageType.PUBLISH_OBSERVATION (encode_publish_observation value) client).
Definition client_publish_artifact (value : PublishArtifactRequest) (client : Client L) : Client L * Status :=
  acknowledged (request MessageType.PUBLISH_ARTIFACT (encode_publish_artifact value) client).
Definition client_commit_trial (value : CommitTrialRequest) (client : Client L) : Client L * Status :=
  acknowledged (request MessageType.COMMIT_TRIAL (encode_commit_trial value) client).
Definition client_fail_trial (value : FailTrialRequest) (client : Client L) : Client L * Status :=
  acknowledged (request MessageType.FAIL_TRIAL (encode_fail_trial value) client).
Definition client_heartbeat (value : HeartbeatRequest) (client : Client L) : Client L * Status :=
  acknowledged (request MessageType.HEARTBEAT (encode_heartbeat value) client).
Definition client_cancel_trial (value : CancelTrialRequest) (client : Client L) : Client L * Status :=
  acknowledged (request MessageType.CANCEL_TRIAL (encode_cancel_trial value) client).
Definition client_cancel_experiment (value : CancelExperimentRequest) (client : Client L) : Client L * Status :=
  acknowledged (request MessageType.CANCEL_EXPERIMENT (encode_cancel_experiment value) client).
Definition client_rollback (value : RollbackRequest) (client : Client L) : Client L * Status :=
  acknowledged (request MessageType.ROLLBACK (encode_rollback value) client).

Definition client_finalize_experiment (value : FinalizeExperimentRequest) (client : Client L) : Client L * Result Decision :=
  let '(client, decoded) :=
    expect MessageType.FINALIZE_EXPERIMENT "unexpected reply type for finalization" decode_decision_reply
      (request MessageType.FINALIZE_EXPERIMENT (encode_finalize_experiment value) client) in
  (client,
   match decoded with
   | Err s => Err s
   | Ok (status, decision) => if negb (status_ok status) then Err status else Ok decision
   end).

Definition client_query (kind : QueryKind) (argument : string) (client : Client L) : Client L * Result (list string) :=
  let '(client, decoded) :=
    expect MessageType.QUERY_RESULT "unexpected reply type for query" decode_query_result
      (request MessageType.QUERY (encode_query_request kind argument) client) in
  (client, match decoded with Err s => Err s | Ok value => unwrap_query_lines value end).

(** [Client::shutdown]: neither observed nor matched with its reply. *)
Definition client_shutdown (client : Client L) : Client L * Status :=
  let '(correlation, client) := next_correlation client in
  match cli_link client with
  | None => (client, not_connected)
  | Some link =>
      match encode_frame (mkFrame kProtocolVersion MessageType.SHUTDOWN correlation []) (cli_limits client) with
      | Err s => (client, s)
      | Ok bytes =>
          let '(link, sent) := link_send bytes link in
          if negb (status_ok sent) then (client <| cli_link := Some link |>, sent)
          else
            let '(link, reply) := link_receive (cli_limits client) link in
            (client <| cli_link := Some link |>,
             match reply with Err s => s | Ok reply => ack_status reply (cli_limits client) end)
      end
  end.

Definition send_raw (bytes : list Z) (client : Client L) : Client L * Status :=
  match cli_link client with
  | None => (client, not_connected)
  | Some link => let '(link, sent) := link_send bytes link in (client <| cli_link := Some link |>, sent)
  end.

Definition send_raw_and_receive (bytes : list Z) (client : Client L) : Client L * Result Frame :=
  match cli_link client with
  | None => (client, Err not_connected)
  | Some link =>
      let '(link, sent) := link_send bytes link in
      if negb (status_ok sent) then (client <| cli_link := Some link |>, Err sent)
      else
        let '(link, reply) := link_receive (cli_limits client) link in (client <| cli_link := Some link |>, reply)
  end.

End ClientOperations.

(** ** A coordinator at the other end *)

Section Loopback.
Context `{Storage} `{Formatting}.

(** The server and the bytes on their way to the client; nothing is lost. *)
Record Channel := mkChannel { chan_server : Server; chan_inbox : list Z }.

Definition channel_send (bytes : list Z) (channel : Channel) : Channel * Status :=
  let '(server, connection) := serve (S (length bytes)) (chan_server channel) (mkConnection true [Bytes bytes] [] []) in
  (mkChannel server (chan_inbox channel ++ conn_sent connection), success).
Definition channel_receive (limits : Limits) (channel : Channel) : Channel * Result Frame :=
  let '(connection, frame) := receive_frame limits (mkConnection true [Bytes (chan_inbox channel)] [] []) in
  (mkChannel (chan_server channel) (stream (conn_arrivals connection)), frame).

#[global] Instance channel_link : Link Channel := {
  link_send := channel_send;
  link_receive := channel_receive
}.

Lemma bytes_stream bytes : stream [Bytes bytes] = bytes.
Proof. unfold stream. cbn. by rewrite app_nil_r. Qed.
Lemma bytes_intact bytes : intact [Bytes bytes].
Proof. unfold intact. rewrite not_elem_of_cons. split; [done|apply not_elem_of_nil]. Qed.

Lemma encode_frame_bytes frame limits bytes :
  encode_frame frame limits = Ok bytes -> Forall is_byte (frame_payload frame) -> Forall is_byte bytes /\ (1 < length bytes)%nat.
Proof.
  unfold encode_frame. intros He Hp. destruct (negb _); [done|]. destruct (bool_decide _); [done|]. destruct (_ <? _); [done|].
  apply Ok_inj in He as <-. split.
  - unfold encode_frame_header, header_words, put_u32, put_u16, put_u64. rewrite !Forall_app. repeat split; try apply le_bytes_bytes. done.
  - rewrite length_app, encode_frame_header_length. lia.
Qed.

(** One request frame in, one reply frame out. *)
Lemma channel_exchange limits frame bytes reply rbytes server server' :
  impl_limits (srv_impl server) = limits -> max_frame_payload_bytes limits < u32_modulus ->
  frame_in_range frame -> encode_frame frame limits = Ok bytes ->
  dispatch frame server = (server', reply) -> frame_in_range reply -> encode_frame reply limits = Ok rbytes ->
  channel_send bytes (mkChannel server []) = (mkChannel server' rbytes, success)
  /\ channel_receive limits (mkChannel server' rbytes) = (mkChannel server' [], Ok reply).
Proof.
  intros Hlim Hl Hf He Hd Hr Hre. destruct (encode_frame_bytes _ _ _ He (proj2 Hf)) as [Hb Hlen].
  destruct (encode_frame_bytes _ _ _ Hre (proj2 Hr)) as [Hrb _]. split.
  - unfold channel_send. destruct (length bytes) as [|fuel] eqn:Hn; [lia|]. destruct fuel as [|fuel]; [lia|]. cbn [chan_server].
    set (c0 := mkConnection true [Bytes bytes] [] []).
    destruct (receive_encoded limits c0 frame bytes [] Hl Hf He eq_refl (bytes_intact bytes)) as (c1 & Hc1 & [Ho1 Hs1 Hd1 Hi1] & Hst1);
      [by cbn; rewrite app_nil_r|by cbn; rewrite !app_nil_r|].
    cbn [serve]. rewrite Hlim, Hc1, Hd.
    destruct (send_frame_accepting reply limits c1 rbytes Ho1) as (c2 & -> & Ho2 & _ & Har2 & Hs2);
      [unfold accepting; rewrite Hd1; apply not_elem_of_nil|done|].
    change (status_ok success) with true. cbn iota.
    destruct (receive_nothing (impl_limits (srv_impl server')) c2 Ho2) as (c3 & s & -> & Hs3); [by rewrite Har2|by rewrite Har2|].
    cbn [chan_inbox app]. by rewrite Hs3, Hs2, Hs1.
  - unfold channel_receive. cbn [chan_inbox chan_server].
    destruct (receive_encoded limits (mkConnection true [Bytes rbytes] [] []) reply rbytes [] Hl Hr Hre eq_refl (bytes_intact rbytes))
      as (c1 & -> & _ & ->); [by cbn; rewrite app_nil_r|by cbn; rewrite !app_nil_r|done].
Qed.

End Loopback.

(** ** Remote calls are local calls *)

(** The calls that answer with a status. *)
Inductive RemoteCall :=
| RemotePublishObservation (value : PublishObservationRequest)
| RemotePublishArtifact (value : PublishArtifactRequest)
| RemoteCommitTrial (value : CommitTrialRequest)
| RemoteFailTrial (value : FailTrialRequest)
| RemoteHeartbeat (value : HeartbeatRequest)
| RemoteCancelTrial (value : CancelTrialRequest)
| RemoteCancelExperiment (value : CancelExperimentRequest)
| RemoteRollback (value : RollbackRequest).

Definition remote_message (call : RemoteCall) : Message :=
  match call with
  | RemotePublishObservation value => Message.publish_observation value
  | RemotePublishArtifact value => Message.publish_artifact value
  | RemoteCommitTrial value => Message.commit_trial value
  | RemoteFailTrial value => Message.fail_trial value
  | RemoteHeartbeat value => Message.heartbeat value
  | RemoteCancelTrial value => Message.cancel_trial value
  | RemoteCancelExperiment value => Message.cancel_experiment value
  | RemoteRollback value => Message.rollback value
  end.

Definition remote_type (call : RemoteCall) : MessageType :=
  match call with
  | RemotePublishObservation _ => MessageType.PUBLISH_OBSERVATION
  | RemotePublishArtifact _ => MessageType.PUBLISH_ARTIFACT
  | RemoteCommitTrial _ => MessageType.COMMIT_TRIAL
  | RemoteFailTrial _ => MessageType.FAIL_TRIAL
  | RemoteHeartbeat _ => MessageType.HEARTBEAT
  | RemoteCancelTrial _ => MessageType.CANCEL_TRIAL
  | RemoteCancelExperiment _ => MessageType.CANCEL_EXPERIMENT
  | RemoteRollback _ => MessageType.ROLLBACK
  end.

(** The operation of the client. *)
Definition remote_call {L} `{Link L} (call : RemoteCall) : Client L -> Client L * Status :=
  match call with
  | RemotePublishObservation value => client_publish_observation value
  | RemotePublishArtifact value => client_publish_artifact value
  | RemoteCommitTrial value => client_commit_trial value
  | RemoteFailTrial value => client_fail_trial value
  | RemoteHeartbeat value => client_heartbeat value
  | RemoteCancelTrial value => client_cancel_trial value
  | RemoteCancelExperiment value => client_cancel_experiment value
  | RemoteRollback value => client_rollback value
  end.

(** The operation of the coordinator, on the request with its texts cut at the
    bounds of the writer. *)
Definition local_call `{Storage} `{Formatting} (call : RemoteCall) : Impl -> Call Status :=
  match call with
  | RemotePublishObservation value => publish_observation (clip_publish_observation value)
  | RemotePublishArtifact value => publish_artifact (clip_publish_artifact value)
  | RemoteCommitTrial value => commit_trial (clip_commit_trial value)
  | RemoteFailTrial value => fail_trial (clip_fail_trial value)
  | RemoteHeartbeat value => heartbeat value
  | RemoteCancelTrial value => cancel_trial (canr_trial value) (clip 512 (canr_reason value))
  | RemoteCancelExperiment value => cancel_experiment (canx_experiment value) (clip 512 (canx_reason value))
  | RemoteRollback value => rollback (rolr_experiment value) (rolr_target_generation value) (clip 512 (rolr_reason value))
  end.

Lemma decode_reads limits {A} (r : Reader A) w v : reads true limits r w v -> decode_with r w limits = Ok v.
Proof. intros Hr. by destruct (decode_with_reads true limits r w v Hr) as [[?|[? _]] _]. Qed.

Lemma put_text_size s max : 0 <= max <= 4096 -> size_of (put_text s max) <= 4 + max.
Proof.
  intros Hm. unfold put_text. rewrite size_of_app. change (size_of (put_u32 _)) with 4. unfold size_of. rewrite length_take.
  pose proof (Z.le_min_r (str_size s) max). assert (0 <= str_size s) by (unfold str_size; lia).
  rewrite u32_small by (unfold u32_modulus; lia). lia.
Qed.

Lemma put_text_bytes s max : Forall is_byte (put_text s max).
Proof. apply Forall_app. split; [apply le_bytes_bytes|apply Forall_take, string_bytes_bytes]. Qed.

Lemma encode_status_size status : size_of (encode_status status) <= 1030.
Proof.
  unfold encode_status. rewrite !size_of_app. change (size_of (put_u8 _)) with 1.
  pose proof (put_text_size (status_reason status) 1024 ltac:(lia)). unfold put_u8. change (size_of (le_bytes 1 _)) with 1. lia.
Qed.
Lemma encode_status_bytes status : Forall is_byte (encode_status status).
Proof. unfold encode_status. rewrite !Forall_app. repeat split; try apply le_bytes_bytes. apply put_text_bytes. Qed.

Lemma encode_error_reply_size value : size_of (encode_error_reply value) <= 2062.
Proof.
  unfold encode_error_reply, write_wrapped_status, put_raw. rewrite !size_of_app. change (size_of (put_u32 _)) with 4.
  pose proof (encode_status_size (errr_status value)). pose proof (put_text_size (errr_detail value) 1024 ltac:(lia)).
  unfold put_u32. change (size_of (le_bytes 4 _)) with 4. lia.
Qed.
Lemma encode_error_reply_bytes value : Forall is_byte (encode_error_reply value).
Proof.
  unfold encode_error_reply, write_wrapped_status, put_raw. rewrite !Forall_app.
  repeat split; [apply le_bytes_bytes|apply encode_status_bytes|apply put_text_bytes].
Qed.

Section RemoteCalls.
Context `{Storage} `{Formatting} (limits : Limits).
Hypothesis limits_range : limits_in_range limits = true.
Hypothesis limits_wide : wide_limits true limits = true.
Hypothesis limits_payload : 4096 <= max_frame_payload_bytes limits.

Lemma payload_word : max_frame_payload_bytes limits < u32_modulus.
Proof using limits_range. unfold limits_in_range, fits in limits_range. change (2 ^ 32) with u32_modulus in limits_range. blia. Qed.

(** The dispatched request reaches the operation, which answers by its status. *)
Lemma dispatch_remote call correlation server impl' status :
  impl_limits (srv_impl server) = limits -> fits_message true limits (remote_message call) = true ->
  local_call call (srv_impl server) = (impl', status) ->
  dispatch (mkFrame kProtocolVersion (remote_type call) correlation (encode (remote_message call))) server =
    (server <| srv_impl := impl' |>,
     if status_ok status then make_ack_frame correlation status else make_error_frame correlation status).
Proof using limits_wide.
  intros Hlim Hf Hc. destruct call; cbn [remote_type remote_message encode local_call fits_message] in *;
    unfold dispatch; cbn [frame_type frame_payload frame_correlation]; rewrite Hlim;
    unfold decode_publish_observation, decode_publish_artifact, decode_commit_trial, decode_fail_trial, decode_heartbeat,
      decode_cancel_trial, decode_cancel_experiment, decode_rollback;
    (erewrite decode_reads; [|solve [eauto with codec]]); cbn [on_decoded]; unfold on_status;
    match goal with |- (let '(_, _) := ?call in _) = _ => replace call with (impl', status) by (symmetry; exact Hc) end; reflexivity.
Qed.

Lemma encodable_reply correlation (type : MessageType) payload :
  type <> MessageType.INVALID -> size_of payload <= 4096 ->
  exists bytes, encode_frame (mkFrame kProtocolVersion type correlation payload) limits = Ok bytes.
Proof using limits_payload.
  intros Ht Hs. unfold encode_frame. cbn [frame_version frame_type frame_payload]. rewrite Z.eqb_refl. cbn [negb].
  rewrite bool_decide_eq_false_2 by done. destruct (Z.ltb_spec (max_frame_payload_bytes limits) (size_of payload)); [lia|by eexists].
Qed.

(** What the client makes of the two replies. *)
Lemma ack_read correlation status :
  fits_status true status = true ->
  ack_status (make_ack_frame correlation status) limits = clip_status status.
Proof using limits_wide.
  intros Hf. unfold ack_status, make_ack_frame. cbn [frame_type frame_payload]. rewrite bool_decide_eq_true_2 by done. cbn [negb].
  unfold decode_ack, encode_ack. cbn [ackr_status].
  destruct (decode_encode_status true limits status limits_wide Hf) as [[->|[? _]] _]; done.
Qed.

Lemma error_read correlation status :
  fits_status true status = true ->
  result_map errr_status (decode_error_reply (frame_payload (make_error_frame correlation status)) limits) = Ok (clip_status status).
Proof using limits_range limits_wide limits_payload.
  intros Hf. unfold decode_error_reply, make_error_frame. cbn [frame_payload]. erewrite decode_reads.
  2: { apply reads_error_reply; [done|done|]. unfold fits_error_reply, fits_wrapped_status, fits_count. cbn [errr_status].
       rewrite Hf. pose proof (encode_status_size status). cbn [andb]. lia. }
  done.
Qed.

(** C12: a publication, commit, failure report, heartbeat, cancellation or
    rollback made through a client does to the coordinator at the other end
    exactly what the same call does in process, on the request with its texts
    cut at the documented bounds, and the client is told the status of that
    call, its reason cut at 1024 bytes.  It holds for every request whose
    numbers fit their types and whose frame fits the limits, and for success,
    refusal and error alike; nothing is left on the channel. *)
Theorem remote_call_local call client server impl' status :
  cli_limits client = limits -> impl_limits (srv_impl server) = limits -> cli_link client = Some (mkChannel server []) ->
  fits_message true limits (remote_message call) = true -> Forall is_byte (encode (remote_message call)) ->
  size_of (encode (remote_message call)) <= max_frame_payload_bytes limits ->
  local_call call (srv_impl server) = (impl', status) -> fits_status true status = true ->
  exists client', remote_call call client = (client', clip_status status)
    /\ cli_link client' = Some (mkChannel (server <| srv_impl := impl' |>) []) /\ cli_limits client' = limits.
Proof using limits_range limits_wide limits_payload.
  intros Hcl Hsl Hlink Hf Hb Hsize Hc Hst.
  assert (Hshape : remote_call call client = acknowledged (request (remote_type call) (encode (remote_message call)) client))
    by by destruct call.
  rewrite Hshape. unfold request. rewrite Hlink. cbn [next_correlation].
  set (correlation := u64 (cli_correlation client + 1)). cbn [cli_limits]. change (cli_limits (client <| cli_correlation := correlation |>)) with (cli_limits client).
  rewrite Hcl. set (frame := mkFrame kProtocolVersion (remote_type call) correlation (encode (remote_message call))).
  assert (He : exists bytes, encode_frame frame limits = Ok bytes).
  { unfold encode_frame, frame. cbn [frame_version frame_type frame_payload]. rewrite Z.eqb_refl. cbn [negb].
    rewrite bool_decide_eq_false_2 by by destruct call. destruct (Z.ltb_spec (max_frame_payload_bytes limits) (size_of (encode (remote_message call)))); [lia|by eexists]. }
  destruct He as [bytes He]. rewrite He. cbn [negb].
  pose proof (dispatch_remote call correlation server impl' status Hsl Hf Hc) as Hd. fold frame in Hd.
  assert (Hcorr : 0 <= correlation < u64_modulus) by apply u64_range.
  set (reply := if status_ok status then make_ack_frame correlation status else make_error_frame correlation status) in Hd.
  assert (Hreply : frame_in_range reply /\ exists rbytes, encode_frame reply limits = Ok rbytes).
  { unfold reply. destruct (status_ok status).
    - split; [split; [done|apply encode_status_bytes]|].
      apply encodable_reply; [done|]. pose proof (encode_status_size status). unfold encode_ack. cbn [ackr_status]. lia.
    - split; [split; [done|apply encode_error_reply_bytes]|]. apply encodable_reply; [done|].
      etransitivity; [apply encode_error_reply_size|done]. }
  destruct Hreply as [Hrr [rbytes Hre]].
  destruct (channel_exchange limits frame bytes reply rbytes server _ Hsl payload_word (conj Hcorr Hb) He Hd Hrr Hre) as [Hsend Hrecv].
  cbn [link_send link_receive channel_link]. rewrite Hsend. change (status_ok success) with true. cbn [negb].
  cbn [cli_limits]. change (cli_limits ((client <| cli_correlation := correlation |>) <| cli_observed ::= fun l => l ++ [bytes] |>)) with (cli_limits client).
  rewrite Hcl, Hrecv. unfold acknowledged. match goal with |- exists client', (?c, _) = _ /\ _ => exists c end. split; [|split; [reflexivity|exact Hcl]]. f_equal.
  unfold reply. destruct (status_ok status).
  - cbn [frame_correlation make_ack_frame]. rewrite Z.eqb_refl. cbn [negb frame_type]. rewrite bool_decide_eq_false_2 by done.
    change (cli_limits _) with (cli_limits client). rewrite Hcl. by apply ack_read.
  - pose proof (error_read correlation status Hst) as Herr. cbn [frame_correlation make_error_frame frame_payload] in *.
    rewrite Z.eqb_refl. cbn [negb frame_type]. rewrite bool_decide_eq_true_2 by done.
    change (cli_limits _) with (cli_limits client). rewrite Hcl.
    destruct (decode_error_reply _ limits) as [value|s]; cbn in Herr; [|done]. by apply Ok_inj in Herr as ->.
Qed.
End RemoteCalls.

(** ** Replies the client refuses *)

Lemma push_lines_grow limits lines new : size_of lines <= size_of (push_lines limits lines new).
Proof.
  revert lines. induction new as [|line new IH]; intros lines; [reflexivity|]. cbn. etransitivity; [|apply IH].
  unfold push_limited. destruct (_ <=? _); [reflexivity|]. rewrite size_of_snoc. lia.
Qed.

(** The snapshot query of an experiment whose branches alone fill a report,
    as a few branches with many parameters do, is answered with more lines than
    the client accepts, because the coordinator inserts the branches and the
    hypothesis without counting them; the client's own limit then refuses the
    reply, under the default limits on both sides. *)
Theorem full_snapshot_refused (view : ExperimentSnapshot) :
  max_explanation_lines default_Limits <=
    size_of (flat_map branch_report (stable_sort (id_less branch_id) (def_branches (xsnap_definition view)))) ->
  unwrap_query_lines (query_reply (Ok (render_snapshot default_Limits view))) =
    Err (make_error ErrorCode.RESOURCE_EXHAUSTED ErrorStage.LIMITS "query reply returns too many lines").
Proof.
  intros Hfull. unfold unwrap_query_lines, query_reply. cbn [qres_status qres_lines].
  change (negb (status_ok success)) with false. cbn iota.
  destruct (Z.ltb_spec (max_explanation_lines default_Limits) (size_of (render_snapshot default_Limits view))) as [|Hle]; [done|].
  exfalso. unfold render_snapshot in Hle. revert Hle. apply Z.lt_nge. eapply Z.lt_le_trans; [|apply push_lines_grow].
  rewrite !size_of_app.
  assert (Hb : size_of (render_branches default_Limits view) = max_explanation_lines default_Limits).
  { unfold render_branches. rewrite push_lines_take by done. assert (0 <= max_explanation_lines default_Limits) by done.
    unfold size_of in *. rewrite length_take. cbn [app]. lia. }
  assert (Hs : size_of (push_lines default_Limits [] (snapshot_summary view)) = 14).
  { rewrite push_lines_take by done. reflexivity. }
  pose proof (size_of_nonneg (render_hypothesis default_Limits view)). lia.
Qed.

(** ** At a concrete state *)

Module Remote.

Definition client : Client Channel := mkClient default_Limits (Some (mkChannel Served.server [])) 0 [].
Definition call : RemoteCall := RemoteCommitTrial (Run.commit (Run.envelope 0)).
Definition committed : Impl := Eval vm_compute in (commit_trial (Run.commit (Run.envelope 0)) Run.s5).1.

Definition many_parameters : ExperimentSnapshot := default_ExperimentSnapshot
  <| xsnap_definition := default_ExperimentDefinition
       <| def_branches := [default_BranchDefinition <| branch_parameters := repeat default_ParameterAssignment 4096 |>] |> |>.

End Remote.

Lemma remote_call_local_witness :
  exists client', remote_call Remote.call Remote.client = (client', success)
    /\ cli_link client' = Some (mkChannel (Served.server <| srv_impl := Remote.committed |>) []).
Proof.
  assert (Hf : fits_message true default_Limits (remote_message Remote.call) = true) by by_evaluation.
  assert (Hb : Forall is_byte (encode (remote_message Remote.call))) by (apply forallb_bytes; vm_compute; reflexivity).
  assert (Hs : (size_of (encode (remote_message Remote.call)) <=? max_frame_payload_bytes default_Limits) = true) by by_evaluation.
  assert (Hc : local_call Remote.call (srv_impl Served.server) = (Remote.committed, success)) by by_evaluation.
  assert (Hl : impl_limits (srv_impl Served.server) = default_Limits) by by_evaluation.
  assert (Hw : (4096 <=? max_frame_payload_bytes default_Limits) = true) by by_evaluation.
  destruct (remote_call_local default_Limits eq_refl eq_refl (proj1 (Z.leb_le _ _) Hw) Remote.call Remote.client Served.server
    Remote.committed success eq_refl Hl eq_refl Hf Hb (proj1 (Z.leb_le _ _) Hs) Hc eq_refl) as (client' & Hr & Hk & _).
  exists client'. split; [exact Hr|exact Hk].
Defined.

Lemma full_snapshot_refused_witness :
  unwrap_query_lines (query_reply (Ok (render_snapshot default_Limits Remote.many_parameters))) =
    Err (make_error ErrorCode.RESOURCE_EXHAUSTED ErrorStage.LIMITS "query reply returns too many lines").
Proof.
  assert (Hs : (max_explanation_lines default_Limits <=?
    size_of (flat_map branch_report (stable_sort (id_less branch_id) (def_branches (xsnap_definition Remote.many_parameters))))) = true)
    by by_evaluation.
  exact (full_snapshot_refused Remote.many_parameters (proj1 (Z.leb_le _ _) Hs)).
Defined.
