(* ===== verification/Worker.v ===== *)
(** * The worker (worker.hpp, worker.cpp)

    A worker process registers, claims trials, runs a task on each and reports
    the outcome.  It owns no authority: every request carries the envelope of
    the assignment, and the coordinator checks it again.  The task is the
    caller's code and a parameter here; so is the connection, through [Link].
    However the task behaves, a worker on a channel to a coordinator only ever
    moves it along its own transition system. *)
From S2P Require Import Prelude OMap Error Domain Identity Float64 Model Hash Sorting Canonical State Wire Codec StateCodec Messages MessageCodec Frames Spec Coordinator Authority Evidence Decision Scenario History Invariants System Inspect Query Transport Server Client.

(** ** What a task is given and what it decides *)

Record NamedObservation := mkNamedObservation {
  nobs_metric : string;
  nobs_validity : ObservationValidity;
  nobs_value : MetricValue;
  nobs_detail : string
}.
#[export] Instance etaNamedObservation : Eta NamedObservation := fun r =>
  mkNamedObservation
    (nobs_metric r) (nobs_validity r) (nobs_value r) (nobs_detail r).
Definition default_NamedObservation : NamedObservation :=
  mkNamedObservation ""
    ObservationValidity.VALID default_MetricValue "".

Record NamedArtifact := mkNamedArtifact {
  nart_category : string;
  nart_locator : string;
  nart_content_digest : Digest;
  nart_digest_present : bool;
  nart_size_present : bool;
  nart_size_bytes : Z;
  nart_provenance : string
}.
#[export] Instance etaNamedArtifact : Eta NamedArtifact := fun r =>
  mkNamedArtifact
    (nart_category r) (nart_locator r) (nart_content_digest r) (nart_digest_present r)
    (nart_size_present r) (nart_size_bytes r) (nart_provenance r).
Definition default_NamedArtifact : NamedArtifact :=
  mkNamedArtifact "" "" zero_digest false
    false 0 "".

Record TrialOutcome := mkTrialOutcome {
  out_succeeded : bool;
  out_failure_kind : FailureKind;
  out_failure_detail : string;
  out_retryable : bool;
  out_observations : list NamedObservation;
  out_artifacts : list NamedArtifact;
  out_result_payload : string
}.
#[export] Instance etaTrialOutcome : Eta TrialOutcome := fun r =>
  mkTrialOutcome
    (out_succeeded r) (out_failure_kind r) (out_failure_detail r) (out_retryable r)
    (out_observations r) (out_artifacts r) (out_result_payload r).
Definition default_TrialOutcome : TrialOutcome :=
  mkTrialOutcome false
    FailureKind.EXECUTION_FAILURE "" false [] [] "".

Record WorkerTaskContext := mkWorkerTaskContext {
  ctx_worker : Z;
  ctx_boot : Z;
  ctx_epoch : Z;
  ctx_producer : Z;
  ctx_attempt : Z;
  ctx_parameters : list ParameterAssignment
}.
#[export] Instance etaWorkerTaskContext : Eta WorkerTaskContext := fun r =>
  mkWorkerTaskContext
    (ctx_worker r) (ctx_boot r) (ctx_epoch r) (ctx_producer r) (ctx_attempt r) (ctx_parameters r).
Definition default_WorkerTaskContext : WorkerTaskContext :=
  mkWorkerTaskContext 0 0 0 0 0 [].

Definition TaskFunction : Type := TrialAssignment -> WorkerTaskContext -> TrialOutcome.

(** [WorkerTaskContext::parameter]: the first assignment of the key. *)
Definition context_parameter (key : string) (context : WorkerTaskContext) : option string :=
  match List.find (fun assignment => String.eqb (param_key assignment) key) (ctx_parameters context) with
  | Some assignment => Some (param_value assignment)
  | None => None
  end.

(** [mint_boot_identity], on two draws of the random device and two clocks. *)
Definition mint_boot_identity (high low clock steady : Z) : Z :=
  let value := Z.lxor (u64 (Z.shiftl high 32)) low in
  let value := Z.lxor (Z.lxor value clock) steady in
  if value =? 0 then 1 else value.

(** [Worker::Config]; of the frame log and the progress hook, whether there is one. *)
Record WorkerConfig := mkWorkerConfig {
  wcfg_worker : Z;
  wcfg_forced_boot : option Z;
  wcfg_endpoint : string;
  wcfg_fingerprint : string;
  wcfg_limits : Limits;
  wcfg_max_concurrent_assignments : Z;
  wcfg_frame_log : bool;
  wcfg_progress_hook : bool
}.

(** [Worker::Impl]; [wrk_progress] is what the hook has been called with. *)
Record Worker (L : Type) := mkWorker {
  wrk_config : WorkerConfig;
  wrk_client : Client L;
  wrk_boot : Z;
  wrk_epoch : Z;
  wrk_producer : Z;
  wrk_published : Z;
  wrk_failed : Z;
  wrk_last_error : string;
  wrk_published_observations : Z;
  wrk_progress : list (Z * Z)
}.
Arguments mkWorker {L}.
Arguments wrk_config {L}.
Arguments wrk_client {L}.
Arguments wrk_boot {L}.
Arguments wrk_epoch {L}.
Arguments wrk_producer {L}.
Arguments wrk_published {L}.
Arguments wrk_failed {L}.
Arguments wrk_last_error {L}.
Arguments wrk_published_observations {L}.
Arguments wrk_progress {L}.
#[export] Instance etaWorker L : Eta (Worker L) := fun r =>
  mkWorker (wrk_config r) (wrk_client r) (wrk_boot r) (wrk_epoch r) (wrk_producer r) (wrk_published r) (wrk_failed r)
    (wrk_last_error r) (wrk_published_observations r) (wrk_progress r).

Section WorkerOperations.
Context {L : Type} `{Link L}.
Implicit Types worker : Worker L.

(** [Worker::create]: [minted] is a fresh boot identity, [log_opens] whether
    the frame log can be written, [link] what connecting gives. *)
Definition create_worker (config : WorkerConfig) (minted : Z) (log_opens : bool) (link : option L) : Result (Worker L) :=
  if negb (id_valid (wcfg_worker config)) then
    Err (make_error ErrorCode.INVALID_ARGUMENT ErrorStage.IDENTITY "worker identity must be non-null")
  else
    let boot := default minted (wcfg_forced_boot config) in
    if negb (id_valid boot) then
      Err (make_error ErrorCode.INVALID_ARGUMENT ErrorStage.IDENTITY "worker boot identity must be non-null")
    else if wcfg_frame_log config && negb log_opens then
      Err (make_error ErrorCode.PERSISTENCE_FAILURE ErrorStage.TRANSPORT "cannot open the worker frame log for writing")
    else
      match connect (wcfg_limits config) link with
      | Err s => Err s
      | Ok client => Ok (mkWorker config client boot 0 0 0 0 "" 0 [])
      end.

Definition note_error (status : Status) (worker : Worker L) : Worker L := worker <| wrk_last_error := status_to_string status |>.

Definition registration_request (worker : Worker L) : RegisterWorkerRequest :=
  default_RegisterWorkerRequest
    <| reg_claimed_epoch := 0 |>
    <| reg_worker := wcfg_worker (wrk_config worker) |>
    <| reg_boot := wrk_boot worker |>
    <| reg_endpoint := wcfg_endpoint (wrk_config worker) |>
    <| reg_max_concurrent_assignments := wcfg_max_concurrent_assignments (wrk_config worker) |>
    <| reg_fingerprint := wcfg_fingerprint (wrk_config worker) |>.

(** [Worker::connect_and_register]. *)
Definition connect_and_register (worker : Worker L) : Worker L * Status :=
  let '(client, reply) := client_register_worker (registration_request worker) (wrk_client worker) in
  let worker := worker <| wrk_client := client |> in
  match reply with
  | Err s => (note_error s worker, s)
  | Ok reply =>
      if negb (status_ok (regr_status reply)) then (note_error (regr_status reply) worker, regr_status reply)
      else
        (worker <| wrk_epoch := regr_epoch reply |> <| wrk_producer := regr_producer reply |> <| wrk_boot := regr_boot reply |>,
         success)
  end.

(** ** One assignment *)

Definition task_context (assignment : TrialAssignment) (worker : Worker L) : WorkerTaskContext :=
  mkWorkerTaskContext (wcfg_worker (wrk_config worker)) (wrk_boot worker) (wrk_epoch worker) (wrk_producer worker)
    (asg_attempt_number assignment) (asg_parameters assignment).

Definition failure_report (assignment : TrialAssignment) (kind : FailureKind) (detail : string) (retryable : bool)
    (worker : Worker L) : FailTrialRequest :=
  mkFailTrialRequest (wrk_epoch worker) (wcfg_worker (wrk_config worker)) (wrk_boot worker) (asg_envelope assignment)
    kind detail retryable.

(** The identity reserved for a metric: the last of that name. *)
Definition reservation_of (assignment : TrialAssignment) (metric : string) : option AssignedMetric :=
  last_such (fun candidate => String.eqb (am_name candidate) metric) (asg_metrics assignment).

Definition publication (assignment : TrialAssignment) (reservation : AssignedMetric) (named : NamedObservation)
    (worker : Worker L) : PublishObservationRequest :=
  let envelope := asg_envelope assignment in
  mkPublishObservationRequest (wrk_epoch worker) (wcfg_worker (wrk_config worker)) (wrk_boot worker)
    (default_Observation
       <| obs_id := am_observation_id reservation |>
       <| obs_experiment := env_experiment envelope |>
       <| obs_generation := env_generation envelope |>
       <| obs_branch := env_branch envelope |>
       <| obs_branch_generation := env_branch_generation envelope |>
       <| obs_trial := env_trial envelope |>
       <| obs_attempt := env_attempt envelope |>
       <| obs_metric := am_metric reservation |>
       <| obs_producer := wrk_producer worker |>
       <| obs_worker := wcfg_worker (wrk_config worker) |>
       <| obs_boot := wrk_boot worker |>
       <| obs_epoch := wrk_epoch worker |>
       <| obs_validity := nobs_validity named |>
       <| obs_value := nobs_value named |>
       <| obs_detail := nobs_detail named |>).

(** The loop over the observations, and whether all were published. *)
Fixpoint publish_all (assignment : TrialAssignment) (observations : list NamedObservation) (worker : Worker L) : Worker L * bool :=
  match observations with
  | [] => (worker, true)
  | named :: observations =>
      match reservation_of assignment (nobs_metric named) with
      | None =>
          (worker <| wrk_last_error :=
             "task produced an observation for a metric that was not assigned: " +:+ nobs_metric named |>, false)
      | Some reservation =>
          let '(client, status) := client_publish_observation (publication assignment reservation named worker) (wrk_client worker) in
          let worker := worker <| wrk_client := client |> in
          if negb (status_ok status) then (note_error status worker, false)
          else
            let worker := worker <| wrk_published_observations ::= fun n => u64 (n + 1) |> in
            let worker := if wcfg_progress_hook (wrk_config worker)
                          then worker <| wrk_progress ::= fun l => l ++ [(wrk_published_observations worker, wrk_published worker)] |>
                          else worker in
            publish_all assignment observations worker
      end
  end.

(** The artifacts take the reserved identities in order; those for which none
    is left are dropped. *)
Definition reserved_artifacts (assignment : TrialAssignment) (artifacts : list NamedArtifact) : list ArtifactRecord :=
  let envelope := asg_envelope assignment in
  zip_with (fun id named =>
    default_ArtifactRecord
      <| artifact_id := id |>
      <| artifact_experiment := env_experiment envelope |>
      <| artifact_generation := env_generation envelope |>
      <| artifact_branch := env_branch envelope |>
      <| artifact_trial := env_trial envelope |>
      <| artifact_attempt := env_attempt envelope |>
      <| artifact_category := nart_category named |>
      <| artifact_locator := nart_locator named |>
      <| artifact_content_digest := nart_content_digest named |>
      <| artifact_digest_present := nart_digest_present named |>
      <| artifact_size_present := nart_size_present named |>
      <| artifact_size_bytes := nart_size_bytes named |>
      <| artifact_provenance := nart_provenance named |>) (asg_artifact_ids assignment) artifacts.

Definition commit_request (assignment : TrialAssignment) (outcome : TrialOutcome) (worker : Worker L) : CommitTrialRequest :=
  mkCommitTrialRequest (wrk_epoch worker) (wcfg_worker (wrk_config worker)) (wrk_boot worker) (asg_envelope assignment)
    (reserved_artifacts assignment (out_artifacts outcome)) (out_result_payload outcome).

Definition count_failed (worker : Worker L) : Worker L := worker <| wrk_failed ::= fun n => u32 (n + 1) |>.

(** The body of the loop over the assignments. *)
Definition run_assignment (task : TaskFunction) (assignment : TrialAssignment) (worker : Worker L) : Worker L :=
  let outcome := task assignment (task_context assignment worker) in
  if negb (out_succeeded outcome) then
    let '(client, status) :=
      client_fail_trial (failure_report assignment (out_failure_kind outcome) (out_failure_detail outcome) (out_retryable outcome) worker)
        (wrk_client worker) in
    let worker := worker <| wrk_client := client |> in
    if status_ok status then count_failed worker else note_error status worker
  else
    let '(worker, published_all) := publish_all assignment (out_observations outcome) worker in
    if negb published_all then
      let '(client, _) :=
        client_fail_trial (failure_report assignment FailureKind.INVALID_OBSERVATION (wrk_last_error worker) false worker)
          (wrk_client worker) in
      count_failed (worker <| wrk_client := client |>)
    else
      let '(client, status) := client_commit_trial (commit_request assignment outcome worker) (wrk_client worker) in
      let worker := worker <| wrk_client := client |> in
      if negb (status_ok status) then count_failed (note_error status worker)
      else worker <| wrk_published ::= fun n => u32 (n + 1) |>.

(** ** Cycles *)

Definition claim_request (worker : Worker L) : ClaimTrialRequest :=
  mkClaimTrialRequest (wrk_epoch worker) (wcfg_worker (wrk_config worker)) (wrk_boot worker)
    (wcfg_max_concurrent_assignments (wrk_config worker)).

(** [Worker::run_once]. *)
Definition run_once (task : TaskFunction) (worker : Worker L) : Worker L * Status :=
  let '(client, reply) := client_claim_trials (claim_request worker) (wrk_client worker) in
  let worker := worker <| wrk_client := client |> in
  match reply with
  | Err s => (note_error s worker, s)
  | Ok reply =>
      if negb (status_ok (claimr_status reply)) then (note_error (claimr_status reply) worker, claimr_status reply)
      else
        match claimr_assignments reply with
        | [] => (worker, make_error ErrorCode.NOT_FOUND ErrorStage.LIFECYCLE "no trial is available to claim")
        | assignments => (foldl (fun worker assignment => run_assignment task assignment worker) worker assignments, success)
        end
  end.

(** [Worker::run_until_idle]: [stop] is the flag at each poll; [None] when the
    fuel ends first. *)
Fixpoint run_until_idle (task : TaskFunction) (stop : nat -> bool) (fuel : nat) (worker : Worker L) : Worker L * option Status :=
  match fuel with
  | O => (worker, None)
  | S fuel =>
      if stop 0%nat then (worker, Some success)
      else
        let '(worker, registered) := if negb (id_valid (wrk_epoch worker)) then connect_and_register worker else (worker, success) in
        if negb (status_ok registered) then (worker, Some registered)
        else
          let '(worker, status) := run_once task worker in
          if status_ok status then run_until_idle task (fun n => stop (S n)) fuel worker
          else if bool_decide (status_code status = ErrorCode.NOT_FOUND) then (worker, Some success)
          else if bool_decide (status_code status = ErrorCode.STALE_EPOCH) || bool_decide (status_code status = ErrorCode.STALE_WORKER)
          then
            let '(worker, registered) := connect_and_register worker in
            if negb (status_ok registered) then (worker, Some registered)
            else run_until_idle task (fun n => stop (S n)) fuel worker
          else (worker, Some status)
  end.

Definition replay_raw (bytes : list Z) (worker : Worker L) : Worker L * Result Frame :=
  let '(client, reply) := send_raw_and_receive bytes (wrk_client worker) in (worker <| wrk_client := client |>, reply).

End WorkerOperations.

(** ** The payloads are bytes *)

Create HintDb payload.
#[export] Hint Resolve le_bytes_bytes put_text_bytes : payload.

Lemma flat_map_bytes {A} (f : A -> list Z) l : Forall (fun x => Forall is_byte (f x)) l -> Forall is_byte (flat_map f l).
Proof. induction 1; [constructor|]. cbn. by apply Forall_app. Qed.

Ltac payload_bytes :=
  unfold write_envelope, write_vector; unfold put_boolean, put_real, put_integer, put_count, write_id, write_enum, put_digest, put_raw;
  unfold put_u8, put_u16, put_u32, put_u64;
  rewrite ?Forall_app; repeat split; auto with payload.

Lemma write_observation_bytes o : Forall is_byte (write_observation o).
Proof. unfold write_observation, write_metric_value. payload_bytes. Qed.
Lemma write_artifact_bytes a : Forall is_byte (artifact_content_digest a) -> Forall is_byte (write_artifact a).
Proof. intros Ha. unfold write_artifact. payload_bytes. Qed.
Lemma write_parameters_bytes parameters : Forall is_byte (write_parameters parameters).
Proof. unfold write_parameters. payload_bytes. apply flat_map_bytes, Forall_forall. intros p _. unfold write_parameter. payload_bytes. Qed.
#[export] Hint Resolve write_parameters_bytes : payload.
Lemma register_worker_bytes value : Forall is_byte (encode_register_worker value).
Proof. unfold encode_register_worker. payload_bytes. Qed.
Lemma claim_trial_bytes value : Forall is_byte (encode_claim_trial value).
Proof. unfold encode_claim_trial. payload_bytes. Qed.
Lemma publish_observation_bytes value : Forall is_byte (encode_publish_observation value).
Proof. unfold encode_publish_observation. payload_bytes. apply write_observation_bytes. Qed.
Lemma fail_trial_bytes value : Forall is_byte (encode_fail_trial value).
Proof. unfold encode_fail_trial. payload_bytes. Qed.
Lemma commit_trial_bytes value :
  Forall (fun a => Forall is_byte (artifact_content_digest a)) (commit_artifacts value) -> Forall is_byte (encode_commit_trial value).
Proof.
  intros Ha. unfold encode_commit_trial. payload_bytes. apply flat_map_bytes. eapply Forall_impl; [exact Ha|]. apply write_artifact_bytes.
Qed.
#[export] Hint Resolve register_worker_bytes claim_trial_bytes publish_observation_bytes fail_trial_bytes commit_trial_bytes : payload.

Definition outcome_bytes (outcome : TrialOutcome) : Prop :=
  Forall (fun named => Forall is_byte (nart_content_digest named)) (out_artifacts outcome).

Lemma reserved_artifacts_bytes assignment artifacts :
  Forall (fun named => Forall is_byte (nart_content_digest named)) artifacts ->
  Forall (fun a => Forall is_byte (artifact_content_digest a)) (reserved_artifacts assignment artifacts).
Proof.
  unfold reserved_artifacts. generalize (asg_artifact_ids assignment). intros ids Ha. revert ids.
  induction Ha as [|named artifacts Hn Ha IH]; intros [|id ids]; try constructor; [exact Hn|apply IH].
Qed.

(** ** A worker drives the coordinator along its own transitions *)

Section Driven.
Context `{laws : StorageLaws} `{Formatting} (start : Impl).
Hypothesis start_reachable : reachable (Up start).
Hypothesis start_payload : max_frame_payload_bytes (impl_limits start) < u32_modulus.
Implicit Types (client : Client Channel) (worker : Worker Channel).

(** The client's channel leads to a coordinator in a state that calls have
    led to from [start]. *)
Definition driven client : Prop :=
  cli_limits client = impl_limits start
  /\ exists channel, cli_link client = Some channel /\ runs start (srv_impl (chan_server channel)).

Lemma runs_snoc impl impl' op : runs impl impl' -> room op impl' -> runs impl (exec op impl').
Proof.
  induction 1 as [|impl op0 impl' Hroom _ IH]; intros Hr; [by eapply runs_op; [|constructor]|]. eapply runs_op; [exact Hroom|by apply IH].
Qed.

Lemma runs_limits impl : runs start impl -> impl_limits impl = impl_limits start.
Proof using laws start_reachable. intros Hr. apply (evo_limits _ _ (runs_evolves _ _ start_reachable Hr)). Qed.

(** The frame reaches [dispatch]; whether the reply fits a frame does not matter to the state. *)
Lemma channel_send_dispatches limits frame bytes channel :
  impl_limits (srv_impl (chan_server channel)) = limits -> max_frame_payload_bytes limits < u32_modulus ->
  frame_in_range frame -> encode_frame frame limits = Ok bytes ->
  exists inbox, channel_send bytes channel = (mkChannel (dispatch frame (chan_server channel)).1 inbox, success).
Proof.
  intros Hlim Hl Hf He. destruct (encode_frame_bytes _ _ _ He (proj2 Hf)) as [Hb Hlen].
  unfold channel_send. destruct (length bytes) as [|fuel] eqn:Hn; [lia|]. destruct fuel as [|fuel]; [lia|].
  set (c0 := mkConnection true [Bytes bytes] [] []).
  destruct (receive_encoded limits c0 frame bytes [] Hl Hf He eq_refl (bytes_intact bytes)) as (c1 & Hc1 & [Ho1 Hs1 Hd1 Hi1] & Hst1);
    [by cbn; rewrite app_nil_r|by cbn; rewrite !app_nil_r|].
  cbn [serve]. rewrite Hlim, Hc1. destruct (dispatch frame (chan_server channel)) as [server' reply]. cbn [fst].
  destruct (encode_frame reply limits) as [rbytes|s] eqn:Hre.
  - destruct (send_frame_accepting reply limits c1 rbytes Ho1) as (c2 & -> & Ho2 & _ & Har2 & Hs2);
      [unfold accepting; rewrite Hd1; apply not_elem_of_nil|done|].
    change (status_ok success) with true. cbn iota.
    destruct (receive_nothing (impl_limits (srv_impl server')) c2 Ho2) as (c3 & s & -> & Hs3); [by rewrite Har2|by rewrite Har2|by eexists].
  - unfold send_frame. rewrite Hre. assert (Hs : status_ok s = false) by (unfold encode_frame in Hre; repeat case_match; by simplify_eq).
    rewrite Hs. by eexists.
Qed.

Lemma request_driven type payload client :
  driven client -> Forall is_byte payload ->
  (forall impl correlation op, runs start impl ->
     cli_link client = None \/ (exists channel, cli_link client = Some channel /\ srv_impl (chan_server channel) = impl) ->
     operation_of (mkFrame kProtocolVersion type correlation payload) (impl_limits impl) = Some op -> room op impl) ->
  driven (request type payload client).1.
Proof using laws start_reachable start_payload.
  intros (Hlim & channel & Hlink & Hruns) Hb Hroom. unfold request. rewrite Hlink. cbn [next_correlation].
  set (correlation := u64 (cli_correlation client + 1)). change (cli_limits (client <| cli_correlation := correlation |>)) with (cli_limits client).
  rewrite Hlim. destruct (encode_frame _ (impl_limits start)) as [bytes|s] eqn:He; [|split; [done|by exists channel]].
  pose proof (runs_limits _ Hruns) as Hsl.
  assert (Hf : frame_in_range (mkFrame kProtocolVersion type correlation payload)) by (split; [apply u64_range|done]).
  destruct (channel_send_dispatches _ _ _ channel Hsl start_payload Hf He) as [inbox Hsend].
  cbn [link_send link_receive channel_link]. rewrite Hsend. change (status_ok success) with true. cbn [negb].
  destruct (channel_receive _ _) as [channel' reply] eqn:Hrecv. split; [done|]. exists channel'. split; [done|].
  assert (Hsrv : chan_server channel' = (dispatch (mkFrame kProtocolVersion type correlation payload) (chan_server channel)).1).
  { unfold channel_receive in Hrecv. destruct (receive_frame _ _). by injection Hrecv as <- _. }
  rewrite Hsrv, dispatch_exec. destruct (operation_of _ _) as [op|] eqn:Hop; cbn [apply_op]; [|done].
  apply runs_snoc; [done|]. eapply Hroom; [exact Hruns|right; by exists channel|exact Hop].
Qed.

(** Requests that draw no identities need no room. *)
Lemma plain_room type payload correlation limits impl op :
  type <> MessageType.CLAIM_TRIAL -> type <> MessageType.CREATE_TRIAL ->
  operation_of (mkFrame kProtocolVersion type correlation payload) limits = Some op -> room op impl.
Proof.
  intros Hc Ht. unfold operation_of. cbn [frame_type frame_payload].
  destruct type; try done; try (intros Heq; injection Heq as <-; done);
    match goal with |- context [match ?r with Ok _ => _ | Err _ => _ end] => destruct r; [|done] end;
    cbn beta iota; intros Heq; injection Heq as <-; done.
Qed.

Lemma plain_driven type payload client :
  type <> MessageType.CLAIM_TRIAL -> type <> MessageType.CREATE_TRIAL ->
  driven client -> Forall is_byte payload -> driven (request type payload client).1.
Proof using laws start_reachable start_payload. intros Hc Ht Hd Hb. apply request_driven; [done|done|]. intros. by eapply plain_room. Qed.

Lemma acknowledged_fst answer : (acknowledged (L := Channel) answer).1 = answer.1.
Proof. by destruct answer. Qed.
Lemma expect_fst {A} type reason (decode : list Z -> Limits -> Result A) answer : (expect (L := Channel) type reason decode answer).1 = answer.1.
Proof. by destruct answer. Qed.

Lemma publish_all_driven assignment observations worker :
  driven (wrk_client worker) -> driven (wrk_client (publish_all assignment observations worker).1).
Proof using laws start_reachable start_payload.
  revert worker. induction observations as [|named observations IH]; intros worker Hd; [done|]. cbn [publish_all].
  destruct (reservation_of assignment (nobs_metric named)) as [reservation|]; [|done].
  assert (Hd' : driven (client_publish_observation (publication assignment reservation named worker) (wrk_client worker)).1).
  { unfold client_publish_observation. rewrite acknowledged_fst. apply plain_driven; auto with payload; done. }
  destruct (client_publish_observation _ _) as [client status]. cbn [fst] in Hd'.
  destruct (negb (status_ok status)); [done|]. cbn zeta. apply IH. by destruct (wcfg_progress_hook _).
Qed.

Lemma run_assignment_driven task assignment worker :
  (forall assignment context, outcome_bytes (task assignment context)) ->
  driven (wrk_client worker) -> driven (wrk_client (run_assignment task assignment worker)).
Proof using laws start_reachable start_payload.
  intros Htask Hd. unfold run_assignment. specialize (Htask assignment (task_context assignment worker)).
  set (outcome := task _ _) in *. clearbody outcome.
  assert (Hfail : forall value worker, driven (wrk_client worker) -> driven (client_fail_trial value (wrk_client worker)).1).
  { intros value w Hw. unfold client_fail_trial. rewrite acknowledged_fst. apply plain_driven; auto with payload; done. }
  destruct (negb (out_succeeded outcome)).
  { specialize (Hfail (failure_report assignment (out_failure_kind outcome) (out_failure_detail outcome) (out_retryable outcome) worker) worker Hd).
    destruct (client_fail_trial _ _) as [client status]. by destruct (status_ok status). }
  pose proof (publish_all_driven assignment (out_observations outcome) worker Hd) as Hp.
  destruct (publish_all _ _ _) as [worker' published]. cbn [fst] in Hp. destruct (negb published).
  { specialize (Hfail (failure_report assignment FailureKind.INVALID_OBSERVATION (wrk_last_error worker') false worker') worker' Hp).
    by destruct (client_fail_trial _ _) as [client status]. }
  assert (Hc : driven (client_commit_trial (commit_request assignment outcome worker') (wrk_client worker')).1).
  { unfold client_commit_trial. rewrite acknowledged_fst. apply plain_driven; [done|done|done|].
    apply commit_trial_bytes. by apply reserved_artifacts_bytes. }
  destruct (client_commit_trial _ _) as [client status]. by destruct (negb (status_ok status)).
Qed.

Lemma run_assignments_driven task assignments worker :
  (forall assignment context, outcome_bytes (task assignment context)) -> driven (wrk_client worker) ->
  driven (wrk_client (foldl (fun worker assignment => run_assignment task assignment worker) worker assignments)).
Proof using laws start_reachable start_payload.
  intros Htask. revert worker. induction assignments as [|assignment assignments IH]; intros worker Hd; [done|].
  cbn [foldl]. by apply IH, run_assignment_driven.
Qed.

End Driven.

(** ** At a concrete state *)

Module Working.

Definition config : WorkerConfig := mkWorkerConfig 7 (Some 70) "" "" default_Limits 4 true false.
(** The incarnation registered in the run, on a channel to that coordinator. *)
Definition worker : Worker Channel :=
  mkWorker config (mkClient default_Limits (Some (mkChannel (mkServer Run.s3 true false) [])) 0 []) 70 (impl_epoch Run.s3) 1 0 0 "" 0 [].
(** Every trial succeeds with a latency of 20. *)
Definition task : TaskFunction := fun assignment context =>
  default_TrialOutcome <| out_succeeded := true |>
    <| out_observations := [mkNamedObservation "latency" ObservationValidity.VALID (default_MetricValue <| mv_real := double_of_Z 20 |>) ""] |>.

Lemma task_bytes assignment context : outcome_bytes (task assignment context).
Proof. constructor. Qed.

Lemma spacious_s3 : spacious Run.s3.
Proof. split; [vm_compute; reflexivity|vm_compute; discriminate]. Qed.

(** One cycle claims both trials, publishes on each and commits both. *)
Example cycle :
  let worker := (run_once task worker).1 in
  (wrk_published worker, wrk_failed worker, wrk_published_observations worker, wrk_last_error worker,
   length (cli_observed (wrk_client worker)),
   match cli_link (wrk_client worker) with
   | Some channel => map (fun entry => trial_state entry.2) (rec_trials (Run.record_at (srv_impl (chan_server channel))))
   | None => []
   end) = (2, 0, 2, ""%string, 5%nat, [TrialState.COMPLETED; TrialState.COMPLETED]).
Proof. cbv zeta. by_evaluation. Qed.

End Working.

