(* ===== verification/Progress.v ===== *)
(** * A worker makes progress

    A worker and a coordinator joined by a channel: each request is one
    operation of the coordinator and leaves the channel empty, so the budget of
    attempts (Budget.v) measures the worker's cycles.  A cycle that does not end
    the worker has spent at least one attempt; nothing a task does, and no
    failure report, gives one back. *)
From S2P Require Import Prelude OMap Error Domain Identity Float64 Model Hash Sorting Canonical State Wire Codec StateCodec Frames Messages MessageCodec Spec Coordinator Authority Evidence Decision Scenario Fencing History Ledger Invariants System Refusals Budget Inspect Query Transport Server Client Worker.
#[local] Open Scope Z_scope.

(** ** One request over an empty channel *)

Section Exchanges.
Context `{Storage} `{Formatting}.
Implicit Types (client : Client Channel) (server : Server).

(** The client's channel leads to the server, with nothing under way. *)
Record quiet client server : Prop := {
  qu_client : cli_limits client = default_Limits;
  qu_server : impl_limits (srv_impl server) = default_Limits;
  qu_link : cli_link client = Some (mkChannel server [])
}.

Lemma default_payload_word : max_frame_payload_bytes default_Limits < u32_modulus.
Proof. reflexivity. Qed.

(** A reply that does not encode is not sent. *)
Lemma channel_send_silent frame bytes server server' reply s :
  impl_limits (srv_impl server) = default_Limits -> frame_in_range frame -> encode_frame frame default_Limits = Ok bytes ->
  dispatch frame server = (server', reply) -> encode_frame reply default_Limits = Err s ->
  channel_send bytes (mkChannel server []) = (mkChannel server' [], success).
Proof.
  intros Hlim Hf He Hd Hre. destruct (encode_frame_bytes _ _ _ He (proj2 Hf)) as [Hb Hlen].
  unfold channel_send. destruct (length bytes) as [|fuel] eqn:Hn; [lia|]. cbn [chan_server].
  set (c0 := mkConnection true [Bytes bytes] [] []).
  destruct (receive_encoded default_Limits c0 frame bytes [] default_payload_word Hf He eq_refl (bytes_intact bytes)) as (c1 & Hc1 & [Ho1 Hs1 Hd1 Hi1] & Hst1);
    [by cbn; rewrite app_nil_r|by cbn; rewrite !app_nil_r|].
  cbn [serve]. rewrite Hlim, Hc1, Hd. unfold send_frame. rewrite Hre.
  assert (Hs : status_ok s = false) by (unfold encode_frame in Hre; repeat case_match; by simplify_eq).
  rewrite Hs. cbn [chan_inbox app]. by rewrite Hs1.
Qed.

Lemma encode_frame_error frame limits s : encode_frame frame limits = Err s -> status_ok s = false.
Proof. unfold encode_frame. intros He. repeat case_match; by simplify_eq. Qed.

Lemma nothing_received server limits :
  channel_receive limits (mkChannel server []) =
    (mkChannel server [], Err (transport_error ErrorCode.NOT_FOUND "peer closed the connection")).
Proof. reflexivity. Qed.

(** What the client makes of the reply frame. *)
Definition answer_of (reply : Frame) : Result Frame :=
  if bool_decide (frame_type reply = MessageType.ERROR_REPLY) then
    match decode_error_reply (frame_payload reply) default_Limits with Err s => Err s | Ok value => Err (errr_status value) end
  else Ok reply.

(** A request either does not leave the client, or is dispatched once; its
    reply is then the one read, unless it did not fit a frame. *)
Lemma request_served type payload client server :
  quiet client server -> Forall is_byte payload ->
  (forall correlation, 0 <= correlation < u64_modulus -> let d := dispatch (mkFrame kProtocolVersion type correlation payload) server in
     frame_in_range d.2 /\ impl_limits (srv_impl d.1) = default_Limits) ->
  exists server', quiet (request type payload client).1 server'
    /\ ((server' = server /\ exists s, (request type payload client).2 = Err s /\ status_ok s = false)
        \/ exists correlation, 0 <= correlation < u64_modulus /\ let d := dispatch (mkFrame kProtocolVersion type correlation payload) server in
             server' = d.1 /\ ((exists s, (request type payload client).2 = Err s /\ status_ok s = false)
                               \/ (request type payload client).2 = answer_of d.2)).
Proof.
  intros [Hcl Hsl Hlink] Hb Hreply. unfold request. rewrite Hlink. cbn [next_correlation].
  set (correlation := u64 (cli_correlation client + 1)). change (cli_limits (client <| cli_correlation := correlation |>)) with (cli_limits client).
  rewrite Hcl. destruct (encode_frame _ default_Limits) as [bytes|s] eqn:He.
  2: { exists server. split; [by split|]. left. split; [done|]. exists s. split; [done|]. by eapply encode_frame_error. }
  specialize (Hreply correlation (u64_range _)). cbv zeta in Hreply. set (frame := mkFrame kProtocolVersion type correlation payload) in *.
  assert (Hf : frame_in_range frame) by (split; [apply u64_range|done]).
  destruct (dispatch frame server) as [server' reply] eqn:Hd. cbn [fst snd] in Hreply. destruct Hreply as [Hrr Hl'].
  assert (Hcorr : frame_correlation reply = correlation).
  { pose proof (dispatch_correlation frame server) as Hc. by rewrite Hd in Hc. }
  cbn [link_send link_receive channel_link]. destruct (encode_frame reply default_Limits) as [rbytes|s] eqn:Hre.
  - destruct (channel_exchange default_Limits frame bytes reply rbytes server server' Hsl default_payload_word Hf He Hd Hrr Hre) as [-> Hrecv].
    change (status_ok success) with true. cbn [negb].
    change (cli_limits ((client <| cli_correlation := correlation |>) <| cli_observed ::= fun l => l ++ [bytes] |>)) with (cli_limits client).
    rewrite Hcl, Hrecv. exists server'. split; [by split|]. right. exists correlation. split; [apply u64_range|]. fold frame. rewrite Hd. split; [done|]. right.
    cbn [snd]. rewrite Hcorr, Z.eqb_refl. cbn [negb]. change (cli_limits _) with (cli_limits client). by rewrite Hcl.
  - rewrite (channel_send_silent frame bytes server server' reply s Hsl Hf He Hd Hre).
    change (status_ok success) with true. cbn [negb]. rewrite nothing_received.
    exists server'. split; [by split|]. right. exists correlation. split; [apply u64_range|]. fold frame. rewrite Hd. split; [done|]. left. by eexists.
Qed.

(** ** Reports and claims over the channel *)

(** The requests of a worker once it is registered. *)
Definition report_type (type : MessageType) : bool :=
  bool_decide (type = MessageType.PUBLISH_OBSERVATION) || bool_decide (type = MessageType.COMMIT_TRIAL)
  || bool_decide (type = MessageType.FAIL_TRIAL).

Lemma ack_in_range correlation s : 0 <= correlation < u64_modulus -> frame_in_range (make_ack_frame correlation s).
Proof. intros Hc. split; [exact Hc|apply encode_status_bytes]. Qed.
Lemma error_in_range correlation s : 0 <= correlation < u64_modulus -> frame_in_range (make_error_frame correlation s).
Proof. intros Hc. split; [exact Hc|apply encode_error_reply_bytes]. Qed.

Lemma on_status_report frame server call :
  0 <= frame_correlation frame < u64_modulus -> unspent (srv_impl server) call.1 ->
  let d := on_status frame server call in frame_in_range d.2 /\ unspent (srv_impl server) (srv_impl d.1).
Proof.
  intros Hc Hu. unfold on_status. destruct call as [impl s]. cbn [fst snd] in *. split; [|exact Hu].
  destruct (status_ok s); [by apply ack_in_range|by apply error_in_range].
Qed.

Lemma report_dispatched type payload correlation server :
  report_type type = true -> 0 <= correlation < u64_modulus ->
  let d := dispatch (mkFrame kProtocolVersion type correlation payload) server in
  frame_in_range d.2 /\ unspent (srv_impl server) (srv_impl d.1).
Proof.
  intros Ht Hc. unfold report_type in Ht. destruct type; try discriminate Ht; unfold dispatch, on_decoded; cbn [frame_type frame_payload];
    (match goal with |- context [match ?r with Ok _ => _ | Err _ => _ end] => destruct r as [value|s] end;
     [|split; [by apply error_in_range|reflexivity]]); apply on_status_report; try done.
  - apply publish_observation_unspent.
  - apply commit_trial_unspent.
  - apply fail_trial_unspent.
Qed.

(** A report leaves the budgets as they are. *)
Lemma report_progress type payload client server :
  report_type type = true -> Forall is_byte payload -> quiet client server ->
  exists server', quiet (request type payload client).1 server' /\ unspent (srv_impl server) (srv_impl server').
Proof.
  intros Ht Hb Hq. destruct (request_served type payload client server Hq Hb) as (server' & Hq' & [[-> _]|(correlation & Hc & -> & _)]).
  - intros correlation Hc. destruct (report_dispatched type payload correlation server Ht Hc) as [Hr Hu]. split; [done|].
    rewrite (un_limits _ _ Hu). apply (qu_server _ _ Hq).
  - by exists server.
  - eexists. split; [exact Hq'|]. by apply report_dispatched.
Qed.

(** A claim request that does not decode is refused. *)
Definition reader_refuses {A} (read : Reader A) : Prop := forall limits bytes s, read limits bytes = Err s -> named_error s.

Lemma bind_refuses {A B} (read : Reader A) (next : A -> Reader B) :
  reader_refuses read -> (forall a, reader_refuses (next a)) -> reader_refuses (read ≫= next).
Proof.
  intros Hr Hn limits bytes s. unfold mbind, reader_bind. destruct (read limits bytes) as [[a rest]|e] eqn:He.
  - apply Hn.
  - intros [= <-]. by eapply Hr.
Qed.
Lemma raw_refuses length : reader_refuses (get_raw length).
Proof. intros limits bytes s. unfold get_raw. case_match; [|done]. intros [= <-]. by split. Qed.
Lemma ret_refuses {A} (a : A) : reader_refuses (mret a).
Proof. by intros limits bytes s. Qed.

Lemma decode_claim_refuses payload limits s : decode_claim_trial payload limits = Err s -> named_error s.
Proof.
  assert (Hr : reader_refuses read_claim_trial).
  { repeat (apply bind_refuses; [first [apply raw_refuses | apply bind_refuses; [apply raw_refuses|intros; apply ret_refuses]]|intros]).
    apply ret_refuses. }
  unfold decode_claim_trial, decode_with. destruct (read_claim_trial limits payload) as [[value rest]|e] eqn:He.
  - unfold expect_end. repeat case_match; try done; intros [= <-]; by split.
  - intros [= <-]. by eapply Hr.
Qed.

Lemma assignment_bytes a : Forall is_byte (write_assignment a).
Proof.
  unfold write_assignment. payload_bytes; apply flat_map_bytes, Forall_forall; intros x _; [unfold write_assigned_metric|]; payload_bytes.
Qed.
Lemma claim_reply_bytes reply : Forall is_byte (encode_claim_reply reply).
Proof.
  unfold encode_claim_reply, write_wrapped_status. payload_bytes; [apply encode_status_bytes|].
  apply flat_map_bytes, Forall_forall. intros a _. apply assignment_bytes.
Qed.

(** An empty claim says why, or that there is nothing to do. *)
Lemma empty_claim_status value impl :
  claimr_assignments (claim_trials value impl).2 = [] -> fits_status true (claimr_status (claim_trials value impl).2) = true.
Proof.
  unfold claim_trials. destruct (negb _); [done|]. destruct (negb _); [done|]. destruct (find_live_worker _ _ impl) as [live|]; [|done].
  destruct (live_revoked live); [done|]. destruct (_ || _); [done|]. cbv zeta. set (loop := foldl _ _ _).
  destruct (loop_assignments loop) as [|a rest] eqn:Ha; cbn [list_empty]; [done|]. by destruct (persist_locked _).
Qed.

Lemma default_wide_limits : wide_limits true default_Limits = true.
Proof. reflexivity. Qed.

Lemma error_answer correlation s : named_error s -> exists e, answer_of (make_error_frame correlation s) = Err e /\ status_ok e = false.
Proof.
  intros [Hbad Hfits]. exists (clip_status s). split; [|exact Hbad].
  pose proof (error_read default_Limits eq_refl default_wide_limits ltac:(done) correlation s Hfits) as Hread.
  unfold answer_of, make_error_frame in *. cbn [frame_type frame_payload] in *. rewrite bool_decide_eq_true_2 by done.
  destruct (decode_error_reply _ default_Limits); cbn in Hread; [|done]. by apply Ok_inj in Hread as ->.
Qed.

(** A claim takes what it hands out, or ends the cycle. *)
Lemma claim_progress trials value client server :
  quiet client server -> counted trials (srv_impl server) ->
  exists server' n, quiet (client_claim_trials value client).1 server' /\ 0 <= n /\ spends trials n (srv_impl server) (srv_impl server')
    /\ (n = 0 -> match (client_claim_trials value client).2 with
                 | Err s => status_ok s = false
                 | Ok reply => claimr_assignments reply = []
                 end).
Proof.
  intros Hq Hc. unfold client_claim_trials. set (payload := encode_claim_trial value).
  assert (Hdisp : forall correlation, 0 <= correlation < u64_modulus ->
    let d := dispatch (mkFrame kProtocolVersion MessageType.CLAIM_TRIAL correlation payload) server in
    frame_in_range d.2 /\ impl_limits (srv_impl d.1) = default_Limits).
  { intros correlation Hcorr. unfold dispatch, on_decoded. cbn [frame_type frame_payload].
    destruct (decode_claim_trial payload _) as [request|s]; [|split; [by apply error_in_range|apply (qu_server _ _ Hq)]].
    unfold on_reply. cbn [fst snd srv_impl]. split; [split; [exact Hcorr|apply claim_reply_bytes]|].
    etransitivity; [apply (evo_limits _ _ (claim_trials_evolves request _))|apply (qu_server _ _ Hq)]. }
  destruct (request_served MessageType.CLAIM_TRIAL payload client server Hq (claim_trial_bytes value) Hdisp)
    as (server' & Hq' & [[-> (s & Hs & Hbad)]|(correlation & Hcorr & Hcase)]).
  { exists server, 0. rewrite expect_fst. split; [done|]. split; [done|]. split; [by apply spends_none|]. intros _.
    destruct (request _ _ _) as [c r]. cbn [snd] in *. by subst r. }
  cbv zeta in Hcase. revert Hcase. unfold dispatch, on_decoded. cbn [frame_type frame_payload frame_correlation].
  rewrite (qu_server _ _ Hq). destruct (decode_claim_trial payload default_Limits) as [request'|s] eqn:Hdec.
  2: { intros [-> Hcase]. exists server, 0. rewrite expect_fst. split; [done|]. split; [done|]. split; [by apply spends_none|]. intros _.
       destruct (error_answer correlation s (decode_claim_refuses _ _ _ Hdec)) as (e & He & Hbad).
       cbn [snd] in Hcase. destruct (request _ _ _) as [c r]. cbn [snd expect] in *. destruct Hcase as [(s' & -> & Hs')| ->]; [done|]. by rewrite He. }
  intros [-> Hcase]. eexists _, (size_of (claimr_assignments (claim_trials request' (srv_impl server)).2)). rewrite expect_fst.
  split; [exact Hq'|]. split; [apply size_of_nonneg|]. split; [by apply claim_trials_spends|]. intros Hzero.
  assert (Hempty : claimr_assignments (claim_trials request' (srv_impl server)).2 = []).
  { destruct (claimr_assignments _); [done|]. unfold size_of in Hzero. cbn in Hzero. lia. }
  pose proof (qu_client _ _ Hq') as Hlim. destruct (request _ _ _) as [c r]. cbn [fst snd expect] in *.
  destruct Hcase as [(s' & -> & Hs')| ->]; [done|]. unfold answer_of, on_reply, make_reply. cbn [fst snd frame_type frame_payload].
  rewrite bool_decide_eq_false_2 by done. cbn [frame_type frame_payload]. rewrite bool_decide_eq_true_2 by done. cbn [negb]. rewrite Hlim.
  unfold decode_claim_reply. erewrite decode_reads; [|apply reads_claim_reply; [exact default_wide_limits|reflexivity|]].
  - unfold clip_claim_reply. cbn. by rewrite Hempty.
  - unfold fits_claim_reply, fits_wrapped_status, fits_count. rewrite Hempty, (empty_claim_status _ _ Hempty).
    pose proof (encode_status_size (claimr_status (claim_trials request' (srv_impl server)).2)). cbn [andb].
    apply andb_true_iff. split; [|done]. apply Z.leb_le. change (max_frame_payload_bytes default_Limits) with 1048576. lia.
Qed.

(** ** A cycle *)

(** The worker has moved the coordinator without touching the budgets. *)
Definition moved (server : Server) (client : Client Channel) : Prop :=
  exists server', quiet client server' /\ unspent (srv_impl server) (srv_impl server').

Lemma moved_report type payload client server :
  report_type type = true -> Forall is_byte payload -> moved server client -> moved server (request type payload client).1.
Proof.
  intros Ht Hb (server1 & Hq & Hu). destruct (report_progress type payload client server1 Ht Hb Hq) as (server2 & Hq' & Hu').
  exists server2. split; [exact Hq'|by etransitivity].
Qed.

Lemma moved_publish server value client : moved server client -> moved server (client_publish_observation value client).1.
Proof. intros Hm. unfold client_publish_observation. rewrite acknowledged_fst. by apply moved_report; [|apply publish_observation_bytes|]. Qed.
Lemma moved_fail server value client : moved server client -> moved server (client_fail_trial value client).1.
Proof. intros Hm. unfold client_fail_trial. rewrite acknowledged_fst. by apply moved_report; [|apply fail_trial_bytes|]. Qed.
Lemma moved_commit server value client :
  Forall is_byte (encode_commit_trial value) -> moved server client -> moved server (client_commit_trial value client).1.
Proof. intros Hb Hm. unfold client_commit_trial. rewrite acknowledged_fst. by apply moved_report. Qed.

Lemma publish_all_moved server assignment observations (worker : Worker Channel) :
  moved server (wrk_client worker) -> moved server (wrk_client (publish_all assignment observations worker).1).
Proof.
  revert worker. induction observations as [|named observations IH]; intros worker Hm; [done|]. cbn [publish_all].
  destruct (reservation_of assignment (nobs_metric named)) as [reservation|]; [|done].
  pose proof (moved_publish server (publication assignment reservation named worker) _ Hm) as Hm'.
  destruct (client_publish_observation _ _) as [client status]. cbn [fst] in Hm'.
  destruct (negb (status_ok status)); [done|]. cbn zeta. apply IH. by destruct (wcfg_progress_hook _).
Qed.

Lemma run_assignment_moved server task assignment (worker : Worker Channel) :
  (forall assignment context, outcome_bytes (task assignment context)) ->
  moved server (wrk_client worker) -> moved server (wrk_client (run_assignment task assignment worker)).
Proof.
  intros Htask Hm. unfold run_assignment. specialize (Htask assignment (task_context assignment worker)).
  set (outcome := task _ _) in *. clearbody outcome. destruct (negb (out_succeeded outcome)).
  { pose proof (moved_fail server (failure_report assignment (out_failure_kind outcome) (out_failure_detail outcome)
      (out_retryable outcome) worker) _ Hm) as Hf.
    destruct (client_fail_trial _ _) as [client status]. by destruct (status_ok status). }
  pose proof (publish_all_moved server assignment (out_observations outcome) worker Hm) as Hp.
  destruct (publish_all _ _ _) as [worker' published]. cbn [fst] in Hp. destruct (negb published).
  { pose proof (moved_fail server (failure_report assignment FailureKind.INVALID_OBSERVATION (wrk_last_error worker') false worker') _ Hp).
    by destruct (client_fail_trial _ _) as [client status]. }
  assert (Hb : Forall is_byte (encode_commit_trial (commit_request assignment outcome worker'))).
  { apply commit_trial_bytes. by apply reserved_artifacts_bytes. }
  pose proof (moved_commit server _ _ Hb Hp) as Hc.
  destruct (client_commit_trial _ _) as [client status]. by destruct (negb (status_ok status)).
Qed.

Lemma run_assignments_moved server task assignments (worker : Worker Channel) :
  (forall assignment context, outcome_bytes (task assignment context)) -> moved server (wrk_client worker) ->
  moved server (wrk_client (foldl (fun worker assignment => run_assignment task assignment worker) worker assignments)).
Proof.
  intros Htask. revert worker. induction assignments as [|assignment assignments IH]; intros worker Hm; [done|].
  cbn [foldl]. by apply IH, run_assignment_moved.
Qed.

(** A cycle that does not end the worker takes at least one attempt. *)
Lemma run_once_progress trials task (worker : Worker Channel) server :
  (forall assignment context, outcome_bytes (task assignment context)) ->
  quiet (wrk_client worker) server -> counted trials (srv_impl server) ->
  exists server' n, quiet (wrk_client (run_once task worker).1) server' /\ spends trials n (srv_impl server) (srv_impl server')
    /\ (status_ok (run_once task worker).2 = true -> 1 <= n).
Proof.
  intros Htask Hq Hc. unfold run_once.
  destruct (claim_progress trials (claim_request worker) _ server Hq Hc) as (server1 & n & Hq1 & Hn & Hs & Hnone).
  destruct (client_claim_trials _ _) as [client [reply|s]]; cbn [fst snd] in *.
  2: { exists server1, n. split; [exact Hq1|]. split; [exact Hs|]. intros Hok. destruct (Z.eq_dec n 0) as [->|]; [|lia].
       rewrite Hnone in Hok by done. discriminate Hok. }
  destruct (negb (status_ok (claimr_status reply))) eqn:Hst.
  { exists server1, n. split; [exact Hq1|]. split; [exact Hs|]. cbn [snd]. apply negb_true_iff in Hst. rewrite Hst. discriminate. }
  destruct (claimr_assignments reply) as [|a assignments] eqn:Ha; [by exists server1, n|].
  destruct (run_assignments_moved server1 task (a :: assignments) (worker <| wrk_client := client |>) Htask) as (server2 & Hq2 & Hu2).
  { exists server1. split; [exact Hq1|reflexivity]. }
  pose proof (unspent_spends trials _ _ (sp_counted _ _ _ _ Hs) Hu2) as Hs2.
  exists server2, n. split; [exact Hq2|]. split; [eapply spends_eq; [by eapply spends_trans|lia]|]. intros _.
  destruct (Z.eq_dec n 0) as [->|]; [|lia]. by specialize (Hnone eq_refl).
Qed.

(** Registering again leaves the budgets as they are. *)
Lemma register_moved value client server :
  quiet client server -> moved server (client_register_worker value client).1.
Proof.
  intros Hq. unfold client_register_worker. rewrite expect_fst.
  destruct (request_served MessageType.REGISTER_WORKER (encode_register_worker value) client server Hq (register_worker_bytes value))
    as (server' & Hq' & [[-> _]|(correlation & Hc & -> & _)]).
  - intros correlation Hc. unfold dispatch, on_decoded. cbn [frame_type frame_payload].
    destruct (decode_register_worker _ _) as [request|s]; [|split; [by apply error_in_range|apply (qu_server _ _ Hq)]].
    unfold on_reply. cbn [fst snd srv_impl]. split; [split; [exact Hc|]|].
    + unfold make_reply. cbn [frame_payload]. unfold encode_register_reply, write_wrapped_status. payload_bytes. apply encode_status_bytes.
    + etransitivity; [apply (un_limits _ _ (register_worker_unspent request _))|apply (qu_server _ _ Hq)].
  - exists server. split; [exact Hq'|reflexivity].
  - eexists. split; [exact Hq'|]. unfold dispatch, on_decoded. cbn [frame_type frame_payload].
    destruct (decode_register_worker _ _) as [request|s]; [|reflexivity]. apply register_worker_unspent.
Qed.

Lemma connect_and_register_moved (worker : Worker Channel) server :
  quiet (wrk_client worker) server -> moved server (wrk_client (connect_and_register worker).1).
Proof.
  intros Hq. unfold connect_and_register. pose proof (register_moved (registration_request worker) _ server Hq) as Hm.
  destruct (client_register_worker _ _) as [client [reply|s]]; cbn [fst] in Hm; [|done].
  by destruct (negb (status_ok (regr_status reply))).
Qed.

End Exchanges.
