(* ===== verification/Scenarios.v ===== *)
(** * The reference catalogue (apps/scenarios.hpp, apps/scenarios.cpp)

    The synthetic experiments and workloads the applications ship, and the
    helpers that drive a coordinator in process.  What is proved: every
    experiment of the catalogue is accepted, its planned trials are created
    exactly once, a workload publishes what was reserved for its assignment, and
    a session completes trials under the coordinator's authority alone.  That
    each experiment gets the decision it is named for is shown in Programs.v,
    with the processes that run it. *)
From S2P Require Import Prelude OMap Error Domain Identity Float64 Numbers Model Hash Sorting Canonical State Validator Wire Codec StateCodec Messages Spec Coordinator Authority Evidence Decision Scenario Fencing History Ledger Invariants System Refusals Creation Verdicts Lifecycle Inspect Parameters Query Server Client Worker.
#[local] Open Scope Z_scope.

(** ** The experiments *)

Definition real_metric (name unit : string) (direction : MetricDirection) (required : bool) : MetricSpec :=
  default_MetricSpec
    <| mspec_name := name |>
    <| mspec_unit := unit |>
    <| mspec_kind := MetricKind.REAL |>
    <| mspec_direction := direction |>
    <| mspec_aggregation := AggregationRule.MEAN |>
    <| mspec_required := required |>.

Definition branch (name : string) (role : BranchRole) (planned_trials : Z) (parameters : list ParameterAssignment) : BranchSpec :=
  default_BranchSpec
    <| bspec_name := name |>
    <| bspec_role := role |>
    <| bspec_planned_trials := planned_trials |>
    <| bspec_parameters := parameters |>
    <| bspec_environment := Some "reference-environment" |>
    <| bspec_environment_fingerprint := "synthetic-reference-x64" |>
    <| bspec_input_set := Some "reference-input-set-v1" |>.

Definition rule (metric : string) (op : ComparisonOp) (threshold : double) (priority : Z) : ComparisonRuleSpec :=
  default_ComparisonRuleSpec
    <| rspec_metric := metric |>
    <| rspec_op := op |>
    <| rspec_threshold := threshold |>
    <| rspec_priority := priority |>.

Definition scenario_names : list string :=
  ["latency"; "throughput-memory"; "forked-parameter"; "insufficient"; "invalid-evidence"; "authority"; "retry"].

Definition workload_names : list string := ["parameter"; "parameter-slow"; "fail-once"; "partial"].

Section Catalogue.
Context `{Formatting}.

Definition real_parameter (key : string) (value : Z) : ParameterAssignment := make_real_parameter key (double_of_Z value).

(** What the experiments share. *)
Definition reference_experiment (name statement : string) (metrics : list MetricSpec) (branches : list BranchSpec)
    (rules : list ComparisonRuleSpec) (seed : Z) : ExperimentSpec :=
  default_ExperimentSpec
    <| spec_name := name |>
    <| spec_hypothesis_statement := statement |>
    <| spec_provenance := "synthetic reference experiment" |>
    <| spec_metrics := metrics |>
    <| spec_branches := branches |>
    <| spec_rules := rules |>
    <| spec_experiment_seed := Some seed |>.

Definition latency_metric : MetricSpec := real_metric "latency_ms" "ms" MetricDirection.MINIMIZE true.
Definition throughput_metric : MetricSpec := real_metric "throughput" "ops/s" MetricDirection.MAXIMIZE true.
Definition latency_rule : ComparisonRuleSpec := rule "latency_ms" ComparisonOp.MIN_IMPROVEMENT double_one 0.

(** A baseline and a candidate that differ in one parameter. *)
Definition two_branches (key : string) (trials baseline candidate : Z) : list BranchSpec :=
  [branch "baseline" BranchRole.BASELINE trials [real_parameter key baseline];
   branch "candidate" BranchRole.CANDIDATE trials [real_parameter key candidate]].

(** [build_scenario]: the specification, or the text of the error. *)
Definition build_scenario (name : string) : ExperimentSpec + string :=
  if String.eqb name "latency" then
    inl ((reference_experiment "baseline-vs-candidate-latency"
           "Raising the prefetch depth lowers mean request latency without changing the input set."
           [latency_metric] (two_branches "latency_ms" 2 120 95) [latency_rule] 4242)
         <| spec_expected_direction := Some MetricDirection.MINIMIZE |>
         <| spec_expected_metric := Some "latency_ms" |>
         <| spec_min_completed_trials_per_branch := 2 |>
         <| spec_min_valid_observations_per_required_metric := 1 |>
         <| spec_max_attempts_per_trial := 3 |>)
  else if String.eqb name "throughput-memory" then
    inl ((reference_experiment "throughput-versus-memory-tradeoff"
           "Batching raises throughput while peak resident memory must not regress beyond the tolerance."
           [throughput_metric; real_metric "peak_memory_mb" "MiB" MetricDirection.MINIMIZE true]
           [branch "baseline" BranchRole.BASELINE 2 [real_parameter "throughput" 1000; real_parameter "peak_memory_mb" 512];
            branch "candidate" BranchRole.CANDIDATE 2 [real_parameter "throughput" 1250; real_parameter "peak_memory_mb" 530]]
           [rule "throughput" ComparisonOp.MIN_IMPROVEMENT (double_of_Z 50) 0;
            rule "peak_memory_mb" ComparisonOp.MAX_REGRESSION_TOLERANCE (double_of_Z 32) 1] 77)
         <| spec_min_completed_trials_per_branch := 2 |>)
  else if String.eqb name "forked-parameter" then
    inl ((reference_experiment "forked-branch-with-changed-parameter"
           "A forked branch with a larger batch size improves throughput."
           [throughput_metric]
           [branch "baseline" BranchRole.BASELINE 2 [real_parameter "throughput" 1000];
            (branch "candidate" BranchRole.CANDIDATE 2 [real_parameter "throughput" 1180])
              <| bspec_fork_from := Some "baseline" |>]
           [rule "throughput" ComparisonOp.MIN_IMPROVEMENT (double_of_Z 10) 0] 9)
         <| spec_min_completed_trials_per_branch := 2 |>)
  else if String.eqb name "insufficient" then
    inl ((reference_experiment "favorable-candidate-with-insufficient-evidence"
           "A much lower latency is claimed, but the evidence floor is not met."
           [latency_metric] (two_branches "latency_ms" 1 120 40) [latency_rule] 5)
         <| spec_min_completed_trials_per_branch := 4 |>)
  else if String.eqb name "invalid-evidence" then
    inl ((reference_experiment "numerically-favorable-but-invalid-evidence"
           "A favorable number is produced without a valid observation."
           [latency_metric]
           [branch "baseline" BranchRole.BASELINE 2 [real_parameter "latency_ms" 120];
            branch "candidate" BranchRole.CANDIDATE 2
              [real_parameter "latency_ms" 30; make_boolean_parameter "latency_ms_invalid" true]]
           [latency_rule] 11)
         <| spec_min_completed_trials_per_branch := 2 |>
         <| spec_reject_on_any_invalid_observation := true |>)
  else if String.eqb name "authority" then
    inl ((reference_experiment "authority-fencing-under-process-death"
           "The candidate reduces latency once its trials are authoritative."
           [latency_metric] (two_branches "latency_ms" 1 120 95) [latency_rule] 2026)
         <| spec_min_completed_trials_per_branch := 1 |>
         <| spec_max_attempts_per_trial := 4 |>)
  else if String.eqb name "retry" then
    inl ((reference_experiment "failed-trial-followed-by-fresh-attempt"
           "A transient execution failure is recoverable through a fresh attempt."
           [latency_metric] (two_branches "latency_ms" 1 120 95) [latency_rule] 31)
         <| spec_min_completed_trials_per_branch := 1 |>
         <| spec_max_attempts_per_trial := 3 |>)
  else inr ("unknown scenario: " +:+ name)%string.

End Catalogue.

(** ** The workloads *)

(** [0.02]. *)
Definition double_spread : double := S754_finite false 5764607523034235 (-58).

Definition jitter (seed : option Z) (spread : double) : double :=
  let value := default 0 seed in
  let unit := ddiv (double_of_Z ((rng_next_u64 (rng_new value)).2 mod 1000000)) (double_of_Z 1000000) in
  dmul (dsub (dmul unit (double_of_Z 2)) double_one) spread.

Definition parameter_as_real (context : WorkerTaskContext) (key : string) (fallback : double) : double :=
  match context_parameter key context with
  | None => fallback
  | Some value => default fallback (stod value)
  end.

Definition parameter_as_bool (context : WorkerTaskContext) (key : string) : bool :=
  match context_parameter key context with
  | None => false
  | Some value => String.eqb value "true" || String.eqb value "1"
  end.

(** The first eight bytes, the highest first, of a digest hashed [rounds] times. *)
Definition busy_work (seed rounds : Z) : Z :=
  let digest := Z.iter rounds sha_digest_of (sha_digest_of (le_u64 seed)) in
  foldl (fun value byte => Z.lor (u64 (Z.shiftl value 8)) byte) 0 (take 8 digest).
#[global] Arguments busy_work : simpl never.

(** The loop over the assigned metrics; [emitted] counts the observations. *)
Fixpoint workload_observations (name : string) (context : WorkerTaskContext) (trial_seed : option Z)
    (emitted : Z) (metrics : list AssignedMetric) : list NamedObservation :=
  match metrics with
  | [] => []
  | metric :: metrics =>
      if String.eqb name "partial" && negb (am_required metric) then
        workload_observations name context trial_seed emitted metrics
      else if String.eqb name "partial" && am_required metric && (1 <=? emitted) then
        workload_observations name context trial_seed emitted metrics
      else
        let base := parameter_as_real context (am_name metric) (double_of_Z 100) in
        let jittered := dmul base (dadd double_one (jitter trial_seed double_spread)) in
        let observation := default_NamedObservation
          <| nobs_metric := am_name metric |>
          <| nobs_value ::= fun v => v <| mv_kind := am_kind metric |> <| mv_real := jittered |> |> in
        let observation :=
          if parameter_as_bool context (am_name metric +:+ "_invalid")%string then
            observation
              <| nobs_validity := ObservationValidity.INVALID |>
              <| nobs_detail := "synthetic workload produced an invalid observation by configuration" |>
          else observation <| nobs_validity := ObservationValidity.VALID |> in
        observation :: workload_observations name context trial_seed (emitted + 1) metrics
  end.

(** [run_workload]. *)
Definition run_workload (name : string) (assignment : TrialAssignment) (context : WorkerTaskContext) : TrialOutcome :=
  let envelope := asg_envelope assignment in
  if String.eqb name "fail-once" && (ctx_attempt context <=? 1) then
    default_TrialOutcome
      <| out_succeeded := false |>
      <| out_failure_kind := FailureKind.EXECUTION_FAILURE |>
      <| out_failure_detail := "synthetic transient execution failure on attempt 1" |>
      <| out_retryable := true |>
  else if (if String.eqb name "parameter-slow"
           then busy_work (Z.lxor (env_trial envelope) (ctx_boot context)) 6000000 =? 0 else false) then
    default_TrialOutcome
      <| out_succeeded := false |>
      <| out_failure_kind := FailureKind.EXECUTION_FAILURE |>
      <| out_failure_detail := "unreachable synthetic guard" |>
  else
    let trial_seed := if id_valid (env_trial envelope) then Some (u64 (env_trial envelope * 2654435761)) else None in
    default_TrialOutcome
      <| out_succeeded := true |>
      <| out_observations := workload_observations name context trial_seed 0 (asg_metrics assignment) |>
      <| out_result_payload :=
           ("trial=" +:+ id_to_string (env_trial envelope) +:+ " attempt=" +:+ id_to_string (env_attempt envelope))%string |>.

(** ** Driving a coordinator in process *)

(** [Session]. *)
Record Session := mkSession { ses_worker : Z; ses_boot : Z; ses_producer : Z; ses_epoch : Z }.

Section Driver.
Context `{Storage} `{Formatting} `{Platform}.
Implicit Types (impl : Impl) (session : Session) (assignment : TrialAssignment).

(** The loop over the planned trials of one branch. *)
Fixpoint create_branch_trials (experiment branch : Z) (payload : string) (count : nat) (impl : Impl) : Call Status :=
  match count with
  | O => (impl, success)
  | S count =>
      match create_trial experiment branch payload impl with
      | (impl, Err s) => (impl, s)
      | (impl, Ok _) => create_branch_trials experiment branch payload count impl
      end
  end.

Fixpoint create_branches_trials (experiment : Z) (payload : string) (branches : list BranchDefinition) (impl : Impl) : Call Status :=
  match branches with
  | [] => (impl, success)
  | branch :: branches =>
      if negb (is_branch_eligible (branch_state branch)) then create_branches_trials experiment payload branches impl
      else
        let '(impl, created) := create_branch_trials experiment (branch_id branch) payload (Z.to_nat (branch_planned_trials branch)) impl in
        if negb (status_ok created) then (impl, created) else create_branches_trials experiment payload branches impl
  end.

(** [create_planned_trials]. *)
Definition create_planned_trials (experiment : Z) (payload : string) (impl : Impl) : Call Status :=
  match snapshot experiment impl with
  | Err s => (impl, s)
  | Ok view => create_branches_trials experiment payload (def_branches (xsnap_definition view)) impl
  end.

(** [join]: a null [boot] stands for one derived from the identity. *)
Definition join_request (identity boot : Z) : RegisterWorkerRequest :=
  default_RegisterWorkerRequest
    <| reg_worker := identity |>
    <| reg_boot := if boot =? 0 then Z.lor 0x5E55100000000000 identity else boot |>
    <| reg_endpoint := ("example-session-" +:+ id_to_string identity)%string |>
    <| reg_max_concurrent_assignments := 32 |>
    <| reg_fingerprint := "reference-example-worker" |>.
Definition join (identity boot : Z) (impl : Impl) : Call (Result Session) :=
  let '(impl, reply) := register_worker (join_request identity boot) impl in
  if negb (status_ok (regr_status reply)) then (impl, Err (regr_status reply))
  else (impl, Ok (mkSession identity (regr_boot reply) (regr_producer reply) (regr_epoch reply))).

(** [claim]: the first of the assignments. *)
Definition session_claim session (max_claims : Z) : ClaimTrialRequest :=
  mkClaimTrialRequest (ses_epoch session) (ses_worker session) (ses_boot session) max_claims.
Definition claim session (max_claims : Z) (impl : Impl) : Call (Result TrialAssignment) :=
  let '(impl, reply) := claim_trials (session_claim session max_claims) impl in
  if negb (status_ok (claimr_status reply)) then (impl, Err (claimr_status reply))
  else
    match claimr_assignments reply with
    | [] => (impl, Err (make_error ErrorCode.NOT_FOUND ErrorStage.LIFECYCLE "no trial is available to claim"))
    | assignment :: _ => (impl, Ok assignment)
    end.

(** [publish]: the value under every reading of it. *)
Definition session_publication session assignment (reservation : AssignedMetric) (value : double)
    (validity : ObservationValidity) : PublishObservationRequest :=
  let envelope := asg_envelope assignment in
  mkPublishObservationRequest (ses_epoch session) (ses_worker session) (ses_boot session)
    (default_Observation
       <| obs_id := am_observation_id reservation |>
       <| obs_experiment := env_experiment envelope |>
       <| obs_generation := env_generation envelope |>
       <| obs_branch := env_branch envelope |>
       <| obs_branch_generation := env_branch_generation envelope |>
       <| obs_trial := env_trial envelope |>
       <| obs_attempt := env_attempt envelope |>
       <| obs_metric := am_metric reservation |>
       <| obs_producer := ses_producer session |>
       <| obs_worker := ses_worker session |>
       <| obs_boot := ses_boot session |>
       <| obs_epoch := ses_epoch session |>
       <| obs_validity := validity |>
       <| obs_value ::= fun v => v
            <| mv_kind := am_kind reservation |>
            <| mv_real := value |>
            <| mv_integer := int64_cast value |>
            <| mv_boolean := negb (deqb value double_zero) |> |>).
Definition publish session assignment (metric : string) (value : double) (validity : ObservationValidity) (impl : Impl) : Call Status :=
  match reservation_of assignment metric with
  | None => (impl, make_error ErrorCode.NOT_FOUND ErrorStage.OBSERVATION
                     "the requested metric was not reserved for this assignment")
  | Some reservation => publish_observation (session_publication session assignment reservation value validity) impl
  end.

(** [commit]. *)
Definition session_commit session assignment : CommitTrialRequest :=
  mkCommitTrialRequest (ses_epoch session) (ses_worker session) (ses_boot session) (asg_envelope assignment) [] "reference-example".
Definition commit session assignment (impl : Impl) : Call Status := commit_trial (session_commit session assignment) impl.

(** [complete_one]. *)
Definition complete_one session (metric : string) (value : double) (validity : ObservationValidity) (impl : Impl) : Call Status :=
  match claim session 1 impl with
  | (impl, Err s) => (impl, s)
  | (impl, Ok assignment) =>
      let '(impl, published) := publish session assignment metric value validity impl in
      if negb (status_ok published) then (impl, published) else commit session assignment impl
  end.

End Driver.


(** ** The catalogue is accepted *)

Section Catalogued.
Context `{StorageLaws} `{Formatting}.
Implicit Types (impl : Impl).

Lemma scenario_cases (P : string -> Prop) name :
  name ∈ scenario_names ->
  P "latency"%string -> P "throughput-memory"%string -> P "forked-parameter"%string -> P "insufficient"%string ->
  P "invalid-evidence"%string -> P "authority"%string -> P "retry"%string -> P name.
Proof. intros Hin. intros. unfold scenario_names in Hin. rewrite !elem_of_cons, elem_of_nil in Hin. naive_solver. Qed.

Lemma scenario_valid name :
  name ∈ scenario_names ->
  exists spec, build_scenario name = inl spec /\ status_ok (validate_spec spec default_Limits) = true /\ consistent spec.
Proof.
  intros Hin. apply (scenario_cases (fun name => exists spec, build_scenario name = inl spec
    /\ status_ok (validate_spec spec default_Limits) = true /\ consistent spec) name Hin).
  all: eexists; split; [reflexivity|]; split; [vm_compute; reflexivity|].
  all: split; [intros Huse; discriminate Huse|]; simpl; intros metric Hmetric; try discriminate Hmetric.
  injection Hmetric as <-. by left.
Qed.

Lemma scenario_unknown name : name ∉ scenario_names -> build_scenario name = inr ("unknown scenario: " +:+ name)%string.
Proof.
  unfold scenario_names. rewrite !not_elem_of_cons. intros (N1 & N2 & N3 & N4 & N5 & N6 & N7 & _). unfold build_scenario.
  by rewrite !(proj2 (String.eqb_neq _ _)) by done.
Qed.

(** Every experiment the catalogue names is a specification the coordinator
    creates, whatever the coordinator, as long as it runs with the default
    bounds and admits the experiment; any other name is refused. *)
Theorem catalogue_creates name impl :
  impl_limits impl = default_Limits ->
  match build_scenario name with
  | inl spec => (name ∈ scenario_names) /\ (admits spec impl -> creates spec impl)
  | inr error => (name ∉ scenario_names) /\ error = ("unknown scenario: " +:+ name)%string
  end.
Proof.
  intros Hl. destruct (decide (name ∈ scenario_names)) as [Hin|Hout].
  - destruct (scenario_valid name Hin) as (spec & -> & Hvalid & Hconsistent). split; [done|].
    intros Hadmits. apply valid_spec_creates; [by rewrite Hl|done|done].
  - by rewrite scenario_unknown.
Qed.

End Catalogued.

(** ** The planned trials are created *)

Section Planned.
Context `{StorageLaws} `{Formatting}.
Implicit Types (impl : Impl) (r : ExperimentRecord).

Lemma filter_om_set_new {K V} `{KeyOrder K} (P : K * V -> bool) k v (m : omap K V) :
  om_find k m = None ->
  length (List.filter P (om_set k v m)) = ((if P (k, v) then 1 else 0) + length (List.filter P m))%nat.
Proof.
  induction m as [|[k0 v0] m IH]; simpl; [by destruct (P (k, v))|]. case_decide; [done|]. intros Hn.
  destruct (key_ltb k k0); simpl; [destruct (P (k, v)), (P (k0, v0)); simpl; lia|].
  destruct (P (k0, v0)); simpl; rewrite IH by done; destruct (P (k, v)); simpl; lia.
Qed.

(** The trials of a branch in the current generation. *)
Definition current_trials r (branch : Z) : nat :=
  length (List.filter (fun entry => (trial_branch entry.2 =? branch)
    && (trial_generation entry.2 =? def_generation (rec_definition r))) (rec_trials r)).

Lemma existing_current r branch : existing_trials r branch = u32 (Z.of_nat (current_trials r branch)).
Proof. reflexivity. Qed.

(** New ready trials with the payload, [added] on each branch; everything else
    is as it was. *)
Record planned (experiment : Z) (payload : string) (added : Z -> nat) (impl impl' : Impl) (r r' : ExperimentRecord) : Prop := {
  pl_before : find_experiment experiment impl = Some r;
  pl_after : find_experiment experiment impl' = Some r';
  pl_definition : rec_definition r' = rec_definition r;
  pl_count : forall branch, current_trials r' branch = (current_trials r branch + added branch)%nat;
  pl_kept : forall k t, om_find k (rec_trials r) = Some t -> om_find k (rec_trials r') = Some t;
  pl_new : forall k t, om_find k (rec_trials r') = Some t ->
    om_find k (rec_trials r) = Some t \/ trial_state t = TrialState.READY /\ trial_payload t = payload;
  pl_others : forall other, other <> experiment -> find_experiment other impl' = find_experiment other impl;
  pl_runs : runs impl impl'
}.

Lemma planned_none experiment payload impl r : find_experiment experiment impl = Some r -> planned experiment payload (fun _ => 0%nat) impl impl r r.
Proof. intros Hr. constructor; auto; constructor. Qed.

Lemma runs_trans impl1 impl2 impl3 : runs impl1 impl2 -> runs impl2 impl3 -> runs impl1 impl3.
Proof. induction 1; [done|]. intros. econstructor; eauto. Qed.

Lemma planned_trans experiment payload added1 added2 impl1 impl2 impl3 r1 r2 r3 :
  planned experiment payload added1 impl1 impl2 r1 r2 -> planned experiment payload added2 impl2 impl3 r2 r3 ->
  planned experiment payload (fun b => added1 b + added2 b)%nat impl1 impl3 r1 r3.
Proof.
  intros [Hb1 Ha1 Hd1 Hc1 Hk1 Hn1 Ho1 Hr1] [Hb2 Ha2 Hd2 Hc2 Hk2 Hn2 Ho2 Hr2]. constructor; auto.
  - congruence.
  - intros b. rewrite Hc2, Hc1. lia.
  - intros k t Ht. destruct (Hn2 k t Ht) as [Ht'|?]; [|by right]. destruct (Hn1 k t Ht'); auto.
  - intros other Hne. rewrite Ho2, Ho1; auto.
  - by eapply runs_trans.
Qed.

Lemma planned_ext experiment payload added added' impl impl' r r' :
  (forall b, added b = added' b) -> planned experiment payload added impl impl' r r' -> planned experiment payload added' impl impl' r r'.
Proof. intros Heq []. constructor; auto. intros b. by rewrite <- Heq. Qed.

Lemma create_trial_error experiment branch payload impl impl' s :
  create_trial experiment branch payload impl = (impl', Err s) -> status_ok s = false.
Proof.
  unfold create_trial, next_sequence, alloc_trial_id. intros Hc. repeat case_match; simplify_eq; try done; by apply negb_true_iff.
Qed.

Lemma create_trial_planned experiment branch payload impl impl' id :
  reachable (Up impl) -> trial_mark impl < u64_max ->
  create_trial experiment branch payload impl = (impl', Ok id) ->
  exists r r' b, find_branch r branch = Some b /\ existing_trials r branch < branch_planned_trials b
    /\ planned experiment payload (fun x => if decide (x = branch) then 1%nat else 0%nat) impl impl' r r'
    /\ trial_mark impl' = trial_mark impl + 1.
Proof.
  intros Hreach Hmark Hcreate.
  assert (Hruns : runs impl impl').
  { apply (runs_op _ (OpCreateTrial experiment branch payload)); [exact Hmark|]. simpl. rewrite Hcreate. constructor. }
  pose proof (reachable_inv _ Hreach) as Hinv. simpl in Hinv.
  destruct (inv_marks _ (inv_state _ Hinv)) as [Hpos _]. fold (trial_mark impl) in *.
  assert (Hinc : increment (trial_mark impl) = trial_mark impl + 1) by (apply u64_succ_small; unfold trial_mark in *; lia).
  revert Hcreate. unfold create_trial. destruct (find_experiment experiment impl) as [r|] eqn:Hr; [|done].
  pose proof (inv_next_trial_fresh _ Hinv Hmark _ _ Hr) as Hfresh.
  destruct (negb _); [done|]. destruct (find_branch r branch) as [b|] eqn:Hb; [|done].
  destruct (negb _); [done|]. destruct (_ <? _); [done|]. destruct (_ <=? _) eqn:Hroom; [done|]. destruct (_ * _ <=? _); [done|].
  unfold next_sequence, alloc_trial_id. simpl. fold (trial_mark impl) in *. rewrite Hinc in *.
  destruct (negb (status_ok _)); [done|]. destruct (persist_locked _) as [impl1 persisted] eqn:Hp.
  apply persist_state in Hp as (d & w & -> & _). destruct (negb (status_ok _)); [done|].
  match goal with |- context [notify_event ?e ?x] => destruct (notify_event_state e x) as [n ->] end.
  intros [= <- <-]. apply Z.leb_gt in Hroom.
  eexists r, _, b. split; [done|]. split; [done|]. split; [|unfold trial_mark; simpl; done].
  assert (Hset : forall t, om_emplace (trial_mark impl + 1) t (rec_trials r) = om_set (trial_mark impl + 1) t (rec_trials r)).
  { intros t. unfold om_emplace. by rewrite Hfresh. }
  constructor; [done|unfold find_experiment; simpl; by rewrite om_find_set_eq|done|..|done]; simpl.
  - intros x. unfold current_trials. simpl. rewrite Hset, filter_om_set_new by done. simpl. rewrite Z.eqb_refl, andb_true_r.
    destruct (Z.eqb_spec branch x), (decide (x = branch)); try congruence; lia.
  - intros k t Ht. rewrite Hset, om_find_set_ne by congruence. done.
  - intros k t. rewrite Hset, om_find_set. case_decide; [|by left]. intros [= <-]. by right.
  - intros other Hne. unfold find_experiment. simpl. by rewrite om_find_set_ne.
Qed.

Lemma create_branch_trials_planned experiment branch payload count impl impl' r :
  reachable (Up impl) -> trial_mark impl + Z.of_nat count <= u64_max -> find_experiment experiment impl = Some r ->
  create_branch_trials experiment branch payload count impl = (impl', success) ->
  exists r', planned experiment payload (fun x => if decide (x = branch) then count else 0%nat) impl impl' r r'
    /\ trial_mark impl' = trial_mark impl + Z.of_nat count
    /\ (count = 0%nat \/ exists b, find_branch r branch = Some b
          /\ (0 <= branch_planned_trials b < u32_modulus ->
              existing_trials r branch + Z.of_nat count <= branch_planned_trials b)).
Proof.
  revert impl r. induction count as [|count IH]; intros impl r Hreach Hroom Hr Hcreate; cbn [create_branch_trials] in Hcreate.
  - injection Hcreate as <-. exists r. split; [|split; [lia|by left]].
    apply (planned_ext _ _ (fun _ => 0%nat)); [intros x; by case_decide|by apply planned_none].
  - destruct (create_trial experiment branch payload impl) as [impl1 [id|s]] eqn:Hone.
    2: { injection Hcreate as _ ->. by apply create_trial_error in Hone. }
    apply create_trial_planned in Hone as (r0 & r1 & b & Hb & Hlt & Hp1 & Hm1); [|done|lia].
    assert (r0 = r) as -> by (pose proof (pl_before _ _ _ _ _ _ _ Hp1); congruence).
    destruct (IH impl1 r1) as (r2 & Hp2 & Hm2 & Hfit);
      [by eapply reachable_runs, pl_runs|lia|by eapply pl_after|done|].
    exists r2. split; [|split; [lia|right; exists b; split; [done|intros Hb32]]].
    { eapply planned_ext; [|by eapply planned_trans]. intros x. simpl. by case_decide. }
    assert (Hone : existing_trials r1 branch = existing_trials r branch + 1).
    { rewrite !existing_current, (pl_count _ _ _ _ _ _ _ Hp1), decide_True by done. rewrite existing_current in Hlt.
      unfold u32 in *. rewrite Nat2Z.inj_add. rewrite Zplus_mod, (Z.mod_small (Z.of_nat 1)) by (unfold u32_modulus; lia).
      apply Z.mod_small. pose proof (Z.mod_pos_bound (Z.of_nat (current_trials r branch)) u32_modulus). lia. }
    destruct Hfit as [->|(b' & Hb' & Hfit)]; [lia|].
    assert (b' = b) as ->. { revert Hb Hb'. unfold find_branch. rewrite (pl_definition _ _ _ _ _ _ _ Hp1). congruence. }
    specialize (Hfit Hb32). lia.
Qed.

(** How many trials are planned on a branch, by the branches of that identity. *)
Fixpoint planned_on (branches : list BranchDefinition) (id : Z) : nat :=
  match branches with
  | [] => 0%nat
  | b :: rest =>
      ((if decide (id = branch_id b) then if is_branch_eligible (branch_state b) then Z.to_nat (branch_planned_trials b) else 0 else 0)
       + planned_on rest id)%nat
  end.

Definition planned_total (branches : list BranchDefinition) : Z :=
  foldr (fun b total => Z.max 0 (branch_planned_trials b) + total) 0 branches.

Lemma planned_total_nonneg branches : 0 <= planned_total branches.
Proof. induction branches; simpl; lia. Qed.

Lemma planned_on_unique branches b :
  NoDup (map branch_id branches) -> b ∈ branches ->
  planned_on branches (branch_id b)
  = if is_branch_eligible (branch_state b) then Z.to_nat (branch_planned_trials b) else 0%nat.
Proof.
  assert (Hout : forall l id, id ∉ map branch_id l -> planned_on l id = 0%nat).
  { induction l as [|x l IH]; intros id; simpl; [done|]. intros [Hne Hin]%not_elem_of_cons. by rewrite decide_False, IH. }
  induction branches as [|x branches IH]; simpl; [set_solver|]. intros [Hx Hnd]%NoDup_cons [->|Hb]%elem_of_cons.
  - rewrite decide_True, Hout by done. lia.
  - rewrite decide_False, IH by (done || (intros Heq; apply Hx; rewrite <- Heq; apply list_elem_of_fmap; by exists b)). done.
Qed.

Lemma create_branch_trials_result experiment branch payload count impl :
  (create_branch_trials experiment branch payload count impl).2 = success
  \/ status_ok (create_branch_trials experiment branch payload count impl).2 = false.
Proof.
  revert impl. induction count as [|count IH]; intros impl; simpl; [by left|].
  destruct (create_trial _ _ _ impl) as [impl1 [id|s]] eqn:Ht; [apply IH|]. right. by apply create_trial_error in Ht.
Qed.

(** A branch on which [planned_trials] more trials fit holds none yet. *)
Definition empty_branch r (b : BranchDefinition) : Prop :=
  is_branch_eligible (branch_state b) = true -> find_branch r (branch_id b) = Some b -> 0 < branch_planned_trials b < u32_modulus ->
  existing_trials r (branch_id b) = 0.

Lemma create_branches_trials_planned experiment payload branches impl impl' r :
  reachable (Up impl) -> NoDup (map branch_id branches) ->
  trial_mark impl + planned_total branches <= u64_max -> find_experiment experiment impl = Some r ->
  create_branches_trials experiment payload branches impl = (impl', success) ->
  exists r', planned experiment payload (planned_on branches) impl impl' r r' /\ Forall (empty_branch r) branches.
Proof.
  revert impl r. induction branches as [|b branches IH]; intros impl r Hreach Hnd Hroom Hr Hcreate; cbn [create_branches_trials] in Hcreate.
  - injection Hcreate as <-. exists r. split; [|constructor].
    by apply (planned_ext _ _ (fun _ => 0%nat)), planned_none.
  - cbn [planned_total foldr] in Hroom. fold (planned_total branches) in Hroom. pose proof (planned_total_nonneg branches).
    cbn [map] in Hnd. apply NoDup_cons in Hnd as [Hout Hnd].
    destruct (is_branch_eligible (branch_state b)) eqn:Heligible; simpl in Hcreate.
    + pose proof (create_branch_trials_result experiment (branch_id b) payload (Z.to_nat (branch_planned_trials b)) impl) as Hresult.
      destruct (create_branch_trials _ _ _ _ impl) as [impl1 created] eqn:Hone. simpl in Hresult.
      destruct Hresult as [->|Hbad]; [simpl in Hcreate|rewrite Hbad in Hcreate; simpl in Hcreate; by injection Hcreate as _ ->].
      apply create_branch_trials_planned with (r := r) in Hone as (r1 & Hp1 & Hm1 & Hfit); [|done|lia|done].
      destruct (IH impl1 r1) as (r2 & Hp2 & Hall); [by eapply reachable_runs, pl_runs|done|lia|by eapply pl_after|done|].
      exists r2. split.
      { eapply planned_ext; [|by eapply planned_trans]. intros x. simpl. rewrite Heligible. by case_decide. }
      constructor.
      * intros _ Hb Hpos. destruct Hfit as [Hz|(b' & Hb' & Hfit)]; [lia|]. assert (b' = b) as -> by congruence.
        rewrite Z2Nat.id in Hfit by lia. specialize (Hfit ltac:(lia)). rewrite existing_current in *. unfold u32 in *.
        pose proof (Z.mod_pos_bound (Z.of_nat (current_trials r (branch_id b))) u32_modulus). lia.
      * apply Forall_forall. intros x Hx He Hf Hpos. rewrite Forall_forall in Hall. specialize (Hall x Hx He).
        rewrite existing_current in *. rewrite <- Hall; [|unfold find_branch in *; by rewrite (pl_definition _ _ _ _ _ _ _ Hp1)|done].
        rewrite (pl_count _ _ _ _ _ _ _ Hp1), decide_False; [by rewrite Nat.add_0_r|].
        intros Heq. apply Hout. rewrite <- Heq. apply list_elem_of_fmap. by exists x.
    + destruct (IH impl r) as (r1 & Hp1 & Hall); [done|done|lia|done|done|]. exists r1. split.
      { eapply planned_ext; [|exact Hp1]. intros x. simpl. rewrite Heligible. by case_decide. }
      constructor; [intros ?; congruence|exact Hall].
Qed.

(** When the planned trials of an experiment have been created, every branch
    that is eligible holds exactly the number planned for it in the current
    generation, all of them new and ready with the payload given; the branches
    that are not eligible, the trials there were, the definition and every
    other experiment are as before.  In particular the call succeeds only
    where an eligible branch had no trial yet. *)
Theorem create_planned_trials_fills experiment payload impl impl' r :
  reachable (Up impl) -> find_experiment experiment impl = Some r -> NoDup (branch_ids r) ->
  Forall (fun b => 0 < branch_planned_trials b < u32_modulus) (def_branches (rec_definition r)) ->
  trial_mark impl + planned_total (def_branches (rec_definition r)) <= u64_max ->
  create_planned_trials experiment payload impl = (impl', success) ->
  exists r', planned experiment payload (planned_on (def_branches (rec_definition r))) impl impl' r r'
    /\ Forall (fun b => existing_trials r' (branch_id b)
         = if is_branch_eligible (branch_state b) then branch_planned_trials b else existing_trials r (branch_id b))
       (def_branches (rec_definition r)).
Proof.
  intros Hreach Hr Hnd Hpos Hroom. unfold create_planned_trials, snapshot. rewrite Hr. simpl. intros Hcreate.
  destruct (create_branches_trials_planned _ _ _ _ _ r Hreach Hnd Hroom Hr Hcreate) as (r' & Hp & Hall).
  exists r'. split; [done|]. apply Forall_forall. intros b Hb. rewrite Forall_forall in Hpos, Hall.
  specialize (Hpos b Hb). pose proof (Hall b Hb) as Hempty. unfold empty_branch in Hempty.
  rewrite !existing_current in *. rewrite (pl_count _ _ _ _ _ _ _ Hp), planned_on_unique by done.
  destruct (is_branch_eligible (branch_state b)) eqn:Heligible; [|by rewrite Nat.add_0_r].
  assert (Hb' : find_branch r (branch_id b) = Some b).
  { destruct (find_branch_elem (def_branches (rec_definition r)) (branch_id b)) as (b' & Hf & Hin).
    { apply list_elem_of_fmap. by exists b. }
    unfold find_branch. rewrite Hf. f_equal. apply find_some in Hf as [_ Hid%Z.eqb_eq]. by eapply NoDup_map_inj. }
  specialize (Hempty eq_refl Hb' Hpos). unfold u32 in *. rewrite Nat2Z.inj_add, Z2Nat.id by lia.
  rewrite Zplus_mod, Hempty, Z.add_0_l, Zmod_mod. apply Z.mod_small. lia.
Qed.

End Planned.

(** ** Sessions *)

Section Sessions.
Context `{StorageLaws} `{Formatting} `{Platform}.
Implicit Types (impl : Impl).

Lemma publish_observation_stored request impl impl' s :
  let o := pubo_observation request in
  publish_observation request impl = (impl', s) -> status_ok s = true ->
  exists r r', find_experiment (obs_experiment o) impl = Some r /\ find_experiment (obs_experiment o) impl' = Some r'
    /\ (index_find (def_id (rec_definition r)) (obs_id o) (impl_observation_index impl) = None ->
        exists sequence, o <| obs_sequence := sequence |> ∈ rec_observations r').
Proof.
  intros o. unfold publish_observation. fold o. destruct (find_experiment (obs_experiment o) impl) as [r|] eqn:Hr; [|by intros [= _ <-]].
  set (e := envelope_from o (pubo_epoch request) (pubo_worker request) (pubo_boot request) r).
  destruct (check_envelope_cases e impl) as [(r0 & b & t & a & l & Hau & ->)|[_ Hno]]; envelope_result.
  2: { rewrite Hno. destruct (persist_locked _) as [? persisted]. destruct (negb (status_ok persisted)) eqn:Hp.
       - intros [= _ ->] Hok. by rewrite Hok in Hp.
       - destruct (check_envelope_refusing e impl) as [Hyes|[Hbad _]]; [congruence|]. intros [= _ <-] Hok. congruence. }
  pose proof Hau as (Hc & [Ha1 Ha2 Ha3 Ha4 Ha5] & [Hr0 Hb Ht Ha] & Hn).
  simpl in Hr0. assert (r0 = r) as -> by congruence. unfold accept_observation.
  destruct (find_metric r (obs_metric o)) as [metric|]; [|by intros [= _ <-]].
  destruct (index_find _ (obs_id o) (impl_observation_index impl)) as [position|] eqn:Hix.
  { destruct (same_observation _ o); [|by intros [= _ <-]]. intros [= <- _] _. exists r, r.
    split; [done|]. split; [done|]. intros Hnone. congruence. }
  destruct (_ <=? _); [by intros [= _ <-]|]. destruct (_ * _ <=? _); [by intros [= _ <-]|].
  destruct (negb (status_ok (check_observation r metric o))) eqn:Hchk; [intros [= _ <-] Hok; by rewrite Hok in Hchk|].
  destruct (store_observation o r t a impl) as [r1 impl1] eqn:Hst.
  apply store_observation_stored in Hst as [_ _ (sequence & Hobs) _ _ _ _ _]; [|done..].
  destruct (persist_locked _) as [impl2 persisted] eqn:Hp. apply persist_state in Hp as (d & w & -> & _).
  destruct (negb (status_ok persisted)) eqn:Hper; [intros [= _ <-] Hok; by rewrite Hok in Hper|]. intros [= <- _] _.
  exists r, r1. split; [done|]. split; [unfold find_experiment; simpl; by rewrite om_find_set_eq|].
  intros _. exists sequence. rewrite Hobs. set_solver.
Qed.

Lemma last_such_some {A} (f : A -> bool) l x : last_such f l = Some x -> x ∈ l /\ f x = true.
Proof.
  induction l as [|y l IH]; [done|]. rewrite last_such_cons. destruct (last_such f l) as [z|].
  - intros [= ->]. destruct IH as [? ?]; [done|]. split; [by right|done].
  - destruct (f y) eqn:Hf; [|done]. intros [= <-]. split; [by left|done].
Qed.

(** Where [complete_one] succeeds, it went through its three steps. *)
Lemma complete_one_steps session metric value validity impl impl' :
  complete_one session metric value validity impl = (impl', success) ->
  exists assignment reservation impl1 impl2 published,
    claim session 1 impl = (impl1, Ok assignment)
    /\ reservation_of assignment metric = Some reservation
    /\ publish_observation (session_publication session assignment reservation value validity) impl1 = (impl2, published)
    /\ status_ok published = true /\ commit_trial (session_commit session assignment) impl2 = (impl', success).
Proof.
  unfold complete_one, publish, commit. destruct (claim session 1 impl) as [impl1 [assignment|s]] eqn:Hclaim.
  2: { revert Hclaim. unfold claim. destruct (claim_trials _ impl) as [? reply].
       destruct (negb (status_ok _)) eqn:Hs; [intros [= _ <-] [= _ Hok]; by rewrite Hok in Hs|].
       destruct (claimr_assignments reply); [intros [= _ <-]; done|done]. }
  destruct (reservation_of assignment metric) as [reservation|] eqn:Hres; [|done].
  destruct (publish_observation _ impl1) as [impl2 published] eqn:Hpub.
  destruct (negb (status_ok published)) eqn:Hs; [intros [= _ ->]; done|]. intros Hcommit.
  exists assignment, reservation, impl1, impl2, published. split_and!; try done. by apply negb_false_iff.
Qed.

(** A session that reports a trial completed has completed one: the claim,
    the publication and the commit moved the coordinator by its own operations,
    the envelope names the session's incarnation, its trial and attempt are
    completed, and the value is stored as an observation of that attempt
    (where its identity was fresh, as claims hand them out). *)
Theorem complete_one_completes session metric value validity impl impl' :
  reachable (Up impl) -> room (OpClaimTrials (session_claim session 1)) impl ->
  complete_one session metric value validity impl = (impl', success) ->
  runs impl impl'
  /\ exists assignment reservation impl1 r1 r',
       let e := asg_envelope assignment in
       let o := pubo_observation (session_publication session assignment reservation value validity) in
       claim session 1 impl = (impl1, Ok assignment)
       /\ am_name reservation = metric /\ reservation ∈ asg_metrics assignment
       /\ env_epoch e = ses_epoch session /\ env_worker e = ses_worker session /\ env_boot e = ses_boot session
       /\ find_experiment (env_experiment e) impl1 = Some r1 /\ find_experiment (env_experiment e) impl' = Some r'
       /\ (exists t, om_find (env_trial e) (rec_trials r') = Some t
             /\ trial_state t = TrialState.COMPLETED /\ trial_authoritative_attempt t = env_attempt e)
       /\ (exists a, om_find (env_attempt e) (rec_attempts r') = Some a
             /\ attempt_state a = AttemptState.COMPLETED /\ attempt_committed a = true)
       /\ (index_find (def_id (rec_definition r1)) (obs_id o) (impl_observation_index impl1) = None ->
            exists sequence, o <| obs_sequence := sequence |> ∈ rec_observations r').
Proof.
  intros Hreach Hroom Hdone.
  apply complete_one_steps in Hdone as (assignment & reservation & impl1 & impl2 & published & Hclaim & Hres & Hpub & Hok & Hcommit).
  assert (Hruns1 : runs impl impl1).
  { apply (runs_op _ (OpClaimTrials (session_claim session 1))); [exact Hroom|]. simpl. revert Hclaim. unfold claim.
    destruct (claim_trials _ impl) as [impl0 reply]. simpl. repeat case_match; intros [= <- _]; try done; constructor. }
  assert (Hruns2 : runs impl1 impl2).
  { eapply (runs_op _ (OpPublishObservation _)); [exact I|]. simpl. rewrite Hpub. constructor. }
  assert (Hruns3 : runs impl2 impl').
  { eapply (runs_op _ (OpCommitTrial _)); [exact I|]. simpl. rewrite Hcommit. constructor. }
  split; [eauto using runs_trans|].
  assert (Hreach2 : reachable (Up impl2)) by eauto using reachable_runs.
  pose proof (commit_trial_committed _ _ _ Hreach2 Hcommit) as (_ & r2 & r' & Hr2 & Hr' & _ & Hdone).
  destruct Hdone as [(t & Ht & Hts & _ & Hta) (a & Ha & Has & Hac) _ Hobs _ _ _].
  apply publish_observation_stored in Hpub as (r1 & r2' & Hr1 & Hr2' & Hstored); [|done]. simpl in Hr1, Hr2', Hr2, Hr', Ht, Ha, Hta.
  assert (r2' = r2) as -> by congruence.
  apply last_such_some in Hres as [Hin Hname]. apply String.eqb_eq in Hname.
  exists assignment, reservation, impl1, r1, r'. cbv zeta. revert Hcommit. unfold commit_trial, session_commit. cbn [commit_envelope commit_epoch commit_worker commit_boot].
  destruct (envelope_mismatch _ _ _ _) eqn:Hmatch; [done|]. intros _. unfold envelope_mismatch in Hmatch. zprop.
  split_and!; try done; [by exists t|by exists a|]. intros Hfresh. rewrite Hobs. exact (Hstored Hfresh).
Qed.

End Sessions.

(** ** Workloads *)

Section WorkloadFacts.
Implicit Types (assignment : TrialAssignment) (context : WorkerTaskContext).

Lemma workload_metrics name context seed emitted metrics :
  0 <= emitted ->
  map nobs_metric (workload_observations name context seed emitted metrics)
  = map am_name (if String.eqb name "partial" then if emitted =? 0 then take 1 (List.filter am_required metrics) else []
                 else metrics).
Proof.
  revert emitted. induction metrics as [|m metrics IH]; intros emitted He; cbn [workload_observations].
  - by destruct (String.eqb name "partial"), (emitted =? 0).
  - destruct (String.eqb name "partial") eqn:Hname; simpl.
    + destruct (am_required m); simpl; [|by apply IH]. destruct (Z.leb_spec 1 emitted).
      * rewrite IH by done. by destruct (Z.eqb_spec emitted 0); [lia|].
      * destruct (Z.eqb_spec emitted 0); [|lia]. simpl. rewrite IH by lia. destruct (Z.eqb_spec (emitted + 1) 0); [lia|].
        by destruct (parameter_as_bool _ _).
    + rewrite IH by lia. by destruct (parameter_as_bool _ _).
Qed.

Lemma workload_kinds name context seed emitted metrics :
  Forall (fun named => exists m, m ∈ metrics /\ nobs_metric named = am_name m /\ mv_kind (nobs_value named) = am_kind m)
    (workload_observations name context seed emitted metrics).
Proof.
  revert emitted. induction metrics as [|m metrics IH]; intros emitted; cbn [workload_observations]; [constructor|].
  assert (Hrest : forall e, Forall (fun named => exists m', m' ∈ m :: metrics /\ nobs_metric named = am_name m'
      /\ mv_kind (nobs_value named) = am_kind m') (workload_observations name context seed e metrics)).
  { intros e. eapply Forall_impl; [apply IH|]. intros named (m' & Hm & Hn & Hk). exists m'. split; [by right|done]. }
  destruct (_ && negb _); [apply Hrest|]. destruct (_ && (1 <=? emitted)); [apply Hrest|]. constructor; [|apply Hrest].
  exists m. split; [by left|]. by destruct (parameter_as_bool _ _).
Qed.

Lemma reservation_found assignment metric : metric ∈ map am_name (asg_metrics assignment) -> is_Some (reservation_of assignment metric).
Proof.
  unfold reservation_of. induction (asg_metrics assignment) as [|m metrics IH]; simpl; [set_solver|].
  rewrite last_such_cons. intros [->|Hin]%elem_of_cons.
  - rewrite String.eqb_refl. by destruct (last_such _ metrics).
  - destruct (IH Hin) as [x ->]. by eexists.
Qed.

Lemma workload_reserved name assignment context seed :
  Forall (fun named => is_Some (reservation_of assignment (nobs_metric named))
    /\ exists m, m ∈ asg_metrics assignment /\ nobs_metric named = am_name m /\ mv_kind (nobs_value named) = am_kind m)
    (workload_observations name context seed 0 (asg_metrics assignment)).
Proof.
  eapply Forall_impl; [apply workload_kinds|]. intros named (m & Hin & Hn & Hk).
  split; [apply reservation_found; rewrite Hn; apply list_elem_of_fmap; by exists m|by exists m].
Qed.

(** A workload of the catalogue reports one observation for each assigned
    metric, in order, under the metric's name and kind ("partial": for the
    first required metric only), so that each has a reserved identity and a
    worker never turns the trial down for an unassigned metric.  The only
    failures are the one "fail-once" makes of a first attempt, which may be
    retried, and the guard of "parameter-slow". *)
Theorem run_workload_observes name assignment context :
  let outcome := run_workload name assignment context in
  out_artifacts outcome = []
  /\ Forall (fun named => is_Some (reservation_of assignment (nobs_metric named))
       /\ exists m, m ∈ asg_metrics assignment /\ nobs_metric named = am_name m /\ mv_kind (nobs_value named) = am_kind m)
     (out_observations outcome)
  /\ (if out_succeeded outcome
      then map nobs_metric (out_observations outcome)
           = map am_name (if String.eqb name "partial" then take 1 (List.filter am_required (asg_metrics assignment))
                          else asg_metrics assignment)
      else out_observations outcome = []
           /\ (if out_retryable outcome then name = "fail-once"%string /\ ctx_attempt context <= 1 else name = "parameter-slow"%string))
  /\ (name = "fail-once"%string -> out_succeeded outcome = negb (ctx_attempt context <=? 1)).
Proof.
  cbv zeta. unfold run_workload. generalize (busy_work (Z.lxor (env_trial (asg_envelope assignment)) (ctx_boot context)) 6000000).
  intros mixed. set (seed := if id_valid _ then _ else _). clearbody seed.
  pose proof (workload_reserved name assignment context seed) as Hreserved.
  pose proof (workload_metrics name context seed 0 (asg_metrics assignment) ltac:(lia)) as Hmetrics. simpl in Hmetrics.
  destruct (String.eqb_spec name "fail-once") as [Hfail|Hfail]; simpl.
  - destruct (Z.leb_spec (ctx_attempt context) 1); simpl; [by split_and!|]. rewrite Hfail in *. simpl in *.
    split_and!; auto.
  - destruct (String.eqb_spec name "parameter-slow") as [Hslow|Hslow]; [destruct (mixed =? 0)|]; simpl; split_and!; auto; done.
Qed.

End WorkloadFacts.

(** ** The catalogue at work *)

Module Catalogue.

(** Reals printed as integers: enough for the parameters of the catalogue. *)
#[export] Instance decimal_formatting : Formatting := {
  to_chars := fun x => match truncate x with Some z => signed_to_string z | None => "nan"%string end;
  std_to_string := fun x => match truncate x with Some z => (signed_to_string z +:+ ".000000")%string | None => "nan"%string end
}.
#[export] Instance lp64 : Platform := { ulong_bits := 64; int64_undefined := fun _ => - 2 ^ 63 }.

Definition latency : ExperimentSpec := Eval vm_compute in
  match build_scenario "latency" with inl spec => spec | inr _ => default_ExperimentSpec end.
Lemma built : build_scenario "latency" = inl latency.
Proof. by_evaluation. Qed.
Definition created : Impl := Eval vm_compute in (create_experiment latency Run.s0).1.
Definition record : ExperimentRecord := default default_ExperimentRecord (find_experiment 1 created).
Definition filled : Impl := Eval vm_compute in (create_planned_trials 1 "scenario-trial" created).1.
Definition joined : Impl := Eval vm_compute in (join 7 0 filled).1.
Definition session : Session := mkSession 7 (Z.lor 0x5E55100000000000 7) 1 1.
Definition completed : Impl := Eval vm_compute in
  (complete_one session "latency_ms" (double_of_Z 118) ObservationValidity.VALID joined).1.

Lemma created_exec : created = exec (OpCreateExperiment latency) Run.s0.
Proof. by_evaluation. Qed.
Lemma reachable_fresh : reachable (Up Run.s0).
Proof.
  assert (Hempty : reachable (Down (Run.empty_world : World))) by by apply reachable_empty.
  eapply reachable_step; [exact Hempty|]. eapply step_start, Reach.start.
Qed.
Lemma reachable_created : reachable (Up created).
Proof. rewrite created_exec. eapply reachable_step; [exact reachable_fresh|by constructor]. Qed.

Lemma filled_success : create_planned_trials 1 "scenario-trial" created = (filled, success).
Proof. by_evaluation. Qed.

Lemma found_record : find_experiment 1 created = Some record.
Proof. by_evaluation. Qed.

Example joined_session : (join 7 0 filled).2 = Ok session.
Proof. by_evaluation. Qed.

End Catalogue.
#[local] Existing Instance Catalogue.decimal_formatting.
#[local] Existing Instance Catalogue.lp64.

Lemma catalogue_creates_witness : impl_limits Run.s0 = default_Limits /\ creates Catalogue.latency Run.s0.
Proof.
  split; [reflexivity|]. pose proof (catalogue_creates "latency" Run.s0 eq_refl) as Hcreates.
  rewrite Catalogue.built in Hcreates. apply Hcreates, fresh_admits; vm_compute; discriminate.
Defined.

Lemma create_planned_trials_fills_witness :
  exists r', planned 1 "scenario-trial" (planned_on (def_branches (rec_definition Catalogue.record))) Catalogue.created Catalogue.filled
               Catalogue.record r'
    /\ Forall (fun b => existing_trials r' (branch_id b)
         = if is_branch_eligible (branch_state b) then branch_planned_trials b else existing_trials Catalogue.record (branch_id b))
       (def_branches (rec_definition Catalogue.record)).
Proof.
  apply (create_planned_trials_fills 1 "scenario-trial" Catalogue.created Catalogue.filled Catalogue.record).
  - exact Catalogue.reachable_created.
  - exact Catalogue.found_record.
  - apply (bool_decide_eq_true_1 _). vm_compute. reflexivity.
  - apply (bool_decide_eq_true_1 _). vm_compute. reflexivity.
  - vm_compute. discriminate.
  - exact Catalogue.filled_success.
Defined.

Lemma reachable_joined : reachable (Up Catalogue.joined).
Proof.
  assert (Hj : Catalogue.joined = exec (OpRegisterWorker (join_request 7 0)) Catalogue.filled) by by_evaluation.
  destruct (create_branches_trials_planned 1 "scenario-trial" (def_branches (rec_definition Catalogue.record))
    Catalogue.created Catalogue.filled Catalogue.record) as (r' & Hp & _).
  - exact Catalogue.reachable_created.
  - apply (bool_decide_eq_true_1 _). vm_compute. reflexivity.
  - vm_compute. discriminate.
  - exact Catalogue.found_record.
  - by_evaluation.
  - rewrite Hj. eapply reachable_step; [|by constructor].
    exact (reachable_runs _ _ Catalogue.reachable_created (pl_runs _ _ _ _ _ _ _ Hp)).
Qed.

Lemma complete_one_completes_witness : runs Catalogue.joined Catalogue.completed.
Proof.
  apply (complete_one_completes Catalogue.session "latency_ms" (double_of_Z 118) ObservationValidity.VALID Catalogue.joined
    Catalogue.completed reachable_joined).
  - vm_compute. split; discriminate.
  - by_evaluation.
Defined.
