(* ===== verification/Control.v ===== *)
(** * The control client (apps/ef_ctl.cpp)

    The command line tool: options, one connection, one command, an exit code
    and lines on the standard output (what goes to the error stream is not
    modelled).  The connection is a parameter, through [Link].  What is proved:
    whatever the command, the coordinator at the other end only moves by its
    own operations; a frame log is read back as the frames that were written to
    it; and frames of an earlier epoch, replayed, are all refused. *)
From S2P Require Import Prelude OMap Error Domain Identity Float64 Numbers Model Hash Sorting Canonical State Wire Codec StateCodec Frames Messages MessageCodec Spec Coordinator Authority Evidence Decision Scenario Fencing History Ledger Invariants System Refusals Budget Inspect Query Transport Server Client Worker Progress.
#[local] Open Scope Z_scope.

(** How a process ends: its exit code and the lines it has written. *)
Record Exit := mkExit { exit_code : Z; exit_out : list string }.

(** [print_usage]. *)
Definition ctl_usage : list string :=
  [("ef_ctl " +:+ version_string +:+ " — deterministic inspection and control client")%string;
   "usage: ef_ctl --host <address> --port <n> <command> [arguments]";
   "commands:";
   "  status                                  coordinator status lines";
   "  list                                    list experiments";
   "  workers                                 list live worker incarnations";
   "  validate                                validate the durable state image";
   "  snapshot <experiment>                   full deterministic snapshot";
   "  hypothesis <experiment>                 hypothesis and revision history";
   "  branches <experiment>                   branch definitions";
   "  lineage <experiment>                    branch lineage tree";
   "  trials <experiment>                     trials and attempt history";
   "  observations <experiment>               metric observations";
   "  rejected <experiment>                   stale, invalid and rejected evidence";
   "  artifacts <experiment>                  artifact references";
   "  repro <experiment>:<branch>             reproducibility record";
   "  explain <experiment>:<branch>           comparison explanation";
   "  finalize <experiment> <branch> [reason] commit an authoritative decision";
   "  create-trial <experiment> <branch>      create one logical trial";
   "  fork <experiment> <parent> <name>       fork a branch";
   "  cancel-trial <trial> [reason]           cancel a logical trial";
   "  cancel-experiment <experiment> [reason] cancel an experiment";
   "  rollback <experiment> <generation>      roll back to an authoritative generation";
   "  replay <frames-file>                    replay preserved frames and report each reply";
   "  shutdown                                request an orderly coordinator stop"]%string.

(** [parse_pair], which nothing calls: an experiment and a branch, with the
    first colon between them. *)
Definition parse_pair (text : string) : option (Z * Z) :=
  match split_colon text with
  | None => None
  | Some (before, after) =>
      match id_parse before, id_parse after with
      | Some experiment, Some branch => Some (experiment, branch)
      | _, _ => None
      end
  end.

(** ** The options *)

(** What the options leave: an exit at once, or a host, a port and the command
    with its arguments. *)
Inductive Options :=
| Leave (exit : Exit)
| Proceed (host : string) (port : Z) (command : string) (arguments : list string).

(** The loop over the options; [std::stoul] throws on a port it cannot read. *)
Fixpoint ctl_options `{Platform} (host : string) (port : Z) (arguments : list string) : Options :=
  match arguments with
  | [] => Leave (mkExit 2 ctl_usage)
  | argument :: rest =>
      if String.eqb argument "--help" || String.eqb argument "-h" then Leave (mkExit 0 ctl_usage)
      else if String.eqb argument "--host" then
        match rest with
        | [] => Leave (mkExit 2 [])
        | value :: rest => ctl_options value port rest
        end
      else if String.eqb argument "--port" then
        match rest with
        | [] => Leave (mkExit 2 [])
        | value :: rest =>
            match stoul value with
            | None => Leave (mkExit 4 [])
            | Some port => ctl_options host (port mod 65536) rest
            end
        end
      else Proceed host port argument rest
  end.

Section Commands.
Context {L : Type} `{Link L} `{Formatting}.
Implicit Types client : Client L.

(** [print_lines]. *)
Definition print_lines (answer : Client L * Result (list string)) : Client L * Exit :=
  let '(client, lines) := answer in
  (client, match lines with Err _ => mkExit 5 [] | Ok lines => mkExit 0 lines end).

(** The outcome of an acknowledged command. *)
Definition print_status (done : string) (answer : Client L * Status) : Client L * Exit :=
  let '(client, status) := answer in
  (client, if status_ok status then mkExit 0 [done] else mkExit 5 [status_to_string status]).

(** The value of an accepted request. *)
Definition print_value (what : string) (answer : Client L * Result Frame) : Client L * Exit :=
  let '(client, reply) := answer in
  (client,
   match reply with
   | Err _ => mkExit 5 []
   | Ok reply =>
       match decode_value_reply (frame_payload reply) (cli_limits client) with
       | Err _ => mkExit 5 []
       | Ok value =>
           if negb (status_ok (valr_status value)) then mkExit 5 []
           else mkExit 0 [what +:+ " " +:+ unsigned_to_string (valr_value value)]
       end
   end).

(** ** Replay *)

(** The outcome a reply carries inside, where the classifier reads one. *)
Definition embedded_status (reply : Frame) : option Status :=
  match frame_type reply with
  | MessageType.ERROR_REPLY =>
      Some match decode_error_reply (frame_payload reply) default_Limits with
           | Ok value => errr_status value
           | Err _ => make_error ErrorCode.PROTOCOL_ERROR ErrorStage.TRANSPORT "malformed error reply"
           end
  | MessageType.REGISTER_ACK =>
      match decode_register_reply (frame_payload reply) default_Limits with Ok value => Some (regr_status value) | Err _ => None end
  | MessageType.CLAIM_RESULT =>
      match decode_claim_reply (frame_payload reply) default_Limits with Ok value => Some (claimr_status value) | Err _ => None end
  | MessageType.ACK =>
      match decode_ack (frame_payload reply) default_Limits with Ok value => Some (ackr_status value) | Err _ => None end
  | _ => None
  end.

(** The line reported for one replayed frame, and whether it counts as rejected. *)
Definition replay_report (index : Z) (type : MessageType) (answer : Result Frame) : string * bool :=
  let frame := ("replayed-frame " +:+ unsigned_to_string index +:+ " type=" +:+ message_type_to_string type)%string in
  match answer with
  | Err s => ((frame +:+ " transport-error=" +:+ status_to_string s)%string, true)
  | Ok reply =>
      let accepted name :=
        ((frame +:+ " accepted reply-type=" +:+ message_type_to_string (frame_type reply)
                +:+ " embedded-status=" +:+ name)%string, false) in
      match embedded_status reply with
      | None => accepted "none"%string
      | Some embedded =>
          if negb (status_ok embedded)
          then ((frame +:+ " rejected=" +:+ error_code_to_string (status_code embedded)
                       +:+ " detail=" +:+ status_reason embedded)%string, true)
          else accepted (error_code_to_string (status_code embedded))
      end
  end.

(** The longest entry a frame log may hold. *)
Definition longest_entry : Z := max_frame_payload_bytes default_Limits + kFrameHeaderBytes.

(** The loop of [replay_frames] over the rest of the log; an entry takes more
    than eight bytes, so the length of the log is fuel enough. *)
Fixpoint replay_loop (fuel : nat) (log : list Z) (index rejected : Z) client : Client L * Exit :=
  let total := ("replayed-total " +:+ unsigned_to_string index +:+ " rejected " +:+ unsigned_to_string rejected)%string in
  match fuel with
  | O => (client, mkExit 0 [total])
  | S fuel =>
      if size_of log <? 8 then (client, mkExit 0 [total])
      else
        let length := le_value (take 8 log) in
        if (length =? 0) || (longest_entry <? length) then (client, mkExit 4 [])
        else if size_of (drop 8 log) <? length then (client, mkExit 4 [])
        else
          let bytes := take (Z.to_nat length) (drop 8 log) in
          let decoded := decode_frame bytes default_Limits in
          if negb (status_ok (outcome_status decoded)) then (client, mkExit 4 [])
          else
            let index := u32 (index + 1) in
            let '(client, reply) := send_raw_and_receive bytes client in
            let '(line, refused) := replay_report index (frame_type (outcome_frame decoded)) reply in
            let '(client, exit) :=
              replay_loop fuel (drop (Z.to_nat length) (drop 8 log)) index (if refused then u32 (rejected + 1) else rejected) client in
            (client, mkExit (exit_code exit) (line :: exit_out exit))
  end.

(** [replay_frames]; [log] is what the file holds, [None] if it cannot be opened. *)
Definition replay_frames (log : option (list Z)) client : Client L * Exit :=
  match log with
  | None => (client, mkExit 4 [])
  | Some log => replay_loop (S (length log)) log 0 0 client
  end.

(** ** Commands *)

(** The kinds of query that take an experiment. *)
Definition experiment_query (command : string) : option QueryKind :=
  if String.eqb command "snapshot" then Some QueryKind.EXPERIMENT_SNAPSHOT
  else if String.eqb command "hypothesis" then Some QueryKind.HYPOTHESIS
  else if String.eqb command "branches" then Some QueryKind.EXPERIMENT_SNAPSHOT
  else if String.eqb command "lineage" then Some QueryKind.BRANCH_LINEAGE
  else if String.eqb command "trials" then Some QueryKind.TRIALS
  else if String.eqb command "observations" then Some QueryKind.OBSERVATIONS
  else if String.eqb command "rejected" then Some QueryKind.REJECTED_EVIDENCE
  else if String.eqb command "artifacts" then Some QueryKind.ARTIFACTS
  else None.

(** Two identities in front of the arguments, and what follows them. *)
Definition two_identities (arguments : list string) : option (Z * Z * list string) :=
  match arguments with
  | first :: second :: rest =>
      match id_parse first, id_parse second with
      | Some first, Some second => Some (first, second, rest)
      | _, _ => None
      end
  | _ => None
  end.

Definition optional (fallback : string) (arguments : list string) : string :=
  match arguments with [] => fallback | argument :: _ => argument end.

(** The command dispatch of [main]; [read_log] opens a frame log. *)
Definition run_command (read_log : string -> option (list Z)) (command : string) (arguments : list string) client : Client L * Exit :=
  let misused := (client, mkExit 2 []) in
  if String.eqb command "status" then print_lines (client_query QueryKind.STATUS "" client)
  else if String.eqb command "list" then print_lines (client_query QueryKind.LIST_EXPERIMENTS "" client)
  else if String.eqb command "workers" then print_lines (client_query QueryKind.WORKERS "" client)
  else if String.eqb command "validate" then print_lines (client_query QueryKind.VALIDATE_STATE "" client)
  else
    match experiment_query command with
    | Some kind =>
        match arguments with
        | [] => misused
        | argument :: _ =>
            match id_parse argument with
            | None => misused
            | Some experiment => print_lines (client_query kind (id_to_string experiment) client)
            end
        end
    | None =>
        if String.eqb command "repro" || String.eqb command "explain" then
          match arguments with
          | [] => misused
          | argument :: _ =>
              let kind := if String.eqb command "repro" then QueryKind.REPRODUCIBILITY else QueryKind.EXPLAIN_DECISION in
              print_lines (client_query kind argument client)
          end
        else if String.eqb command "finalize" then
          match two_identities arguments with
          | None => misused
          | Some (experiment, branch, rest) =>
              let '(client, decision) :=
                client_finalize_experiment (mkFinalizeExperimentRequest experiment branch (optional "" rest)) client in
              (client, match decision with
                       | Err _ => mkExit 5 []
                       | Ok decision => mkExit 0 (render_decision default_Limits decision)
                       end)
          end
        else if String.eqb command "create-trial" then
          match two_identities arguments with
          | None => misused
          | Some (experiment, branch, rest) =>
              print_value "trial"
                (request MessageType.CREATE_TRIAL
                   (encode_create_trial (mkCreateTrialRequest experiment branch (optional "" rest))) client)
          end
        else if String.eqb command "fork" then
          match arguments with
          | first :: second :: name :: _ =>
              match id_parse first, id_parse second with
              | Some experiment, Some parent =>
                  print_value "branch"
                    (request MessageType.FORK_BRANCH
                       (encode_fork_branch (default_ForkBranchRequest
                          <| frkr_experiment := experiment |> <| frkr_parent := parent |> <| frkr_name := name |>
                          <| frkr_role := BranchRole.CANDIDATE |> <| frkr_planned_trials := 1 |>)) client)
              | _, _ => misused
              end
          | _ => misused
          end
        else if String.eqb command "cancel-trial" then
          match arguments with
          | [] => misused
          | argument :: rest =>
              match id_parse argument with
              | None => misused
              | Some trial =>
                  print_status "cancelled" (client_cancel_trial (mkCancelTrialRequest trial (optional "operator cancellation" rest)) client)
              end
          end
        else if String.eqb command "cancel-experiment" then
          match arguments with
          | [] => misused
          | argument :: rest =>
              match id_parse argument with
              | None => misused
              | Some experiment =>
                  print_status "cancelled"
                    (client_cancel_experiment (mkCancelExperimentRequest experiment (optional "operator cancellation" rest)) client)
              end
          end
        else if String.eqb command "rollback" then
          match two_identities arguments with
          | None => misused
          | Some (experiment, generation, rest) =>
              print_status "rolled-back"
                (client_rollback (mkRollbackRequest experiment generation (optional "operator rollback" rest)) client)
          end
        else if String.eqb command "replay" then
          match arguments with
          | [] => misused
          | argument :: _ => replay_frames (read_log argument) client
          end
        else if String.eqb command "shutdown" then print_status "shutdown-requested" (client_shutdown client)
        else (client, mkExit 2 ctl_usage)
    end.

(** [main]: [dial] connects to a host and a port. *)
Definition ctl_main `{Platform} (read_log : string -> option (list Z)) (dial : string -> Z -> option L) (arguments : list string)
    : option (Client L) * Exit :=
  match ctl_options "127.0.0.1" 0 arguments with
  | Leave exit => (None, exit)
  | Proceed host port command arguments =>
      match connect default_Limits (dial host port) with
      | Err _ => (None, mkExit 3 [])
      | Ok client => let '(client, exit) := run_command read_log command arguments client in (Some client, exit)
      end
  end.

End Commands.

(** ** Frame logs *)

(** The outbound observer of a worker writes each frame after its length. *)
Definition log_entry (bytes : list Z) : list Z := le_bytes 8 (size_of bytes) ++ bytes.
Definition frame_log (frames : list (list Z)) : list Z := flat_map log_entry frames.

(** ** Commands drive the coordinator along its own operations *)

Lemma query_bytes kind argument : Forall is_byte (encode_query_request kind argument).
Proof. unfold encode_query_request. payload_bytes. Qed.
Lemma finalize_bytes value : Forall is_byte (encode_finalize_experiment value).
Proof. unfold encode_finalize_experiment. payload_bytes. Qed.
Lemma create_trial_bytes value : Forall is_byte (encode_create_trial value).
Proof. unfold encode_create_trial. payload_bytes. Qed.
Lemma cancel_trial_bytes value : Forall is_byte (encode_cancel_trial value).
Proof. unfold encode_cancel_trial. payload_bytes. Qed.
Lemma cancel_experiment_bytes value : Forall is_byte (encode_cancel_experiment value).
Proof. unfold encode_cancel_experiment. payload_bytes. Qed.
Lemma rollback_bytes value : Forall is_byte (encode_rollback value).
Proof. unfold encode_rollback. payload_bytes. Qed.
Lemma fork_branch_bytes value : Forall is_byte (encode_fork_branch value).
Proof.
  unfold encode_fork_branch, write_optional_u64. payload_bytes. destruct (frkr_seed value); payload_bytes.
Qed.
#[export] Hint Resolve query_bytes finalize_bytes create_trial_bytes cancel_trial_bytes cancel_experiment_bytes rollback_bytes
  fork_branch_bytes : payload.

(** The command that is run stands on the command line. *)
Lemma options_command `{Platform} n host port arguments :
  (length arguments <= n)%nat ->
  match ctl_options host port arguments with
  | Leave _ => True
  | Proceed _ _ command _ => command ∈ arguments
  end.
Proof.
  revert host port arguments. induction n as [|n IH]; intros host port [|argument [|value rest]] Hn; simpl in *; try lia; try done.
  - repeat case_match; try done; simplify_eq; by left.
  - destruct (_ || _); [done|]. destruct (String.eqb argument "--host").
    { specialize (IH value port rest ltac:(lia)). destruct (ctl_options value port rest); [done|]. by do 2 right. }
    destruct (String.eqb argument "--port"); [|by left]. destruct (stoul value) as [number|]; [|done].
    specialize (IH host (number mod 65536) rest ltac:(lia)). destruct (ctl_options host _ rest); [done|]. by do 2 right.
Qed.

Section Driving.
Context `{laws : StorageLaws} `{Formatting} (start : Impl).
Hypothesis start_reachable : reachable (Up start).
Hypothesis start_payload : max_frame_payload_bytes (impl_limits start) < u32_modulus.
Implicit Types (client : Client Channel).

Lemma print_lines_fst answer : (print_lines (L := Channel) answer).1 = answer.1.
Proof. by destruct answer. Qed.
Lemma print_status_fst done answer : (print_status (L := Channel) done answer).1 = answer.1.
Proof. by destruct answer. Qed.
Lemma print_value_fst what answer : (print_value (L := Channel) what answer).1 = answer.1.
Proof. by destruct answer. Qed.

Lemma query_driven kind argument client : driven start client -> driven start (client_query kind argument client).1.
Proof using laws start_reachable start_payload.
  intros Hd. unfold client_query. pose proof (plain_driven start start_reachable start_payload MessageType.QUERY
    (encode_query_request kind argument) client ltac:(done) ltac:(done) Hd (query_bytes kind argument)) as Hq.
  rewrite <- (expect_fst MessageType.QUERY_RESULT "unexpected reply type for query" decode_query_result) in Hq.
  by destruct (expect _ _ _ _).
Qed.

Lemma finalize_driven value client : driven start client -> driven start (client_finalize_experiment value client).1.
Proof using laws start_reachable start_payload.
  intros Hd. unfold client_finalize_experiment. pose proof (plain_driven start start_reachable start_payload MessageType.FINALIZE_EXPERIMENT
    (encode_finalize_experiment value) client ltac:(done) ltac:(done) Hd (finalize_bytes value)) as Hq.
  rewrite <- (expect_fst MessageType.FINALIZE_EXPERIMENT "unexpected reply type for finalization" decode_decision_reply) in Hq.
  by destruct (expect _ _ _ _).
Qed.

(** [shutdown] does not go through [request]; what it does to the coordinator
    is to end admission. *)
Lemma shutdown_driven client : driven start client -> driven start (client_shutdown client).1.
Proof using laws start_reachable start_payload.
  intros (Hlim & channel & Hlink & Hruns). unfold client_shutdown. cbn [next_correlation].
  set (correlation := u64 (cli_correlation client + 1)). change (cli_link (client <| cli_correlation := correlation |>)) with (cli_link client).
  rewrite Hlink. change (cli_limits (client <| cli_correlation := correlation |>)) with (cli_limits client). rewrite Hlim.
  destruct (encode_frame _ (impl_limits start)) as [bytes|s] eqn:He; [|split; [done|by exists channel]].
  pose proof (runs_limits start start_reachable _ Hruns) as Hsl.
  assert (Hf : frame_in_range (mkFrame kProtocolVersion MessageType.SHUTDOWN correlation [])) by (split; [apply u64_range|constructor]).
  destruct (channel_send_dispatches _ _ _ channel Hsl start_payload Hf He) as [inbox Hsend].
  cbn [link_send link_receive channel_link]. rewrite Hsend. change (status_ok success) with true. cbn [negb].
  destruct (channel_receive _ _) as [channel' reply] eqn:Hrecv. split; [done|]. exists channel'. split; [done|].
  assert (Hsrv : chan_server channel' = (dispatch (mkFrame kProtocolVersion MessageType.SHUTDOWN correlation []) (chan_server channel)).1).
  { unfold channel_receive in Hrecv. destruct (receive_frame _ _). by injection Hrecv as <- _. }
  rewrite Hsrv, dispatch_exec. cbn [operation_of frame_type apply_op]. by apply runs_snoc.
Qed.

(** The state the client's channel leads to has identities left. *)
Definition spacious_client client : Prop :=
  forall channel, cli_link client = Some channel -> spacious (srv_impl (chan_server channel)).

Lemma create_trial_driven value client :
  driven start client -> spacious_client client ->
  driven start (request MessageType.CREATE_TRIAL (encode_create_trial value) client).1.
Proof using laws start_reachable start_payload.
  intros Hd Hs. apply request_driven; auto with payload. intros impl correlation op _ [Hnone|(channel & Hl & <-)].
  - by destruct Hd as (_ & channel & Hl & _); rewrite Hl in Hnone.
  - apply operation_room; [apply create_trial_bytes|by apply Hs].
Qed.

Lemma acknowledged_driven type payload client :
  type <> MessageType.CLAIM_TRIAL -> type <> MessageType.CREATE_TRIAL -> Forall is_byte payload -> driven start client ->
  forall done, driven start (print_status done (acknowledged (request type payload client))).1.
Proof using laws start_reachable start_payload.
  intros Hc Ht Hb Hd done. rewrite print_status_fst, acknowledged_fst. by apply plain_driven.
Qed.

Lemma command_driven read_log command arguments client :
  command <> "replay"%string -> driven start client -> spacious_client client ->
  driven start (run_command read_log command arguments client).1.
Proof using laws start_reachable start_payload.
  intros Hreplay Hd Hs. unfold run_command.
  do 4 (destruct (String.eqb command _); [rewrite print_lines_fst; by apply query_driven|]).
  destruct (experiment_query command) as [kind|].
  { destruct arguments as [|argument rest]; [exact Hd|]. destruct (id_parse argument); [|exact Hd].
    rewrite print_lines_fst. by apply query_driven. }
  destruct (_ || _).
  { destruct arguments as [|argument rest]; [exact Hd|]. rewrite print_lines_fst. by apply query_driven. }
  destruct (String.eqb command "finalize").
  { destruct (two_identities arguments) as [[[experiment branch] rest]|]; [|exact Hd].
    pose proof (finalize_driven (mkFinalizeExperimentRequest experiment branch (optional "" rest)) client Hd) as Hf.
    destruct (client_finalize_experiment _ _). exact Hf. }
  destruct (String.eqb command "create-trial").
  { destruct (two_identities arguments) as [[[experiment branch] rest]|]; [|exact Hd].
    rewrite print_value_fst. by apply create_trial_driven. }
  destruct (String.eqb command "fork").
  { destruct arguments as [|first [|second [|name rest]]]; try exact Hd.
    destruct (id_parse first); [|exact Hd]. destruct (id_parse second); [|exact Hd].
    rewrite print_value_fst. apply plain_driven; [done|done|done|done|done|apply fork_branch_bytes]. }
  destruct (String.eqb command "cancel-trial").
  { destruct arguments as [|argument rest]; [exact Hd|]. destruct (id_parse argument); [|exact Hd].
    apply acknowledged_driven; [done|done|apply cancel_trial_bytes|exact Hd]. }
  destruct (String.eqb command "cancel-experiment").
  { destruct arguments as [|argument rest]; [exact Hd|]. destruct (id_parse argument); [|exact Hd].
    apply acknowledged_driven; [done|done|apply cancel_experiment_bytes|exact Hd]. }
  destruct (String.eqb command "rollback").
  { destruct (two_identities arguments) as [[[experiment generation] rest]|]; [|exact Hd].
    apply acknowledged_driven; [done|done|apply rollback_bytes|exact Hd]. }
  rewrite (proj2 (String.eqb_neq command "replay") Hreplay).
  destruct (String.eqb command "shutdown"); [|exact Hd]. rewrite print_status_fst. by apply shutdown_driven.
Qed.

(** Whatever the command line, "replay" apart, the control client takes the
    coordinator it reaches along a run of the coordinator's own operations:
    no option or argument, well formed or not, lets it skip a check. *)
Theorem ctl_drives `{Platform} read_log dial arguments :
  impl_limits start = default_Limits ->
  (forall host port channel, dial host port = Some channel ->
     runs start (srv_impl (chan_server channel)) /\ spacious (srv_impl (chan_server channel))) ->
  "replay"%string ∉ arguments ->
  match (ctl_main read_log dial arguments).1 with
  | None => True
  | Some client => exists channel, cli_link client = Some channel /\ runs start (srv_impl (chan_server channel))
  end.
Proof using laws start_reachable start_payload.
  intros Hlim Hdial Hreplay. unfold ctl_main. pose proof (options_command _ "127.0.0.1" 0 arguments (le_n _)) as Hcommand.
  destruct (ctl_options _ _ arguments) as [|host port command rest]; [done|].
  destruct (dial host port) as [channel|] eqn:Hd; [|done]. cbn [connect]. destruct (Hdial _ _ _ Hd) as [Hruns Hspace].
  set (client := mkClient default_Limits (Some channel) 0 []).
  pose proof (command_driven read_log command rest client) as Hdriven. destruct (run_command _ _ _ client) as [client' exit]. cbn [fst] in *.
  apply Hdriven.
  - intros ->. done.
  - split; [by symmetry|]. by exists channel.
  - intros c [= <-]. done.
Qed.
End Driving.

(** ** Replaying a log *)

(** A frame as a sender encoded it. *)
Definition sent_as (frame : Frame) (bytes : list Z) : Prop :=
  encode_frame frame default_Limits = Ok bytes /\ frame_in_range frame.

Lemma sent_size frame bytes : sent_as frame bytes -> 32 <= size_of bytes <= longest_entry.
Proof.
  intros [He _]. unfold encode_frame in He. destruct (negb _); [done|]. destruct (bool_decide _); [done|].
  destruct (Z.ltb_spec (max_frame_payload_bytes default_Limits) (size_of (frame_payload frame))) as [|Hle]; [done|].
  apply Ok_inj in He as <-. rewrite size_of_app. pose proof (size_of_nonneg (frame_payload frame)).
  assert (Hh : size_of (encode_frame_header frame (frame_payload frame)) = 32) by (unfold size_of; by rewrite encode_frame_header_length).
  rewrite Hh. unfold longest_entry, kFrameHeaderBytes. lia.
Qed.

Section Replaying.
Context {L : Type} `{Link L} `{Formatting}.
Implicit Types client : Client L.

(** The frames sent one after another, each reported. *)
Fixpoint replay_all (entries : list (Frame * list Z)) (index rejected : Z) client : Client L * Exit :=
  match entries with
  | [] => (client, mkExit 0 [("replayed-total " +:+ unsigned_to_string index +:+ " rejected " +:+ unsigned_to_string rejected)%string])
  | (frame, bytes) :: entries =>
      let index := u32 (index + 1) in
      let '(client, reply) := send_raw_and_receive bytes client in
      let '(line, refused) := replay_report index (frame_type frame) reply in
      let '(client, exit) := replay_all entries index (if refused then u32 (rejected + 1) else rejected) client in
      (client, mkExit (exit_code exit) (line :: exit_out exit))
  end.

Lemma replay_loop_all entries tail fuel index rejected client :
  Forall (fun entry => sent_as entry.1 entry.2) entries -> size_of tail < 8 ->
  (length (frame_log (map snd entries) ++ tail) < fuel)%nat ->
  replay_loop fuel (frame_log (map snd entries) ++ tail) index rejected client = replay_all entries index rejected client.
Proof.
  intros Hall Htail. revert fuel index rejected client.
  induction Hall as [|[frame bytes] entries Hone Hall IH]; intros fuel index rejected client Hfuel; (destruct fuel as [|fuel]; [lia|]).
  - cbn [map frame_log flat_map app replay_loop replay_all]. by rewrite (proj2 (Z.ltb_lt _ _) Htail).
  - cbn [map snd frame_log flat_map] in *. fold (frame_log (map snd entries)) in *. unfold log_entry in *.
    rewrite <- !app_assoc in *. set (rest := frame_log (map snd entries) ++ tail) in *.
    destruct (sent_size _ _ Hone) as [Hlow Hhigh]. cbn [fst snd] in *. destruct Hone as [Hencode Hrange].
    assert (Hlen8 : length (le_bytes 8 (size_of bytes)) = 8%nat) by apply le_bytes_length.
    cbn [replay_loop replay_all]. pose proof (size_of_nonneg rest).
    rewrite take_app_length', drop_app_length' by done. rewrite !size_of_app, le_value_le_bytes.
    rewrite Z.mod_small by (split; [lia|]; unfold longest_entry in Hhigh; change (256 ^ Z.of_nat 8) with u64_modulus;
      pose proof default_payload_word; unfold kFrameHeaderBytes, u32_modulus, u64_modulus in *; lia).
    assert (Hs8 : size_of (le_bytes 8 (size_of bytes)) = 8) by (unfold size_of at 1; by rewrite Hlen8). rewrite Hs8.
    destruct (Z.ltb_spec (8 + (size_of bytes + size_of rest)) 8); [lia|].
    destruct (Z.eqb_spec (size_of bytes) 0); [lia|]. destruct (Z.ltb_spec longest_entry (size_of bytes)); [lia|]. cbn [orb].
    destruct (Z.ltb_spec (size_of bytes + size_of rest) (size_of bytes)); [lia|].
    assert (Hnat : Z.to_nat (size_of bytes) = length bytes) by (unfold size_of; lia). rewrite Hnat.
    rewrite take_app_length, drop_app_length.
    pose proof (decode_encode_frame frame default_Limits bytes [] default_payload_word Hrange Hencode) as Hd.
    rewrite app_nil_r in Hd. rewrite Hd. cbn [outcome_status outcome_frame]. change (status_ok success) with true. cbn [negb].
    destruct (send_raw_and_receive bytes client) as [client' reply]. destruct (replay_report _ _ reply) as [line refused].
    rewrite !length_app in Hfuel. unfold rest in *. rewrite IH by lia. reflexivity.
Qed.

(** A log a worker has written is read back as the frames it sent: replaying
    it sends each of them once, in order, and reports each, also when the last
    write left a piece of a length behind. *)
Theorem replay_reads_log entries tail client :
  Forall (fun entry => sent_as entry.1 entry.2) entries -> size_of tail < 8 ->
  replay_frames (Some (frame_log (map snd entries) ++ tail)) client = replay_all entries 0 0 client.
Proof. intros Hall Htail. apply replay_loop_all; [done|done|]. lia. Qed.

End Replaying.

(** ** Frames of an earlier epoch *)

Section Stale.
Context `{laws : StorageLaws} `{Formatting}.
Hypothesis storage : storage_named.
Implicit Types (client : Client Channel) (server : Server).

(** The frame stands for a call that presents another epoch than [epoch]. *)
Definition stale_for (epoch : Z) (frame : Frame) : Prop :=
  exists op presented, operation_of frame default_Limits = Some op /\ op_epoch op = Some presented /\ presented <> epoch.

(** A reply in which the classifier reads an error. *)
Definition rejecting (reply : Frame) : Prop := exists s, embedded_status reply = Some s /\ status_ok s = false.

Lemma error_frame_rejecting correlation s : named_error s -> rejecting (make_error_frame correlation s).
Proof.
  intros [Hbad Hfits]. exists (clip_status s). split; [|exact Hbad].
  pose proof (error_read default_Limits eq_refl default_wide_limits ltac:(done) correlation s Hfits) as Hread.
  unfold embedded_status, make_error_frame in *. cbn [frame_type frame_payload] in *.
  destruct (decode_error_reply _ default_Limits) as [value|e]; cbn in Hread; [|done]. by apply Ok_inj in Hread as ->.
Qed.

Lemma claim_refused_rejecting correlation s :
  named_error s -> rejecting (make_reply correlation MessageType.CLAIM_RESULT (encode_claim_reply (claim_refused s))).
Proof.
  intros [Hbad Hfits]. exists (clip_status s). split; [|exact Hbad].
  unfold embedded_status, make_reply. cbn [frame_type frame_payload]. unfold decode_claim_reply.
  erewrite decode_reads; [|apply reads_claim_reply; [exact default_wide_limits|reflexivity|]].
  - done.
  - unfold fits_claim_reply, claim_refused, fits_wrapped_status, fits_count. cbn [claimr_status claimr_assignments].
    rewrite Hfits. pose proof (encode_status_size s). cbn [andb]. apply andb_true_iff. split; [|done].
    apply Z.leb_le. change (max_frame_payload_bytes default_Limits) with 1048576. lia.
Qed.

(** The two shapes a refused call is answered in. *)
Lemma refused_reply op frame server :
  operation_of frame (impl_limits (srv_impl server)) = Some op -> is_Some (op_epoch op) ->
  status_ok (op_status op (srv_impl server)) = false ->
  (dispatch frame server).2 =
    match op with
    | OpClaimTrials request =>
        make_reply (frame_correlation frame) MessageType.CLAIM_RESULT (encode_claim_reply (claim_trials request (srv_impl server)).2)
    | _ => make_error_frame (frame_correlation frame) (op_status op (srv_impl server))
    end.
Proof using.
  unfold operation_of, dispatch. intros Hop [presented Hepoch] Hbad. destruct (frame_type frame); try discriminate Hop;
    try (injection Hop as <-; discriminate Hepoch);
    match type of Hop with context [match ?r with Ok _ => _ | Err _ => _ end] => destruct r as [value|]; [|discriminate Hop] end;
    cbn beta iota in Hop; injection Hop as <-; try discriminate Hepoch; cbn [on_decoded op_status] in *; try reflexivity; unfold on_status;
    match goal with |- context [let '(_, _) := ?call in _] => destruct call as [impl' s] end; cbn [snd] in *; by rewrite Hbad.
Qed.

(** A stale claim is refused without assignments. *)
Lemma stale_claim request impl :
  claim_epoch request <> impl_epoch impl -> exists s, (claim_trials request impl).2 = claim_refused s.
Proof using.
  intros Hne. unfold claim_trials. destruct (negb (impl_admitting_work impl)); [by eexists|].
  rewrite (proj2 (Z.eqb_neq _ _)) by done. by eexists.
Qed.

Lemma claim_reply_small s : size_of (encode_claim_reply (claim_refused s)) <= 1038 /\ Forall is_byte (encode_claim_reply (claim_refused s)).
Proof using.
  unfold encode_claim_reply, claim_refused. cbn [claimr_status claimr_assignments]. pose proof (encode_status_size s).
  unfold write_wrapped_status, write_vector, put_count, put_u32. cbn [flat_map length]. rewrite app_nil_r. split.
  - unfold size_of in *. rewrite !length_app, !le_bytes_length. unfold put_raw. lia.
  - unfold put_raw. rewrite !Forall_app. split_and!; first [apply le_bytes_bytes|apply encode_status_bytes].
Qed.

Lemma stale_dispatch epoch frame server :
  impl_limits (srv_impl server) = default_Limits -> epoch = impl_epoch (srv_impl server) -> stale_for epoch frame ->
  0 <= frame_correlation frame < u64_modulus ->
  rejecting (dispatch frame server).2 /\ same_authority (srv_impl server) (srv_impl (dispatch frame server).1)
  /\ frame_in_range (dispatch frame server).2
  /\ exists bytes, encode_frame (dispatch frame server).2 default_Limits = Ok bytes.
Proof using laws storage.
  intros Hlim -> (op & presented & Hop & Hepoch & Hne) Hcorr. rewrite <- Hlim in Hop.
  destruct (stale_op_refused op presented (srv_impl server) storage Hepoch Hne) as [Hbad Hkept].
  rewrite dispatch_exec, Hop. cbn [apply_op]. rewrite (refused_reply op frame server Hop); [|by eexists|apply Hbad].
  assert (Herror : forall s, named_error s -> rejecting (make_error_frame (frame_correlation frame) s)
      /\ frame_in_range (make_error_frame (frame_correlation frame) s)
      /\ exists bytes, encode_frame (make_error_frame (frame_correlation frame) s) default_Limits = Ok bytes).
  { intros s Hs. split; [by apply error_frame_rejecting|]. split; [split; [done|apply encode_error_reply_bytes]|].
    apply encodable_reply; [done|done|]. etransitivity; [apply encode_error_reply_size|done]. }
  destruct op; try discriminate Hepoch; try (destruct (Herror _ Hbad) as (? & ? & ?); by split_and!).
  injection Hepoch as <-. cbn [op_status exec] in *. destruct (stale_claim request (srv_impl server) Hne) as [s Hs]. rewrite Hs in *.
  cbn [claimr_status claim_refused] in Hbad. destruct (claim_reply_small s) as [Hsmall Hbytes].
  split; [by apply claim_refused_rejecting|]. split; [done|]. split; [by split|]. apply encodable_reply; [done|done|]. etransitivity; [exact Hsmall|done].
Qed.

Lemma stale_exchange epoch frame bytes server client :
  sent_as frame bytes -> impl_limits (srv_impl server) = default_Limits -> epoch = impl_epoch (srv_impl server) -> stale_for epoch frame ->
  cli_limits client = default_Limits -> cli_link client = Some (mkChannel server []) ->
  exists client' server' reply,
    send_raw_and_receive bytes client = (client', Ok reply) /\ rejecting reply /\ same_authority (srv_impl server) (srv_impl server')
    /\ cli_limits client' = default_Limits /\ cli_link client' = Some (mkChannel server' []).
Proof using laws storage.
  intros [Hencode Hrange] Hlim Hepoch Hstale Hcl Hlink.
  destruct (stale_dispatch epoch frame server Hlim Hepoch Hstale (proj1 Hrange)) as (Hrej & Hkept & Hrr & rbytes & Hre).
  destruct (dispatch frame server) as [server' reply] eqn:Hd. cbn [fst snd] in *.
  destruct (channel_exchange default_Limits frame bytes reply rbytes server server' Hlim default_payload_word Hrange Hencode Hd Hrr Hre)
    as [Hsend Hrecv].
  unfold send_raw_and_receive. rewrite Hlink. cbn [link_send link_receive channel_link]. rewrite Hsend.
  change (status_ok success) with true. cbn [negb].
  change (cli_limits client) with (cli_limits client). rewrite Hcl, Hrecv.
  eexists _, server', reply. split; [reflexivity|]. by split_and!.
Qed.

Lemma rejecting_report index type reply : rejecting reply -> (replay_report index type (Ok reply)).2 = true.
Proof using. intros (s & Hs & Hbad). unfold replay_report. by rewrite Hs, Hbad. Qed.

Lemma replay_all_stale epoch entries index rejected server client :
  Forall (fun entry => sent_as entry.1 entry.2 /\ stale_for epoch entry.1) entries ->
  impl_limits (srv_impl server) = default_Limits -> epoch = impl_epoch (srv_impl server) ->
  cli_limits client = default_Limits -> cli_link client = Some (mkChannel server []) ->
  0 <= index /\ index + size_of entries < u32_modulus -> 0 <= rejected /\ rejected + size_of entries < u32_modulus ->
  exists client' server' reports,
    replay_all entries index rejected client
      = (client', mkExit 0 (reports ++ [("replayed-total " +:+ unsigned_to_string (index + size_of entries)
                                         +:+ " rejected " +:+ unsigned_to_string (rejected + size_of entries))%string]))
    /\ length reports = length entries
    /\ cli_link client' = Some (mkChannel server' []) /\ same_authority (srv_impl server) (srv_impl server').
Proof using laws storage.
  intros Hall. revert index rejected server client.
  induction Hall as [|[frame bytes] entries [Hsent Hstale] Hall IH]; intros index rejected server client Hlim Hepoch Hcl Hlink Hi Hr.
  - eexists client, server, []. cbn [replay_all app]. unfold size_of. cbn [length]. rewrite !Z.add_0_r. by split_and!.
  - rewrite size_of_cons in *. pose proof (size_of_nonneg entries). cbn [fst snd] in *.
    destruct (stale_exchange epoch frame bytes server client Hsent Hlim Hepoch Hstale Hcl Hlink)
      as (client1 & server1 & reply & Hsend & Hrej & Hkept & Hcl1 & Hlink1).
    cbn [replay_all]. rewrite Hsend. pose proof (rejecting_report (u32 (index + 1)) (frame_type frame) reply Hrej) as Hrep.
    destruct (replay_report _ _ _) as [line refused]. cbn [snd] in Hrep. subst refused.
    destruct Hi as [Hi0 Hi1], Hr as [Hr0 Hr1]. rewrite (u32_small (index + 1)), (u32_small (rejected + 1)) by lia.
    pose proof (sa_epoch _ _ Hkept) as Hke. pose proof (sa_limits _ _ Hkept) as Hkl.
    destruct (IH (index + 1) (rejected + 1) server1 client1) as (client' & server' & reports & Hall' & Hlen & Hlink' & Hkept');
      [congruence|congruence|done|done|lia|lia|].
    rewrite Hall'. eexists client', server', (line :: reports). cbn [exit_code exit_out app length].
    rewrite !(Z.add_comm (size_of entries) 1), !Z.add_assoc. split_and!; [reflexivity|by rewrite Hlen|done|by etransitivity].
Qed.

(** C29: a log of frames of another epoch, heartbeats, claims, publications,
    commits and failure reports in any order and any number, replayed against a
    coordinator, gains nothing: every frame is answered with an error the tool
    reports as rejected, and the coordinator keeps its epoch, its live
    incarnations, and of every experiment its definition, its trials and
    attempts, its accepted evidence and its decisions. *)
Theorem stale_replay_refused entries tail server :
  impl_limits (srv_impl server) = default_Limits ->
  Forall (fun entry => sent_as entry.1 entry.2 /\ stale_for (impl_epoch (srv_impl server)) entry.1) entries ->
  size_of tail < 8 -> size_of entries < u32_modulus ->
  exists client' server' reports,
    replay_frames (Some (frame_log (map snd entries) ++ tail)) (mkClient default_Limits (Some (mkChannel server [])) 0 [])
      = (client', mkExit 0 (reports ++ [("replayed-total " +:+ unsigned_to_string (size_of entries)
                                         +:+ " rejected " +:+ unsigned_to_string (size_of entries))%string]))
    /\ length reports = length entries
    /\ cli_link client' = Some (mkChannel server' []) /\ same_authority (srv_impl server) (srv_impl server').
Proof using laws storage.
  intros Hlim Hall Htail Hsize. unfold replay_frames. pose proof (size_of_nonneg entries).
  rewrite replay_loop_all; [|eapply Forall_impl; [exact Hall|by intros entry [? _]]|done|lia].
  apply (replay_all_stale _ entries 0 0 server (mkClient default_Limits (Some (mkChannel server [])) 0 []) Hall); try done; lia.
Qed.

End Stale.

(** ** At a concrete state *)

Module Controlled.

#[local] Instance lp64 : Platform := { ulong_bits := 64; int64_undefined := fun _ => 0 }.

Definition server : Server := mkServer Run.s3 true false.
Definition dial (host : string) (port : Z) : option Channel := if port =? 7070 then Some (mkChannel server []) else None.
Definition arguments : list string := ["--port"; "7070"; "create-trial"; "1"; "2"]%string.

(** The command creates the third trial; the options are read to their ends. *)
Example created : (ctl_main (fun _ => None) dial arguments).2 = mkExit 0 ["trial 3"%string].
Proof. by_evaluation. Qed.
Example outcomes :
  map (fun arguments => exit_code (ctl_main (fun _ => None) dial arguments).2)
    [["--help"]; ["--port"]; ["--port"; "x"; "list"]; ["list"]; ["--port"; "7070"; "dance"]; ["--port"; "7070"; "replay"; "none"];
     ["--port"; "72606"; "validate"]; ["--port"; "7070"; "cancel-trial"; "9"]]%string
  = [0; 2; 4; 3; 2; 4; 0; 5].
Proof. by_evaluation. Qed.

(** Two frames a worker of epoch 1 sent. *)
Definition claim : Frame := Eval vm_compute in mkFrame kProtocolVersion MessageType.CLAIM_TRIAL 9 (encode_claim_trial Run.claim).
Definition claim_bytes : list Z := Eval vm_compute in Served.bytes_of_frame claim.
Definition entries : list (Frame * list Z) := [(claim, claim_bytes); (Served.commit, Served.commit_bytes)].
Definition written : list Z := frame_log (map snd entries) ++ [3; 0].

(** The coordinator that was started again over the same image, in epoch 2. *)
Definition restarted : Server := mkServer Reach.restarted true false.
Definition client (server : Server) : Client Channel := mkClient default_Limits (Some (mkChannel server [])) 0 [].

Lemma sent_claim : sent_as claim claim_bytes.
Proof.
  split; [by_evaluation|]. split; [split; [vm_compute; discriminate|vm_compute; reflexivity]|]. apply forallb_bytes. vm_compute. reflexivity.
Qed.
Lemma sent_commit : sent_as Served.commit Served.commit_bytes.
Proof. split; [by_evaluation|]. exact (Forall_inv (Forall_inv_tail Served.frames_in_range)). Qed.

Lemma claim_operation : operation_of claim default_Limits = Some (OpClaimTrials Run.claim).
Proof. by_evaluation. Qed.
Lemma commit_operation : operation_of Served.commit default_Limits = Some Reach.commit.
Proof. by_evaluation. Qed.

Lemma memory_named : storage_named.
Proof.
  intros impl. unfold persist_locked, persist_locked_if. destruct (str_empty _); [done|]. destruct (_ && _); [done|].
  cbn [serialize memory_storage save_image]. unfold memory_save. by destruct (mem_full (impl_world impl)).
Qed.

(** In epoch 1 the claim is accepted, and the commit is refused for the want of evidence only. *)
Example fresh_replay : exit_out (replay_frames (Some written) (client server)).2 =
  ["replayed-frame 1 type=CLAIM_TRIAL accepted reply-type=CLAIM_RESULT embedded-status=OK";
   "replayed-frame 2 type=COMMIT_TRIAL rejected=INSUFFICIENT_EVIDENCE detail=trial completion requires at least one observation";
   "replayed-total 2 rejected 1"]%string.
Proof. by_evaluation. Qed.

End Controlled.

#[local] Existing Instance Controlled.lp64.

Lemma ctl_drives_witness :
  match (ctl_main (fun _ => None) Controlled.dial Controlled.arguments).1 with
  | None => True
  | Some client => exists channel, cli_link client = Some channel /\ runs Run.s3 (srv_impl (chan_server channel))
  end.
Proof.
  assert (Hl : (max_frame_payload_bytes (impl_limits Run.s3) <? u32_modulus) = true) by by_evaluation.
  assert (Hlim : impl_limits Run.s3 = default_Limits) by by_evaluation.
  apply (ctl_drives Run.s3 Reach.s3 (proj1 (Z.ltb_lt _ _) Hl) (fun _ => None) Controlled.dial Controlled.arguments Hlim).
  - intros host port channel Hd. unfold Controlled.dial in Hd. destruct (port =? 7070); [|discriminate Hd].
    injection Hd as <-. split; [apply runs_here|exact Working.spacious_s3].
  - unfold Controlled.arguments. rewrite !not_elem_of_cons. split_and!; try done. apply not_elem_of_nil.
Defined.

Lemma replay_reads_log_witness :
  replay_frames (Some Controlled.written) (Controlled.client Controlled.server)
  = replay_all Controlled.entries 0 0 (Controlled.client Controlled.server).
Proof.
  apply (replay_reads_log Controlled.entries [3; 0] (Controlled.client Controlled.server)); [|reflexivity].
  constructor; [exact Controlled.sent_claim|]. constructor; [exact Controlled.sent_commit|constructor].
Defined.

Lemma stale_replay_refused_witness :
  exists client' server' reports,
    replay_frames (Some Controlled.written) (Controlled.client Controlled.restarted)
      = (client', mkExit 0 (reports ++ ["replayed-total 2 rejected 2"%string]))
    /\ cli_link client' = Some (mkChannel server' []) /\ same_authority Reach.restarted (srv_impl server').
Proof.
  assert (Hlim : impl_limits (srv_impl Controlled.restarted) = default_Limits) by by_evaluation.
  assert (He : impl_epoch (srv_impl Controlled.restarted) = 2) by by_evaluation.
  destruct (stale_replay_refused Controlled.memory_named Controlled.entries [3; 0] Controlled.restarted Hlim) as (c & s & r & Hr & _ & Hs).
  - rewrite He. constructor; [split; [exact Controlled.sent_claim|]|constructor; [split; [exact Controlled.sent_commit|]|constructor]].
    + exists (OpClaimTrials Run.claim), 1. split; [exact Controlled.claim_operation|]. split; [reflexivity|discriminate].
    + exists Reach.commit, 1. split; [exact Controlled.commit_operation|]. split; [reflexivity|discriminate].
  - reflexivity.
  - reflexivity.
  - exists c, s, r. split; [exact Hr|exact Hs].
Defined.
