(* ===== verification/Programs.v ===== *)
(** * The processes (apps/ef_coordinator.cpp, apps/ef_worker.cpp)

    The two long-lived processes as functions of their command lines: options,
    exit codes and the lines written to the standard output (the error stream
    is not modelled).  Binding the listener, what the connections do until a
    shutdown is requested, dialling and opening the frame log are parameters;
    creation, the catalogue, registration and the claim cycles are the
    operations of the other files.  What is proved: a coordinator that gets ready
    is a reachable one and leaves a state another can be started from, the loop
    of a worker ends, a worker takes a lost connection for an idle coordinator,
    and the processes put together decide every experiment of the catalogue. *)
From S2P Require Import Prelude OMap Error Domain Identity Float64 Numbers Model Hash Sorting Canonical State Validator Wire Codec StateCodec Frames Messages MessageCodec Spec Coordinator Authority Evidence Decision Scenario Fencing History Ledger Invariants Recovery System Refusals Creation Budget Inspect Parameters Query Transport Server Client Worker Progress Scenarios Control.
#[local] Open Scope Z_scope.

(** ** The coordinator process *)

(** [print_usage] of ef_coordinator.cpp. *)
Definition coordinator_usage : list string :=
  ["ef_coordinator " +:+ version_string;
   "  --state <path>        durable state image (empty for in-memory)";
   "  --port <n>            control-plane port (0 chooses an ephemeral port)";
   "  --bind <address>      bind address (default 127.0.0.1)";
   "  --scenario <name>     create a reference experiment at start";
   "  --trials <n>          create the planned trials of every branch (0 or 1)";
   "  --epoch-seed <n>      lower bound for the coordinator epoch";
   "  --port-file <path>    write the bound port once the control plane is ready";
   "  --list-scenarios      print the built-in scenario names and exit"]%string.

(** The variables the options of [main] set. *)
Record CoordinatorOptions := mkCoordinatorOptions {
  copt_state_path : string;
  copt_bind_address : string;
  copt_scenario : string;
  copt_port_file : string;
  copt_port : Z;
  copt_epoch_seed : Z;
  copt_create_trials : bool
}.
#[export] Instance etaCoordinatorOptions : Eta CoordinatorOptions := fun r =>
  mkCoordinatorOptions (copt_state_path r) (copt_bind_address r) (copt_scenario r) (copt_port_file r) (copt_port r)
    (copt_epoch_seed r) (copt_create_trials r).
Definition default_CoordinatorOptions : CoordinatorOptions := mkCoordinatorOptions "" "127.0.0.1" "" "" 0 0 true.

Definition newline : string := String "010" "".

(** What one option does with its value; [None] when reading a number throws. *)
Definition coordinator_option `{Platform} (name : string) : option (string -> CoordinatorOptions -> option CoordinatorOptions) :=
  if String.eqb name "--state" then Some (fun value options => Some (options <| copt_state_path := value |>))
  else if String.eqb name "--bind" then Some (fun value options => Some (options <| copt_bind_address := value |>))
  else if String.eqb name "--scenario" then Some (fun value options => Some (options <| copt_scenario := value |>))
  else if String.eqb name "--port-file" then Some (fun value options => Some (options <| copt_port_file := value |>))
  else if String.eqb name "--port" then
    Some (fun value options => n ← stoul value; Some (options <| copt_port := n mod 65536 |>))
  else if String.eqb name "--epoch-seed" then
    Some (fun value options => n ← stoull value; Some (options <| copt_epoch_seed := n |>))
  else if String.eqb name "--trials" then
    Some (fun value options => n ← stoul value; Some (options <| copt_create_trials := negb (n =? 0) |>))
  else None.

(** The loop over the options both processes have: one of [lists] prints its
    names, help prints the usage, an option takes the argument after it
    ([take_value]), anything else is an error. *)
Fixpoint process_options {O} (list_option : string) (names usage : list string)
    (option_of : string -> option (string -> O -> option O)) (options : O) (arguments : list string) : Exit + O :=
  match arguments with
  | [] => inr options
  | argument :: rest =>
      if String.eqb argument list_option then inl (mkExit 0 names)
      else if String.eqb argument "--help" || String.eqb argument "-h" then inl (mkExit 0 usage)
      else
        match option_of argument with
        | None => inl (mkExit 2 usage)
        | Some set =>
            match rest with
            | [] => inl (mkExit 2 [])
            | value :: rest =>
                match set value options with
                | None => inl (mkExit 4 [])
                | Some options => process_options list_option names usage option_of options rest
                end
            end
        end
  end.

Definition coordinator_config (options : CoordinatorOptions) : Config :=
  mkConfig default_Limits (copt_state_path options) true (copt_epoch_seed options) false.

(** [Config::max_connection_threads]. *)
Definition default_connection_threads : Z := 16.

Section CoordinatorProcess.
Context `{Storage} `{Formatting} `{Platform}.

(** From the scenario to the experiment and its trials; the identity printed
    when the process is ready is null without a scenario. *)
Definition prepare_scenario (options : CoordinatorOptions) (impl : Impl) : Impl * (Exit + Z) :=
  if str_empty (copt_scenario options) then (impl, inr 0)
  else
    match build_scenario (copt_scenario options) with
    | inr _ => (impl, inl (mkExit 2 []))
    | inl spec =>
        match create_experiment spec impl with
        | (impl, Err _) => (impl, inl (mkExit 3 []))
        | (impl, Ok experiment) =>
            if copt_create_trials options then
              let '(impl, status) := create_planned_trials experiment "scenario-trial" impl in
              if negb (status_ok status) then (impl, inl (mkExit 3 [])) else (impl, inr experiment)
            else (impl, inr experiment)
        end
    end.

(** The process up to its rendezvous: the server it then waits on, and what it
    has printed; [bind] binds the listener and gives the port it got. *)
Record Ready := mkReady { ready_server : Server; ready_out : list string; ready_port_file : option (string * string) }.

Definition coordinator_start (bind : string -> Z -> Z -> Status * Z) (options : CoordinatorOptions) (world : World)
    : World * (Exit + Ready) :=
  match create (coordinator_config options) world with
  | (world, Err _) => (world, inl (mkExit 3 []))
  | (_, Ok impl) =>
      let '(impl, prepared) := prepare_scenario options impl in
      match prepared with
      | inl exit => (impl_world impl, inl exit)
      | inr experiment =>
          let '(started, port) := bind (copt_bind_address options) (copt_port options) default_connection_threads in
          let '(server, status) := start_server started (mkServer impl false false) in
          if negb (status_ok status) then (impl_world (srv_impl server), inl (mkExit 3 []))
          else
            (impl_world (srv_impl server),
             inr (mkReady server
                    ["coordinator-ready epoch=" +:+ id_to_string (impl_epoch (srv_impl server))
                       +:+ " port=" +:+ unsigned_to_string port
                       +:+ " experiment=" +:+ (if id_valid experiment then id_to_string experiment else "none")]%string
                    (if str_empty (copt_port_file options) then None
                     else Some (copt_port_file options, (unsigned_to_string port +:+ newline)%string))))
      end
  end.

(** [main]: [serving] is what the connections do to the server until one of
    them asks for the shutdown. *)
Definition coordinator_main (bind : string -> Z -> Z -> Status * Z) (serving : Server -> Server) (arguments : list string)
    (world : World) : World * Exit :=
  match process_options "--list-scenarios" scenario_names coordinator_usage coordinator_option default_CoordinatorOptions arguments with
  | inl exit => (world, exit)
  | inr options =>
      let '(world, started) := coordinator_start bind options world in
      match started with
      | inl exit => (world, exit)
      | inr ready =>
          let '(server, _) := stop_server (serving (ready_server ready)) in
          (impl_world (srv_impl server), mkExit 0 (ready_out ready ++ ["coordinator-stopped"%string]))
      end
  end.

End CoordinatorProcess.

(** ** The worker process *)

(** [print_usage] of ef_worker.cpp. *)
Definition worker_usage : list string :=
  ["ef_worker " +:+ version_string;
   "  --host <address>          coordinator address (default 127.0.0.1)";
   "  --port <n>                coordinator control-plane port";
   "  --worker <n>              logical worker identity";
   "  --workload <name>         reference workload name";
   "  --claims <n>              maximum concurrent assignments (default 1)";
   "  --cycles <n>              number of claim cycles before exiting (0 = until idle)";
   "  --frame-log <path>        record every frame this process sends";
   "  --fingerprint <text>      producer fingerprint recorded at registration";
   "  --die-after-publish <n>   terminate the process without cleanup after n published observations";
   "  --list-workloads          print the built-in workload names and exit"]%string.

Record WorkerOptions := mkWorkerOptions {
  wopt_host : string;
  wopt_workload : string;
  wopt_fingerprint : string;
  wopt_frame_log : string;
  wopt_port : Z;
  wopt_worker : Z;
  wopt_claims : Z;
  wopt_cycles : Z;
  wopt_die_after_publish : Z
}.
#[export] Instance etaWorkerOptions : Eta WorkerOptions := fun r =>
  mkWorkerOptions (wopt_host r) (wopt_workload r) (wopt_fingerprint r) (wopt_frame_log r) (wopt_port r) (wopt_worker r)
    (wopt_claims r) (wopt_cycles r) (wopt_die_after_publish r).
Definition default_WorkerOptions : WorkerOptions := mkWorkerOptions "127.0.0.1" "parameter" "reference-worker" "" 0 1 1 1 0.

Definition worker_option `{Platform} (name : string) : option (string -> WorkerOptions -> option WorkerOptions) :=
  if String.eqb name "--host" then Some (fun value options => Some (options <| wopt_host := value |>))
  else if String.eqb name "--workload" then Some (fun value options => Some (options <| wopt_workload := value |>))
  else if String.eqb name "--fingerprint" then Some (fun value options => Some (options <| wopt_fingerprint := value |>))
  else if String.eqb name "--frame-log" then Some (fun value options => Some (options <| wopt_frame_log := value |>))
  else if String.eqb name "--port" then Some (fun value options => n ← stoul value; Some (options <| wopt_port := n mod 65536 |>))
  else if String.eqb name "--worker" then Some (fun value options => n ← stoull value; Some (options <| wopt_worker := n |>))
  else if String.eqb name "--claims" then Some (fun value options => n ← stoul value; Some (options <| wopt_claims := u32 n |>))
  else if String.eqb name "--cycles" then Some (fun value options => n ← stoull value; Some (options <| wopt_cycles := n |>))
  else if String.eqb name "--die-after-publish" then
    Some (fun value options => n ← stoull value; Some (options <| wopt_die_after_publish := n |>))
  else None.

Definition worker_config (options : WorkerOptions) : WorkerConfig :=
  mkWorkerConfig (wopt_worker options) None (wopt_host options +:+ ":" +:+ unsigned_to_string (wopt_port options))%string
    (wopt_fingerprint options) default_Limits (wopt_claims options) (negb (str_empty (wopt_frame_log options)))
    (negb (wopt_die_after_publish options =? 0)).

Section WorkerProcess.
Context {L : Type} `{Link L} `{Formatting} `{Platform}.
Implicit Types worker : Worker L.

(** The first call of the progress hook that ends the process, as the number of
    observations it is told. *)
Definition fatal_progress (threshold : Z) worker : option Z :=
  match List.find (fun call => threshold <=? call.1) (wrk_progress worker) with
  | Some call => Some call.1
  | None => None
  end.

(** How the process ends: by returning from [main] with the worker as it is, or
    in the hook, by [std::_Exit], in the middle of a cycle. *)
Inductive Ending :=
| Returned (worker : option (Worker L)) (exit : Exit)
| Killed (exit : Exit).

Definition print_before (lines : list string) (ending : Ending) : Ending :=
  match ending with
  | Returned worker exit => Returned worker (mkExit (exit_code exit) (lines ++ exit_out exit))
  | Killed exit => Killed (mkExit (exit_code exit) (lines ++ exit_out exit))
  end.

Definition finished worker : Ending :=
  Returned (Some worker)
    (mkExit 0 ["worker-finished published=" +:+ unsigned_to_string (wrk_published worker)
                 +:+ " failed=" +:+ unsigned_to_string (wrk_failed worker)
                 +:+ " boot=" +:+ id_to_string (wrk_boot worker)]%string).

(** The [while (true)] loop; [None] when the fuel ends first.  The hook is
    installed with a threshold other than 0 only. *)
Fixpoint cycle_loop (fuel : nat) (task : TaskFunction) (threshold cycles completed : Z) worker : option Ending :=
  match fuel with
  | O => None
  | S fuel =>
      let '(worker, status) := run_once task worker in
      match fatal_progress threshold worker with
      | Some observations =>
          Some (Killed (mkExit 9 ["worker-terminating-after-publish " +:+ unsigned_to_string observations]%string))
      | None =>
          if negb (status_ok status) then
            if bool_decide (status_code status = ErrorCode.NOT_FOUND) then Some (finished worker)
            else Some (Returned (Some worker) (mkExit 5 []))
          else
            let completed := u64 (completed + 1) in
            if negb (cycles =? 0) && (cycles <=? completed) then Some (finished worker)
            else cycle_loop fuel task threshold cycles completed worker
      end
  end.

(** [main]: [minted] is the boot identity drawn at start, [log_opens] whether
    the frame log can be written, [dial] connects. *)
Definition worker_main (fuel : nat) (minted : Z) (log_opens : string -> bool) (dial : string -> Z -> option L)
    (arguments : list string) : option Ending :=
  match process_options "--list-workloads" workload_names worker_usage worker_option default_WorkerOptions arguments with
  | inl exit => Some (Returned None exit)
  | inr options =>
      match create_worker (worker_config options) minted (log_opens (wopt_frame_log options))
              (dial (wopt_host options) (wopt_port options)) with
      | Err _ => Some (Returned None (mkExit 3 []))
      | Ok worker =>
          let '(worker, registered) := connect_and_register worker in
          if negb (status_ok registered) then Some (Returned (Some worker) (mkExit 4 []))
          else
            print_before
              ["worker-registered worker=" +:+ unsigned_to_string (wopt_worker options)
                 +:+ " boot=" +:+ id_to_string (wrk_boot worker)
                 +:+ " epoch=" +:+ id_to_string (wrk_epoch worker)
                 +:+ " producer=" +:+ id_to_string (wrk_producer worker)]%string
              <$> cycle_loop fuel (run_workload (wopt_workload options)) (wopt_die_after_publish options) (wopt_cycles options) 0 worker
      end
  end.

End WorkerProcess.
Arguments Ending : clear implicits.

(** ** The coordinator that gets ready is a reachable one *)

Section CoordinatorLife.
Context `{StorageLaws} `{Formatting} `{Platform}.
Implicit Types (impl : Impl) (server : Server).

(** A call allocates at most one trial identity. *)
Lemma create_trial_mark experiment branch payload impl :
  0 <= trial_mark impl < u64_max ->
  trial_mark impl <= trial_mark (create_trial experiment branch payload impl).1 <= trial_mark impl + 1.
Proof.
  intros Hmark. assert (Hinc : increment (trial_mark impl) = trial_mark impl + 1) by (apply u64_succ_small; lia).
  unfold create_trial, next_sequence, alloc_trial_id. simpl. fold (trial_mark impl). repeat case_match; simplify_eq; simpl; try lia;
    try (unfold trial_mark in *; simpl in *; lia);
    match goal with Hp : persist_locked _ = _ |- _ => apply persist_state in Hp as (? & ? & -> & _) end;
    try (match goal with |- context [notify_event ?e ?x] => destruct (notify_event_state e x) as [? ->] end);
    unfold trial_mark in *; simpl in *; lia.
Qed.

Lemma create_branch_trials_runs experiment branch payload count impl :
  0 <= trial_mark impl -> trial_mark impl + Z.of_nat count <= u64_max ->
  let impl' := (create_branch_trials experiment branch payload count impl).1 in
  runs impl impl' /\ trial_mark impl <= trial_mark impl' <= trial_mark impl + Z.of_nat count.
Proof.
  revert impl. induction count as [|count IH]; intros impl Hpos Hroom; cbn [create_branch_trials]; [by split; [constructor|simpl; lia]|].
  pose proof (create_trial_mark experiment branch payload impl ltac:(lia)) as Hmark.
  assert (Hone : runs impl (create_trial experiment branch payload impl).1).
  { apply (runs_op _ (OpCreateTrial experiment branch payload)); [simpl; lia|]. constructor. }
  destruct (create_trial _ _ _ impl) as [impl1 [id|s]]; cbn [fst] in *; [|split; [done|lia]].
  destruct (IH impl1) as [Hruns Hm]; [lia|lia|]. split; [by eapply runs_trans|]. cbv zeta in *. lia.
Qed.

Lemma create_branches_trials_runs experiment payload branches impl :
  0 <= trial_mark impl -> trial_mark impl + planned_total branches <= u64_max ->
  runs impl (create_branches_trials experiment payload branches impl).1.
Proof.
  revert impl. induction branches as [|b branches IH]; intros impl Hpos Hroom; cbn [create_branches_trials]; [constructor|].
  cbn [planned_total foldr] in Hroom. fold (planned_total branches) in Hroom. pose proof (planned_total_nonneg branches).
  destruct (negb _); [apply IH; lia|].
  destruct (create_branch_trials_runs experiment (branch_id b) payload (Z.to_nat (branch_planned_trials b)) impl) as [Hone Hmark]; [lia|lia|].
  destruct (create_branch_trials _ _ _ _ impl) as [impl1 created]. cbn [fst] in *. destruct (negb (status_ok created)); [done|].
  eapply runs_trans; [exact Hone|]. apply IH; lia.
Qed.

(** What is created has passed the validator, and has used no trial identity. *)
Lemma create_experiment_validated spec impl impl' id :
  create_experiment spec impl = (impl', Ok id) ->
  exists r, find_experiment id impl' = Some r /\ record_wf (impl_limits impl) r id /\ rec_trials r = [] /\ trial_mark impl' = trial_mark impl.
Proof.
  unfold create_experiment. destruct (negb _); [done|]. destruct (negb _); [done|]. destruct (_ <=? _); [done|].
  unfold alloc_experiment_id, next_sequence, alloc_hypothesis_id. simpl. destruct (om_mem _ _) eqn:Hfresh; [done|].
  destruct (build_metrics _ _) as [metric_mark metrics]. destruct (match spec_expected_metric spec with Some _ => _ | None => _ end); [|done].
  destruct (build_branches _ _ _ _) as [branch_mark [branches|]]; [|done]. simpl.
  destruct (find_experiment _ _) as [r|] eqn:Hr; [|done]. destruct (status_ok (validate_experiment_record _ _ _)) eqn:Hv; [|done].
  simpl. destruct (persist_locked _) as [impl1 persisted] eqn:Hp. apply persist_state in Hp as (d & w & -> & _).
  destruct (negb _); [done|]. match goal with |- context [notify_event ?e ?x] => destruct (notify_event_state e x) as [n ->] end.
  intros [= <- <-]. exists r. split; [done|]. split; [by apply validate_record_wf|]. split; [|done].
  unfold find_experiment in Hr. simpl in Hr. rewrite om_find_emplace, decide_True in Hr by done. unfold om_mem in Hfresh.
  destruct (om_find _ (st_experiments (impl_state impl))); [done|]. by injection Hr as <-.
Qed.

(** Under the default bounds an experiment plans at most 2^20 trials. *)
Lemma planned_total_bounded branches bound :
  0 <= bound -> Forall (fun b => branch_planned_trials b <= bound) branches -> planned_total branches <= size_of branches * bound.
Proof. intros Hb. induction 1 as [|b branches Hone _ IH]; simpl; [done|]. rewrite size_of_cons, Z.mul_add_distr_r, Z.mul_1_l. lia. Qed.

Lemma planned_total_default r id : record_wf default_Limits r id -> planned_total (def_branches (rec_definition r)) <= 2 ^ 20.
Proof.
  intros Hwf. pose proof (wf_branch_count _ _ _ Hwf) as [_ Hcount].
  etransitivity; [apply (planned_total_bounded _ (max_trials_per_branch default_Limits))|].
  - done.
  - eapply Forall_impl; [exact (wf_branch_parameters _ _ _ Hwf)|]. by intros b (_ & _ & ?).
  - change (max_branches_per_experiment default_Limits) with 256 in Hcount. change (max_trials_per_branch default_Limits) with 4096. lia.
Qed.

Definition trials_left impl : Prop := 0 <= trial_mark impl /\ trial_mark impl + 2 ^ 20 <= u64_max.

Lemma prepare_scenario_runs options impl :
  impl_limits impl = default_Limits -> trials_left impl -> runs impl (prepare_scenario options impl).1.
Proof.
  intros Hlim [Hpos Hleft]. unfold prepare_scenario. destruct (str_empty _); [constructor|]. destruct (build_scenario _) as [spec|]; [|constructor].
  assert (Hone : runs impl (create_experiment spec impl).1) by (apply (runs_op _ (OpCreateExperiment spec)); [done|constructor]).
  destruct (create_experiment spec impl) as [impl1 [experiment|s]] eqn:Hc; [|done]. cbn [fst] in Hone.
  apply create_experiment_validated in Hc as (r & Hr & Hwf & _ & Hmark). rewrite Hlim in Hwf. apply planned_total_default in Hwf.
  destruct (copt_create_trials options); [|done].
  assert (Htrials : runs impl (create_planned_trials experiment "scenario-trial" impl1).1).
  { unfold create_planned_trials, snapshot. rewrite Hr. eapply runs_trans; [exact Hone|]. apply create_branches_trials_runs; [lia|].
    change (def_branches (xsnap_definition _)) with (def_branches (rec_definition r)). lia. }
  destruct (create_planned_trials _ _ impl1) as [impl2 status]. by destruct (negb (status_ok status)).
Qed.

(** The trials of a scenario are the planned ones, each exactly once and ready. *)
Definition filled experiment payload impl : Prop :=
  exists r, find_experiment experiment impl = Some r
    /\ (forall branch, current_trials r branch = planned_on (def_branches (rec_definition r)) branch)
    /\ forall k t, om_find k (rec_trials r) = Some t -> trial_state t = TrialState.READY /\ trial_payload t = payload.

Lemma create_planned_trials_result experiment payload impl :
  (create_planned_trials experiment payload impl).2 = success \/ status_ok (create_planned_trials experiment payload impl).2 = false.
Proof.
  unfold create_planned_trials, snapshot. destruct (find_experiment experiment impl) as [r|]; [|by right]. simpl.
  generalize (def_branches (rec_definition r)). intros branches. revert impl.
  induction branches as [|b branches IH]; intros impl; cbn [create_branches_trials]; [by left|].
  destruct (negb _); [apply IH|]. destruct (create_branch_trials _ _ _ _ impl) as [impl1 created].
  destruct (status_ok created) eqn:Hs; simpl; [apply IH|by right].
Qed.

Lemma prepare_scenario_fills options impl impl' experiment :
  reachable (Up impl) -> impl_limits impl = default_Limits -> trials_left impl ->
  prepare_scenario options impl = (impl', inr experiment) ->
  str_empty (copt_scenario options) = false -> copt_create_trials options = true ->
  filled experiment "scenario-trial" impl'.
Proof.
  intros Hreach Hlim [Hpos Hleft] Hprep Hname Htrials. revert Hprep. unfold prepare_scenario. rewrite Hname, Htrials.
  destruct (build_scenario _) as [spec|]; [|done].
  assert (Hone : reachable (Up (create_experiment spec impl).1)).
  { eapply reachable_step; [exact Hreach|]. by apply (step_op (OpCreateExperiment spec)). }
  destruct (create_experiment spec impl) as [impl1 [id|s]] eqn:Hc; [|done]. cbn [fst] in Hone.
  apply create_experiment_validated in Hc as (r & Hr & Hwf & Hnone & Hmark). rewrite Hlim in Hwf.
  pose proof (planned_total_default _ _ Hwf) as Htotal.
  pose proof (create_planned_trials_result id "scenario-trial" impl1) as Hresult.
  destruct (create_planned_trials id "scenario-trial" impl1) as [impl2 status] eqn:Hplan. cbn [snd] in Hresult.
  destruct Hresult as [->|Hbad]; [|by rewrite Hbad]. intros [= <- <-].
  unfold create_planned_trials, snapshot in Hplan. rewrite Hr in Hplan.
  destruct (create_branches_trials_planned id "scenario-trial" (def_branches (rec_definition r)) impl1 impl2 r) as (r' & Hp & _);
    [done|apply Hwf|lia|done|exact Hplan|].
  exists r'. split; [by eapply pl_after|]. split.
  - intros branch. rewrite (pl_count _ _ _ _ _ _ _ Hp), (pl_definition _ _ _ _ _ _ _ Hp). unfold current_trials. by rewrite Hnone.
  - intros k t Ht. destruct (pl_new _ _ _ _ _ _ _ Hp k t Ht) as [Hold|]; [|done]. by rewrite Hnone in Hold.
Qed.

Lemma step_crashed impl : reachable (Up impl) -> reachable (Down (impl_world impl)).
Proof. intros Hr. eapply reachable_step; [exact Hr|apply step_crash]. Qed.

(** Stopping is a last run; the observer is told afterwards. *)
Lemma stop_server_world server :
  exists impl, runs (srv_impl server) impl /\ impl_world (srv_impl (stop_server server).1) = impl_world impl.
Proof.
  unfold stop_server. destruct (negb (srv_active server)); [exists (srv_impl server); by split; [constructor|]|].
  exists (coordinator_save (set_admission false (srv_impl server))).1. split.
  { apply (runs_op _ (OpSetAdmission false)); [done|]. apply (runs_op _ OpSave); [done|]. constructor. }
  destruct (coordinator_save _) as [impl persisted]. destruct (status_ok persisted); [|done]. cbn [negb fst srv_impl].
  by destruct (notify_event_state "server-stopped" impl) as [n ->].
Qed.

(** What the process leaves behind before it waits: a refused start leaves a
    stored state that can be started again; otherwise the server is active and
    admits work, over a reachable coordinator, and a scenario stands ready with
    exactly its planned trials. *)
Definition well_started (options : CoordinatorOptions) (result : World * (Exit + Ready)) : Prop :=
  match result.2 with
  | inl _ => reachable (Down result.1)
  | inr ready =>
      let server := ready_server ready in
      result.1 = impl_world (srv_impl server) /\ reachable (Up (srv_impl server))
      /\ srv_active server = true /\ srv_shutdown_flagged server = false /\ impl_admitting_work (srv_impl server) = true
      /\ (str_empty (copt_scenario options) = false -> copt_create_trials options = true ->
          exists experiment, filled experiment "scenario-trial" (srv_impl server))
  end.

Lemma coordinator_start_well bind options world :
  reachable (Down world) ->
  (forall world' impl, create (coordinator_config options) world = (world', Ok impl) -> trial_mark impl + 2 ^ 20 <= u64_max) ->
  well_started options (coordinator_start bind options world).
Proof.
  intros Hreach Hleft. unfold coordinator_start. destruct (create (coordinator_config options) world) as [world1 [impl|s]] eqn:Hcreate.
  2: { eapply reachable_step; [exact Hreach|]. eapply step_start_refused, Hcreate. }
  assert (Hup : reachable (Up impl)) by (eapply reachable_step; [exact Hreach|]; eapply step_start, Hcreate).
  pose proof (reachable_inv _ Hreach) as Hworld. destruct (create_started _ _ _ _ Hworld Hcreate) as (s & w0 & _ & Hrec & _).
  assert (Hlim : impl_limits impl = default_Limits) by by rewrite (evo_limits _ _ (rcv_evolves _ _ Hrec)).
  assert (Htrials : trials_left impl).
  { split; [|by eapply Hleft]. pose proof (reachable_inv _ Hup) as Hinv. apply (inv_marks _ (inv_state _ Hinv)). }
  pose proof (prepare_scenario_runs options impl Hlim Htrials) as Hruns.
  pose proof (prepare_scenario_fills options impl) as Hfills.
  destruct (prepare_scenario options impl) as [impl1 [exit|experiment]]; cbn [fst] in Hruns.
  - by apply step_crashed, (reachable_runs impl).
  - pose proof (reachable_runs _ _ Hup Hruns) as Hup1. destruct (bind _ _ _) as [started port]. unfold start_server. cbn [srv_active].
    destruct (status_ok started) eqn:Hstarted; cbn [negb]; cbv zeta beta iota; [|rewrite Hstarted; by apply step_crashed].
    change (status_ok success) with true. cbn [negb]. unfold well_started. cbn [fst snd ready_server].
    split_and!; try done.
    + eapply reachable_step; [exact Hup1|]. by apply (step_op (OpSetAdmission true)).
    + intros Hname Hplanned. exists experiment. exact (Hfills impl1 experiment Hup Hlim Htrials eq_refl Hname Hplanned).
Qed.

(** C7: a coordinator process takes a stored state that is reachable to one that
    is reachable, whatever its command line, whether it starts or not, and
    whatever the connections do while it waits as long as they use the
    coordinator's operations: so a process started over what it leaves begins
    where every invariant holds, and every fence between epochs stands.  The
    server it waits on is active, admits work, and holds the planned trials of
    its scenario, each exactly once. *)
Theorem coordinator_main_restartable bind serving arguments world :
  reachable (Down world) ->
  (forall config world' impl, create config world = (world', Ok impl) -> trial_mark impl + 2 ^ 20 <= u64_max) ->
  (forall server, runs (srv_impl server) (srv_impl (serving server))) ->
  reachable (Down (coordinator_main bind serving arguments world).1)
  /\ forall options, well_started options (coordinator_start bind options world).
Proof.
  intros Hreach Hleft Hserving.
  assert (Hwell : forall options, well_started options (coordinator_start bind options world)).
  { intros options. by apply coordinator_start_well; [|apply Hleft]. }
  split; [|exact Hwell]. unfold coordinator_main. destruct (process_options _ _ _ _ _ arguments) as [exit|options]; [done|].
  specialize (Hwell options). destruct (coordinator_start bind options world) as [world1 [exit|ready]]; [exact Hwell|].
  destruct Hwell as (_ & Hup & _). cbn [fst snd] in *.
  destruct (stop_server_world (serving (ready_server ready))) as (impl & Hruns & Hw).
  destruct (stop_server _) as [server status]. cbn [fst] in *. rewrite Hw. apply step_crashed.
  eapply reachable_runs; [exact Hup|]. eapply runs_trans; [apply Hserving|exact Hruns].
Qed.

End CoordinatorLife.

(** ** The worker process ends *)

Section WorkerLife.
Context `{Storage} `{Formatting} `{Platform}.

Lemma cycle_loop_ends trials task threshold cycles completed fuel (worker : Worker Channel) server :
  (forall assignment context, outcome_bytes (task assignment context)) ->
  quiet (wrk_client worker) server -> counted trials (srv_impl server) ->
  left_of trials (srv_impl server) < Z.of_nat fuel ->
  is_Some (cycle_loop fuel task threshold cycles completed worker).
Proof.
  intros Htask. revert completed worker server. induction fuel as [|fuel IH]; intros completed worker server Hq Hc Hleft.
  { pose proof (left_of_nonneg trials (srv_impl server)). lia. }
  cbn [cycle_loop]. destruct (run_once_progress trials task worker server Htask Hq Hc) as (server' & n & Hq' & [Hc' Hl'] & Hn).
  destruct (run_once task worker) as [worker' status]. cbn [fst snd] in *. destruct (fatal_progress threshold worker'); [by eexists|].
  destruct (status_ok status) eqn:Hok; cbn [negb]; [|destruct (bool_decide _); by eexists].
  destruct (_ && _); [by eexists|]. apply (IH _ worker' server'); [done|done|]. specialize (Hn eq_refl). lia.
Qed.

Lemma run_workload_bytes name assignment context : outcome_bytes (run_workload name assignment context).
Proof.
  unfold run_workload, outcome_bytes. repeat case_match; try apply Forall_nil_2.
Qed.

(** C27: a worker process that reaches a coordinator ends, also when it is told to
    go on until there is nothing left to claim: whatever its command line, its
    workload, the failures it reports and the retries they cause, the loop is
    over after at most as many cycles as the trials of the coordinator may
    still be attempted, and one more. *)
Theorem worker_main_ends fuel minted log_opens dial arguments server :
  impl_limits (srv_impl server) = default_Limits ->
  (forall id r, find_experiment id (srv_impl server) = Some r -> def_max_attempts_per_trial (rec_definition r) < u32_modulus) ->
  (forall host port channel, dial host port = Some channel -> channel = mkChannel server []) ->
  attempts_left (srv_impl server) < Z.of_nat fuel ->
  is_Some (worker_main fuel minted log_opens dial arguments).
Proof.
  intros Hlim Hmost Hdial Hfuel. unfold worker_main.
  destruct (process_options _ _ _ _ _ arguments) as [exit|options]; [by eexists|].
  destruct (create_worker _ minted _ _) as [worker|s] eqn:Hcreate; [|by eexists].
  assert (Hq : quiet (wrk_client worker) server).
  { revert Hcreate. unfold create_worker. destruct (negb _); [done|]. destruct (negb _); [done|]. destruct (_ && _); [done|].
    destruct (dial _ _) as [channel|] eqn:Hd; [|done]. apply Hdial in Hd as ->. cbn [connect]. intros [= <-]. by split. }
  destruct (connect_and_register_moved worker server Hq) as (server' & Hq' & Hu).
  destruct (connect_and_register worker) as [worker' registered]. cbn [fst] in Hq'. destruct (negb (status_ok registered)); [by eexists|].
  pose proof (unspent_spends _ _ _ (trial_keys_counted _ Hmost) Hu) as [Hc Hl].
  destruct (cycle_loop_ends (trial_keys (srv_impl server)) (run_workload (wopt_workload options)) (wopt_die_after_publish options)
    (wopt_cycles options) 0 fuel worker' server') as [ending ->]; [apply run_workload_bytes|done|done|unfold attempts_left in *; lia|].
  by eexists.
Qed.

End WorkerLife.

(** ** A lost connection *)

Section Lost.
Context `{Formatting}.
Implicit Types (worker : Worker Connection).

(** A request over a connection the peer has closed is answered with the same
    error code as a claim that finds nothing to do. *)
Lemma claim_lost worker connection :
  cli_limits (wrk_client worker) = default_Limits -> cli_link (wrk_client worker) = Some connection ->
  conn_open connection = true -> conn_arrivals connection = [] -> accepting connection ->
  exists client, client_claim_trials (claim_request worker) (wrk_client worker) =
    (client, Err (transport_error ErrorCode.NOT_FOUND "peer closed the connection")).
Proof.
  intros Hl Hlink Ho Harr Hacc. unfold client_claim_trials, request. rewrite Hlink. cbn [next_correlation].
  set (correlation := u64 (cli_correlation (wrk_client worker) + 1)). change (cli_limits (_ <| cli_correlation := correlation |>)) with (cli_limits (wrk_client worker)).
  rewrite Hl. destruct (encodable_reply default_Limits ltac:(done) correlation MessageType.CLAIM_TRIAL (encode_claim_trial (claim_request worker)))
    as [bytes He]; [done|done|]. rewrite He. cbn [link_send link_receive connection_link].
  destruct (send_frame_accepting (mkFrame kProtocolVersion MessageType.CLAIM_TRIAL correlation (encode_claim_trial (claim_request worker)))
    default_Limits connection bytes Ho Hacc He) as (c1 & Hsend & Ho1 & _ & Ha1 & _).
  unfold send_frame in Hsend. rewrite He in Hsend. rewrite Hsend. change (status_ok success) with true. cbn [negb].
  unfold receive_frame, receive_exact. rewrite Ho1, Ha1, Harr. cbn [negb]. change (Z.to_nat kFrameHeaderBytes) with 32%nat.
  cbn [receive_loop expect]. by eexists.
Qed.

(** C35: a worker whose coordinator has closed the connection, by stopping or by
    restarting, takes it for an idle one: the process ends with the exit code
    of success and reports its trials finished, and [run_until_idle] returns
    success, without the registration a restarted coordinator asks for. *)
Theorem lost_connection_reads_as_idle task worker connection threshold cycles completed fuel :
  cli_limits (wrk_client worker) = default_Limits -> cli_link (wrk_client worker) = Some connection ->
  conn_open connection = true -> conn_arrivals connection = [] -> accepting connection ->
  wrk_progress worker = [] -> id_valid (wrk_epoch worker) = true ->
  exists worker', cycle_loop (S fuel) task threshold cycles completed worker = Some (finished worker')
    /\ wrk_published worker' = wrk_published worker /\ wrk_failed worker' = wrk_failed worker
    /\ run_until_idle task (fun _ => false) (S fuel) worker = (worker', Some success).
Proof.
  intros Hl Hlink Ho Harr Hacc Hprogress Hepoch. destruct (claim_lost worker connection Hl Hlink Ho Harr Hacc) as [client Hclaim].
  cbn [cycle_loop run_until_idle]. rewrite Hepoch. cbn [negb]. change (status_ok success) with true. cbn [negb].
  unfold run_once. rewrite Hclaim. unfold fatal_progress, note_error. 
  change (wrk_progress (_ <| wrk_last_error := _ |>)) with (wrk_progress worker). rewrite Hprogress. cbn [List.find].
  eexists. split; [reflexivity|]. done.
Qed.
End Lost.

(** ** The processes together *)

Module Processes.

#[local] Existing Instance Catalogue.decimal_formatting.
#[local] Existing Instance Catalogue.lp64.

(** The port asked for, or an ephemeral one. *)
Definition bound : string -> Z -> Z -> Status * Z := fun _ port _ => (success, if port =? 0 then 40001 else port).
Definition dial (server : Server) (host : string) (port : Z) : option Channel := if port =? 7070 then Some (mkChannel server []) else None.

(** A coordinator started on a scenario waits; a worker works until idle, and
    the operator asks for the decision: what the two of them print. *)
Definition life (scenario workload : string) : list string * list string :=
  match process_options "--list-scenarios" scenario_names coordinator_usage coordinator_option default_CoordinatorOptions
          ["--scenario"; scenario; "--port"; "7070"]%string with
  | inl _ => ([], [])
  | inr options =>
      match (coordinator_start bound options Run.empty_world).2 with
      | inl _ => ([], [])
      | inr ready =>
          match worker_main 20 70 (fun _ => true) (dial (ready_server ready))
                  ["--port"; "7070"; "--workload"; workload; "--cycles"; "0"]%string with
          | Some (Returned (Some worker) exit) =>
              match cli_link (wrk_client worker) with
              | None => ([], [])
              | Some channel =>
                  (exit_out exit,
                   exit_out (ctl_main (fun _ => None) (dial (chan_server channel)) ["--port"; "7070"; "finalize"; "1"; "2"]%string).2)
              end
          | _ => ([], [])
          end
      end
  end.

(** The worker's last line and the outcome. *)
Definition summary (scenario workload : string) : string * string :=
  let '(worked, decided) := life scenario workload in (nth 1 worked "", nth 5 decided "")%string.

(** Creating a coordinator over an empty world has used no identity. *)
Lemma fresh_marks config world' impl : create config Run.empty_world = (world', Ok impl) -> trial_mark impl + 2 ^ 20 <= u64_max.
Proof.
  unfold create. destruct (negb _); [done|]. cbn [discard_temporary_images image_exists memory_storage].
  destruct (str_empty (config_state_path config)); cbn; intros [= _ <-]; vm_compute; discriminate.
Qed.

Lemma fresh_world : reachable (Down Run.empty_world).
Proof. by apply reachable_empty. Qed.

(** Shutting down at once: the shortest thing the connections can do. *)
Definition arguments : list string := ["--scenario"; "latency"; "--port-file"; "port.txt"]%string.
Lemma shutdown_runs (server : Server) : runs (srv_impl server) (srv_impl (request_shutdown server)).
Proof. apply (runs_op _ (OpSetAdmission false)); [done|constructor]. Qed.

Example lines : (coordinator_main bound request_shutdown arguments Run.empty_world).2 =
  mkExit 0 ["coordinator-ready epoch=1 port=40001 experiment=1"; "coordinator-stopped"]%string.
Proof. by_evaluation. Qed.
Example refusals :
  map (fun arguments => exit_code (coordinator_main bound request_shutdown arguments Run.empty_world).2)
    [["--help"]; ["--scenario"; "unknown"]; ["--port"]; ["--trials"; "yes"]; ["--serve"]]%string = [0; 2; 2; 4; 2].
Proof. by_evaluation. Qed.

(** A worker told to die after its first publication. *)
Example killed :
  match worker_main 20 70 (fun _ => true) (dial Controlled.server) ["--port"; "7070"; "--die-after-publish"; "1"]%string with
  | Some (Killed exit) => Some exit
  | _ => None
  end = Some (mkExit 9 ["worker-registered worker=1 boot=70 epoch=1 producer=2"; "worker-terminating-after-publish 1"]%string).
Proof. by_evaluation. Qed.

(** A worker whose coordinator has gone. *)
Definition orphan : Worker Connection :=
  mkWorker Working.config (mkClient default_Limits (Some (mkConnection true [] [] [])) 3 []) 70 1 1 2 0 "" 2 [].

(** The experiments of the catalogue with a workload that suits them. *)
Definition catalogue : list (string * string) :=
  [("latency", "parameter"); ("throughput-memory", "parameter"); ("forked-parameter", "parameter"); ("insufficient", "parameter");
   ("invalid-evidence", "parameter"); ("authority", "parameter"); ("retry", "fail-once")]%string.

End Processes.
#[local] Existing Instance Catalogue.decimal_formatting.
#[local] Existing Instance Catalogue.lp64.


Lemma coordinator_main_restartable_witness :
  reachable (Down (coordinator_main Processes.bound request_shutdown Processes.arguments Run.empty_world).1).
Proof.
  exact (proj1 (coordinator_main_restartable Processes.bound request_shutdown Processes.arguments Run.empty_world
    Processes.fresh_world Processes.fresh_marks Processes.shutdown_runs)).
Defined.

Lemma worker_main_ends_witness :
  is_Some (worker_main 5 70 (fun _ => true) (Processes.dial Controlled.server) ["--port"; "7070"; "--cycles"; "0"]%string).
Proof.
  assert (Hl : impl_limits (srv_impl Controlled.server) = default_Limits) by by_evaluation.
  assert (Hleft : (attempts_left (srv_impl Controlled.server) <? 5) = true) by by_evaluation.
  apply (worker_main_ends 5 70 (fun _ => true) (Processes.dial Controlled.server) ["--port"; "7070"; "--cycles"; "0"]%string
    Controlled.server Hl).
  - intros id r Hr. apply om_find_elem in Hr.
    assert (Hall : forallb (fun entry => def_max_attempts_per_trial (rec_definition entry.2) <? u32_modulus)
      (st_experiments (impl_state (srv_impl Controlled.server))) = true) by by_evaluation.
    rewrite forallb_forall in Hall. apply Z.ltb_lt. exact (Hall (id, r) (proj1 (list_elem_of_In _ _) Hr)).
  - intros host port channel. unfold Processes.dial. destruct (port =? 7070); [|discriminate]. by intros [= <-].
  - apply Z.ltb_lt. exact Hleft.
Defined.

Lemma lost_connection_reads_as_idle_witness :
  exists worker', cycle_loop 1 Working.task 0 0 0 Processes.orphan = Some (finished worker') /\ wrk_published worker' = 2.
Proof.
  destruct (lost_connection_reads_as_idle Working.task Processes.orphan (mkConnection true [] [] []) 0 0 0 0)
    as (worker' & Hloop & Hp & _); try reflexivity.
  - apply not_elem_of_nil.
  - exists worker'. split; [exact Hloop|exact Hp].
Defined.
